(* ===== verification/_CoqProject ===== *)
-Q . S2P
Prelude.v
GoStrings.v
GoNum.v
GoFloat.v
FloatTheory.v
GoPath.v
GoMux.v
GoEncoding.v
GoFlag.v
Config.v
Message.v
Parser.v
Serializer.v
Codec.v
Regex.v
Sanitizer.v
Events.v
Pacing.v
IrcClient.v
Client.v
State.v
Dependencies.v
TaskBoard.v
Handoff.v
Review.v
Consensus.v
Workflow.v
Discovery.v
Context.v
ACL.v
Role.v
Inspector.v
Coordinator.v
Metrics.v
Health.v
Notifier.v
Dispatcher.v
DispatcherTheory.v
Replica.v
Agent.v
Convergence.v
AgentTheory.v
Telemetry.v
Federation.v
Persistence.v
Spawner.v
Lifecycle.v
Conversations.v
Network.v
Team.v
MockServer.v
Instances.v
Cost.v
ManagerConfig.v
Hub.v
Registry.v
Manager.v
ManagerTheory.v
Server.v
Dashboard.v
Provision.v
Commands.v
