(* ===== verification/Prelude.v ===== *)
(** * A verification library for borg, agents that coordinate over IRC

    Borg's agents talk to each other by single-line texts on IRC channels.
    Every agent keeps its own copy of the coordination state (tasks and their
    dependencies, offers and claims, checkpoints and handoffs, reviews and
    gates, votes, shared contexts, capabilities) and updates it from the
    messages that it sends and reads. A manager watches the channels, starts and
    stops agents and shows all of it in a browser. This library models the agent
    runtime, the message protocol, the manager and the commands, function by
    function, and proves what they promise.

    ** The parts

    The protocol, [pkg/protocol/]:
    - [Message] the actions, the message record, [IsProtocolMessage]
      ([message.go], [errors.go]);
    - [Parser] [Parse] and the tokenizer ([parser.go]);
    - [Serializer] [Message.String] ([serializer.go]) and the lemmas on the
      tokens it writes; [Codec] the theorems on both;
    - [Sanitizer] [Sanitize] ([sanitizer.go]), on the patterns of [Regex].

    The stores of an agent, [internal/agent/]: [State] ([state.go]) with its
    theorems in [Dependencies]; [TaskBoard] ([taskboard.go]); [Handoff]
    ([handoff.go]); [Review] ([review.go]); [Consensus] ([consensus.go]);
    [Workflow] ([workflow.go]); [Discovery] ([discovery.go]); [Context]
    ([context_sharing.go]).

    The components around them: [ACL] ([acl.go], on [GoPath]); [Role]
    ([role.go]); [Inspector] ([inspector.go]); [Coordinator] ([coordinator.go]);
    [Metrics] ([metrics.go]); [Health] ([health.go]); [Notifier]
    ([notifier.go]); [Federation] ([federation.go]); [Persistence]
    ([persistence.go]); [Telemetry] ([tracing.go], [internal/otel/otel.go] and the
    instruments of [metrics.go]); [Dashboard] ([dashboard.go]).

    [Dispatcher] ([protocol.go]) is where the parts meet: one incoming text is
    tested, parsed and checked against the access rules; then it updates every
    store and may cause replies. [DispatcherTheory] has its theorems. [Agent]
    ([agent.go]) adds sending, the sending functions and the registered
    handlers; [AgentTheory] has its theorems. [Lifecycle] is how an agent is put
    together, started, announced and stopped; [Conversations] its subscriptions
    and notification rules, and questions with their answers. [Replica] defines
    when two stores hold the same, up to the times of their clocks and what an
    automatic acknowledgement records at its readers only, and shows that the
    operations respect that; [Convergence] shows that sending a message and reading it
    come to the same. [Network] has many agents with messages on their way between
    them, and the demonstration ([examples/multi-agent/main.go]) as a run of it;
    [Team] puts these together: agents that say things, read all that is said and
    answered, and arbitrate, keep agreeing. [MockServer] is the server of the demonstration and of the tests
    ([test/mock/irc_server.go]), with the proof that it delivers as [Network]
    assumes.

    The connection to IRC, [pkg/ircclient/]: [Events] the events, [Pacing] the
    backoff and the rate limiter ([backoff.go], [ratelimiter.go]), [IrcClient]
    the client ([connection.go]): the configuration of the connection, the tables
    of handlers, the channels and the reconnect loop, and [Client] the interface
    that the rest of the program uses ([client.go]), a class with its laws, of
    which the client is an instance. The connection itself is a third-party
    library: its constructor is an argument, and what the client asks of it is a
    list of commands.

    The configuration, [internal/config/], [pkg/ircclient/config.go]: [Config]
    ([Load] and its four layers), on [GoFlag].

    The manager, [internal/manager/], [internal/spawner/], [internal/cost/]:
    [ManagerConfig] ([config.go]), [Registry] ([registry.go]), [Hub] ([hub.go]),
    [Manager] ([manager.go] and the handlers of [server.go]) with its theorems in
    [ManagerTheory], [Server] (the routes, the pages, starting, polling and
    stopping); [Spawner] and [Instances] the command lines and the three kinds of
    spawners; [Cost] the cost store and the price tables.

    The commands, [cmd/]: [Commands] the agent's and the manager's, with the wait
    for a signal ([lifecycle.go]); [Provision] the one that creates accounts.

    [Prelude], [GoStrings], [GoNum], [GoFloat] with [FloatTheory], [GoPath],
    [GoMux], [GoEncoding] and [GoFlag] are the shared ground: clocks, map
    iteration, loops, and what the program uses of Go's [strings], [strconv],
    [path], [http.ServeMux], [base64] and [flag] and of [float64]. Both web
    servers, [Server] and [Dashboard], are tables of routes for [GoMux].

    ** How the code is read

    A struct is a record, a method is a function from the state before to the
    state after and the results; the methods lock a mutex for their whole body,
    so one call is one step. A Go map is a [gmap]; the order in which a [range]
    loop visits it is unspecified in Go and is an argument here ([MapRange]
    below), over which the theorems quantify. A call of [time.Now] is an
    argument, and so is every call site's clock where one operation reads it
    several times ([clk] in [Dispatcher]). A Go string is a string of bytes. An
    [int] is an integer with the wrap-around of 64 bits written out wherever
    the program does arithmetic on it; a [float64] is a [spec_float], correctly
    rounded, and what a conversion out of range gives is an argument
    ([FloatOverflow]). A timer started by [time.AfterFunc] is part of the state
    of the system and fires as a step of its own. What is sent is collected in
    an outbox, a list of (target, text). What works on files also lists every state
    that they go through, any of which a process that dies may leave
    ([Persistence.FS]). An operation that can panic returns an
    option, of which [None] is the panic.

    Loops that are not structural ([hasCycleLocked], [TransitiveDependencies],
    the tokenizer, the trimming functions) are built with [loop], which takes a
    measure that every iteration decreases; the fuel it starts with is the
    measure of the initial state plus one, and [loop_inv] reasons about the
    result with no condition on fuel. So these functions are total, and that
    the Go loops end is part of their definition. [Network.run_net] delivers
    until the network is quiet and has fuel, which [run_net_ends] shows to exist;
    the demonstration uses 100 deliveries in a round, more than it needs.

    What is not under [src/], or depends on Unicode's tables, is an argument
    of the definitions that use it: [strings.ToLower] and [strings.EqualFold] on
    arbitrary runes, the verbs [%q] and [%.1f], the JSON and YAML decoders and
    encoders, the files, the environment, the processes and shells behind the
    spawners, the answers of NickServ, the templates, and who is in a channel.
    [Persistence.Load_Save], [Commands.restart_resumes] and
    [Dashboard.polled_agent_is_known] assume of the decoders that they invert the
    encoders on the values at hand; [ManagerTheory] and [Server] assume of a
    spawner the contract [LawfulSpawner], which the three spawners are shown to
    keep.

    ** What is shown

    - The wire: a well-formed message survives serializing and parsing, what
      was parsed can be sent on, and the prefix test accepts what it should
      ([Codec]); no message with a recognizable credential in its fields or
      payload is sent ([Sanitizer]).
    - The dependency graph: the cycle check is exact and ends, every reachable
      store is acyclic and so always has a task that waits for nothing, a
      completion unblocks exactly the tasks that waited for it alone
      ([Dependencies]).
    - The stores: each keeps its contract over whole histories of operations
      (arbitration of claims, handoffs, escalation, votes, workflows that end,
      context replies, expiry).
    - The dispatcher: nothing gets in that does not parse or is not allowed,
      and the invariants of all the stores hold together.
    - The system: replicas converge, with the automatic answers and the timers of
      arbitration under way; a checkpoint arrives as it was sent; a
      question is answered and its answer understood; an agent never panics;
      every conversation in a network of agents comes to an end; federation goes
      exactly along its mappings and does not loop; saving is atomic whichever calls
      fail and whenever the process dies, and an agent that is stopped and started again
      resumes.
    - The client: callbacks go to exactly the live handlers, the set of channels
      is that of the confirmed joins, the reconnect loop gives up when it should,
      waits are bounded.
    - The configuration: each setting comes from the layer of the highest
      priority, and an agent that the manager spawns reads the settings that it
      was given.
    - The manager: its view is the agents' own, an agent that it started stays listed, it never panics and never sends
      on a closed channel, starting and stopping do what they say whatever the
      spawner, every request is routed as intended and answered, and only POSTs
      change anything; polls do not race.
    - The commands: what they print, send and end with, on every branch.
    - What watches and carries: a dashboard answers every request with the page of
      its path; the instruments of telemetry are what the counters are; the mock
      server's tables agree, it welcomes only a client that has itself sent the password of an account, and a
      channel message of an agent reaches the members once each and is dispatched by
      each of them as it was sent.

    Some theorems show where the code and its comments part ways, or where it
    does not do what it means to; each says so in its own comment:
    [Sanitize_ignores_tags], [instant_claims_last_wins], [reblock_is_ignored],
    [StorePayload_depends_on_order], [own_actions_not_saved],
    [auto_ack_splits_replicas], [session_acks_once], [gate_metrics_conflate],
    [extra_bool_flag], [zero_burst_blocks], [lost_channels_listed],
    [formatDuration_rounds_up], [ssh_channels_are_a_comment],
    [poll_interval_zero], [stopping_is_overridden], [loads_agree],
    [splitComma_newline], [bracketed_nick], [first_announcement_is_empty],
    [short_ttl_flaps], [dead_agent_stays_online], [greeting_is_the_reply],
    [account_password_splits], [private_answers_are_lost],
    [answered_stays_pending], [manager_main_spec], [otel_Setup_spec],
    [blanks_squeezed], [private_to_the_gone].

    ** What is not modelled

    Locks (a call is atomic), log lines, the exporters of telemetry, the listening
    sockets of the HTTP servers with their timeouts, the connections and the
    certificate of the mock server, the texts of the pages with their scripts, and
    the usage texts: they are I/O around the modelled functions, or constants. The
    plain accessors of [Agent] and [Manager], which return a field, have no
    definition of their own. The interleaving of two calls inside an agent is that
    of whole calls; of two clients inside the mock server, that of whole lines. *)

From Stdlib Require Export Ascii.
From stdpp Require Export base gmap strings list fin_maps sorting relations.

Create HintDb borg.

(** ** Time

    A [time.Time] is the number of nanoseconds since Go's zero time; the zero
    value of the type ([IsZero]) is 0. A [time.Duration] is a number of
    nanoseconds. *)
Abbreviation Time := Z (only parsing).
Abbreviation Duration := Z (only parsing).

Definition zero_time : Z := 0%Z.

Definition IsZero (t : Z) : bool := bool_decide (t = 0%Z).

(** ** Map iteration

    Go visits the entries of a map once each, in an order that it leaves
    unspecified and that may change from one [range] loop to the next. The
    order is an argument of every operation that iterates over a map: [range i
    m] is the order of the [i]-th loop of the operation. *)
Class MapRange := {
  range : ∀ {K} `{Countable K} {V}, nat → gmap K V → list (K * V);
  range_perm : ∀ {K} `{Countable K} {V} n (m : gmap K V),
    range n m ≡ₚ map_to_list m
}.

(** The order used by the concrete runs. *)
#[global, refine] Instance range_forward : MapRange := {
  range K _ _ V n m := map_to_list m
}.
Proof. done. Defined.

(** Another order, for the statements that compare two orders. *)
Definition range_backward : MapRange.
Proof.
  refine {| range K _ _ V n m := reverse (map_to_list m) |}.
  intros. apply reverse_Permutation.
Defined.

Section map_range.
Context `{MR : MapRange} {K : Type} `{Countable K} {V : Type}.
Implicit Types m : gmap K V.

Lemma elem_of_range n m k v : (k, v) ∈ range n m ↔ m !! k = Some v.
Proof. rewrite range_perm. apply elem_of_map_to_list. Qed.

Lemma elem_of_range_values n m v : v ∈ (range n m).*2 ↔ ∃ k, m !! k = Some v.
Proof.
  rewrite list_elem_of_fmap. split.
  - intros ([k v'] & -> & Hin%elem_of_range). by exists k.
  - intros [k Hk]. exists (k, v). by rewrite elem_of_range.
Qed.

Lemma NoDup_fst_range n m : NoDup (range n m).*1.
Proof. rewrite range_perm. apply NoDup_fst_map_to_list. Qed.

Lemma NoDup_range n m : NoDup (range n m).
Proof. rewrite range_perm. apply NoDup_map_to_list. Qed.

Lemma elem_of_range_fst n m k : k ∈ (range n m).*1 ↔ is_Some (m !! k).
Proof.
  rewrite list_elem_of_fmap. split.
  - intros ([k' v] & -> & Hin). apply elem_of_range in Hin. by eexists.
  - intros [v Hv]. exists (k, v). by rewrite elem_of_range.
Qed.

Lemma length_range n m : length (range n m) = size m.
Proof. rewrite range_perm. apply length_map_to_list. Qed.

Lemma range_empty n : range n (∅ : gmap K V) = [].
Proof. apply length_zero_iff_nil. by rewrite length_range. Qed.

Lemma range_singleton n k v : range n ({[k := v]} : gmap K V) = [(k, v)].
Proof.
  apply Permutation_singleton_r. rewrite range_perm. by rewrite map_to_list_singleton.
Qed.

Lemma range_list_to_map n m : list_to_map (range n m) = m.
Proof.
  rewrite <- (list_to_map_to_list m) at 2.
  apply list_to_map_proper; [apply NoDup_fst_range | apply range_perm].
Qed.

(** A loop that builds a map from the entries of another. *)
Lemma foldl_insert_range {W} (f : V → W) n m :
  foldl (λ acc kv, <[kv.1 := f kv.2]> acc) ∅ (range n m) = f <$> m.
Proof.
  rewrite <- (range_list_to_map n m) at 2. pose proof (NoDup_fst_range n m) as Hnd. revert Hnd.
  generalize (range n m) as l. intros l.
  enough (∀ acc : gmap K W, NoDup l.*1 →
    foldl (λ acc kv, <[kv.1 := f kv.2]> acc) acc l = (f <$> list_to_map l) ∪ acc) as Hfold.
  { intros Hnd. rewrite Hfold by done. apply map_union_empty. }
  induction l as [|[k v] l IH]; intros acc Hnd; cbn.
  - by rewrite fmap_empty, map_empty_union.
  - inversion Hnd as [|?? Hk Hnd']; subst. rewrite IH by done. cbn. rewrite fmap_insert.
    rewrite <- insert_union_r; [apply insert_union_l|].
    rewrite lookup_fmap. apply fmap_None. by apply not_elem_of_list_to_map.
Qed.
End map_range.

(** ** Loops

    A [for] loop is its body: a step function that gives either the next loop
    state or the result. [loop] runs it for as long as the measure of the state
    allows and is total when every iteration decreases the measure, with no
    default result. *)
Section loop.
Context {St R : Type} (step : St → St + R) (mu : St → nat).

Fixpoint loop_fuel (fuel : nat) (s : St) : option R :=
  match fuel with
  | O => None
  | S fuel => match step s with
              | inl s' => loop_fuel fuel s'
              | inr r => Some r
              end
  end.

Definition decreasing : Prop := ∀ s s', step s = inl s' → mu s' < mu s.

Lemma loop_fuel_total (Hdec : decreasing) fuel s :
  mu s < fuel → is_Some (loop_fuel fuel s).
Proof.
  revert s. induction fuel as [|fuel IH]; intros s Hlt; [lia|]. simpl.
  destruct (step s) as [s'|r] eqn:E; [|by eexists].
  apply IH. specialize (Hdec _ _ E). lia.
Qed.

Lemma loop_fuel_mono fuel fuel' s r :
  loop_fuel fuel s = Some r → fuel ≤ fuel' → loop_fuel fuel' s = Some r.
Proof.
  revert fuel' s. induction fuel as [|fuel IH]; intros fuel' s Hl Hle; [done|].
  destruct fuel' as [|fuel']; [lia|]. simpl in *.
  destruct (step s); [|done]. apply IH; [done|lia].
Qed.

Definition loop (Hdec : decreasing) (s : St) : R :=
  match loop_fuel (S (mu s)) s as o return is_Some o → R with
  | Some r => λ _, r
  | None => λ H, False_rect R (is_Some_None H)
  end (loop_fuel_total Hdec (S (mu s)) s (Nat.lt_succ_diag_r (mu s))).

Lemma loop_eq Hdec s fuel r : loop_fuel fuel s = Some r → loop Hdec s = r.
Proof.
  intros Hr. unfold loop.
  generalize (loop_fuel_total Hdec (S (mu s)) s (Nat.lt_succ_diag_r (mu s))).
  destruct (loop_fuel (S (mu s)) s) as [r'|] eqn:E; [|by intros []]. intros _.
  destruct (decide (fuel ≤ S (mu s))) as [Hle|Hle].
  - eapply loop_fuel_mono in Hr; [|exact Hle]. congruence.
  - eapply (loop_fuel_mono _ fuel) in E; [congruence|lia].
Qed.

Lemma loop_unfold Hdec s :
  loop Hdec s = match step s with inl s' => loop Hdec s' | inr r => r end.
Proof.
  destruct (loop_fuel_total Hdec (S (mu s)) s) as [r Hr]; [lia|].
  rewrite (loop_eq Hdec _ _ _ Hr). simpl in Hr.
  destruct (step s) as [s'|r']; [|congruence]. by rewrite (loop_eq Hdec _ _ _ Hr).
Qed.

(** The rule of the loop invariant. *)
Lemma loop_inv Hdec (I : St → Prop) (Q : R → Prop) s :
  I s →
  (∀ s s', I s → step s = inl s' → I s') →
  (∀ s r, I s → step s = inr r → Q r) →
  Q (loop Hdec s).
Proof.
  intros Hs Hstep Hend.
  destruct (loop_fuel_total Hdec (S (mu s)) s) as [r Hr]; [lia|].
  rewrite (loop_eq Hdec _ _ _ Hr).
  remember (S (mu s)) as n eqn:Hn. clear Hn. revert s Hs Hr.
  induction n as [|n IH]; intros s0 Hs0; simpl; [done|].
  destruct (step s0) as [s'|r'] eqn:E.
  - intros Hr. eapply IH; [|exact Hr]. by eapply Hstep.
  - intros [= <-]. by eapply Hend.
Qed.
End loop.
Arguments loop {_ _ _ _} _ _ : assert.

(** ** Record update

    [r <| f := v |>] is the record [r] with field [f] replaced by [v]; the
    record type names its fields in an instance of [RecordEta]. A value whose
    type cannot be read off it is annotated. *)
Class RecordEta (R : Type) := record_eta : R → R.

Ltac record_set r f v :=
  lazymatch type of f with
  | ?R → ?F =>
      let inst := constr:(_ : RecordEta R) in
      let e := eval hnf in inst in
      match eval pattern f in e with
      | ?G f => let t := eval cbv beta in (G (λ _ : R, (v : F)) (r : R)) in exact t
      end
  end.

Notation "r <| f := v |>" := (ltac:(record_set uconstr:(r) f uconstr:(v)))
  (at level 12, left associativity, f constr at level 11, v constr at level 99,
   only parsing).

(** ** Values that count as absent *)

Definition nonempty (s : string) : option string := if bool_decide (s = "") then None else Some s.

Definition nonempty_list {B} (l : list B) : option (list B) :=
  match l with [] => None | _ => Some l end.

(** ** List lemmas *)

(** The number of elements that satisfy a test. *)
Definition count {A} (p : A → bool) (l : list A) : nat := length (List.filter p l).

Lemma count_cons {A} (p : A → bool) x l : count p (x :: l) = (if p x then 1 else 0) + count p l.
Proof. unfold count. cbn. by destruct (p x). Qed.

Lemma count_negb {A} (p : A → bool) l : count p l + count (λ x, negb (p x)) l = length l.
Proof.
  induction l as [|x l IH]; [done|]. rewrite !count_cons. cbn.
  destruct (p x); cbn; lia.
Qed.

Lemma count_Permutation {A} (p : A → bool) l l' : l ≡ₚ l' → count p l = count p l'.
Proof.
  induction 1 as [|x l l' _ IH|x y l|l1 l2 l3 _ IH1 _ IH2]; rewrite ?count_cons; lia.
Qed.

Lemma count_pos {A} (p : A → bool) l : 0 < count p l ↔ ∃ x, x ∈ l ∧ p x = true.
Proof.
  unfold count. split.
  - destruct (List.filter p l) as [|x r] eqn:E; [cbn; lia|]. intros _. exists x.
    assert (List.In x (List.filter p l)) as Hin by (rewrite E; by left).
    apply filter_In in Hin as [Hin Hp]. by rewrite list_elem_of_In.
  - intros (x & Hx & Hp). assert (List.In x (List.filter p l)) as Hin.
    { apply filter_In. by rewrite <- list_elem_of_In. }
    destruct (List.filter p l); [done|cbn; lia].
Qed.

Lemma elem_of_filter_bool {A} (p : A → bool) l x :
  x ∈ List.filter p l ↔ x ∈ l ∧ p x = true.
Proof. rewrite !list_elem_of_In. apply filter_In. Qed.

Lemma count_le_length {A} (p : A → bool) l : count p l ≤ length l.
Proof. unfold count. apply List.filter_length_le. Qed.

Lemma NoDup_fmap_filter {A B} (f : A → B) (p : A → bool) l :
  NoDup (f <$> l) → NoDup (f <$> List.filter p l).
Proof.
  induction l as [|x l IH]; [done|]. rewrite fmap_cons, NoDup_cons. intros [Hx Hl]. cbn.
  destruct (p x); [|by apply IH]. rewrite fmap_cons. constructor; [|by apply IH].
  intros (y & E & [Hy _]%elem_of_filter_bool)%list_elem_of_fmap. apply Hx.
  rewrite E. by apply list_elem_of_fmap_2.
Qed.

(** The sum of a list of integers. *)
Definition sumZ (l : list Z) : Z := foldr Z.add 0%Z l.

Lemma sumZ_cons x l : sumZ (x :: l) = (x + sumZ l)%Z.
Proof. done. Qed.

Lemma sumZ_app l l' : sumZ (l ++ l') = (sumZ l + sumZ l')%Z.
Proof. unfold sumZ. induction l as [|x l IH]; [done|]. cbn in *. lia. Qed.

Lemma sumZ_fmap_add {A} (f g : A → Z) l :
  sumZ ((λ x, f x + g x)%Z <$> l) = (sumZ (f <$> l) + sumZ (g <$> l))%Z.
Proof. unfold sumZ. induction l as [|x l IH]; [done|]. cbn in *. lia. Qed.

Lemma sumZ_zero {A} (f : A → Z) l : (∀ x, x ∈ l → f x = 0%Z) → sumZ (f <$> l) = 0%Z.
Proof.
  unfold sumZ. induction l as [|x l IH]; intros Hf; [done|]. cbn. rewrite IH by set_solver.
  rewrite Hf by set_solver. done.
Qed.

Lemma sumZ_length {A} (l : list A) : sumZ ((λ _, 1%Z) <$> l) = Z.of_nat (length l).
Proof. unfold sumZ. induction l as [|x l IH]; [done|]. cbn in *. lia. Qed.

(** A sum over the classes of a partition: every element is in the class of its
    key, and in no other. *)
Lemma sumZ_indicator {K} `{EqDecision K} (ks : list K) (k : K) (v : Z) :
  NoDup ks → k ∈ ks → sumZ ((λ k', if bool_decide (k = k') then v else 0%Z) <$> ks) = v.
Proof.
  unfold sumZ. induction 1 as [|k' ks Hk' Hnd IH]; [by intros ?%not_elem_of_nil|]. cbn.
  intros [->|Hin]%elem_of_cons.
  - rewrite bool_decide_eq_true_2 by done.
    pose proof (sumZ_zero (λ k'', if bool_decide (k' = k'') then v else 0%Z) ks) as Hz.
    unfold sumZ in Hz. rewrite Hz; [lia|]. intros k'' Hin.
    rewrite bool_decide_eq_false_2; [done|]. by intros ->.
  - rewrite IH by done. rewrite bool_decide_eq_false_2; [done|]. by intros ->.
Qed.

Lemma sumZ_partition {A K} `{EqDecision K} (key : A → K) (f : A → Z) (ks : list K) (l : list A) :
  NoDup ks → (∀ x, x ∈ l → key x ∈ ks) →
  sumZ ((λ k, sumZ (f <$> List.filter (λ x, bool_decide (key x = k)) l)) <$> ks) =
    sumZ (f <$> l).
Proof.
  intros Hnd. induction l as [|x l IH]; intros Hks.
  - by apply sumZ_zero.
  - rewrite fmap_cons. cbn [List.filter].
    transitivity (sumZ ((λ k, (if bool_decide (key x = k) then f x else 0%Z) +
      sumZ (f <$> List.filter (λ x, bool_decide (key x = k)) l))%Z <$> ks)).
    { f_equal. apply list_fmap_ext. intros i k _. by case_bool_decide. }
    rewrite sumZ_fmap_add, IH by set_solver. rewrite sumZ_indicator; [done|done|set_solver].
Qed.

(** ** Invariants of a step relation *)
Lemma rtc_invariant {A} (R : relation A) (I : A → Prop) x y :
  (∀ x y, I x → R x y → I y) → I x → rtc R x y → I y.
Proof. intros Hstep Hx Hxy. revert Hx. induction Hxy; eauto. Qed.

(** ** The last element that satisfies a test

    A loop from the end of a list that changes the first match and breaks. *)
Fixpoint update_last {A} (p : A → bool) (f : A → A) (l : list A) : list A :=
  match l with
  | [] => []
  | x :: l => if existsb p l then x :: update_last p f l
              else if p x then f x :: l else x :: l
  end.

Lemma existsb_false_elem {A} (p : A → bool) l :
  existsb p l = false ↔ ∀ x, x ∈ l → p x = false.
Proof.
  rewrite <- not_true_iff_false, existsb_exists. setoid_rewrite <- list_elem_of_In. split.
  - intros H x Hx. destruct (p x) eqn:E; [|done]. destruct H. by exists x.
  - intros H (x & Hx & E). by rewrite H in E.
Qed.

Lemma update_last_none {A} (p : A → bool) f l :
  (∀ x, x ∈ l → p x = false) → update_last p f l = l.
Proof.
  induction l as [|x l IH]; intros H; [done|]. cbn.
  rewrite (proj2 (existsb_false_elem p l)) by (intros y Hy; apply H; by right).
  by rewrite (H x) by left.
Qed.

Lemma update_last_found {A} (p : A → bool) f before x after :
  p x = true → (∀ y, y ∈ after → p y = false) →
  update_last p f (before ++ x :: after) = before ++ f x :: after.
Proof.
  intros Hx Ha. induction before as [|y before IH]; cbn.
  - rewrite (proj2 (existsb_false_elem p after)) by done. by rewrite Hx.
  - assert (existsb p (before ++ x :: after) = true) as ->; [|by rewrite IH].
    apply existsb_exists. exists x. split; [|done]. apply in_or_app. right. by left.
Qed.

Lemma last_match {A} (p : A → bool) l :
  (∀ x, x ∈ l → p x = false) ∨
  ∃ before x after, l = before ++ x :: after ∧ p x = true ∧ ∀ y, y ∈ after → p y = false.
Proof.
  induction l as [|x l [IH|(b & y & a & -> & Hy & Ha)]].
  - left. by intros x []%not_elem_of_nil.
  - destruct (p x) eqn:E.
    + right. exists [], x, l. by repeat split.
    + left. intros y [->|?]%elem_of_cons; auto.
  - right. exists (x :: b), y, a. by repeat split.
Qed.

Lemma length_update_last {A} (p : A → bool) f l : length (update_last p f l) = length l.
Proof.
  induction l as [|x l IH]; [done|]. cbn.
  destruct (existsb p l); cbn; [by rewrite IH|]. by destruct (p x).
Qed.

Lemma filter_none {A} (p : A → bool) l : (∀ x, x ∈ l → p x = false) → List.filter p l = [].
Proof.
  intros H. destruct (List.filter p l) as [|x r] eqn:E; [done|].
  assert (x ∈ List.filter p l) as [Hin Hx]%elem_of_filter_bool by (rewrite E; by left).
  by rewrite H in Hx.
Qed.

Lemma last_filter {A} (p : A → bool) before x after :
  p x = true → (∀ y, y ∈ after → p y = false) →
  last (List.filter p (before ++ x :: after)) = Some x.
Proof.
  intros Hx Ha. rewrite List.filter_app. cbn. by rewrite Hx, (filter_none p after), last_snoc.
Qed.
