(* ===== verification/GoStrings.v ===== *)
(** * Go's [strings] package, as far as the program uses it

    A Go string is a sequence of bytes; it is modelled as a [string] of 8-bit
    characters. The functions that Go defines on runes ([TrimSpace],
    [ToUpper], [ToLower]) are given on the UTF-8 bytes. *)

From S2P Require Import Prelude.

(** The string of the given byte codes. *)
Definition bytes (l : list nat) : string :=
  foldr (λ n s, String (ascii_of_nat n) s) "" l.

Definition newline : string := bytes [10].

(** ** Lemmas on append and reversal *)

Lemma app_str_nil_l (a : string) : "" +:+ a = a.
Proof. done. Qed.

Lemma app_str_cons c (a b : string) : String c a +:+ b = String c (a +:+ b).
Proof. done. Qed.

Lemma app_str_assoc (a b c : string) : a +:+ (b +:+ c) = (a +:+ b) +:+ c.
Proof. induction a as [|x a IH]; [done|]. by rewrite !app_str_cons, IH. Qed.

Lemma app_str_nil_r (a : string) : a +:+ "" = a.
Proof. induction a as [|x a IH]; [done|]. by rewrite app_str_cons, IH. Qed.

Lemma length_app_str (a b : string) :
  String.length (a +:+ b) = String.length a + String.length b.
Proof. induction a as [|x a IH]; [done|]. rewrite app_str_cons. cbn. by rewrite IH. Qed.

Lemma app_str_inv_l (a b c : string) : a +:+ b = a +:+ c → b = c.
Proof. apply (inj (String.app a)). Qed.

Lemma app_split_le a b c d :
  a +:+ b = c +:+ d → String.length a ≤ String.length c → ∃ v, c = a +:+ v ∧ b = v +:+ d.
Proof.
  revert c. induction a as [|x a IH]; intros c E Hle.
  - exists c. by rewrite app_str_nil_l in E.
  - destruct c as [|y c]; [cbn in Hle; lia|]. rewrite !app_str_cons in E. injection E as -> E.
    apply IH in E as (v & -> & ->); [|cbn in Hle; lia]. by exists v.
Qed.

Lemma rev_app_spec (a b : string) : String.rev_app a b = String.rev a +:+ b.
Proof.
  unfold String.rev. revert b.
  induction a as [|x a IH]; intros b; [done|]. cbn.
  rewrite IH, (IH (String x "")), <- app_str_assoc. done.
Qed.

Lemma rev_cons c (a : string) : String.rev (String c a) = String.rev a +:+ String c "".
Proof. unfold String.rev at 1. cbn. apply rev_app_spec. Qed.

Lemma rev_app (a b : string) : String.rev (a +:+ b) = String.rev b +:+ String.rev a.
Proof.
  induction a as [|x a IH].
  - by rewrite app_str_nil_l, app_str_nil_r.
  - rewrite app_str_cons, !rev_cons, IH. by rewrite app_str_assoc.
Qed.

Lemma rev_rev (a : string) : String.rev (String.rev a) = a.
Proof.
  induction a as [|x a IH]; [done|]. by rewrite rev_cons, rev_app, IH.
Qed.

Lemma length_rev_str (a : string) : String.length (String.rev a) = String.length a.
Proof.
  induction a as [|x a IH]; [done|]. rewrite rev_cons, length_app_str, IH. cbn. lia.
Qed.

Create Rewrite HintDb gostr.
#[export] Hint Rewrite app_str_nil_r app_str_nil_l app_str_cons rev_cons rev_app
  rev_rev length_app_str length_rev_str : gostr.

(** ** Prefixes and suffixes *)

(** [strip_prefix p s] is [Some rest] when [s = p ++ rest]. *)
Fixpoint strip_prefix (p s : string) : option string :=
  match p, s with
  | "", _ => Some s
  | String c p, String d s => if decide (c = d) then strip_prefix p s else None
  | String _ _, "" => None
  end.

Definition HasPrefix (s prefix : string) : bool :=
  match strip_prefix prefix s with Some _ => true | None => false end.

Definition TrimPrefix (s prefix : string) : string :=
  match strip_prefix prefix s with Some rest => rest | None => s end.

Definition HasSuffix (s suffix : string) : bool :=
  HasPrefix (String.rev s) (String.rev suffix).

Definition TrimSuffix (s suffix : string) : string :=
  match strip_prefix (String.rev suffix) (String.rev s) with
  | Some rest => String.rev rest
  | None => s
  end.

Lemma strip_prefix_Some p s rest : strip_prefix p s = Some rest ↔ s = p +:+ rest.
Proof.
  revert s. induction p as [|c p IH]; intros s; cbn.
  - split; [by intros [= ->]|by intros ->].
  - destruct s as [|d s]; [split; [done|]; rewrite app_str_cons; done|].
    rewrite app_str_cons. case_decide as Hcd.
    + subst d. rewrite IH. split; [by intros ->|by intros [= ->]].
    + split; [done|]. intros [= ? ?]. congruence.
Qed.

Lemma strip_prefix_app p rest : strip_prefix p (p +:+ rest) = Some rest.
Proof. by apply strip_prefix_Some. Qed.

Lemma HasPrefix_spec s p : HasPrefix s p = true ↔ ∃ rest, s = p +:+ rest.
Proof.
  unfold HasPrefix. destruct (strip_prefix p s) as [r|] eqn:E.
  - apply strip_prefix_Some in E as ->. split; [by eexists|done].
  - split; [done|]. intros [rest ->]. by rewrite strip_prefix_app in E.
Qed.

Lemma HasPrefix_app p rest : HasPrefix (p +:+ rest) p = true.
Proof. apply HasPrefix_spec. by eexists. Qed.

Lemma TrimPrefix_app p rest : TrimPrefix (p +:+ rest) p = rest.
Proof. unfold TrimPrefix. by rewrite strip_prefix_app. Qed.

Lemma HasSuffix_spec s p : HasSuffix s p = true ↔ ∃ front, s = front +:+ p.
Proof.
  unfold HasSuffix. rewrite HasPrefix_spec. split.
  - intros [r Hr]. exists (String.rev r).
    rewrite <- (rev_rev s), Hr, rev_app. by rewrite rev_rev.
  - intros [f ->]. exists (String.rev f). by rewrite rev_app.
Qed.

Lemma TrimSuffix_app front p : TrimSuffix (front +:+ p) p = front.
Proof.
  unfold TrimSuffix. rewrite rev_app, strip_prefix_app. apply rev_rev.
Qed.

Lemma TrimSuffix_no s p : HasSuffix s p = false → TrimSuffix s p = s.
Proof.
  unfold HasSuffix, HasPrefix, TrimSuffix. by destruct (strip_prefix _ _).
Qed.

(** ** Scanning *)

(** The longest prefix of bytes that satisfy [p], and what follows it. *)
Fixpoint span (p : ascii → bool) (s : string) : string * string :=
  match s with
  | "" => ("", "")
  | String c s' => if p c then let '(a, b) := span p s' in (String c a, b) else ("", s)
  end.

Fixpoint all_bytes (p : ascii → bool) (s : string) : bool :=
  match s with
  | "" => true
  | String c s => p c && all_bytes p s
  end.

(** [strings.ContainsAny] for a set of bytes. *)
Definition ContainsAny (s : string) (p : ascii → bool) : bool :=
  negb (all_bytes (λ c, negb (p c)) s).

Lemma span_app p s : (span p s).1 +:+ (span p s).2 = s.
Proof.
  induction s as [|c s IH]; [done|]. cbn. destruct (p c); [|done].
  destruct (span p s) as [a b]. cbn in *. by rewrite app_str_cons, IH.
Qed.

Lemma span_all p s : all_bytes p (span p s).1 = true.
Proof.
  induction s as [|c s IH]; [done|]. cbn. destruct (p c) eqn:E; [|done].
  destruct (span p s) as [a b]. cbn in *. by rewrite E.
Qed.

Lemma span_length p s : String.length (span p s).2 ≤ String.length s.
Proof.
  rewrite <- (span_app p s) at 2. rewrite length_app_str. lia.
Qed.

Lemma span_stop p s c s' : (span p s).2 = String c s' → p c = false.
Proof.
  induction s as [|d s IH]; [done|]. cbn. destruct (p d) eqn:E.
  - destruct (span p s) as [a b]. by cbn in *.
  - cbn. intros [= -> ->]. done.
Qed.

(** A run of good bytes stops exactly at a bad byte or at the end. *)
Lemma span_prefix p a c b :
  all_bytes p a = true → p c = false → span p (a +:+ String c b) = (a, String c b).
Proof.
  intros Ha Hc. induction a as [|d a IH].
  - rewrite app_str_nil_l. cbn. by rewrite Hc.
  - rewrite app_str_cons. cbn in *. apply andb_prop in Ha as [-> Ha].
    by rewrite IH.
Qed.

Lemma span_full p a : all_bytes p a = true → span p a = (a, "").
Proof.
  induction a as [|d a IH]; [done|]. cbn. intros [-> Ha]%andb_prop. by rewrite IH.
Qed.

Lemma all_bytes_app p a b : all_bytes p (a +:+ b) = all_bytes p a && all_bytes p b.
Proof.
  induction a as [|c a IH]; [done|]. rewrite app_str_cons. cbn. rewrite IH.
  by rewrite andb_assoc.
Qed.

Lemma all_bytes_impl (p q : ascii → bool) s :
  (∀ c, p c = true → q c = true) → all_bytes p s = true → all_bytes q s = true.
Proof.
  intros Hpq. induction s as [|c s IH]; [done|]. cbn.
  intros [Hc Hs]%andb_prop. by rewrite (Hpq _ Hc), IH.
Qed.

#[export] Hint Rewrite all_bytes_app : gostr.

(** ** [strings.TrimSpace]

    The runes of Unicode's White_Space property, in UTF-8. Every one of these
    encodings starts with a byte that starts a rune, and the last rune of a
    string is the encoding it ends with, so trimming is on the bytes. *)
Definition spaces : list string := Eval vm_compute in
  bytes <$> [[9]; [10]; [11]; [12]; [13]; [32]; [194; 133]; [194; 160];
    [225; 154; 128]; [226; 128; 128]; [226; 128; 129]; [226; 128; 130];
    [226; 128; 131]; [226; 128; 132]; [226; 128; 133]; [226; 128; 134];
    [226; 128; 135]; [226; 128; 136]; [226; 128; 137]; [226; 128; 138];
    [226; 128; 168]; [226; 128; 169]; [226; 128; 175]; [226; 129; 159];
    [227; 128; 128]].

Definition rev_spaces : list string := Eval vm_compute in String.rev <$> spaces.

(** Drops the first of the strings [ps] that [s] starts with. *)
Fixpoint strip_any (ps : list string) (s : string) : option string :=
  match ps with
  | [] => None
  | p :: ps => match strip_prefix p s with
               | Some rest => Some rest
               | None => strip_any ps s
               end
  end.

Definition trim_step (ps : list string) (s : string) : string + string :=
  match strip_any ps s with Some rest => inl rest | None => inr s end.

Lemma strip_any_Some ps s rest :
  strip_any ps s = Some rest → ∃ p, p ∈ ps ∧ s = p +:+ rest.
Proof.
  induction ps as [|p ps IH]; [done|]. cbn.
  destruct (strip_prefix p s) as [r|] eqn:E.
  - intros [= <-]. apply strip_prefix_Some in E. exists p. split; [by left|done].
  - intros (q & Hq & ->)%IH. exists q. split; [by right|done].
Qed.

Lemma strip_any_None ps s p rest : strip_any ps s = None → p ∈ ps → s ≠ p +:+ rest.
Proof.
  induction ps as [|q ps IH]; cbn; [intros _ []%not_elem_of_nil|].
  destruct (strip_prefix q s) as [r|] eqn:E; [done|].
  intros Hn [->|Hin]%elem_of_cons; [|by apply IH].
  intros ->. by rewrite strip_prefix_app in E.
Qed.

Lemma trim_step_decreasing ps :
  Forall (λ p, p ≠ "") ps → decreasing (trim_step ps) String.length.
Proof.
  intros Hne s s'. unfold trim_step.
  destruct (strip_any ps s) as [r|] eqn:E; intros [= <-].
  apply strip_any_Some in E as (p & Hp & ->). rewrite length_app_str.
  assert (p ≠ "") by (by rewrite Forall_forall in Hne; apply Hne).
  destruct p; [done|]. cbn. lia.
Qed.

Lemma spaces_nonempty : Forall (λ p, p ≠ "") spaces.
Proof. repeat constructor; done. Qed.

Lemma rev_spaces_nonempty : Forall (λ p, p ≠ "") rev_spaces.
Proof. repeat constructor; done. Qed.

Definition TrimLeft (s : string) : string :=
  loop (trim_step_decreasing spaces spaces_nonempty) s.

Definition TrimRight (s : string) : string :=
  String.rev (loop (trim_step_decreasing rev_spaces rev_spaces_nonempty) (String.rev s)).

Definition TrimSpace (s : string) : string := TrimRight (TrimLeft s).

Definition starts_space (s : string) : bool :=
  match strip_any spaces s with Some _ => true | None => false end.

Definition ends_space (s : string) : bool :=
  match strip_any rev_spaces (String.rev s) with Some _ => true | None => false end.

Example TrimSpace_ex : TrimSpace (" 	a b" +:+ bytes [194; 160; 10]) = "a b".
Proof. vm_compute. reflexivity. Qed.

Lemma TrimLeft_id s : starts_space s = false → TrimLeft s = s.
Proof.
  unfold starts_space, TrimLeft. intros H. rewrite loop_unfold. unfold trim_step.
  by destruct (strip_any spaces s).
Qed.

Lemma TrimRight_id s : ends_space s = false → TrimRight s = s.
Proof.
  unfold ends_space, TrimRight. intros H. rewrite loop_unfold. unfold trim_step.
  destruct (strip_any rev_spaces _); [done|]. apply rev_rev.
Qed.

Lemma TrimSpace_id s :
  starts_space s = false → ends_space s = false → TrimSpace s = s.
Proof. intros H1 H2. unfold TrimSpace. by rewrite TrimLeft_id, TrimRight_id. Qed.

(** What a trimming loop returns: a suffix that no member of [ps] starts. *)
Lemma trim_loop_spec ps (Hne : Forall (λ p, p ≠ "") ps) s :
  strip_any ps (loop (trim_step_decreasing ps Hne) s) = None ∧
  ∃ front, s = front +:+ loop (trim_step_decreasing ps Hne) s.
Proof.
  apply (loop_inv _ _ _ (λ t, ∃ front, s = front +:+ t)
           (λ r, strip_any ps r = None ∧ ∃ front, s = front +:+ r)).
  - by exists "".
  - intros t t' [f ->] Ht. unfold trim_step in Ht.
    destruct (strip_any ps t) as [r|] eqn:E; [|done]. injection Ht as <-.
    apply strip_any_Some in E as (p & _ & ->). exists (f +:+ p).
    by rewrite app_str_assoc.
  - intros t r [f ->] Ht. unfold trim_step in Ht.
    destruct (strip_any ps t) as [?|] eqn:E; [done|]. injection Ht as <-.
    split; [done|]. by exists f.
Qed.

Lemma TrimLeft_spec s :
  starts_space (TrimLeft s) = false ∧ ∃ front, s = front +:+ TrimLeft s.
Proof.
  destruct (trim_loop_spec spaces spaces_nonempty s) as [H1 H2].
  split; [|exact H2]. unfold starts_space, TrimLeft. by rewrite H1.
Qed.

Lemma TrimRight_spec s :
  ends_space (TrimRight s) = false ∧ ∃ back, s = TrimRight s +:+ back.
Proof.
  unfold TrimRight, ends_space. rewrite rev_rev.
  destruct (trim_loop_spec rev_spaces rev_spaces_nonempty (String.rev s)) as [-> [f Hf]].
  split; [done|]. exists (String.rev f).
  rewrite <- rev_app, <- Hf. by rewrite rev_rev.
Qed.

Lemma starts_space_prefix a b : starts_space a = true → starts_space (a +:+ b) = true.
Proof.
  unfold starts_space. destruct (strip_any spaces a) as [r|] eqn:E; [|done].
  intros _. apply strip_any_Some in E as (p & Hp & ->).
  destruct (strip_any spaces _) eqn:E'; [done|].
  rewrite <- app_str_assoc in E'. by eapply strip_any_None in E'.
Qed.

Lemma TrimSpace_spec s :
  starts_space (TrimSpace s) = false ∧ ends_space (TrimSpace s) = false ∧
  ∃ front back, s = front +:+ TrimSpace s +:+ back.
Proof.
  unfold TrimSpace.
  destruct (TrimLeft_spec s) as [Hl [f Hf]].
  destruct (TrimRight_spec (TrimLeft s)) as [Hr [b Hb]].
  split_and!; [|done|].
  - destruct (starts_space (TrimRight (TrimLeft s))) eqn:E; [|done].
    apply (starts_space_prefix _ b) in E. rewrite <- Hb in E. congruence.
  - exists f, b. by rewrite <- Hb.
Qed.

Lemma TrimSpace_idemp s : TrimSpace (TrimSpace s) = TrimSpace s.
Proof. destruct (TrimSpace_spec s) as (? & ? & _). by apply TrimSpace_id. Qed.

(** The bytes that occur in the encoding of some space. *)
Fixpoint in_string (c : ascii) (s : string) : bool :=
  match s with
  | "" => false
  | String d s => bool_decide (c = d) || in_string c s
  end.

Definition space_byte (c : ascii) : bool := existsb (in_string c) spaces.

(** What is trimmed is made of the bytes of spaces. *)
Lemma all_bytes_rev p s : all_bytes p (String.rev s) = all_bytes p s.
Proof.
  induction s as [|c s IH]; [done|]. rewrite rev_cons, all_bytes_app, IH. cbn.
  by rewrite andb_true_r, andb_comm.
Qed.

Lemma TrimRight_back s :
  ∃ back, s = TrimRight s +:+ back ∧ all_bytes space_byte back = true.
Proof.
  assert (∃ front, String.rev s = front +:+ loop (trim_step_decreasing rev_spaces rev_spaces_nonempty)
      (String.rev s) ∧ all_bytes space_byte front = true) as (f & Hf & Hb).
  { apply (loop_inv _ _ _
      (λ t, ∃ front, String.rev s = front +:+ t ∧ all_bytes space_byte front = true)
      (λ t, ∃ front, String.rev s = front +:+ t ∧ all_bytes space_byte front = true)).
    - by exists "".
    - intros t t' (f & Hf & Hb) Ht. unfold trim_step in Ht.
      destruct (strip_any rev_spaces t) as [r|] eqn:E; [|done]. injection Ht as <-.
      apply strip_any_Some in E as (p & Hp & ->). exists (f +:+ p).
      rewrite <- app_str_assoc, all_bytes_app, Hb. split; [exact Hf|].
      assert (forallb (all_bytes space_byte) rev_spaces = true) as Hall by (vm_compute; reflexivity).
      rewrite forallb_forall in Hall. apply Hall. by apply list_elem_of_In.
    - intros t r Hi Ht. unfold trim_step in Ht. destruct (strip_any rev_spaces t); [done|].
      by injection Ht as <-. }
  unfold TrimRight. exists (String.rev f). rewrite all_bytes_rev. split; [|exact Hb].
  rewrite <- rev_app, <- Hf. by rewrite rev_rev.
Qed.

(** ' ' and '\t', the separators of the wire format. *)
Definition is_blank (c : ascii) : bool :=
  bool_decide (c = " "%char) || bool_decide (c = "009"%char).

Lemma strip_prefix_stop p x c y r :
  in_string c p = false →
  strip_prefix p (x +:+ String c y) = Some r → ∃ r', strip_prefix p x = Some r'.
Proof.
  revert x. induction p as [|d p IH]; intros x; cbn.
  - intros _ _. by exists x.
  - intros [Hcd Hc]%orb_false_iff. apply bool_decide_eq_false in Hcd.
    destruct x as [|e x].
    + rewrite app_str_nil_l. case_decide; [congruence|done].
    + rewrite app_str_cons. case_decide; [|done]. by apply IH.
Qed.

Lemma strip_any_stop ps x c y :
  forallb (λ p, negb (in_string c p)) ps = true →
  strip_any ps x = None → strip_any ps (x +:+ String c y) = None.
Proof.
  induction ps as [|p ps IH]; [done|]. cbn.
  intros [Hp%negb_true_iff Hps]%andb_prop.
  destruct (strip_prefix p x) as [?|] eqn:E; [done|]. intros Hx.
  destruct (strip_prefix p (x +:+ String c y)) as [r|] eqn:E'; [|by apply IH].
  apply strip_prefix_stop in E' as [r' ?]; [congruence|done].
Qed.

(** A byte that no space contains cuts a trailing (or leading) space off from
    what is before (or after) it. *)
Lemma space_byte_spaces c :
  space_byte c = false → forallb (λ p, negb (in_string c p)) spaces = true.
Proof.
  unfold space_byte. induction spaces as [|p ps IH]; [done|]. cbn.
  by intros [-> Hc%IH]%orb_false_iff.
Qed.

Lemma in_string_app c a b : in_string c (a +:+ b) = in_string c a || in_string c b.
Proof.
  induction a as [|d a IH]; [done|]. rewrite app_str_cons. cbn.
  by rewrite IH, orb_assoc.
Qed.

Lemma in_string_rev c p : in_string c (String.rev p) = in_string c p.
Proof.
  induction p as [|d p IH]; [done|].
  rewrite rev_cons, in_string_app, IH. cbn. by rewrite orb_false_r, orb_comm.
Qed.

Lemma space_byte_rev_spaces c :
  space_byte c = false → forallb (λ p, negb (in_string c p)) rev_spaces = true.
Proof.
  intros Hc%space_byte_spaces. change rev_spaces with (String.rev <$> spaces).
  induction spaces as [|p ps IH]; [done|]. cbn in *.
  apply andb_prop in Hc as [Hp Hps]. by rewrite in_string_rev, Hp, IH.
Qed.

Lemma ends_space_app a c b :
  space_byte c = false → ends_space b = false → ends_space (a +:+ String c b) = false.
Proof.
  intros Hc. unfold ends_space. rewrite rev_app, rev_cons, <- app_str_assoc.
  rewrite app_str_cons, app_str_nil_l.
  destruct (strip_any rev_spaces (String.rev b)) eqn:E; [done|]. intros _.
  rewrite strip_any_stop; [done|by apply space_byte_rev_spaces|done].
Qed.

Lemma starts_space_cons c b : space_byte c = false → starts_space (String c b) = false.
Proof.
  intros Hc. unfold starts_space. rewrite <- (app_str_nil_l (String c b)).
  by rewrite strip_any_stop; [|apply space_byte_spaces|].
Qed.

Lemma starts_space_app a c b :
  space_byte c = false → starts_space a = false → starts_space (a +:+ String c b) = false.
Proof.
  intros Hc. unfold starts_space.
  destruct (strip_any spaces a) eqn:E; [done|]. intros _.
  by rewrite strip_any_stop; [|apply space_byte_spaces|].
Qed.

(** A string whose only space bytes are blanks and that does not end in a
    blank does not end in a space. *)
Definition plain (c : ascii) : bool := negb (space_byte c) || is_blank c.

Lemma ends_space_nonspace s :
  all_bytes (λ c, negb (space_byte c)) s = true → ends_space s = false.
Proof.
  destruct (decide (s = "")) as [->|Hs]; [done|]. intros H.
  rewrite <- (rev_rev s) in H |- *. destruct (String.rev s) as [|c r].
  - done.
  - rewrite rev_cons in H |- *. rewrite all_bytes_app in H.
    apply andb_prop in H as [_ H]. cbn in H. rewrite andb_true_r in H.
    apply ends_space_app; [by apply negb_true_iff|done].
Qed.

Lemma starts_space_nonspace s :
  all_bytes (λ c, negb (space_byte c)) s = true → starts_space s = false.
Proof.
  destruct s as [|c s]; [done|]. cbn. intros [Hc _]%andb_prop.
  apply starts_space_cons. by apply negb_true_iff.
Qed.

(** ** [strings.Split] with a one-byte separator, and [strings.Join] *)
Fixpoint Split (s : string) (sep : ascii) : list string :=
  match s with
  | "" => [""]
  | String c s =>
      if decide (c = sep) then "" :: Split s sep
      else match Split s sep with
           | x :: xs => String c x :: xs
           | [] => [String c ""]
           end
  end.

Fixpoint Join (l : list string) (sep : string) : string :=
  match l with
  | [] => ""
  | [x] => x
  | x :: l => x +:+ sep +:+ Join l sep
  end.

Lemma Split_no_sep a sep :
  in_string sep a = false → Split a sep = [a].
Proof.
  induction a as [|c a IH]; [done|]. cbn. intros [Hc Ha]%orb_false_iff.
  apply bool_decide_eq_false in Hc. rewrite decide_False by congruence.
  by rewrite IH.
Qed.

Lemma Split_app a sep b :
  in_string sep a = false → Split (a +:+ String sep b) sep = a :: Split b sep.
Proof.
  induction a as [|c a IH]; intros Ha.
  - rewrite app_str_nil_l. cbn. by rewrite decide_True.
  - cbn in Ha. apply orb_false_iff in Ha as [Hc Ha].
    apply bool_decide_eq_false in Hc. rewrite app_str_cons. cbn.
    rewrite decide_False by congruence. by rewrite IH.
Qed.

Lemma Split_Join l sep :
  l ≠ [] → Forall (λ a, in_string sep a = false) l →
  Split (Join l (String sep "")) sep = l.
Proof.
  induction l as [|a [|b l] IH]; intros Hl Hall; [done| |].
  - apply Split_no_sep. by inversion Hall.
  - inversion Hall as [|?? Ha Hl']. subst.
    change (Join (a :: b :: l) (String sep ""))
      with (a +:+ String sep "" +:+ Join (b :: l) (String sep "")).
    rewrite app_str_cons, app_str_nil_l, Split_app by done.
    by rewrite IH.
Qed.

(** ** [strings.ToUpper] and [strings.ToLower]

    Exact on ASCII. Of the other runes, only the dotless i (U+0131) and the
    long s (U+017F) have an ASCII upper case, and only the dotted I (U+0130)
    and the Kelvin sign (U+212A) an ASCII lower case: these are mapped. Every
    other rune outside ASCII is left as it is, where Go may give another rune
    outside ASCII; the program only compares the results of these functions
    with ASCII constants wherever they are used here. *)
Definition ascii_range (lo hi : nat) (c : ascii) : bool :=
  (lo <=? nat_of_ascii c) && (nat_of_ascii c <=? hi).

Definition upper_byte (c : ascii) : ascii :=
  if ascii_range 97 122 c then ascii_of_nat (nat_of_ascii c - 32) else c.

Definition lower_byte (c : ascii) : ascii :=
  if ascii_range 65 90 c then ascii_of_nat (nat_of_ascii c + 32) else c.

Fixpoint ToUpper (s : string) : string :=
  match s with
  | "" => ""
  | String c s1 =>
      match s1 with
      | String d s2 =>
          if decide (bytes [196; 177] = String c (String d "")) then String "I" (ToUpper s2)
          else if decide (bytes [197; 191] = String c (String d ""))
          then String "S" (ToUpper s2)
          else String (upper_byte c) (ToUpper s1)
      | "" => String (upper_byte c) ""
      end
  end.

Fixpoint ToLower (s : string) : string :=
  match s with
  | "" => ""
  | String c s1 =>
      match s1 with
      | String d s2 =>
          if decide (bytes [196; 176] = String c (String d "")) then String "i" (ToLower s2)
          else match s2 with
               | String e s3 =>
                   if decide (bytes [226; 132; 170] = String c (String d (String e "")))
                   then String "k" (ToLower s3)
                   else String (lower_byte c) (ToLower s1)
               | "" => String (lower_byte c) (ToLower s1)
               end
      | "" => String (lower_byte c) ""
      end
  end.

Lemma ToUpper_cons c s :
  nat_of_ascii c < 128 → ToUpper (String c s) = String (upper_byte c) (ToUpper s).
Proof.
  intros Hc.
  assert (c ≠ ascii_of_nat 196) by (intros ->; vm_compute in Hc; lia).
  assert (c ≠ ascii_of_nat 197) by (intros ->; vm_compute in Hc; lia).
  destruct s as [|d s]; [done|]. cbn -[decide bytes].
  rewrite !decide_False; [done|cbv [bytes foldr]; congruence..].
Qed.

Lemma ToUpper_fixed s :
  all_bytes (λ c, (nat_of_ascii c <? 128) && bool_decide (upper_byte c = c)) s = true →
  ToUpper s = s.
Proof.
  induction s as [|c s IH]; [done|]. intros H.
  change (((nat_of_ascii c <? 128) && bool_decide (upper_byte c = c)) &&
    all_bytes (λ c, (nat_of_ascii c <? 128) && bool_decide (upper_byte c = c)) s = true) in H.
  apply andb_prop in H as [[Hc%Nat.ltb_lt Hu%bool_decide_eq_true]%andb_prop Hs].
  by rewrite ToUpper_cons, Hu, IH.
Qed.

(** A blank before a string that is not empty does not make it end in a space. *)
Lemma strip_prefix_snoc p x c r :
  strip_prefix p (x +:+ String c "") = Some r →
  (∃ r', strip_prefix p x = Some r') ∨ p = x +:+ String c "".
Proof.
  revert x. induction p as [|d p IH]; intros x; [by left; exists x|].
  destruct x as [|e x].
  - rewrite app_str_nil_l. cbn. case_decide; [|done]. subst d.
    destruct p; [by right|done].
  - rewrite app_str_cons. cbn. case_decide; [|done]. subst e.
    intros [?| ->]%IH; [by left|by right].
Qed.

Lemma rev_spaces_blank : Forall (λ p, ∀ x, p = x +:+ " " → x = "") rev_spaces.
Proof.
  unfold rev_spaces. repeat constructor;
    intros [|? [|? [|? [|? x]]]]; rewrite ?app_str_cons, ?app_str_nil_l;
    intros H; simplify_eq; done.
Qed.

Lemma ends_space_blank s : s ≠ "" → ends_space s = false → ends_space (" " +:+ s) = false.
Proof.
  intros Hne. unfold ends_space. rewrite rev_app. change (String.rev " ") with " ".
  assert (String.rev s ≠ "") as Hr.
  { intros E. apply Hne. by rewrite <- (rev_rev s), E. }
  pose proof rev_spaces_blank as Hb. revert Hb. generalize rev_spaces as ps.
  induction ps as [|p ps IH]; [done|]. intros [Hp Hb]%Forall_cons. cbn.
  destruct (strip_prefix p (String.rev s)) eqn:E; [done|].
  destruct (strip_prefix p (String.rev s +:+ " ")) eqn:E'; [|by apply IH].
  apply strip_prefix_snoc in E' as [[? ?]|E']; [congruence|].
  by destruct (Hr (Hp _ E')).
Qed.
