(* ===== verification/GoNum.v ===== *)
(** * Go's machine integers, [strconv] and [fmt.Sprintf("%d")]

    An [int] or [int64] is a [Z] between [min_int64] and [max_int64]; [wrap64]
    is the two's complement wrap-around of its arithmetic. *)

From S2P Require Import Prelude GoStrings.
Local Open Scope Z_scope.

Definition max_int64 : Z := 9223372036854775807.
Definition min_int64 : Z := -9223372036854775808.
Definition max_uint64 : Z := 18446744073709551615.

Definition int64_ok (z : Z) : Prop := min_int64 ≤ z ≤ max_int64.

Definition wrap64 (z : Z) : Z := (z + 2 ^ 63) `mod` 2 ^ 64 - 2 ^ 63.

Lemma wrap64_ok z : int64_ok (wrap64 z).
Proof.
  unfold int64_ok, wrap64, min_int64, max_int64.
  pose proof (Z.mod_pos_bound (z + 2 ^ 63) (2 ^ 64)). lia.
Qed.

Lemma wrap64_id z : int64_ok z → wrap64 z = z.
Proof.
  unfold int64_ok, wrap64, min_int64, max_int64. intros H.
  rewrite Z.mod_small; lia.
Qed.

Lemma wrap64_mod z : wrap64 z `mod` 2 ^ 64 = z `mod` 2 ^ 64.
Proof.
  unfold wrap64. rewrite Zminus_mod_idemp_l. f_equal. lia.
Qed.

Lemma wrap64_congr a b : a `mod` 2 ^ 64 = b `mod` 2 ^ 64 → wrap64 a = wrap64 b.
Proof.
  intros H. unfold wrap64. f_equal.
  by rewrite <- Zplus_mod_idemp_l, H, Zplus_mod_idemp_l.
Qed.

Lemma wrap64_add_l a b : wrap64 (wrap64 a + b) = wrap64 (a + b).
Proof.
  apply wrap64_congr. by rewrite <- Zplus_mod_idemp_l, wrap64_mod, Zplus_mod_idemp_l.
Qed.

Lemma wrap64_add_r a b : wrap64 (a + wrap64 b) = wrap64 (a + b).
Proof. by rewrite Z.add_comm, wrap64_add_l, Z.add_comm. Qed.

#[export] Hint Resolve wrap64_ok : borg.

(** A sum accumulated in a 64-bit variable. *)
Definition add64 (a x : Z) : Z := wrap64 (a + x).

Lemma foldl_add64_wrap l a : foldl add64 (wrap64 a) l = wrap64 (a + sumZ l).
Proof.
  revert a. induction l as [|x l IH]; intros a; [by rewrite Z.add_0_r|].
  cbn. unfold add64 at 2. rewrite wrap64_add_l, IH. f_equal. unfold sumZ. lia.
Qed.

Lemma foldl_add64 l : foldl add64 0 l = wrap64 (sumZ l).
Proof. apply (foldl_add64_wrap l 0). Qed.

Lemma wrap64_sumZ {A} (f : A → Z) l :
  wrap64 (sumZ ((λ x, wrap64 (f x)) <$> l)) = wrap64 (sumZ (f <$> l)).
Proof.
  induction l as [|x l IH]; [done|].
  by rewrite !fmap_cons, !sumZ_cons, wrap64_add_l, <- wrap64_add_r, IH, wrap64_add_r.
Qed.

(** ** [strconv.ParseInt] in base 10 with 64 bits, and [strconv.Atoi] *)

Inductive NumError := ErrSyntax | ErrRange.

#[export] Instance NumError_eq_dec : EqDecision NumError.
Proof. solve_decision. Defined.

Definition digit (c : ascii) : option Z :=
  if ascii_range 48 57 c then Some (Z.of_nat (nat_of_ascii c) - 48) else None.

(** The loop of [ParseUint]: the range error is reported at the digit that
    overflows, before what follows is looked at. *)
Fixpoint parse_digits (n : Z) (s : string) : Z * option NumError :=
  match s with
  | "" => (n, None)
  | String c s =>
      match digit c with
      | None => (0, Some ErrSyntax)
      | Some d => if max_uint64 <? n * 10 + d then (max_uint64, Some ErrRange)
                  else parse_digits (n * 10 + d) s
      end
  end.

Definition ParseUint (s : string) : Z * option NumError :=
  match s with
  | "" => (0, Some ErrSyntax)
  | _ => parse_digits 0 s
  end.

Definition ParseInt (s : string) : Z * option NumError :=
  match s with
  | "" => (0, Some ErrSyntax)
  | String c s' =>
      let neg := bool_decide (c = "-"%char) in
      let digits := if neg || bool_decide (c = "+"%char) then s' else s in
      match ParseUint digits with
      | (_, Some ErrSyntax) => (0, Some ErrSyntax)
      | (un, _) =>
          if negb neg && (2 ^ 63 <=? un) then (max_int64, Some ErrRange)
          else if neg && (2 ^ 63 <? un) then (min_int64, Some ErrRange)
          else (if neg then - un else un, None)
      end
  end.

Definition Atoi (s : string) : option Z :=
  match ParseInt s with (v, None) => Some v | _ => None end.

(** ** [fmt.Sprintf("%d", n)] *)
Definition digit_char (d : Z) : ascii := ascii_of_nat (Z.to_nat (d + 48)).

Definition format_step (st : Z * string) : (Z * string) + string :=
  let '(n, acc) := st in
  if n <? 10 then inr (String (digit_char n) acc)
  else inl (n / 10, String (digit_char (n `mod` 10)) acc).

Lemma format_step_decreasing : decreasing format_step (λ st, Z.to_nat st.1).
Proof.
  intros [n acc] s'. unfold format_step. destruct (Z.ltb_spec n 10); [done|].
  intros [= <-]. simpl. assert (n / 10 < n) by (apply Z.div_lt; lia). lia.
Qed.

Definition FormatUint (n : Z) : string := loop format_step_decreasing (n, "").

Definition FormatInt (n : Z) : string :=
  if n <? 0 then String "-" (FormatUint (- n)) else FormatUint n.

Example FormatInt_ex : FormatInt (-1205) = "-1205".
Proof. vm_compute. reflexivity. Qed.
Example ParseInt_ex : ParseInt "99999999999999999999x" = (max_int64, Some ErrRange).
Proof. vm_compute. reflexivity. Qed.

Lemma digit_digit_char d : 0 ≤ d < 10 → digit (digit_char d) = Some d.
Proof.
  intros Hd. assert (d = 0 ∨ d = 1 ∨ d = 2 ∨ d = 3 ∨ d = 4 ∨ d = 5 ∨ d = 6 ∨ d = 7 ∨
    d = 8 ∨ d = 9) as H by lia.
  by destruct_or!; subst d.
Qed.

(** Reading the digits back: the digits already read stand for the part of the
    number that the loop of [FormatUint] has not printed yet. *)
Lemma parse_FormatUint n :
  0 ≤ n ≤ max_uint64 →
  parse_digits 0 (FormatUint n) = (n, None) ∧ ∃ c s, FormatUint n = String c s ∧ digit c ≠ None.
Proof.
  intros Hn. unfold FormatUint.
  apply (loop_inv _ _ _
    (λ st, 0 ≤ st.1 ≤ max_uint64 ∧ parse_digits st.1 st.2 = (n, None))
    (λ r, parse_digits 0 r = (n, None) ∧ ∃ c s, r = String c s ∧ digit c ≠ None)).
  - by split.
  - intros [m acc] st' [Hm Hp]. unfold format_step. simpl in *.
    destruct (Z.ltb_spec m 10) as [|Hge]; [done|]. intros [= <-]. simpl.
    pose proof (Z.div_mod m 10 ltac:(lia)). pose proof (Z.mod_pos_bound m 10 ltac:(lia)).
    split; [lia|]. rewrite digit_digit_char by lia.
    replace (m / 10 * 10 + m `mod` 10) with m by lia.
    by rewrite (proj2 (Z.ltb_ge _ _)) by lia.
  - intros [m acc] r [Hm Hp]. unfold format_step. simpl in *.
    destruct (Z.ltb_spec m 10) as [Hlt|]; [|done]. intros [= <-].
    split; [|exists (digit_char m), acc; split; [done|by rewrite digit_digit_char by lia]].
    simpl. rewrite digit_digit_char by lia. simpl.
    by rewrite (proj2 (Z.ltb_ge _ _)) by lia.
Qed.

Lemma digit_sign c : digit c ≠ None → c ≠ "-"%char ∧ c ≠ "+"%char.
Proof. intros H. split; intros ->; by apply H. Qed.

Lemma ParseInt_FormatInt n : int64_ok n → ParseInt (FormatInt n) = (n, None).
Proof.
  unfold int64_ok, min_int64, max_int64, FormatInt. intros Hn.
  destruct (Z.ltb_spec n 0).
  - destruct (parse_FormatUint (- n)) as (Hp & c & s & Hs & _); [unfold max_uint64; lia|].
    unfold ParseInt. rewrite bool_decide_eq_true_2 by done. cbv zeta.
    cbn [orb negb andb]. rewrite Hs in *. unfold ParseUint. rewrite Hp.
    rewrite (proj2 (Z.ltb_ge _ _)) by lia. by rewrite Z.opp_involutive.
  - destruct (parse_FormatUint n) as (Hp & c & s & Hs & Hc); [unfold max_uint64; lia|].
    rewrite Hs in *. apply digit_sign in Hc as [Hc1 Hc2]. unfold ParseInt.
    rewrite (bool_decide_eq_false_2 _ Hc1), (bool_decide_eq_false_2 _ Hc2). cbv zeta.
    cbn [orb negb andb]. unfold ParseUint. rewrite Hp.
    by rewrite (proj2 (Z.leb_gt _ _)) by lia.
Qed.

Lemma Atoi_FormatInt n : int64_ok n → Atoi (FormatInt n) = Some n.
Proof. intros H. unfold Atoi. by rewrite ParseInt_FormatInt. Qed.

Lemma ParseInt_ok s : int64_ok (ParseInt s).1.
Proof.
  assert (∀ t n, 0 ≤ n ≤ max_uint64 → 0 ≤ (parse_digits n t).1 ≤ max_uint64) as Hpd.
  { induction t as [|c t IH]; intros n Hn; [done|]. simpl.
    destruct (digit c) as [d|] eqn:Hd; [|done].
    destruct (Z.ltb_spec max_uint64 (n * 10 + d)); [done|]. apply IH.
    unfold digit in Hd. destruct (ascii_range 48 57 c) eqn:Hr; [|done].
    injection Hd as <-. apply andb_prop in Hr as [Hr%Nat.leb_le _]. lia. }
  assert (∀ t, 0 ≤ (ParseUint t).1 ≤ max_uint64) as Hpu.
  { intros [|c t]; [done|]. by apply Hpd. }
  unfold int64_ok. destruct s as [|c s]; [done|]. unfold ParseInt.
  set (digits := if _ || _ then s else String c s). specialize (Hpu digits).
  destruct (ParseUint digits) as [un [[]|]]; try done; simpl in Hpu;
    change (2 ^ 63) with 9223372036854775808;
    destruct (bool_decide (c = "-"%char)); simpl;
    repeat case_match; simpl; unfold min_int64, max_int64 in *; lia.
Qed.

#[export] Hint Resolve ParseInt_ok : borg.

(** ** [fmt.Sscanf(s, "%d", &v)]

    Spaces are skipped (a newline among them is an error), then an optional sign
    and the longest run of digits are read, and what follows them is ignored; a
    number out of range is an error. On an error [v] keeps its value. *)
Definition skip_space (s : string) : option string :=
  let rest := TrimLeft s in
  let skipped := String.substring 0 (String.length s - String.length rest) s in
  if in_string "010" skipped then None else Some rest.

Definition Sscanf_int (s : string) : option Z :=
  match skip_space s with
  | None => None
  | Some s =>
      let '(sign, s) :=
        match s with
        | String c s' => if bool_decide (c = "-"%char) || bool_decide (c = "+"%char)
                         then (String c "", s') else ("", s)
        | "" => ("", s)
        end in
      let digits := (span (ascii_range 48 57) s).1 in
      if bool_decide (digits = "") then None
      else match ParseInt (sign +:+ digits) with
           | (v, None) => Some v
           | (_, Some _) => None
           end
  end.

Example Sscanf_int_ex :
  Sscanf_int "5" = Some 5 ∧ Sscanf_int "5abc" = Some 5 ∧ Sscanf_int " -7 x" = Some (-7) ∧
  Sscanf_int "x5" = None ∧ Sscanf_int "" = None ∧ Sscanf_int "99999999999999999999" = None.
Proof. vm_compute. done. Qed.
