(* ===== verification/GoFloat.v ===== *)
(** * Go's [float64]

    A [float64] is a [spec_float] of the Standard Library with 53 bits of
    precision, and its operations are the library's correctly rounded ones; a
    product and a sum are rounded one after the other, as on the architectures
    where Go does not fuse them. [FormatFloat6] is [fmt.Sprintf("%.6f")]. *)

From Stdlib Require Export SpecFloat.
From S2P Require Import Prelude GoStrings GoNum.

Abbreviation float64 := spec_float (only parsing).

Definition float_zero : float64 := S754_zero false.

(** The conversion of an integer. *)
Definition float_of_Z (z : Z) : float64 := binary_normalize 53 1024 z 0 false.

Definition fadd : float64 → float64 → float64 := SFadd 53 1024.
Definition fmul : float64 → float64 → float64 := SFmul 53 1024.
Definition fdiv : float64 → float64 → float64 := SFdiv 53 1024.

Definition fsub : float64 → float64 → float64 := SFsub 53 1024.
Definition fltb : float64 → float64 → bool := SFltb.
Definition fleb : float64 → float64 → bool := SFleb.

(** [math.Pow(2, n)] for an integer [n >= 0]. *)
Definition Pow2 (n : Z) : float64 :=
  if (n <? 1024)%Z then S754_finite false 4503599627370496 (n - 52) else S754_infinity false.

(** A constant of the program: [m * 2^e]. *)
Definition float_const (m : positive) (e : Z) : float64 := S754_finite false m e.

(** ** Conversion to an integer

    [int64(f)] drops the fraction. What a value out of range becomes is left to
    the implementation: the least [int64] on amd64, the nearest one on arm64,
    where NaN becomes 0. *)
Class FloatOverflow := {
  float_overflow : float64 → Z;
  float_overflow_values f : float_overflow f ∈ [min_int64; 0%Z; max_int64]
}.

(** The one of amd64, used by the concrete runs. *)
#[global, refine] Instance overflow_amd64 : FloatOverflow :=
  {| float_overflow _ := min_int64 |}.
Proof. intros. left. Defined.

Definition trunc (f : float64) : option Z :=
  match f with
  | S754_zero _ => Some 0%Z
  | S754_infinity _ | S754_nan => None
  | S754_finite s m e =>
      let n := (if (0 <=? e)%Z then Zpos m * 2 ^ e else Zpos m / 2 ^ (- e))%Z in
      Some (if s then (- n)%Z else n)
  end.

Definition int_of_float `{FloatOverflow} (f : float64) : Z :=
  match trunc f with
  | Some z => if (min_int64 <=? z)%Z && (z <=? max_int64)%Z then z else float_overflow f
  | None => float_overflow f
  end.

(** ** Durations

    [t.Sub(u)] stays within the range of a duration. [Seconds], [Minutes] and
    [Hours] add the whole units and the fraction as floating-point numbers. *)
Definition Sub (t u : Time) : Duration := Z.max min_int64 (Z.min max_int64 (t - u)).

Definition in_units (nanos : Z) (d : Duration) : float64 :=
  fadd (float_of_Z (Z.quot d nanos)) (fdiv (float_of_Z (Z.rem d nanos)) (float_of_Z nanos)).

Definition Seconds : Duration → float64 := in_units 1000000000.
Definition Minutes : Duration → float64 := in_units 60000000000.
Definition Hours : Duration → float64 := in_units 3600000000000.

(** ** [%.6f]

    The exact value in millionths, rounded half to even. *)
Definition millionths (m : positive) (e : Z) : Z :=
  let n := (Zpos m * 1000000)%Z in
  if (0 <=? e)%Z then (n * 2 ^ e)%Z
  else
    let d := (2 ^ (- e))%Z in
    let q := (n / d)%Z in
    let r := (n mod d)%Z in
    if (2 * r <? d)%Z then q
    else if (d <? 2 * r)%Z then (q + 1)%Z
    else if Z.even q then q else (q + 1)%Z.

(** Six digits, with leading zeros: those of [1000000 + n] but the first. *)
Definition six_digits (n : Z) : string :=
  match FormatUint (1000000 + n) with "" => "" | String _ s => s end.

Definition fixed6 (n : Z) : string :=
  FormatUint (n / 1000000) +:+ "." +:+ six_digits (n mod 1000000).

Definition FormatFloat6 (f : float64) : string :=
  match f with
  | S754_zero s => (if s then "-" else "") +:+ fixed6 0
  | S754_infinity s => if s then "-Inf" else "+Inf"
  | S754_nan => "NaN"
  | S754_finite s m e => (if s then "-" else "") +:+ fixed6 (millionths m e)
  end.

Example FormatFloat6_ex :
  FormatFloat6 (fdiv (float_of_Z 1) (float_of_Z (-3))) = "-0.333333" ∧
  FormatFloat6 (fadd (float_of_Z 90) (float_const 7205759403792794 (-53))) = "90.800000" ∧
  FormatFloat6 (fdiv (float_of_Z 1) (float_of_Z 128)) = "0.007812" ∧
  FormatFloat6 (fdiv (float_of_Z 1) float_zero) = "+Inf".
Proof. vm_compute. done. Qed.
