(* ===== verification/FloatTheory.v ===== *)
(** * Exact floating-point arithmetic

    The operations of [GoFloat] are exact on integers of at most 53 bits times a
    power of two: conversion from and to integers, adding 0, subtracting 1 and
    scaling by a power of two, which is what the rate limiter and the backoff of
    the IRC client rely on. *)

From S2P Require Import Prelude GoStrings GoNum GoFloat.
Local Open Scope Z_scope.

(** ** Binary digits *)

Lemma digits2_pos_size m : digits2_pos m = Pos.size m.
Proof. induction m; cbn; congruence. Qed.

Lemma digits2_bounds m : 2 ^ (Zpos (digits2_pos m) - 1) ≤ Zpos m < 2 ^ Zpos (digits2_pos m).
Proof.
  rewrite digits2_pos_size. split.
  - pose proof (Pos.size_le m). 
    assert (Zpos (2 ^ Pos.size m) = 2 ^ Zpos (Pos.size m)) as E by apply Pos2Z.inj_pow.
    assert (2 ^ Zpos (Pos.size m) = 2 * 2 ^ (Zpos (Pos.size m) - 1)).
    { rewrite <- Z.pow_succ_r by lia. f_equal. lia. }
    lia.
  - pose proof (Pos.size_gt m). rewrite <- Pos2Z.inj_pow. lia.
Qed.

Lemma digits2_unique m d : 0 < d → 2 ^ (d - 1) ≤ Zpos m < 2 ^ d → Zpos (digits2_pos m) = d.
Proof.
  intros Hd [H1 H2]. pose proof (digits2_bounds m) as [H3 H4].
  assert (d - 1 < Zpos (digits2_pos m)) by (apply (Z.pow_lt_mono_r_iff 2); lia).
  assert (Zpos (digits2_pos m) - 1 < d) by (apply (Z.pow_lt_mono_r_iff 2); lia).
  lia.
Qed.

Lemma iter_xO m d : Zpos (Pos.iter xO m d) = Zpos m * 2 ^ Zpos d.
Proof.
  induction d as [|d IH] using Pos.peano_ind; [cbn; lia|].
  rewrite Pos.iter_succ, Pos2Z.inj_xO, IH, Pos2Z.inj_succ, Z.pow_succ_r by lia. lia.
Qed.

Lemma iter_pos_iter {A} (f : A → A) n x : SpecFloat.iter_pos f n x = Pos.iter f x n.
Proof.
  revert x. induction n as [n IH|n IH|]; intros x; cbn; rewrite ?IH; [|done|done].
  by rewrite <- !Pos.iter_swap.
Qed.

Lemma shr_exact m p :
  SpecFloat.iter_pos shr_1 p (Build_shr_record (Z.pos m * 2 ^ Zpos p) false false) =
  Build_shr_record (Z.pos m) false false.
Proof.
  rewrite iter_pos_iter. induction p as [|p IH] using Pos.peano_ind.
  - rewrite Z.mul_comm. done.
  - rewrite Pos.iter_succ_r, Pos2Z.inj_succ, Z.pow_succ_r by lia.
    replace (Z.pos m * (2 * 2 ^ Z.pos p)) with (2 * (Zpos m * 2 ^ Zpos p)) by lia.
    assert (∃ q, Zpos m * 2 ^ Zpos p = Zpos q) as [q Hq].
    { exists (Pos.iter xO m p). by rewrite iter_xO. }
    rewrite Hq in *. rewrite <- IH. done.
Qed.

(** The 53-bit mantissa of a positive number and its exponent. *)
Definition mantissa (m : positive) : positive := Z.to_pos (Zpos m * 2 ^ (53 - Zpos (digits2_pos m))).
Definition exponent (m : positive) : Z := Zpos (digits2_pos m) - 53.

Lemma digits2_shift m k : 0 ≤ k →
  Zpos (digits2_pos (Z.to_pos (Zpos m * 2 ^ k))) = Zpos (digits2_pos m) + k.
Proof.
  intros Hk. pose proof (digits2_bounds m) as [H1 H2].
  assert (0 < 2 ^ k) by lia.
  apply digits2_unique; [lia|]. rewrite Z2Pos.id by lia.
  replace (Z.pos (digits2_pos m) + k - 1) with ((Z.pos (digits2_pos m) - 1) + k) by lia.
  rewrite !Z.pow_add_r by lia. nia.
Qed.

Lemma mantissa_Z m : Zpos (digits2_pos m) ≤ 53 →
  Zpos (mantissa m) = Zpos m * 2 ^ (53 - Zpos (digits2_pos m)).
Proof. intros. unfold mantissa. rewrite Z2Pos.id; [done|]. assert (0 < 2 ^ (53 - Zpos (digits2_pos m))) by lia. lia. Qed.

Lemma digits2_mantissa m : Zpos (digits2_pos m) ≤ 53 → Zpos (digits2_pos (mantissa m)) = 53.
Proof. intros. unfold mantissa. rewrite digits2_shift by lia. lia. Qed.

(** ** Rounding what needs no rounding *)

Lemma fexp_53 e : -1074 ≤ e → fexp 53 1024 (53 + e) = e.
Proof. unfold fexp, emin. lia. Qed.

Lemma shr_fexp_id m e :
  Zpos (digits2_pos m) = 53 → -1074 ≤ e →
  shr_fexp 53 1024 (Zpos m) e loc_Exact = (Build_shr_record (Zpos m) false false, e).
Proof.
  intros Hd He. unfold shr_fexp. cbn [Zdigits2 shr_record_of_loc].
  rewrite Hd, fexp_53 by done. by rewrite Z.sub_diag.
Qed.

Lemma binary_round_aux_exact s m p e :
  Zpos (digits2_pos m) = 53 → 0 ≤ p → -1074 ≤ e + p →
  binary_round_aux 53 1024 s (Zpos m * 2 ^ p) e loc_Exact =
    if (e + p <=? 971) then S754_finite s m (e + p) else S754_infinity s.
Proof.
  intros Hd Hp He. unfold binary_round_aux.
  assert (shr_fexp 53 1024 (Zpos m * 2 ^ p) e loc_Exact =
    (Build_shr_record (Zpos m) false false, e + p)) as ->.
  { destruct p as [|p|]; [|  |lia].
    - rewrite Z.mul_1_r, Z.add_0_r. apply shr_fexp_id; lia.
    - unfold shr_fexp. rewrite <- (Z2Pos.id (Z.pos m * 2 ^ Z.pos p)) by lia.
      cbn [Zdigits2 shr_record_of_loc]. rewrite digits2_shift, Hd by lia.
      rewrite Z2Pos.id by lia.
      replace (53 + Z.pos p + e) with (53 + (e + Zpos p)) by lia.
      rewrite fexp_53 by lia. replace (e + Z.pos p - e) with (Z.pos p) by lia.
      cbn [shr]. by rewrite shr_exact. }
  cbn [shr_m loc_of_shr_record round_nearest_even]. rewrite shr_fexp_id by lia.
  done.
Qed.

Lemma shl_align_Z m e e' : e' ≤ e → Zpos (shl_align m e e').1 = Zpos m * 2 ^ (e - e').
Proof.
  intros. unfold shl_align. destruct (e' - e) as [|p|p] eqn:E; [|lia|]; cbn [fst].
  - replace (e - e') with 0 by lia. lia.
  - rewrite iter_xO. do 2 f_equal. lia.
Qed.

(** Rounding an integer of at most 53 bits, times a power of two, is exact. *)
Lemma binary_round_exact s m p e :
  Zpos (digits2_pos m) ≤ 53 → 0 ≤ p → -1074 ≤ exponent m + (e + p) ≤ 971 →
  binary_round 53 1024 s (Z.to_pos (Zpos m * 2 ^ p)) e =
    S754_finite s (mantissa m) (exponent m + (e + p)).
Proof.
  intros Hd Hp He. unfold exponent in *. unfold binary_round.
  set (n := Z.to_pos (Zpos m * 2 ^ p)). set (d := Zpos (digits2_pos m)) in *.
  assert (Zpos n = Zpos m * 2 ^ p) as Hn.
  { unfold n. rewrite Z2Pos.id; [done|]. assert (0 < 2 ^ p) by lia. lia. }
  assert (Zpos (digits2_pos n) = d + p) as Hdn by (by apply digits2_shift).
  rewrite Hdn. replace (d + p + e) with (53 + (d - 53 + (e + p))) by lia.
  rewrite fexp_53 by lia. set (e' := d - 53 + (e + p)).
  destruct (decide (e' ≤ e)) as [Hle|Hgt].
  - pose proof (shl_align_Z n e e' Hle) as Hz.
    assert ((shl_align n e e').2 = e') as H2.
    { unfold shl_align. destruct (e' - e) eqn:E; cbn; lia. }
    destruct (shl_align n e e') as [mz ez]. cbn in Hz, H2. subst ez.
    assert (Zpos mz = Zpos (mantissa m) * 2 ^ 0) as ->.
    { rewrite Hz, Hn, mantissa_Z, <- !Z.mul_assoc, <- !Z.pow_add_r by lia. fold d. do 2 f_equal. lia. }
    rewrite binary_round_aux_exact; [|by apply digits2_mantissa|lia|lia].
    rewrite Z.add_0_r. destruct (e' <=? 971) eqn:E; [done|lia].
  - assert (shl_align n e e' = (n, e)) as ->.
    { unfold shl_align. destruct (e' - e) eqn:E; [done|done|lia]. }
    assert (Zpos n = Zpos (mantissa m) * 2 ^ (e' - e)) as ->.
    { rewrite Hn, mantissa_Z, <- Z.mul_assoc, <- Z.pow_add_r by lia. fold d. do 2 f_equal. lia. }
    rewrite binary_round_aux_exact; [|by apply digits2_mantissa|lia|lia].
    replace (e + (e' - e)) with e' by lia. destruct (e' <=? 971) eqn:E; [done|lia].
Qed.

Lemma digits2_le m d : 0 < d → Zpos m < 2 ^ d → Zpos (digits2_pos m) ≤ d.
Proof.
  intros Hd Hm. pose proof (digits2_bounds m) as [H1 _].
  assert (Z.pos (digits2_pos m) - 1 < d) by (apply (Z.pow_lt_mono_r_iff 2); lia). lia.
Qed.

(** ** Integers as floating-point numbers *)

Lemma float_of_pos m : Zpos m < 2 ^ 53 →
  float_of_Z (Zpos m) = S754_finite false (mantissa m) (exponent m).
Proof.
  intros Hm. pose proof (digits2_le m 53 ltac:(lia) Hm) as Hd. unfold float_of_Z, binary_normalize.
  pose proof (binary_round_exact false m 0 0) as Hr.
  rewrite Z.mul_1_r, Pos2Z.id, !Z.add_0_r in Hr. apply Hr; unfold exponent; lia.
Qed.

Lemma fsub_1 n : 1 ≤ n < 2 ^ 53 → fsub (float_of_Z n) (float_of_Z 1) = float_of_Z (n - 1).
Proof.
  intros [Hn Hm]. destruct n as [|m|]; try lia. pose proof (digits2_le m 53 ltac:(lia) Hm) as Hd.
  rewrite float_of_pos by done.
  replace (float_of_Z 1) with (S754_finite false 4503599627370496 (-52)) by reflexivity.
  unfold fsub, SFsub. cbn [cond_Zopp].
  assert (-52 ≤ exponent m) as He by (unfold exponent; lia).
  rewrite Z.min_r by done. rewrite !shl_align_Z, mantissa_Z by lia.
  rewrite <- Z.mul_assoc, <- Z.pow_add_r by (unfold exponent in *; lia).
  replace (53 - Z.pos (digits2_pos m) + (exponent m - -52)) with 52 by (unfold exponent; lia).
  replace (-52 - -52) with 0 by lia. rewrite Z.mul_1_r.
  replace (Z.pos m * 2 ^ 52 - 4503599627370496) with ((Zpos m - 1) * 2 ^ 52) by lia.
  destruct (Zpos m - 1) as [|q|] eqn:E; [done| |lia].
  rewrite float_of_pos by lia.
  rewrite <- (Z2Pos.id (Z.pos q * 2 ^ 52)) by lia. unfold binary_normalize.
  pose proof (digits2_le q 53 ltac:(lia) ltac:(lia)) as Hq.
  rewrite binary_round_exact by (unfold exponent; lia). f_equal. lia.
Qed.

Lemma compare_of_Z a b :
  0 ≤ a < 2 ^ 53 → 0 ≤ b < 2 ^ 53 →
  SFcompare (float_of_Z a) (float_of_Z b) = Some (a ?= b).
Proof.
  intros [Ha Ha'] [Hb Hb']. destruct a as [|m|]; [| |lia]; destruct b as [|n|]; try lia.
  - done.
  - by rewrite (float_of_pos n).
  - by rewrite (float_of_pos m).
  - rewrite !float_of_pos by done. cbn [SFcompare]. f_equal.
    pose proof (digits2_le m 53 ltac:(lia) Ha') as Hm.
    pose proof (digits2_le n 53 ltac:(lia) Hb') as Hn.
    pose proof (digits2_bounds m) as [Hm1 Hm2]. pose proof (digits2_bounds n) as [Hn1 Hn2].
    unfold exponent in *.
    destruct (Z.compare_spec (Zpos (digits2_pos m) - 53) (Zpos (digits2_pos n) - 53)) as [E|E|E].
    + change (Pos.compare_cont Eq (mantissa m) (mantissa n))
        with (Zpos (mantissa m) ?= Zpos (mantissa n)).
      rewrite !mantissa_Z by lia. replace (Zpos (digits2_pos n)) with (Zpos (digits2_pos m)) by lia.
      symmetry. apply Zmult_compare_compat_r. lia.
    + symmetry. apply Z.compare_lt_iff.
      assert (2 ^ Zpos (digits2_pos m) ≤ 2 ^ (Zpos (digits2_pos n) - 1))
        by (apply Z.pow_le_mono_r; lia). lia.
    + symmetry. apply Z.compare_gt_iff.
      assert (2 ^ Zpos (digits2_pos n) ≤ 2 ^ (Zpos (digits2_pos m) - 1))
        by (apply Z.pow_le_mono_r; lia). lia.
Qed.

Lemma fleb_of_Z a b :
  0 ≤ a < 2 ^ 53 → 0 ≤ b < 2 ^ 53 → fleb (float_of_Z a) (float_of_Z b) = (a <=? b).
Proof. intros. unfold fleb, SFleb. rewrite compare_of_Z by done. unfold Z.leb. by destruct (a ?= b). Qed.

Lemma fltb_of_Z a b :
  0 ≤ a < 2 ^ 53 → 0 ≤ b < 2 ^ 53 → fltb (float_of_Z a) (float_of_Z b) = (a <? b).
Proof. intros. unfold fltb, SFltb. rewrite compare_of_Z by done. unfold Z.ltb. by destruct (a ?= b). Qed.

Lemma fadd_zero_r n s : 0 ≤ n < 2 ^ 53 → fadd (float_of_Z n) (S754_zero s) = float_of_Z n.
Proof.
  intros [Hn Hm]. destruct n as [|m|]; [by destruct s| |lia]. by rewrite float_of_pos.
Qed.

(** ** Scaling by a power of two, and the conversion back *)

Lemma trunc_finite m e k : 0 ≤ k → 0 ≤ e + k →
  trunc (S754_finite false (Z.to_pos (Zpos m * 2 ^ k)) e) = Some (Zpos m * 2 ^ (e + k)).
Proof.
  intros Hk He. cbn. rewrite Z2Pos.id by (assert (0 < 2 ^ k) by lia; lia).
  destruct (0 <=? e) eqn:E.
  - rewrite <- Z.mul_assoc, <- Z.pow_add_r by lia. do 3 f_equal. lia.
  - f_equal. replace k with ((e + k) + - e) at 1 by lia. rewrite Z.pow_add_r, Z.mul_assoc by lia.
    apply Z.div_mul. assert (0 < 2 ^ (- e)) by lia. lia.
Qed.

Lemma int_of_float_scaled `{FloatOverflow} n k :
  0 < n < 2 ^ 53 → 0 ≤ k →
  int_of_float (fmul (float_of_Z n) (Pow2 k)) =
    if n * 2 ^ k <=? max_int64 then n * 2 ^ k
    else float_overflow (fmul (float_of_Z n) (Pow2 k)).
Proof.
  intros [Hn Hm] Hk. destruct n as [|m|]; try lia. pose proof (digits2_le m 53 ltac:(lia) Hm) as Hd.
  rewrite float_of_pos by done. unfold Pow2.
  assert (0 < 2 ^ k) as Hpk by lia.
  destruct (k <? 1024) eqn:Ek; cycle 1.
  { cbn [fmul SFmul xorb int_of_float trunc].
    assert (max_int64 < 2 ^ 64) by done.
    assert (2 ^ 64 ≤ 2 ^ k) by (apply Z.pow_le_mono_r; lia).
    destruct (_ <=? _) eqn:E; [nia|done]. }
  unfold fmul, SFmul. cbn [xorb]. rewrite Pos2Z.inj_mul.
  replace (Zpos 4503599627370496) with (2 ^ 52) by done.
  assert (-1074 ≤ exponent m + (k - 52) + 52) as He by (unfold exponent; lia).
  rewrite binary_round_aux_exact; [|by apply digits2_mantissa|lia|done].
  replace (exponent m + (k - 52) + 52) with (exponent m + k) by lia.
  destruct (exponent m + k <=? 971) eqn:E971; cycle 1.
  { cbn [int_of_float trunc].
    assert (max_int64 < 2 ^ 64) by done.
    assert (2 ^ 64 ≤ 2 ^ k) by (apply Z.pow_le_mono_r; unfold exponent in *; lia).
    destruct (_ <=? max_int64) eqn:E; [nia|done]. }
  assert (trunc (S754_finite false (mantissa m) (exponent m + k)) = Some (Zpos m * 2 ^ k)) as Ht.
  { unfold mantissa. rewrite trunc_finite by (unfold exponent; lia). do 3 f_equal.
    unfold exponent. lia. }
  unfold int_of_float. rewrite Ht.
  assert (min_int64 <=? Z.pos m * 2 ^ k = true) as -> by (unfold min_int64; lia).
  cbn [andb]. done.
Qed.
