(* ===== verification/GoPath.v ===== *)
(** * Go's [path.Match]

    The access rules match channels and nicks with this function of the standard
    library. A pattern is cut into chunks at its stars; a chunk is matched at one
    place, and a star looks for the leftmost place where the next chunk matches. *)

From S2P Require Import Prelude GoStrings.

(** ** [utf8.DecodeRuneInString]

    The first rune of a string and its width; an invalid encoding is one byte wide
    and decodes to the replacement rune. *)
Definition RuneError : Z := 65533.

Definition byte_at (s : string) (i : nat) : Z :=
  match String.get i s with Some c => Z.of_nat (nat_of_ascii c) | None => 0 end.

Definition in_range (lo hi x : Z) : bool := (lo <=? x)%Z && (x <=? hi)%Z.

(** The payload of the continuation byte at [i]. *)
Definition cont (s : string) (i : nat) : Z := Z.land (byte_at s i) 63.

Definition DecodeRune (s : string) : Z * nat :=
  let b0 := byte_at s 0 in
  let b1 := byte_at s 1 in
  let tail i := in_range 128 191 (byte_at s i) in
  if bool_decide (s = "") then (RuneError, 0)
  else if (b0 <? 128)%Z then (b0, 1)
  else if in_range 194 223 b0 && tail 1 then (Z.lor (Z.shiftl (Z.land b0 31) 6) (cont s 1), 2)
  else if in_range (if (b0 =? 224)%Z then 160 else 128) (if (b0 =? 237)%Z then 159 else 191) b1 &&
          in_range 224 239 b0 && tail 2
  then (Z.lor (Z.shiftl (Z.land b0 15) 12) (Z.lor (Z.shiftl (cont s 1) 6) (cont s 2)), 3)
  else if in_range (if (b0 =? 240)%Z then 144 else 128) (if (b0 =? 244)%Z then 143 else 191) b1 &&
          in_range 240 244 b0 && tail 2 && tail 3
  then (Z.lor (Z.shiftl (Z.land b0 7) 18)
         (Z.lor (Z.shiftl (cont s 1) 12) (Z.lor (Z.shiftl (cont s 2) 6) (cont s 3))), 4)
  else (RuneError, 1).

Definition drop_str (n : nat) (s : string) : string := String.substring n (String.length s) s.

(** ** [getEsc], [matchChunk] *)

(** The next rune of a class, maybe escaped; [None] is [ErrBadPattern]. *)
Definition getEsc (chunk : string) : option (Z * string) :=
  let decode chunk :=
    let '(r, n) := DecodeRune chunk in
    if bool_decide (r = RuneError) && bool_decide (n = 1) then None
    else if bool_decide (drop_str n chunk = "") then None else Some (r, drop_str n chunk) in
  match chunk with
  | "" => None
  | String c rest =>
      if bool_decide (c = "-"%char) || bool_decide (c = "]"%char) then None
      else if bool_decide (c = "\"%char) then
        if bool_decide (rest = "") then None else decode rest
      else decode chunk
  end.

Definition strip_byte (c : ascii) (s : string) : option string :=
  match s with
  | "" => None
  | String d s => if bool_decide (c = d) then Some s else None
  end.

(** One range of a class: its bounds and the text after it. *)
Definition class_range (chunk : string) : option (Z * Z * string) :=
  '(lo, chunk) ← getEsc chunk;
  match strip_byte "-" chunk with
  | Some chunk => '(hi, chunk) ← getEsc chunk; Some (lo, hi, chunk)
  | None => Some (lo, lo, chunk)
  end.

(** One round of the loop over the ranges of a class. The state: the pattern, the
    number of ranges so far and whether one of them had the rune. *)
Definition class_step (r : Z) (st : string * nat * bool)
    : string * nat * bool + option (bool * string) :=
  let '(chunk, nrange, match_) := st in
  match (if bool_decide (0 < nrange) then strip_byte "]" chunk else None) with
  | Some chunk => inr (Some (match_, chunk))
  | None =>
      match class_range chunk with
      | None => inr None
      | Some (lo, hi, chunk) =>
          inl (chunk, S nrange, match_ || ((lo <=? r)%Z && (r <=? hi)%Z))
      end
  end.

Lemma length_drop_str n s : String.length (drop_str n s) = String.length s - n.
Proof.
  unfold drop_str. assert (∀ n m s, String.length s - n ≤ m →
    String.length (String.substring n m s) = String.length s - n) as H; [|apply H; lia].
  clear. intros n m s. revert n m. induction s as [|c s IH]; intros [|n] [|m]; cbn; try lia.
  - intros Hle. rewrite (IH 0 m) by lia. lia.
  - intros Hle. apply (IH n 0). lia.
  - intros Hle. apply (IH n (S m)). lia.
Qed.

Lemma DecodeRune_width s : s ≠ "" → 0 < (DecodeRune s).2.
Proof.
  intros Hs. unfold DecodeRune. rewrite (bool_decide_eq_false_2 (s = "")) by done.
  repeat match goal with |- context [if ?b then _ else _] => destruct b end; cbn; lia.
Qed.

Lemma getEsc_shorter chunk r rest :
  getEsc chunk = Some (r, rest) → String.length rest < String.length chunk.
Proof.
  assert (∀ s r rest, (let '(r, n) := DecodeRune s in
      if bool_decide (r = RuneError) && bool_decide (n = 1) then None
      else if bool_decide (drop_str n s = "") then None else Some (r, drop_str n s)) =
      Some (r, rest) → String.length rest < String.length s) as Hd.
  { intros s r' rest'. destruct (decide (s = "")) as [->|Hs]; [done|].
    pose proof (DecodeRune_width s Hs) as Hn. destruct (DecodeRune s) as [r0 n]. cbn in Hn.
    destruct (_ && _); [done|]. case_bool_decide; [done|]. intros [= <- <-].
    rewrite length_drop_str. destruct s; [done|cbn; lia]. }
  destruct chunk as [|c chunk]; [done|]. cbn [getEsc].
  repeat case_bool_decide; try done; cbn [orb]; intros H'; apply Hd in H'; cbn in *; lia.
Qed.

Lemma strip_byte_shorter c s s' :
  strip_byte c s = Some s' → String.length s' < String.length s.
Proof. destruct s as [|d s]; [done|]. cbn. case_bool_decide; [|done]. intros [= ->]. cbn. lia. Qed.

Lemma class_range_shorter chunk lo hi rest :
  class_range chunk = Some (lo, hi, rest) → String.length rest < String.length chunk.
Proof.
  unfold class_range. destruct (getEsc chunk) as [[lo' c]|] eqn:E1; [|done]. cbn.
  apply getEsc_shorter in E1. destruct (strip_byte "-" c) as [c'|] eqn:E2.
  - apply strip_byte_shorter in E2. destruct (getEsc c') as [[hi' c'']|] eqn:E3; [|done].
    cbn. apply getEsc_shorter in E3. intros [= <- <- <-]. lia.
  - intros [= <- <- <-]. lia.
Qed.

Lemma class_step_decreasing r : decreasing (class_step r) (λ st, String.length st.1.1).
Proof.
  intros [[chunk nrange] m] st'. unfold class_step.
  destruct (if bool_decide _ then _ else _); [done|].
  destruct (class_range chunk) as [[[lo hi] rest]|] eqn:E; [|done].
  apply class_range_shorter in E. intros [= <-]. cbn. lia.
Qed.

(** The class after its bracket: whether it has the rune, and the text after it. *)
Definition parse_class (r : Z) (chunk : string) : option (bool * string) :=
  loop (class_step_decreasing r) (chunk, 0, false).

Lemma parse_class_shorter r chunk m rest :
  parse_class r chunk = Some (m, rest) → String.length rest < String.length chunk.
Proof.
  unfold parse_class. intros E.
  assert (match loop (class_step_decreasing r) (chunk, 0, false) with
          | Some (_, rest) => String.length rest < String.length chunk | None => True end) as H;
    [|by rewrite E in H].
  apply (loop_inv _ _ _ (λ st, String.length st.1.1 ≤ String.length chunk)
    (λ o, match o with
          | Some (_, rest) => String.length rest < String.length chunk | None => True end));
    [done|..].
  - intros s s' Hs Hstep. apply (class_step_decreasing r) in Hstep. lia.
  - intros [[c n] m'] o Hc. cbn in Hc. unfold class_step.
    destruct (if bool_decide _ then _ else _) as [c'|] eqn:E1.
    + intros [= <-]. case_bool_decide; [|done]. apply strip_byte_shorter in E1. lia.
    + destruct (class_range c) as [[[lo hi] c']|]; [done|]. by intros [= <-].
Qed.

(** The result of [matchChunk]: [ErrBadPattern], no match, or what follows the
    match. *)
Inductive ChunkResult := BadPattern | NoMatch | Rest (s : string).

(** One round of the loop of [matchChunk]. The state: whether the match failed,
    the rest of the chunk and the rest of the name. *)
Definition chunk_step (st : bool * string * string) : bool * string * string + ChunkResult :=
  let '(failed, chunk, s) := st in
  match chunk with
  | "" => inr (if failed then NoMatch else Rest s)
  | String c chunk =>
      let failed := failed || bool_decide (s = "") in
      let '(r, n) := if failed then (0%Z, 0) else DecodeRune s in
      if bool_decide (c = "["%char) then
        let '(negated, chunk) := match strip_byte "^" chunk with
                                 | Some chunk => (true, chunk)
                                 | None => (false, chunk)
                                 end in
        match parse_class r chunk with
        | None => inr BadPattern
        | Some (match_, chunk) => inl (failed || Bool.eqb match_ negated, chunk, drop_str n s)
        end
      else if bool_decide (c = "?"%char) then
        inl (failed || bool_decide (String.get 0 s = Some "/"%char), chunk, drop_str n s)
      else
        match (if bool_decide (c = "\"%char)
               then match chunk with "" => None | String c chunk => Some (c, chunk) end
               else Some (c, chunk)) with
        | None => inr BadPattern
        | Some (c, chunk) =>
            if failed then inl (true, chunk, s)
            else inl (bool_decide (String.get 0 s ≠ Some c), chunk, drop_str 1 s)
        end
  end.

Lemma chunk_step_decreasing : decreasing chunk_step (λ st, String.length st.1.2).
Proof.
  intros [[failed chunk] s] st'. unfold chunk_step. destruct chunk as [|c chunk]; [done|].
  destruct (if failed || _ then _ else _) as [r n]. case_bool_decide.
  - destruct (match strip_byte "^" chunk with Some _ => _ | None => _ end) as [neg c'] eqn:E1.
    assert (String.length c' ≤ String.length chunk).
    { destruct (strip_byte "^" chunk) eqn:E2; injection E1 as <- <-; [|done].
      apply strip_byte_shorter in E2. lia. }
    destruct (parse_class r c') as [[m c'']|] eqn:E3; [|done].
    apply parse_class_shorter in E3. intros [= <-]. cbn. lia.
  - case_bool_decide; [by intros [= <-]; cbn; lia|].
    case_bool_decide; [destruct chunk as [|c' chunk]; [done|]|];
      destruct (failed || _); intros [= <-]; cbn; lia.
Qed.

Definition matchChunk (chunk s : string) : ChunkResult :=
  loop chunk_step_decreasing (false, chunk, s).

(** ** [scanChunk] *)

Fixpoint strip_stars (pattern : string) : string :=
  match pattern with
  | "" => ""
  | String c rest => if bool_decide (c = "*"%char) then strip_stars rest else pattern
  end.

(** The chunk: up to a star that is not in a class or escaped. *)
Fixpoint scan (inrange : bool) (pattern : string) : string * string :=
  match pattern with
  | "" => ("", "")
  | String c rest =>
      if bool_decide (c = "\"%char) then
        match rest with
        | "" => (String c "", "")
        | String d rest => let '(chunk, rest) := scan inrange rest in (String c (String d chunk), rest)
        end
      else if bool_decide (c = "*"%char) && negb inrange then ("", pattern)
      else
        let inrange := if bool_decide (c = "["%char) then true
                       else if bool_decide (c = "]"%char) then false else inrange in
        let '(chunk, rest) := scan inrange rest in (String c chunk, rest)
  end.

Definition scanChunk (pattern : string) : bool * string * string :=
  let '(chunk, rest) := scan false (strip_stars pattern) in
  (HasPrefix pattern "*", chunk, rest).

(** ** [Match] *)

(** A match counts when the pattern goes on or the name is used up. *)
Definition accepted (rest : string) (res : ChunkResult) : option string :=
  match res with
  | Rest t => if bool_decide (t = "") || bool_decide (rest ≠ "") then Some t else None
  | _ => None
  end.

(** The search after a star: [inl] when the pattern is bad; the name after the
    first place that counts, if any. *)
Fixpoint skip (chunk rest name : string) : unit + option string :=
  match name with
  | "" => inr None
  | String c name =>
      if bool_decide (c = "/"%char) then inr None
      else
        let res := matchChunk chunk name in
        match accepted rest res with
        | Some t => inr (Some t)
        | None => match res with BadPattern => inl () | _ => skip chunk rest name end
        end
  end.

Lemma strip_stars_head pattern :
  strip_stars pattern = "" ∨
  ∃ c rest, strip_stars pattern = String c rest ∧ c ≠ "*"%char.
Proof.
  induction pattern as [|c p IH]; [by left|]. cbn. case_bool_decide; [done|]. right. by eexists _, _.
Qed.

Lemma strip_stars_le pattern : String.length (strip_stars pattern) ≤ String.length pattern.
Proof. induction pattern as [|c p IH]; [done|]. cbn. case_bool_decide; cbn; lia. Qed.

Lemma scan_shorter n inrange pattern chunk rest :
  String.length pattern ≤ n → scan inrange pattern = (chunk, rest) →
  String.length rest ≤ String.length pattern ∧
  (chunk ≠ "" → String.length rest < String.length pattern).
Proof.
  revert inrange pattern chunk rest. induction n as [|n IH]; intros ir p ch rest Hn.
  - destruct p; [|cbn in Hn; lia]. by intros [= <- <-].
  - destruct p as [|c p]; [by intros [= <- <-]|]. cbn in Hn. cbn [scan]. case_bool_decide.
    + destruct p as [|d p]; [intros [= <- <-]; cbn; split; [lia|intros _; lia]|].
      destruct (scan ir p) as [ch' rest'] eqn:E. intros [= <- <-]. cbn in Hn.
      apply IH in E; [|lia]. cbn. split; lia.
    + destruct (_ && _); [by intros [= <- <-]|].
      destruct (scan _ p) as [ch' rest'] eqn:E. intros [= <- <-].
      apply IH in E; [|lia]. cbn. split; lia.
Qed.

Lemma scanChunk_shorter pattern star chunk rest :
  pattern ≠ "" → scanChunk pattern = (star, chunk, rest) →
  String.length rest < String.length pattern.
Proof.
  intros Hp. unfold scanChunk. destruct (scan false (strip_stars pattern)) as [ch r] eqn:E.
  intros [= <- <- <-]. pose proof (strip_stars_le pattern) as Hle.
  destruct (strip_stars_head pattern) as [E0|(c & r' & Es & Hc)].
  - rewrite E0 in E. injection E as <- <-. destruct pattern; [done|]. cbn. lia.
  - destruct (scan_shorter _ _ _ _ _ (Nat.le_refl _) E) as [_ H].
    apply Nat.lt_le_trans with (2 := Hle). apply H. intros ->.
    rewrite Es in E. cbn [scan] in E. rewrite (bool_decide_eq_false_2 (c = "*"%char)) in E by done.
    cbn [andb] in E. case_bool_decide.
    + destruct r' as [|d r']; [done|]. by destruct (scan false r').
    + by destruct (scan _ r').
Qed.

(** The check of the rest of the pattern before a match fails. *)
Definition check_step (pattern : string) : string + bool :=
  match pattern with
  | "" => inr true
  | _ =>
      let '(_, chunk, rest) := scanChunk pattern in
      match matchChunk chunk "" with BadPattern => inr false | _ => inl rest end
  end.

Lemma check_step_decreasing : decreasing check_step String.length.
Proof.
  intros p p'. unfold check_step. destruct p as [|c p]; [done|].
  destruct (scanChunk (String c p)) as [[star chunk] rest] eqn:E.
  apply scanChunk_shorter in E; [|done]. destruct (matchChunk chunk ""); try done; by intros [= <-].
Qed.

Definition well_formed (pattern : string) : bool := loop check_step_decreasing pattern.

(** One round of the outer loop. The state: the rests of the pattern and of the
    name. The result [None] is [ErrBadPattern]. *)
Definition match_step (st : string * string) : string * string + option bool :=
  let '(pattern, name) := st in
  match pattern with
  | "" => inr (Some (bool_decide (name = "")))
  | _ =>
      let '(star, chunk, rest) := scanChunk pattern in
      if star && bool_decide (chunk = "") then inr (Some (negb (in_string "/" name)))
      else
        let res := matchChunk chunk name in
        match accepted rest res with
        | Some t => inl (rest, t)
        | None =>
            match res with
            | BadPattern => inr None
            | _ =>
                match (if star then skip chunk rest name else inr None) with
                | inl _ => inr None
                | inr (Some t) => inl (rest, t)
                | inr None => inr (if well_formed rest then Some false else None)
                end
            end
        end
  end.

Lemma match_step_decreasing : decreasing match_step (λ st, String.length st.1).
Proof.
  intros [p name] st'. unfold match_step. destruct p as [|c p]; [done|].
  destruct (scanChunk (String c p)) as [[star chunk] rest] eqn:E.
  apply scanChunk_shorter in E; [|done].
  destruct (star && _); [done|]. destruct (accepted _ _); [by intros [= <-]|].
  destruct (matchChunk _ _); try done;
    (destruct (if star then _ else _) as [|[t|]]; [done| |done]); by intros [= <-].
Qed.

(** [path.Match(pattern, name)]: [None] is [ErrBadPattern]. *)
Definition path_Match (pattern name : string) : option bool :=
  loop match_step_decreasing (pattern, name).

Example path_Match_ex :
  path_Match "agent-*-?[0-9a-f]" "agent-build-x7" = Some true ∧
  path_Match "*.go" "a/b.go" = Some false ∧ path_Match "a*b*c" "axbxbxc" = Some true ∧
  path_Match "[^é]x" "éx" = Some false ∧ path_Match "[]a]" "]" = None ∧
  path_Match "[\]a]" "]" = Some true ∧ path_Match "a[" "a" = None ∧ path_Match "a[" "b" = None ∧
  path_Match "*x" "xxx" = Some true ∧ path_Match "[x-a]" "b" = Some false.
Proof. vm_compute. repeat split. Qed.

(** ** Patterns without classes, question marks and escapes

    The meaning of such a pattern, with no algorithm: a star stands for any text
    without a slash. *)
Inductive glob : string → string → Prop :=
| glob_nil : glob "" ""
| glob_byte c p s : c ≠ "*"%char → glob p s → glob (String c p) (String c s)
| glob_empty p s : glob p s → glob (String "*" p) s
| glob_more p c s : c ≠ "/"%char → glob (String "*" p) s → glob (String "*" p) (String c s).

Definition literal_byte (c : ascii) : bool :=
  negb (bool_decide (c = "["%char) || bool_decide (c = "?"%char) || bool_decide (c = "\"%char)).

Definition plain_pattern (p : string) : bool := all_bytes literal_byte p.

Definition slashless (s : string) : Prop := in_string "/" s = false.

Lemma literal_byte_spec c :
  literal_byte c = true → c ≠ "["%char ∧ c ≠ "?"%char ∧ c ≠ "\"%char.
Proof.
  unfold literal_byte. rewrite negb_true_iff, !orb_false_iff, !bool_decide_eq_false. tauto.
Qed.

(** *** The meaning, chunk by chunk *)

Lemma glob_chunk chunk p s :
  all_bytes (λ c, bool_decide (c ≠ "*"%char)) chunk = true →
  glob (chunk +:+ p) s ↔ ∃ t, s = chunk +:+ t ∧ glob p t.
Proof.
  revert s. induction chunk as [|c chunk IH]; intros s Hc.
  - setoid_rewrite app_str_nil_l. naive_solver.
  - cbn in Hc. apply andb_prop in Hc as [Hc1 Hc2]. apply bool_decide_eq_true in Hc1.
    rewrite app_str_cons. setoid_rewrite app_str_cons. split.
    + inversion 1 as [|c' p' s' _ Hg| |]; subst; [|done..].
      apply IH in Hg as (t & -> & Ht); [|done]. by exists t.
    + intros (t & -> & Ht). constructor; [done|]. apply IH; [done|]. by exists t.
Qed.

Lemma glob_no_star p s : in_string "*" p = false → glob p s ↔ s = p.
Proof.
  intros Hp. rewrite <- (app_str_nil_r p) at 1. rewrite glob_chunk.
  - split; [intros (t & -> & Ht); inversion Ht; by rewrite app_str_nil_r|].
    intros ->. exists "". by rewrite app_str_nil_r; split; [|constructor].
  - induction p as [|c p IH]; [done|]. cbn in *. apply orb_false_iff in Hp as [Hc Hp].
    apply bool_decide_eq_false in Hc. by rewrite bool_decide_eq_true_2, IH by congruence.
Qed.

Lemma glob_star p s :
  glob (String "*" p) s ↔ ∃ u t, s = u +:+ t ∧ slashless u ∧ glob p t.
Proof.
  split.
  - remember (String "*" p) as q eqn:Hq. intros Hg. induction Hg as [|c p' s Hc _ _|p' s Hg _|p' c s Hc _ IH].
    + done.
    + injection Hq as -> ->. done.
    + injection Hq as ->. by exists "", s.
    + destruct (IH Hq) as (u & t & -> & Hu & Ht). exists (String c u), t.
      split_and!; [done| |done]. unfold slashless. cbn.
      rewrite bool_decide_eq_false_2 by congruence. done.
  - intros (u & t & -> & Hu & Ht). induction u as [|c u IH]; [by constructor|].
    unfold slashless in Hu. cbn in Hu. apply orb_false_iff in Hu as [Hc Hu].
    apply bool_decide_eq_false in Hc. constructor; [congruence|]. by apply IH.
Qed.

Lemma glob_stars p s :
  HasPrefix p "*" = true →
  glob p s ↔ ∃ u t, s = u +:+ t ∧ slashless u ∧ glob (strip_stars p) t.
Proof.
  revert s. induction p as [|c p IH]; intros s Hp; [done|].
  apply HasPrefix_spec in Hp as [r Hr]. rewrite app_str_cons, app_str_nil_l in Hr.
  injection Hr as -> <-. cbn [strip_stars]. rewrite bool_decide_eq_true_2 by done.
  rewrite glob_star. destruct (HasPrefix p "*") eqn:Hp.
  - split; intros (u & t & -> & Hu & Ht).
    + apply IH in Ht as (u' & t' & -> & Hu' & Ht'); [|done].
      exists (u +:+ u'), t'. unfold slashless in *. rewrite app_str_assoc, in_string_app, Hu, Hu'.
      done.
    + exists u, t. split_and!; [done..|]. apply IH; [done|]. by exists "", t.
  - replace (strip_stars p) with p; [done|]. destruct p as [|c p]; [done|]. cbn.
    case_bool_decide as Hc; [subst; done|done].
Qed.

(** *** The algorithm on such patterns *)

Lemma drop_str_1 c s : drop_str 1 (String c s) = s.
Proof.
  unfold drop_str. cbn. assert (∀ n s, String.length s ≤ n → String.substring 0 n s = s) as H;
    [|apply H; lia].
  clear. induction n as [|n IH]; intros [|c s]; cbn; try done; [lia|]. intros ?. by rewrite IH by lia.
Qed.

Lemma matchChunk_loop chunk failed s :
  plain_pattern chunk = true →
  loop chunk_step_decreasing (failed, chunk, s) =
  if failed then NoMatch
  else match strip_prefix chunk s with Some t => Rest t | None => NoMatch end.
Proof.
  revert failed s. induction chunk as [|c chunk IH]; intros failed s Hp.
  - rewrite loop_unfold. cbn. by destruct failed, s.
  - cbn in Hp. apply andb_prop in Hp as [(H1 & H2 & H3)%literal_byte_spec Hp].
    rewrite loop_unfold. cbn [chunk_step].
    rewrite (bool_decide_eq_false_2 (c = "["%char)), (bool_decide_eq_false_2 (c = "?"%char)),
      (bool_decide_eq_false_2 (c = "\"%char)) by done.
    destruct failed; cbn [orb]; [by rewrite IH|].
    destruct s as [|d s]; [rewrite (bool_decide_eq_true_2 ("" = "")) by done; by rewrite IH|].
    rewrite (bool_decide_eq_false_2 (String d s = "")) by done.
    destruct (DecodeRune (String d s)) as [r n]. rewrite IH by done. rewrite drop_str_1. cbn.
    destruct (decide (c = d)) as [->|Hne].
    + by rewrite bool_decide_eq_false_2 by naive_solver.
    + by rewrite bool_decide_eq_true_2 by congruence.
Qed.

Lemma matchChunk_plain chunk s :
  plain_pattern chunk = true →
  matchChunk chunk s = match strip_prefix chunk s with Some t => Rest t | None => NoMatch end.
Proof. intros Hp. unfold matchChunk. by rewrite matchChunk_loop. Qed.

Lemma scan_plain p :
  plain_pattern p = true → scan false p = span (λ c, bool_decide (c ≠ "*"%char)) p.
Proof.
  induction p as [|c p IH]; [done|]. cbn. intros [(H1 & H2 & H3)%literal_byte_spec Hp]%andb_prop.
  rewrite (bool_decide_eq_false_2 (c = "\"%char)), (bool_decide_eq_false_2 (c = "["%char)) by done.
  rewrite andb_true_r. destruct (decide (c = "*"%char)) as [->|Hc]; [done|].
  rewrite (bool_decide_eq_false_2 (c = "*"%char)), (bool_decide_eq_true_2 (c ≠ "*"%char)) by done.
  case_bool_decide; by rewrite IH.
Qed.

(** What [scanChunk] finds in such a pattern. *)
Lemma scanChunk_plain p star chunk rest :
  plain_pattern p = true → scanChunk p = (star, chunk, rest) →
  star = HasPrefix p "*" ∧ strip_stars p = chunk +:+ rest ∧
  all_bytes (λ c, bool_decide (c ≠ "*"%char)) chunk = true ∧
  plain_pattern chunk = true ∧ plain_pattern rest = true ∧
  (rest = "" ∨ HasPrefix rest "*" = true).
Proof.
  intros Hp. assert (plain_pattern (strip_stars p) = true) as Hq.
  { induction p as [|c p IH]; [done|]. cbn in *. apply andb_prop in Hp as [Hc Hp].
    case_bool_decide; [by apply IH|]. cbn. by rewrite Hc. }
  unfold scanChunk. rewrite scan_plain by done.
  pose proof (span_app (λ c, bool_decide (c ≠ "*"%char)) (strip_stars p)) as Happ.
  pose proof (span_all (λ c, bool_decide (c ≠ "*"%char)) (strip_stars p)) as Hall.
  pose proof (span_stop (λ c, bool_decide (c ≠ "*"%char)) (strip_stars p)) as Hstop.
  destruct (span _ (strip_stars p)) as [ch r]. cbn in *. intros [= <- <- <-].
  rewrite <- Happ in Hq. unfold plain_pattern in Hq. rewrite all_bytes_app in Hq.
  apply andb_prop in Hq as [Hch Hr]. split_and!; try done.
  destruct r as [|c r]; [by left|right]. specialize (Hstop c r eq_refl).
  apply bool_decide_eq_false in Hstop. destruct (decide (c = "*"%char)) as [->|]; [done|by exfalso].
Qed.

Lemma well_formed_plain p : plain_pattern p = true → well_formed p = true.
Proof.
  intros Hp. unfold well_formed.
  apply (loop_inv _ _ _ (λ p, plain_pattern p = true) (λ b, b = true)); [done|..].
  - intros q q' Hq. unfold check_step. destruct q as [|c q]; [done|].
    destruct (scanChunk (String c q)) as [[star chunk] rest] eqn:E.
    apply scanChunk_plain in E as (_ & _ & _ & _ & Hr & _); [|done].
    destruct (matchChunk chunk ""); try done; by intros [= <-].
  - intros q b Hq. unfold check_step. destruct q as [|c q]; [by intros [= <-]|].
    destruct (scanChunk (String c q)) as [[star chunk] rest] eqn:E.
    apply scanChunk_plain in E as (_ & _ & _ & Hc & _ & _); [|done].
    rewrite matchChunk_plain by done. by destruct (strip_prefix chunk "").
Qed.

(** *** The leftmost place is as good as any *)

Fixpoint occurrences (c : ascii) (s : string) : nat :=
  match s with
  | "" => 0
  | String d s => (if bool_decide (c = d) then 1 else 0) + occurrences c s
  end.

Lemma occurrences_app c a b : occurrences c (a +:+ b) = occurrences c a + occurrences c b.
Proof. induction a as [|d a IH]; [done|]. rewrite app_str_cons. cbn. rewrite IH. lia. Qed.

Lemma occurrences_none c s : occurrences c s = 0 ↔ in_string c s = false.
Proof.
  induction s as [|d s IH]; [done|]. cbn. rewrite orb_false_iff, <- IH.
  case_bool_decide; split; [lia|by intros []|split; [done|lia]|intros []; lia].
Qed.

(** Two decompositions of a text, the first one not longer. *)
(** A later match leaves the name shorter, by a text without a slash. *)
Lemma later_match u u' chunk t t' :
  slashless u' → u +:+ chunk +:+ t = u' +:+ chunk +:+ t' → String.length u ≤ String.length u' →
  ∃ v, t = v +:+ t' ∧ slashless v.
Proof.
  intros Hu' E Hle. destruct (app_split_le _ _ _ _ E Hle) as (w & -> & Ew).
  rewrite (app_str_assoc w) in Ew. apply app_split_le in Ew as (v & Hv & ->);
    [|rewrite length_app_str; lia].
  exists v. split; [done|]. unfold slashless in *. rewrite in_string_app in Hu'.
  apply orb_false_iff in Hu' as [_ Hw]. apply occurrences_none. apply occurrences_none in Hw.
  apply (f_equal (occurrences "/")) in Hv. rewrite !occurrences_app in Hv. lia.
Qed.

(** The places that count: after a text without a slash. *)
Definition place (chunk rest name u t : string) : Prop :=
  name = u +:+ chunk +:+ t ∧ slashless u ∧ (t = "" ∨ rest ≠ "").

Lemma accepted_plain chunk rest name t :
  plain_pattern chunk = true →
  accepted rest (matchChunk chunk name) = Some t ↔ place chunk rest name "" t.
Proof.
  intros Hp. rewrite matchChunk_plain by done. unfold place. rewrite app_str_nil_l.
  destruct (strip_prefix chunk name) as [t'|] eqn:E; cbn.
  - apply strip_prefix_Some in E as ->. split.
    + destruct (bool_decide (t' = "") || bool_decide (rest ≠ "")) eqn:Eb; [|done].
      intros [= <-]. split_and!; [done..|]. apply orb_true_iff in Eb as [Eb|Eb];
        apply bool_decide_eq_true in Eb; tauto.
    + intros (Ht & _ & Hor). apply app_str_inv_l in Ht as ->.
      destruct (bool_decide (t = "") || bool_decide (rest ≠ "")) eqn:Eb; [done|].
      apply orb_false_iff in Eb as [E1%bool_decide_eq_false E2%bool_decide_eq_false]. tauto.
  - split; [done|]. intros (-> & _). by rewrite strip_prefix_app in E.
Qed.

Lemma place_cons chunk rest c name u t :
  place chunk rest (String c name) (String c u) t ↔ c ≠ "/"%char ∧ place chunk rest name u t.
Proof.
  unfold place, slashless. rewrite app_str_cons. cbn. rewrite orb_false_iff, bool_decide_eq_false.
  naive_solver.
Qed.

(** The search finds the first place after the start of the name. *)
Lemma skip_plain chunk rest name :
  plain_pattern chunk = true →
  match skip chunk rest name with
  | inl _ => False
  | inr None => ∀ u t, u ≠ "" → ¬ place chunk rest name u t
  | inr (Some t) => ∃ u, place chunk rest name u t ∧
      ∀ u' t', u' ≠ "" → place chunk rest name u' t' → String.length u ≤ String.length u'
  end.
Proof.
  intros Hp. induction name as [|c name IH].
  - cbn. intros [|d u] t Hu; [done|]. by intros (? & _).
  - cbn [skip]. case_bool_decide as Hc.
    + intros [|d u] t Hu; [done|]. intros H. pose proof H as (E & _). injection E as <- _.
      apply place_cons in H. tauto.
    + destruct (accepted rest (matchChunk chunk name)) as [t|] eqn:Ea.
      * apply accepted_plain in Ea; [|done]. exists (String c ""). split; [by apply place_cons|].
        intros [|d u'] t' Hu _; [done|]. cbn. lia.
      * assert (∀ t, ¬ place chunk rest name "" t) as Hno.
        { intros t Ht. apply accepted_plain in Ht; [|done]. congruence. }
        rewrite matchChunk_plain in * by done.
        assert (match skip chunk rest name with
          | inl _ => False
          | inr None => ∀ u t, u ≠ "" → ¬ place chunk rest (String c name) u t
          | inr (Some t) => ∃ u, place chunk rest (String c name) u t ∧
              ∀ u' t', u' ≠ "" → place chunk rest (String c name) u' t' →
              String.length u ≤ String.length u' end) as Hgoal; [|by destruct (strip_prefix chunk name)].
        destruct (skip chunk rest name) as [?|[t|]]; [done| |].
        -- destruct IH as (u & Hu & Hmin). exists (String c u). split; [by apply place_cons|].
           intros [|d u'] t' Hne H; [done|]. pose proof H as (E & _). injection E as <- _.
           apply place_cons in H as [_ H]. cbn. destruct (decide (u' = "")) as [->|Hu'].
           ++ by apply Hno in H.
           ++ apply Hmin in H; [lia|done].
        -- intros [|d u'] t' Hne H; [done|]. pose proof H as (E & _). injection E as <- _.
           apply place_cons in H as [_ H]. destruct (decide (u' = "")) as [->|Hu'].
           ++ by apply Hno in H.
           ++ by apply IH in H.
Qed.

Lemma glob_rest rest t u : glob rest t → rest = "" ∨ HasPrefix rest "*" = true →
  u = "" ∨ rest ≠ "" → slashless u → glob rest (u +:+ t).
Proof.
  intros Hg [->|Hr] Hor Hu; [by destruct Hor as [->|?]|].
  apply glob_stars in Hg as (v & t' & -> & Hv & Hg); [|done]. apply glob_stars; [done|].
  exists (u +:+ v), t'. unfold slashless in *.
  by rewrite app_str_assoc, in_string_app, Hu, Hv.
Qed.

Lemma glob_nonempty rest t : glob rest t → t = "" ∨ rest ≠ "".
Proof. intros Hg. destruct Hg; [by left|by right..]. Qed.

(** What a place tells about the rest, when it is not behind another place. *)
Lemma glob_at_place chunk rest name u t :
  place chunk rest name u t → rest = "" ∨ HasPrefix rest "*" = true →
  (∀ u' t', place chunk rest name u' t' → glob rest t' → String.length u ≤ String.length u') →
  glob rest t ↔ ∃ u' t', name = u' +:+ chunk +:+ t' ∧ slashless u' ∧ glob rest t'.
Proof.
  intros (E & Hu & Hor) Hr Hmin. split; [intros Hg; by exists u, t|].
  intros (u' & t' & E' & Hu' & Hg).
  assert (place chunk rest name u' t') as Hp by (split_and!; [done..|by eapply glob_nonempty]).
  apply Hmin in Hp; [|done]. rewrite E in E'.
  destruct (later_match _ _ _ _ _ Hu' E' Hp) as (v & -> & Hv).
  apply glob_rest; [done..| |done].
  destruct Hor as [Hv0|?]; [|by right]. left. by destruct v.
Qed.

(** The body of the outer loop on such a pattern. *)
Lemma match_step_plain p name star chunk rest :
  p ≠ "" → plain_pattern p = true → scanChunk p = (star, chunk, rest) →
  match_step (p, name) =
    if star && bool_decide (chunk = "") then inr (Some (negb (in_string "/" name)))
    else match accepted rest (matchChunk chunk name) with
         | Some t => inl (rest, t)
         | None =>
             match (if star then skip chunk rest name else inr None) with
             | inr (Some t) => inl (rest, t)
             | _ => inr (Some false)
             end
         end.
Proof.
  intros Hne Hp Hs. pose proof Hs as (_ & _ & _ & Hc & Hr & _)%scanChunk_plain; [|done].
  unfold match_step. destruct p as [|c p]; [done|]. rewrite Hs, well_formed_plain by done.
  destruct (star && _); [done|]. destruct (accepted _ _); [done|].
  pose proof (skip_plain chunk rest name Hc) as Hk. rewrite matchChunk_plain by done.
  destruct (strip_prefix chunk name), star, (skip chunk rest name) as [[]|[?|]]; done.
Qed.

Lemma strip_stars_none p : HasPrefix p "*" = false → strip_stars p = p.
Proof. destruct p as [|c p]; [done|]. intros Hp. cbn. case_bool_decide; [by subst|done]. Qed.

(** A name matches, or not, as the rest of it matches the rest of the pattern. *)
Lemma match_step_spec p name :
  p ≠ "" → plain_pattern p = true →
  match match_step (p, name) with
  | inr r => ∃ b, r = Some b ∧ (b = true ↔ glob p name)
  | inl (rest, t) => plain_pattern rest = true ∧ (glob rest t ↔ glob p name)
  end.
Proof.
  intros Hne Hp. destruct (scanChunk p) as [[star chunk] rest] eqn:Hs.
  rewrite (match_step_plain _ _ _ _ _ Hne Hp Hs).
  apply scanChunk_plain in Hs as (-> & Hq & Hstar & Hc & Hrp & Hr); [|done].
  destruct (HasPrefix p "*") eqn:Hpre; cbn [andb].
  - assert (glob p name ↔ ∃ u t, name = u +:+ chunk +:+ t ∧ slashless u ∧ glob rest t) as Hg.
    { rewrite glob_stars, Hq by done. setoid_rewrite (glob_chunk chunk rest); [|done].
      split; [intros (u & ? & -> & ? & t & -> & ?)|intros (u & t & -> & ? & ?)]; eauto 8. }
    case_bool_decide as Hch.
    { subst chunk. assert (rest = "") as ->.
      { rewrite app_str_nil_l in Hq. destruct Hr as [->|Hr]; [done|].
        destruct (strip_stars_head p) as [E|(c & r & E & Hcs)]; [by rewrite <- Hq|].
        rewrite Hq in E. subst rest. apply HasPrefix_spec in Hr as [r' Hr].
        rewrite app_str_cons in Hr. congruence. }
      eexists. split; [done|]. rewrite Hg, negb_true_iff. split.
      - intros Hn. exists name, "". split_and!; [by rewrite !app_str_nil_r|done|constructor].
      - intros (u & t & -> & Hu & Ht). inversion Ht. subst. by rewrite !app_str_nil_r. }
    destruct (accepted rest _) as [t|] eqn:Ea.
    + apply accepted_plain in Ea; [|done]. split; [done|].
      rewrite Hg. apply (glob_at_place _ _ _ _ _ Ea); [done|]. intros u' t' _ _. cbn. lia.
    + pose proof (skip_plain chunk rest name Hc) as Hk.
      assert (∀ t, ¬ place chunk rest name "" t) as Hno.
      { intros t Ht. apply accepted_plain in Ht; [|done]. congruence. }
      destruct (skip chunk rest name) as [[]|[t|]]; [done| |].
      * destruct Hk as (u & Hu & Hmin). split; [done|]. rewrite Hg.
        apply (glob_at_place _ _ _ _ _ Hu); [done|].
        intros u' t' Hp' _. apply (Hmin u' t'); [|done]. intros ->. by apply Hno in Hp'.
      * eexists. split; [done|]. rewrite Hg. split; [done|]. intros (u & t & E & Hu & Ht). exfalso.
        assert (place chunk rest name u t) as Hpl by (split_and!; [done..|by eapply glob_nonempty]).
        destruct (decide (u = "")) as [->|Hu']; [by apply Hno in Hpl|by apply Hk in Hpl].
  - rewrite strip_stars_none in Hq by done. subst p.
    pose proof (glob_chunk chunk rest name Hstar) as Hg.
    destruct (accepted rest _) as [t|] eqn:Ea.
    + apply accepted_plain in Ea as (-> & _); [|done]. split; [done|].
      rewrite Hg, app_str_nil_l. split; [by eauto|]. by intros (t' & <-%app_str_inv_l & ?).
    + eexists. split; [done|]. rewrite Hg. split; [done|]. intros (t & -> & Ht). exfalso.
      assert (accepted rest (matchChunk chunk (chunk +:+ t)) = Some t); [|congruence].
      apply accepted_plain; [done|]. split_and!; [done..|by eapply glob_nonempty].
Qed.

(** On such a pattern [path.Match] decides the meaning. *)
Lemma path_Match_plain p name :
  plain_pattern p = true → ∃ b, path_Match p name = Some b ∧ (b = true ↔ glob p name).
Proof.
  intros Hp. unfold path_Match.
  apply (loop_inv _ _ _
    (λ st, plain_pattern st.1 = true ∧ (glob st.1 st.2 ↔ glob p name))
    (λ r, ∃ b, r = Some b ∧ (b = true ↔ glob p name))); [done|..].
  - intros [q n] [q' n'] [Hq Hg] E. cbn in Hq, Hg.
    pose proof (match_step_spec q n) as Hs. rewrite E in Hs. destruct (decide (q = "")) as [->|Hne].
    + done.
    + destruct Hs as [Hq' Hg']; [done..|]. split; [done|]. cbn. by rewrite Hg'.
  - intros [q n] r [Hq Hg] E. cbn in Hq, Hg. destruct (decide (q = "")) as [->|Hne].
    + injection E as <-. eexists. split; [done|]. rewrite bool_decide_eq_true, <- Hg.
      split; [intros ->; constructor|by inversion 1].
    + pose proof (match_step_spec q n Hne Hq) as Hs. rewrite E in Hs.
      destruct Hs as (b & -> & Hb). exists b. by rewrite Hb.
Qed.
