(* ===== verification/GoMux.v ===== *)
(** * Go's [http.ServeMux]

    Routing as the two servers of the program use it: patterns with a method, whose
    path may have names in braces and may end with a slash. A request's path is given
    by its elements, unescaped and clean, without the first slash; a slash at the end
    makes an empty last element, so that a path has at least one element. *)

From S2P Require Import Prelude GoStrings.

(** ** Patterns *)

(** One element of a pattern: a text, a name in braces, the slash at the end. *)
Inductive Segment := Lit (s : string) | Wild (name : string) | Rest.

Record Route (H : Type) := { rt_method : string; rt_path : list Segment; rt_handler : H }.
Arguments rt_method {H}.
Arguments rt_path {H}.
Arguments rt_handler {H}.
Arguments Build_Route {H}.

(** The texts between the slashes; [cur] is the text since the last one. *)
Fixpoint path_elements (cur s : string) : list string :=
  match s with
  | EmptyString => [cur]
  | String c s => if Ascii.eqb c "/" then cur :: path_elements "" s
                  else path_elements (cur +:+ String c "") s
  end.

Definition segment_of (s : string) : Segment :=
  if String.eqb s "" then Rest
  else if HasPrefix s "{" && HasSuffix s "}" then Wild (String.substring 1 (String.length s - 2) s)
  else Lit s.

(** The method and the path of a pattern, which a blank separates. *)
Fixpoint split_method (cur s : string) : string * string :=
  match s with
  | EmptyString => (cur, "")
  | String c s => if Ascii.eqb c " " then (cur, s) else split_method (cur +:+ String c "") s
  end.

(** [mux.HandleFunc(pattern, handler)] *)
Definition HandleFunc {H} (pattern : string) (handler : H) : Route H :=
  let '(method, path) := split_method "" pattern in
  Build_Route method (segment_of <$> path_elements "" (TrimPrefix path "/")) handler.

Example HandleFunc_ex :
  HandleFunc "POST /api/agents/{nick}/stop" 7 =
    Build_Route "POST" [Lit "api"; Lit "agents"; Wild "nick"; Lit "stop"] 7 ∧
  HandleFunc "GET /" 8 = Build_Route "GET" [Rest] 8.
Proof. split; vm_compute; reflexivity. Qed.

(** ** Matching *)

(** The values of a pattern's names in a path that it matches. A name stands for one
    element that is not empty. *)
Fixpoint seg_match (pattern : list Segment) (path : list string) : option (list (string * string)) :=
  match pattern, path with
  | [], [] => Some []
  | [Rest], _ :: _ => Some []
  | Lit l :: pattern, s :: path => if String.eqb s l then seg_match pattern path else None
  | Wild name :: pattern, s :: path =>
      if String.eqb s "" then None
      else vars ← seg_match pattern path; Some ((name, s) :: vars)
  | _, _ => None
  end.

(** Of two patterns that match a path, the one that is more specific at the first
    difference is used. *)
Definition seg_rank (s : Segment) : nat := match s with Lit _ => 2 | Wild _ => 1 | Rest => 0 end.

Fixpoint more_specific (p q : list Segment) : bool :=
  match p, q with
  | a :: p, b :: q => if seg_rank a =? seg_rank b then more_specific p q else seg_rank b <? seg_rank a
  | _, _ => false
  end.

(** What a request gets; [vars] are the values of the names. *)
Inductive Found (H : Type) :=
| Handled (h : H) (vars : list (string * string))
| MethodNotAllowed
| NotFound.
Arguments Handled {H} h vars.
Arguments MethodNotAllowed {H}.
Arguments NotFound {H}.

(** [r.PathValue(name)] *)
Definition PathValue (name : string) (vars : list (string * string)) : string :=
  default "" (snd <$> find (λ v, String.eqb v.1 name) vars).

Section mux.
Context {H : Type}.

Definition route_match (r : Route H) (path : list string) : list (Route H * list (string * string)) :=
  match seg_match (rt_path r) path with Some vars => [(r, vars)] | None => [] end.

Definition matching (rs : list (Route H)) (method : string) (path : list string)
    : list (Route H * list (string * string)) :=
  flat_map (λ r, if String.eqb (rt_method r) method then route_match r path else []) rs.

Definition pick (r : Route H * list (string * string)) (best : option (Route H * list (string * string)))
    : option (Route H * list (string * string)) :=
  match best with
  | Some r' => if more_specific (rt_path r'.1) (rt_path r.1) then best else Some r
  | None => Some r
  end.

Definition best_route (rs : list (Route H)) (method : string) (path : list string)
    : option (Route H * list (string * string)) := foldr pick None (matching rs method path).



(** A pattern for GET is one for HEAD as well. *)
Definition mux (rs : list (Route H)) (method : string) (path : list string) : Found H :=
  let found := match best_route rs method path with
               | None => if String.eqb method "HEAD" then best_route rs "GET" path else None
               | found => found
               end in
  match found with
  | Some (r, vars) => Handled (rt_handler r) vars
  | None => if existsb (λ r, match seg_match (rt_path r) path with Some _ => true | None => false end) rs
            then MethodNotAllowed else NotFound
  end.

(** ** Lemmas *)

Definition outcome (best : option (Route H * list (string * string))) : Found H :=
  match best with
  | Some (r, vars) => Handled (rt_handler r) vars
  | None => MethodNotAllowed
  end.

Lemma matching_filter (rs : list (Route H)) method path :
  matching rs method path =
  flat_map (λ r, route_match r path) (List.filter (λ r, String.eqb (rt_method r) method) rs).
Proof.
  unfold matching. induction rs as [|r rs IH]; [done|]. cbn [flat_map List.filter].
  destruct (String.eqb _ _); cbn [flat_map app]; by rewrite IH.
Qed.

(** The routes of a method; [methods] are all that the routes have. *)
Lemma other_methods (methods : list string) (rs : list (Route H)) method :
  method ∉ methods → forallb (λ r, bool_decide (rt_method r ∈ methods)) rs = true →
  List.filter (λ r, String.eqb (rt_method r) method) rs = [].
Proof.
  intros Hm. induction rs as [|r rs IH]; [done|]. cbn [forallb List.filter].
  intros [Hr Hrs]%andb_true_iff. destruct (String.eqb_spec (rt_method r) method) as [<-|_]; [|by apply IH].
  by apply bool_decide_eq_true in Hr.
Qed.

(** With a pattern for every path, no path is unknown. *)
Lemma mux_outcome (rs : list (Route H)) method path :
  existsb (λ r, match rt_path r with [Rest] => true | _ => false end) rs = true → path ≠ [] →
  mux rs method path =
    outcome (match best_route rs method path with
             | None => if String.eqb method "HEAD" then best_route rs "GET" path else None
             | found => found
             end).
Proof.
  intros (r & Hin & Hr)%existsb_exists Hp. unfold mux, outcome.
  assert (existsb (λ r, match seg_match (rt_path r) path with Some _ => true | None => false end) rs
          = true) as ->; [|done].
  apply existsb_exists. exists r. split; [exact Hin|].
  destruct (rt_path r) as [|[| |] [|]]; try done. by destruct path.
Qed.
End mux.

(** Case analysis on the elements of a path. *)
Ltac decide_segments :=
  repeat (match goal with |- context [String.eqb ?x ?l] => destruct (String.eqb_spec x l); [subst x|] end;
          cbn -[foldr]);
  reflexivity.
