(* ===== verification/GoEncoding.v ===== *)
(** * More of Go's standard library: [strings.Fields], [strings.SplitN], [encoding/base64] *)

From Stdlib Require Import ZifyNat.
From S2P Require Import Prelude GoStrings.

(** ** [strings.Fields]

    A space is one of the encodings [spaces]; [skip] counts the bytes that are left of
    the last one. *)

Definition flush (cur : string) : list string := if String.eqb cur "" then [] else [cur].

Fixpoint fields_from (cur : string) (skip : nat) (s : string) : list string :=
  match s with
  | "" => flush cur
  | String c s' =>
      match skip with
      | S skip => fields_from cur skip s'
      | O => match strip_any spaces s with
             | Some rest => flush cur ++ fields_from "" (String.length s' - String.length rest) s'
             | None => fields_from (cur +:+ String c "") 0 s'
             end
      end
  end.

Definition Fields (s : string) : list string := fields_from "" 0 s.

Example Fields_ex :
  Fields ("  a  b" +:+ bytes [194; 160; 10] +:+ "c ") = ["a"; "b"; "c"] ∧ Fields " " = [].
Proof. vm_compute. done. Qed.

(** A word: not empty, and no byte of it occurs in a space. *)
Definition word (w : string) : bool :=
  negb (String.eqb w "") && all_bytes (λ c, negb (space_byte c)) w.

Lemma fields_from_word w cur s :
  all_bytes (λ c, negb (space_byte c)) w = true →
  fields_from cur 0 (w +:+ s) = fields_from (cur +:+ w) 0 s.
Proof.
  revert cur. induction w as [|c w IH]; intros cur; [by rewrite app_str_nil_l, app_str_nil_r|].
  cbn [all_bytes]. intros [Hc%negb_true_iff Hw]%andb_prop.
  pose proof (starts_space_cons c (w +:+ s) Hc) as Hs. unfold starts_space in Hs.
  rewrite app_str_cons. cbn [fields_from]. destruct (strip_any spaces _); [done|].
  rewrite IH by done. by rewrite <- app_str_assoc.
Qed.

Lemma strip_space r : strip_any spaces (String " " r) = Some r.
Proof. reflexivity. Qed.

Lemma fields_from_blank cur s : fields_from cur 0 (String " " s) = flush cur ++ Fields s.
Proof. cbn [fields_from]. rewrite strip_space. by rewrite Nat.sub_diag. Qed.

Lemma word_flush w : word w = true → flush w = [w].
Proof. unfold word, flush. by destruct (String.eqb w ""). Qed.

Lemma Fields_word w : word w = true → Fields w = [w].
Proof.
  intros H. assert (all_bytes (λ c, negb (space_byte c)) w = true) as Hw by by apply andb_prop in H as [_ ?].
  unfold Fields. rewrite <- (app_str_nil_r w), fields_from_word, app_str_nil_l by done.
  cbn [fields_from]. rewrite app_str_nil_r. by apply word_flush.
Qed.

Lemma Fields_cons w s : word w = true → Fields (w +:+ String " " s) = w :: Fields s.
Proof.
  intros H. assert (all_bytes (λ c, negb (space_byte c)) w = true) as Hw by by apply andb_prop in H as [_ ?].
  unfold Fields at 1. rewrite fields_from_word, app_str_nil_l, fields_from_blank by done. by rewrite word_flush.
Qed.

(** Words that are joined by blanks are found again. *)
Lemma Fields_Join words :
  Forall (λ w, word w = true) words → Fields (Join words " ") = words.
Proof.
  induction 1 as [|w words Hw Hws IH]; [done|]. destruct words as [|w2 words]; [by apply Fields_word|].
  change (Join (w :: w2 :: words) " ") with (w +:+ String " " (Join (w2 :: words) " ")).
  by rewrite Fields_cons, IH.
Qed.

(** ** [strings.SplitN(s, sep, 3)] with a one-byte separator *)

Fixpoint cut (sep : ascii) (s : string) : option (string * string) :=
  match s with
  | "" => None
  | String c s =>
      if Ascii.eqb c sep then Some ("", s)
      else '(a, b) ← cut sep s; Some (String c a, b)
  end.

Definition SplitN3 (sep : ascii) (s : string) : list string :=
  match cut sep s with
  | None => [s]
  | Some (a, rest) => match cut sep rest with None => [a; rest] | Some (b, c) => [a; b; c] end
  end.

Lemma cut_app sep a b : in_string sep a = false → cut sep (a +:+ String sep b) = Some (a, b).
Proof.
  induction a as [|c a IH].
  - intros _. rewrite app_str_nil_l. cbn. by rewrite Ascii.eqb_refl.
  - cbn [in_string]. intros [Hc Ha]%orb_false_iff. rewrite app_str_cons. cbn [cut].
    destruct (Ascii.eqb_spec c sep) as [->|_]; [by rewrite bool_decide_eq_true_2 in Hc|]. by rewrite IH.
Qed.

Lemma cut_Some sep s a b : cut sep s = Some (a, b) → s = a +:+ String sep b.
Proof.
  revert a. induction s as [|c s IH]; intros a; [done|]. cbn [cut].
  destruct (Ascii.eqb_spec c sep) as [->|_]; [by intros [= <- <-]|].
  destruct (cut sep s) as [[a' b']|]; [|done]. intros [= <- <-]. by rewrite (IH a').
Qed.

(** ** [base64.StdEncoding] *)

Definition alphabet : string := "ABCDEFGHIJKLMNOPQRSTUVWXYZabcdefghijklmnopqrstuvwxyz0123456789+/".

Definition digit (n : nat) : ascii := default "="%char (String.get n alphabet).

Fixpoint position (c : ascii) (s : string) : option nat :=
  match s with
  | "" => None
  | String d s => if Ascii.eqb c d then Some 0 else S <$> position c s
  end.

Definition digit_value (c : ascii) : option nat := position c alphabet.

(** [EncodeToString] *)
Fixpoint base64_encode (s : string) : string :=
  match s with
  | "" => ""
  | String a "" =>
      let a := nat_of_ascii a in
      String (digit (a / 4)) (String (digit (a mod 4 * 16)) "==")
  | String a (String b "") =>
      let a := nat_of_ascii a in let b := nat_of_ascii b in
      String (digit (a / 4)) (String (digit (a mod 4 * 16 + b / 16)) (String (digit (b mod 16 * 4)) "="))
  | String a (String b (String c s)) =>
      let a := nat_of_ascii a in let b := nat_of_ascii b in let c := nat_of_ascii c in
      String (digit (a / 4)) (String (digit (a mod 4 * 16 + b / 16))
        (String (digit (b mod 16 * 4 + c / 64)) (String (digit (c mod 64)) (base64_encode s))))
  end.

Fixpoint without_newlines (s : string) : string :=
  match s with
  | "" => ""
  | String c s => if Ascii.eqb c "010" || Ascii.eqb c "013" then without_newlines s
                  else String c (without_newlines s)
  end.

(** The bits that padding leaves over are not looked at. *)
Fixpoint quanta (s : string) : option string :=
  match s with
  | "" => Some ""
  | String a (String b (String c (String d rest))) =>
      x ← digit_value a;
      y ← digit_value b;
      let byte1 := ascii_of_nat (x * 4 + y / 16) in
      if Ascii.eqb c "=" then
        if Ascii.eqb d "=" && String.eqb rest "" then Some (String byte1 "") else None
      else
        z ← digit_value c;
        let byte2 := ascii_of_nat (y mod 16 * 16 + z / 4) in
        if Ascii.eqb d "=" then
          if String.eqb rest "" then Some (String byte1 (String byte2 "")) else None
        else
          w ← digit_value d;
          let byte3 := ascii_of_nat (z mod 4 * 64 + w) in
          more ← quanta rest;
          Some (String byte1 (String byte2 (String byte3 more)))
  | _ => None
  end.

(** [DecodeString]; [None] is an error. *)
Definition base64_decode (s : string) : option string := quanta (without_newlines s).

Example base64_ex :
  base64_encode (bytes [0] +:+ "alice" +:+ bytes [0] +:+ "secret") = "AGFsaWNlAHNlY3JldA==" ∧
  base64_decode "AGFsaWNlAHNlY3JldA=" = None.
Proof. vm_compute. done. Qed.

Lemma digit_table n :
  n < 64 → digit_value (digit n) = Some n ∧ Ascii.eqb (digit n) "=" = false ∧
    Ascii.eqb (digit n) "010" || Ascii.eqb (digit n) "013" = false.
Proof.
  intros H.
  assert (forallb (λ n, bool_decide (digit_value (digit n) = Some n) && negb (Ascii.eqb (digit n) "=") &&
    negb (Ascii.eqb (digit n) "010" || Ascii.eqb (digit n) "013")) (seq 0 64) = true)
    as Ht by (vm_compute; reflexivity).
  rewrite forallb_forall in Ht. specialize (Ht n).
  rewrite !andb_true_iff, !negb_true_iff, bool_decide_eq_true in Ht. apply and_assoc, Ht, in_seq. lia.
Qed.

Lemma digit_value_digit n : n < 64 → digit_value (digit n) = Some n.
Proof. apply digit_table. Qed.
Lemma digit_no_pad n : n < 64 → Ascii.eqb (digit n) "=" = false.
Proof. apply digit_table. Qed.
Lemma digit_no_newline n s : n < 64 → without_newlines (String (digit n) s) = String (digit n) (without_newlines s).
Proof. intros H. cbn [without_newlines]. destruct (digit_table n H) as (_ & _ & E). by rewrite E. Qed.

Lemma byte_bound c : nat_of_ascii c < 256.
Proof. apply nat_ascii_bounded. Qed.

Lemma byte_back c n : n = nat_of_ascii c → ascii_of_nat n = c.
Proof. intros ->. apply ascii_nat_embedding. Qed.

(** Arithmetic with divisions by constants. *)
Ltac euclid := zify; Z.to_euclidean_division_equations; lia.

Opaque digit digit_value.

(** What was encoded is decoded. *)
Lemma base64_roundtrip s : base64_decode (base64_encode s) = Some s.
Proof.
  unfold base64_decode. remember (String.length s) as n eqn:Hn. revert s Hn.
  induction n as [n IH] using lt_wf_ind. intros s Hn.
  destruct s as [|a [|b [|c s]]]; [done| | |]; cbn [base64_encode]; cbn zeta;
    pose proof (byte_bound a) as Ha; try pose proof (byte_bound b) as Hb; try pose proof (byte_bound c) as Hc.
  - assert (nat_of_ascii a / 4 < 64 ∧ nat_of_ascii a mod 4 * 16 < 64) as [H1 H2] by (repeat split; euclid).
    rewrite !digit_no_newline by done. cbn -[Nat.div Nat.modulo]. rewrite !digit_value_digit by done. cbn -[Nat.div Nat.modulo].
    do 2 f_equal. apply byte_back. euclid.
  - assert (nat_of_ascii a / 4 < 64 ∧ nat_of_ascii a mod 4 * 16 + nat_of_ascii b / 16 < 64 ∧
      nat_of_ascii b mod 16 * 4 < 64) as (H1 & H2 & H3) by (repeat split; euclid).
    rewrite !digit_no_newline by done. cbn [without_newlines Ascii.eqb Bool.eqb orb quanta].
    rewrite !digit_value_digit by done. cbn [mbind option_bind]. rewrite digit_no_pad by done. cbn -[Nat.div Nat.modulo].
    do 3 f_equal; try (apply byte_back; euclid).
  - assert (nat_of_ascii a / 4 < 64 ∧ nat_of_ascii a mod 4 * 16 + nat_of_ascii b / 16 < 64 ∧
      nat_of_ascii b mod 16 * 4 + nat_of_ascii c / 64 < 64 ∧ nat_of_ascii c mod 64 < 64)
      as (H1 & H2 & H3 & H4) by (repeat split; euclid).
    rewrite !digit_no_newline by done. cbn [quanta].
    rewrite !digit_value_digit by done. cbn [mbind option_bind]. rewrite !digit_no_pad by done.
    rewrite (IH (String.length s)) by (cbn in Hn; lia || done). cbn -[Nat.div Nat.modulo].
    do 4 f_equal; try (apply byte_back; euclid).
Qed.
