(* ===== verification/GoFlag.v ===== *)
(** * Go's [flag] package, as far as the program uses it

    [FlagSet.Parse] with [flag.ContinueOnError], and [FlagSet.Visit]. The
    values of string and boolean flags are read here; the numbers are read by
    [strconv] in base 0 and as floats, which are arguments ([parse_int],
    [parse_float]). *)

From S2P Require Import Prelude GoStrings GoFloat.

Inductive FlagKind := StringFlag | BoolFlag | IntFlag | Float64Flag.

Inductive FlagValue :=
| VString (v : string)
| VBool (v : bool)
| VInt (v : Z)
| VFloat64 (v : float64).

Inductive FlagError :=
| ErrHelp
| ErrBadFlagSyntax (arg : string)
| ErrFlagNotDefined (name : string)
| ErrFlagNeedsArgument (name : string)
| ErrInvalidValue (name value : string).

(** [strconv.ParseBool] *)
Definition ParseBool (s : string) : option bool :=
  if bool_decide (s ∈ ["1"; "t"; "T"; "TRUE"; "true"; "True"]) then Some true
  else if bool_decide (s ∈ ["0"; "f"; "F"; "FALSE"; "false"; "False"]) then Some false
  else None.

(** ** The shape of one argument *)

Inductive FlagToken :=
| NotAFlag
| EndOfFlags
| BadSyntax
| Flag (name : string) (value : option string).

Definition not_equals (c : ascii) : bool := negb (bool_decide (c = "="%char)).

(** [-name], [--name], [-name=value] or [--name=value]. *)
Definition flag_token (s : string) : FlagToken :=
  match s with
  | String "-" (String c t) =>
      if bool_decide (c = "-"%char) && bool_decide (t = "") then EndOfFlags
      else
        let body := if bool_decide (c = "-"%char) then t else String c t in
        match body with
        | "" => BadSyntax
        | String d _ =>
            if bool_decide (d = "-"%char) || bool_decide (d = "="%char) then BadSyntax
            else match span not_equals body with
                 | (name, String _ value) => Flag name (Some value)
                 | (name, "") => Flag name None
                 end
        end
  | _ => NotAFlag
  end.

Section flags.
Context (parse_int : string → option Z) (parse_float : string → option float64).
Context (formal : string → option FlagKind).

(** [Value.Set] *)
Definition set_value (k : FlagKind) (value : string) : option FlagValue :=
  match k with
  | StringFlag => Some (VString value)
  | BoolFlag => VBool <$> ParseBool value
  | IntFlag => VInt <$> parse_int value
  | Float64Flag => VFloat64 <$> parse_float value
  end.

(** [FlagSet.Parse]: the flags that were set, with their last values, and the
    arguments that are left. A boolean flag takes no separate argument. *)
Fixpoint flag_Parse (actual : gmap string FlagValue) (args : list string)
    : (gmap string FlagValue * list string) + FlagError :=
  match args with
  | [] => inl (actual, [])
  | s :: rest =>
      match flag_token s with
      | NotAFlag => inl (actual, args)
      | EndOfFlags => inl (actual, rest)
      | BadSyntax => inr (ErrBadFlagSyntax s)
      | Flag name value =>
          match formal name with
          | None => if bool_decide (name = "help") || bool_decide (name = "h") then inr ErrHelp
                    else inr (ErrFlagNotDefined name)
          | Some BoolFlag =>
              let value := default "true" value in
              match set_value BoolFlag value with
              | None => inr (ErrInvalidValue name value)
              | Some v => flag_Parse (<[name := v]> actual) rest
              end
          | Some k =>
              match value, rest with
              | Some value, _ =>
                  match set_value k value with
                  | None => inr (ErrInvalidValue name value)
                  | Some v => flag_Parse (<[name := v]> actual) rest
                  end
              | None, [] => inr (ErrFlagNeedsArgument name)
              | None, value :: rest =>
                  match set_value k value with
                  | None => inr (ErrInvalidValue name value)
                  | Some v => flag_Parse (<[name := v]> actual) rest
                  end
              end
          end
      end
  end.

(** A string flag followed by its value. *)
Lemma flag_Parse_string actual s name value rest :
  flag_token s = Flag name None → formal name = Some StringFlag →
  flag_Parse actual (s :: value :: rest) = flag_Parse (<[name := VString value]> actual) rest.
Proof. intros Ht Hf. cbn. by rewrite Ht, Hf. Qed.
End flags.

(** [FlagSet.Visit]: the flags that were set, in the order of their names. *)
Definition visit (actual : gmap string FlagValue) : list (string * FlagValue) :=
  merge_sort (λ a b : string * FlagValue, String.le a.1 b.1) (map_to_list actual).

Lemma visit_perm actual : visit actual ≡ₚ map_to_list actual.
Proof. apply merge_sort_Permutation. Qed.

(** What a loop over the flags that were set does to a part of its state that
    only one flag concerns. *)
Lemma foldl_visit {C T} (f : C → string * FlagValue → C) (P : C → T) (g : FlagValue → T → T)
    (name : string) (actual : gmap string FlagValue) (c : C) :
  (∀ c k v, k ≠ name → P (f c (k, v)) = P c) →
  (∀ c v, P (f c (name, v)) = g v (P c)) →
  P (foldl f c (visit actual)) =
    match actual !! name with Some v => g v (P c) | None => P c end.
Proof.
  intros Hother Hname.
  assert (∀ l : list (string * FlagValue), name ∉ l.*1 → ∀ c, P (foldl f c l) = P c) as Hskip.
  { induction l as [|[k v] l IH]; [done|]. cbn. intros [Hk Hl]%not_elem_of_cons c0.
    rewrite IH by done. by apply Hother. }
  assert (NoDup (visit actual).*1) as Hnd.
  { rewrite visit_perm. apply NoDup_fst_map_to_list. }
  destruct (actual !! name) as [v|] eqn:E.
  - assert ((name, v) ∈ visit actual) as Hin.
    { rewrite visit_perm. by apply elem_of_map_to_list. }
    apply list_elem_of_split in Hin as (l1 & l2 & Hl). rewrite Hl in Hnd |- *.
    rewrite fmap_app in Hnd. apply NoDup_app in Hnd as (_ & Hd & Hnd2).
    rewrite fmap_cons in Hd, Hnd2. apply NoDup_cons in Hnd2 as [Hn2 _].
    rewrite foldl_app. cbn. rewrite Hskip by done. rewrite Hname. f_equal.
    apply Hskip. intros H1. apply (Hd _ H1). by left.
  - apply Hskip. rewrite visit_perm. intros ([k v] & -> & Hin)%list_elem_of_fmap.
    apply elem_of_map_to_list in Hin. cbn in E. congruence.
Qed.

Example flag_Parse_ex :
  flag_Parse (λ _, None) (λ _, None)
    (λ n, if bool_decide (n = "nick") then Some StringFlag
          else if bool_decide (n = "debug") then Some BoolFlag else None) ∅
    ["--nick"; "a"; "-debug"; "--nick=b=c"; "rest"; "--nick"]
  = inl ({["debug" := VBool true; "nick" := VString "b=c"]}, ["rest"; "--nick"]).
Proof. vm_compute. reflexivity. Qed.
