(* ===== verification/Config.v ===== *)
(** * Configuration: [internal/config/loader.go] and [pkg/ircclient/config.go]

    Defaults, then the configuration file, then the environment, then the
    flags. Arguments of the loader: the environment ([env], [""] for a variable
    that is not set), the files, the YAML decoder (a third-party library, which
    gives a [fileConfig]), [time.ParseDuration], and the readers of numbers of
    [flag]. A pointer in [fileConfig] that the file does not set is [None]. *)

From S2P Require Import Prelude GoStrings GoNum GoFloat GoFlag.

(** ** The records *)

(** [ircclient.Config] *)
Record IRCConfig := {
  irc_Server : string;
  irc_Nick : string;
  irc_Username : string;
  irc_Password : string;
  irc_RealName : string;
  irc_TLS : bool;
  irc_TLSInsecureSkipVerify : bool;
  irc_SASL : bool;
  irc_SASLMech : string;
  irc_Channels : list string;
  irc_AutoRejoinOnKick : bool;
  irc_Reconnect : bool;
  irc_MaxReconnectAttempts : Z;
  irc_PingFrequency : Duration;
  irc_Timeout : Duration;
  irc_QuitMessage : string;
  irc_Debug : bool;
  irc_RateLimit : float64;
  irc_RateLimitBurst : Z;
  irc_ReconnectBackoff : Duration;
  irc_MaxReconnectBackoff : Duration
}.

#[export] Instance IRCConfig_eta : RecordEta IRCConfig := λ r,
  {| irc_Server := irc_Server r; irc_Nick := irc_Nick r; irc_Username := irc_Username r;
     irc_Password := irc_Password r; irc_RealName := irc_RealName r; irc_TLS := irc_TLS r;
     irc_TLSInsecureSkipVerify := irc_TLSInsecureSkipVerify r; irc_SASL := irc_SASL r;
     irc_SASLMech := irc_SASLMech r; irc_Channels := irc_Channels r;
     irc_AutoRejoinOnKick := irc_AutoRejoinOnKick r; irc_Reconnect := irc_Reconnect r;
     irc_MaxReconnectAttempts := irc_MaxReconnectAttempts r;
     irc_PingFrequency := irc_PingFrequency r; irc_Timeout := irc_Timeout r;
     irc_QuitMessage := irc_QuitMessage r; irc_Debug := irc_Debug r;
     irc_RateLimit := irc_RateLimit r; irc_RateLimitBurst := irc_RateLimitBurst r;
     irc_ReconnectBackoff := irc_ReconnectBackoff r;
     irc_MaxReconnectBackoff := irc_MaxReconnectBackoff r |}.

(** The float 2.0. *)
Definition float_two : float64 := S754_finite false 4503599627370496 (-51).

Definition second : Duration := 1000000000%Z.

Definition DefaultConfig : IRCConfig :=
  {| irc_Server := ""; irc_Nick := ""; irc_Username := ""; irc_Password := "";
     irc_RealName := ""; irc_TLS := true; irc_TLSInsecureSkipVerify := false;
     irc_SASL := true; irc_SASLMech := "PLAIN"; irc_Channels := [];
     irc_AutoRejoinOnKick := false; irc_Reconnect := true; irc_MaxReconnectAttempts := 3;
     irc_PingFrequency := 120 * second; irc_Timeout := 60 * second;
     irc_QuitMessage := "agent shutting down"; irc_Debug := false;
     irc_RateLimit := float_two; irc_RateLimitBurst := 5;
     irc_ReconnectBackoff := 1 * second; irc_MaxReconnectBackoff := 120 * second |}%Z.

(** The errors of [Validate], in the order in which they are joined. *)
Inductive ConfigError :=
| ServerRequired | NickRequired | UsernameRequired | PasswordRequired | TLSRequired
| SASLRequired.

Definition Validate (c : IRCConfig) : list ConfigError :=
  (if bool_decide (irc_Server c = "") then [ServerRequired] else []) ++
  (if bool_decide (irc_Nick c = "") then [NickRequired] else []) ++
  (if bool_decide (irc_Username c = "") then [UsernameRequired] else []) ++
  (if bool_decide (irc_Password c = "") then [PasswordRequired] else []) ++
  (if negb (irc_TLS c) then [TLSRequired] else []) ++
  (if negb (irc_SASL c) then [SASLRequired] else []).

(** [config.ACLRule]. The actions come from the configuration file unchecked, so
    they are texts; one that names no action matches nothing. *)
Record ACLRule := {
  acl_Channel : string;
  acl_NickPattern : string;
  acl_Actions : list string;
  acl_Effect : string
}.

Record FederationServerConfig := {
  fs_Name : string;
  fs_IRC : IRCConfig
}.

Record ChannelMapping := {
  cm_LocalChannel : string;
  cm_RemoteChannel : string;
  cm_LinkName : string
}.

(** [otel.Config] *)
Record OTelConfig := {
  ot_Endpoint : string;
  ot_ServiceName : string;
  ot_SampleRate : float64
}.

Record AppConfig := {
  cfg_IRC : IRCConfig;
  cfg_LogLevel : string;
  cfg_LogFmt : string;
  cfg_DashboardAddr : string;
  cfg_StateFile : string;
  cfg_ACLRules : list ACLRule;
  cfg_Capabilities : list string;
  cfg_DiscoveryTTL : Duration;
  cfg_FederationServers : list FederationServerConfig;
  cfg_FederationMappings : list ChannelMapping;
  cfg_OTel : OTelConfig;
  cfg_AgentRole : string;
  cfg_Roles : list string;
  cfg_MaxLoad : Z;
  cfg_ClaimJitter : Duration;
  cfg_MaxReviewIterations : Z
}.

#[export] Instance OTelConfig_eta : RecordEta OTelConfig := λ r,
  {| ot_Endpoint := ot_Endpoint r; ot_ServiceName := ot_ServiceName r;
     ot_SampleRate := ot_SampleRate r |}.

#[export] Instance AppConfig_eta : RecordEta AppConfig := λ r,
  {| cfg_IRC := cfg_IRC r; cfg_LogLevel := cfg_LogLevel r; cfg_LogFmt := cfg_LogFmt r;
     cfg_DashboardAddr := cfg_DashboardAddr r; cfg_StateFile := cfg_StateFile r;
     cfg_ACLRules := cfg_ACLRules r; cfg_Capabilities := cfg_Capabilities r;
     cfg_DiscoveryTTL := cfg_DiscoveryTTL r; cfg_FederationServers := cfg_FederationServers r;
     cfg_FederationMappings := cfg_FederationMappings r; cfg_OTel := cfg_OTel r;
     cfg_AgentRole := cfg_AgentRole r; cfg_Roles := cfg_Roles r; cfg_MaxLoad := cfg_MaxLoad r;
     cfg_ClaimJitter := cfg_ClaimJitter r;
     cfg_MaxReviewIterations := cfg_MaxReviewIterations r |}.

(** The [IRC] part of [fileConfig], and [fileConfig] itself. *)
Record FileIRC := {
  fi_Server : string;
  fi_Nick : string;
  fi_Username : string;
  fi_Password : string;
  fi_RealName : string;
  fi_TLS : option bool;
  fi_TLSInsecureSkipVerify : bool;
  fi_SASL : option bool;
  fi_SASLMech : string;
  fi_Channels : list string;
  fi_AutoRejoinOnKick : bool;
  fi_Reconnect : option bool;
  fi_MaxReconnectAttempts : Z;
  fi_ReconnectBackoff : string;
  fi_MaxReconnectBackoff : string;
  fi_RateLimit : option float64;
  fi_RateLimitBurst : option Z;
  fi_PingFrequency : string;
  fi_Timeout : string;
  fi_QuitMessage : string;
  fi_Debug : bool
}.

Record fileConfig := {
  fc_IRC : FileIRC;
  fc_LogLevel : string;
  fc_LogFmt : string;
  fc_DashboardAddr : string;
  fc_StateFile : string;
  fc_ACLRules : list ACLRule;
  fc_Capabilities : list string;
  fc_DiscoveryTTL : string;
  fc_FederationServers : list FederationServerConfig;
  fc_FederationMappings : list ChannelMapping;
  fc_OTel : OTelConfig
}.

Definition default_AppConfig : AppConfig :=
  {| cfg_IRC := DefaultConfig; cfg_LogLevel := "info"; cfg_LogFmt := "text";
     cfg_DashboardAddr := ""; cfg_StateFile := ""; cfg_ACLRules := []; cfg_Capabilities := [];
     cfg_DiscoveryTTL := 0; cfg_FederationServers := []; cfg_FederationMappings := [];
     cfg_OTel := {| ot_Endpoint := ""; ot_ServiceName := ""; ot_SampleRate := S754_zero false |};
     cfg_AgentRole := ""; cfg_Roles := []; cfg_MaxLoad := 0; cfg_ClaimJitter := 0;
     cfg_MaxReviewIterations := 0 |}.

Definition splitChannels (s : string) : list string :=
  if bool_decide (s = "") then []
  else List.filter (λ p, negb (bool_decide (p = ""))) (TrimSpace <$> Split s ",").

(** ** Conditional assignments *)

(** [if s != "" { ... s ... }] *)
Definition when_set {A} (s : string) (f : string → A → A) (x : A) : A :=
  if bool_decide (s = "") then x else f s x.

(** [if p != nil { ... *p ... }], and the [err == nil] after a parser. *)
Definition when_some {A B} (p : option B) (f : B → A → A) (x : A) : A :=
  match p with Some b => f b x | None => x end.

(** [if len(l) > 0 { ... l ... }] *)
Definition when_any {A B} (l : list B) (f : list B → A → A) (x : A) : A :=
  match l with [] => x | _ => f l x end.

Definition when {A} (b : bool) (f : A → A) (x : A) : A := if b then f x else x.

Definition on_IRC (f : IRCConfig → IRCConfig) (cfg : AppConfig) : AppConfig :=
  cfg <| cfg_IRC := f (cfg_IRC cfg) |>.

Definition on_OTel (f : OTelConfig → OTelConfig) (cfg : AppConfig) : AppConfig :=
  cfg <| cfg_OTel := f (cfg_OTel cfg) |>.

(** ** Reading one setting through the layers *)

(** The first layer that has the setting decides. *)
Fixpoint setting {T} (layers : list (option T)) (otherwise : T) : T :=
  match layers with
  | [] => otherwise
  | o :: layers => default (setting layers otherwise) o
  end.


Section through.
Context {Cfg T A B : Type} (P : Cfg → T) (g : A → T) (h : string → T) (g' : list B → T).

Lemma skip_set s f x r :
  (∀ v c, P (f v c) = P c) → P x = r → P (when_set s f x) = r.
Proof. intros Hf <-. unfold when_set. case_bool_decide; [done|apply Hf]. Qed.

Lemma hit_set s f x r :
  (∀ v c, P (f v c) = h v) → P x = r → P (when_set s f x) = default r (h <$> nonempty s).
Proof. intros Hf <-. unfold when_set, nonempty. case_bool_decide; [done|apply Hf]. Qed.

Lemma hit_set_some s (p : string → option A) f x r :
  (∀ v c, P (f v c) = g v) → P x = r →
  P (when_set s (λ v, when_some (p v) f) x) = default r (g <$> (nonempty s ≫= p)).
Proof.
  intros Hf <-. unfold when_set, nonempty. case_bool_decide; [done|]. cbn.
  destruct (p s); [apply Hf|done].
Qed.

Lemma hit_some p f x r :
  (∀ v c, P (f v c) = g v) → P x = r → P (when_some p f x) = default r (g <$> p).
Proof. intros Hf <-. destruct p; [apply Hf|done]. Qed.

Lemma hit_any l f x r :
  (∀ v c, P (f v c) = g' v) → P x = r → P (when_any l f x) = default r (g' <$> nonempty_list l).
Proof. intros Hf <-. destruct l; [done|apply Hf]. Qed.

Lemma skip_some (p : option A) f x r :
  (∀ v c, P (f v c) = P c) → P x = r → P (when_some p f x) = r.
Proof. intros Hf <-. destruct p; [apply Hf|done]. Qed.

Lemma skip_any (l : list B) f x r :
  (∀ v c, P (f v c) = P c) → P x = r → P (when_any l f x) = r.
Proof. intros Hf <-. destruct l; [done|apply Hf]. Qed.

Lemma hit_when b v f x r :
  (∀ c, P (f c) = v) → P x = r → P (when b f x) = default r (id <$> if b then Some v else None).
Proof. intros Hf <-. destruct b; [apply Hf|done]. Qed.

Lemma skip_when b f x r : (∀ c, P (f c) = P c) → P x = r → P (when b f x) = r.
Proof. intros Hf <-. destruct b; [apply Hf|done]. Qed.
End through.

Lemma skip_on_OTel {T} (P : AppConfig → T) f x r :
  (∀ c, P (on_OTel f c) = P c) → P x = r → P (on_OTel f x) = r.
Proof. by intros Hf <-. Qed.

Lemma skip_on_IRC {T} (P : AppConfig → T) f x r :
  (∀ c, P (on_IRC f c) = P c) → P x = r → P (on_IRC f x) = r.
Proof. by intros Hf <-. Qed.

(** Goes through the assignments of a layer, from the last one back: every one
    either leaves the setting [P] alone or is the one that decides it. *)
Ltac other_setting P :=
  intros; first [reflexivity | apply (skip_some P); [intros; reflexivity|reflexivity]].
Ltac through_layer P :=
  cbv zeta;
  repeat first
    [ apply (skip_set P); [solve [other_setting P]|]
    | apply (skip_some P); [solve [other_setting P]|]
    | apply (skip_any P); [solve [other_setting P]|]
    | apply (skip_when P); [solve [other_setting P]|]
    | apply (skip_on_IRC P); [solve [other_setting P]|]
    | apply (skip_on_OTel P); [solve [other_setting P]|]
    | apply (hit_set P); [intros; reflexivity|]
    | apply (hit_set_some P); [intros; reflexivity|]
    | apply (hit_some P); [intros; reflexivity|]
    | apply (hit_any P); [intros; reflexivity|]
    | apply (hit_when P); [intros; reflexivity|] ];
  try reflexivity.

Section config.
Context (parse_duration : string → option Duration).

(** ** The layers *)

(** The part of [loadFromFile] after decoding. The switches without a pointer
    ([tls_insecure_skip_verify], [auto_rejoin_on_kick], [debug]) are taken from
    the file in any case. *)
Definition apply_file (fc : fileConfig) (cfg : AppConfig) : AppConfig :=
  let fi := fc_IRC fc in
  let cfg := when_set (fi_Server fi) (λ v, on_IRC (λ i, i <| irc_Server := v |>)) cfg in
  let cfg := when_set (fi_Nick fi) (λ v, on_IRC (λ i, i <| irc_Nick := v |>)) cfg in
  let cfg := when_set (fi_Username fi) (λ v, on_IRC (λ i, i <| irc_Username := v |>)) cfg in
  let cfg := when_set (fi_Password fi) (λ v, on_IRC (λ i, i <| irc_Password := v |>)) cfg in
  let cfg := when_set (fi_RealName fi) (λ v, on_IRC (λ i, i <| irc_RealName := v |>)) cfg in
  let cfg := when_some (fi_TLS fi) (λ v, on_IRC (λ i, i <| irc_TLS := v |>)) cfg in
  let cfg := on_IRC (λ i, i <| irc_TLSInsecureSkipVerify := fi_TLSInsecureSkipVerify fi |>) cfg in
  let cfg := when_some (fi_SASL fi) (λ v, on_IRC (λ i, i <| irc_SASL := v |>)) cfg in
  let cfg := when_set (fi_SASLMech fi) (λ v, on_IRC (λ i, i <| irc_SASLMech := v |>)) cfg in
  let cfg := when_any (fi_Channels fi) (λ v, on_IRC (λ i, i <| irc_Channels := v |>)) cfg in
  let cfg := on_IRC (λ i, i <| irc_AutoRejoinOnKick := fi_AutoRejoinOnKick fi |>) cfg in
  let cfg := when_some (fi_Reconnect fi) (λ v, on_IRC (λ i, i <| irc_Reconnect := v |>)) cfg in
  let cfg := when (bool_decide (0 < fi_MaxReconnectAttempts fi)%Z)
               (on_IRC (λ i, i <| irc_MaxReconnectAttempts := fi_MaxReconnectAttempts fi |>)) cfg in
  let cfg := when_set (fi_ReconnectBackoff fi) (λ s, when_some (parse_duration s)
               (λ d, on_IRC (λ i, i <| irc_ReconnectBackoff := d |>))) cfg in
  let cfg := when_set (fi_MaxReconnectBackoff fi) (λ s, when_some (parse_duration s)
               (λ d, on_IRC (λ i, i <| irc_MaxReconnectBackoff := d |>))) cfg in
  let cfg := when_some (fi_RateLimit fi) (λ v, on_IRC (λ i, i <| irc_RateLimit := v |>)) cfg in
  let cfg := when_some (fi_RateLimitBurst fi)
               (λ v, on_IRC (λ i, i <| irc_RateLimitBurst := v |>)) cfg in
  let cfg := when_set (fi_PingFrequency fi) (λ s, when_some (parse_duration s)
               (λ d, on_IRC (λ i, i <| irc_PingFrequency := d |>))) cfg in
  let cfg := when_set (fi_Timeout fi) (λ s, when_some (parse_duration s)
               (λ d, on_IRC (λ i, i <| irc_Timeout := d |>))) cfg in
  let cfg := when_set (fi_QuitMessage fi) (λ v, on_IRC (λ i, i <| irc_QuitMessage := v |>)) cfg in
  let cfg := on_IRC (λ i, i <| irc_Debug := fi_Debug fi |>) cfg in
  let cfg := when_set (fc_LogLevel fc) (λ v c, c <| cfg_LogLevel := v |>) cfg in
  let cfg := when_set (fc_LogFmt fc) (λ v c, c <| cfg_LogFmt := v |>) cfg in
  let cfg := when_set (fc_DashboardAddr fc) (λ v c, c <| cfg_DashboardAddr := v |>) cfg in
  let cfg := when_set (fc_StateFile fc) (λ v c, c <| cfg_StateFile := v |>) cfg in
  let cfg := when_any (fc_ACLRules fc) (λ v c, c <| cfg_ACLRules := v |>) cfg in
  let cfg := when_any (fc_Capabilities fc) (λ v c, c <| cfg_Capabilities := v |>) cfg in
  let cfg := when_set (fc_DiscoveryTTL fc) (λ s, when_some (parse_duration s)
               (λ d c, c <| cfg_DiscoveryTTL := d |>)) cfg in
  let cfg := when_any (fc_FederationServers fc) (λ v c, c <| cfg_FederationServers := v |>) cfg in
  let cfg := when_any (fc_FederationMappings fc)
               (λ v c, c <| cfg_FederationMappings := v |>) cfg in
  let cfg := when_set (ot_Endpoint (fc_OTel fc)) (λ v, on_OTel (λ o, o <| ot_Endpoint := v |>)) cfg in
  let cfg := when_set (ot_ServiceName (fc_OTel fc))
               (λ v, on_OTel (λ o, o <| ot_ServiceName := v |>)) cfg in
  when (SFltb (S754_zero false) (ot_SampleRate (fc_OTel fc)))
    (on_OTel (λ o, o <| ot_SampleRate := ot_SampleRate (fc_OTel fc) |>)) cfg.

Definition applyEnv (env : string → string) (cfg : AppConfig) : AppConfig :=
  let cfg := when_set (env "IRC_SERVER") (λ v, on_IRC (λ i, i <| irc_Server := v |>)) cfg in
  let cfg := when_set (env "IRC_NICK") (λ v, on_IRC (λ i, i <| irc_Nick := v |>)) cfg in
  let cfg := when_set (env "IRC_USERNAME") (λ v, on_IRC (λ i, i <| irc_Username := v |>)) cfg in
  let cfg := when_set (env "IRC_PASSWORD") (λ v, on_IRC (λ i, i <| irc_Password := v |>)) cfg in
  let cfg := when_set (env "IRC_REALNAME") (λ v, on_IRC (λ i, i <| irc_RealName := v |>)) cfg in
  let cfg := when_set (env "IRC_CHANNELS")
               (λ v, on_IRC (λ i, i <| irc_Channels := splitChannels v |>)) cfg in
  let cfg := when_set (env "LOG_LEVEL") (λ v c, c <| cfg_LogLevel := v |>) cfg in
  let cfg := when_set (env "LOG_FORMAT") (λ v c, c <| cfg_LogFmt := v |>) cfg in
  let cfg := when_set (env "DASHBOARD_ADDR") (λ v c, c <| cfg_DashboardAddr := v |>) cfg in
  let cfg := when_set (env "STATE_FILE") (λ v c, c <| cfg_StateFile := v |>) cfg in
  let cfg := when_set (env "AGENT_CAPABILITIES")
               (λ v c, c <| cfg_Capabilities := splitChannels v |>) cfg in
  let cfg := when_set (env "OTEL_EXPORTER_OTLP_ENDPOINT")
               (λ v, on_OTel (λ o, o <| ot_Endpoint := v |>)) cfg in
  let cfg := when_set (env "AGENT_ROLE") (λ v c, c <| cfg_AgentRole := v |>) cfg in
  let cfg := when_set (env "AGENT_ROLES") (λ v c, c <| cfg_Roles := splitChannels v |>) cfg in
  let cfg := when_set (env "MAX_LOAD") (λ v, when_some (Atoi v)
               (λ n c, c <| cfg_MaxLoad := n |>)) cfg in
  let cfg := when_set (env "CLAIM_JITTER") (λ v, when_some (parse_duration v)
               (λ d c, c <| cfg_ClaimJitter := d |>)) cfg in
  when_set (env "MAX_REVIEW_ITERATIONS") (λ v, when_some (Atoi v)
    (λ n c, c <| cfg_MaxReviewIterations := n |>)) cfg.

(** ** The flags *)

(** The flags that [Load] declares. *)
Definition flags : list (string * FlagKind) :=
  [("server", StringFlag); ("nick", StringFlag); ("username", StringFlag);
   ("password", StringFlag); ("realname", StringFlag); ("channels", StringFlag);
   ("tls", BoolFlag); ("tls-insecure", BoolFlag); ("sasl", BoolFlag); ("config", StringFlag);
   ("log-level", StringFlag); ("log-format", StringFlag); ("debug", BoolFlag);
   ("dashboard-addr", StringFlag); ("rate-limit", Float64Flag); ("rate-limit-burst", IntFlag);
   ("state-file", StringFlag); ("capabilities", StringFlag); ("otel-endpoint", StringFlag);
   ("otel-service-name", StringFlag); ("role", StringFlag); ("roles", StringFlag);
   ("max-load", IntFlag); ("claim-jitter", StringFlag); ("max-review-iterations", IntFlag)].

Definition formal (name : string) : option FlagKind :=
  snd <$> find (λ f : string * FlagKind, bool_decide (f.1 = name)) flags.

(** What the pointer of a flag points to; a flag only holds values of its own
    kind. *)
Definition flag_string (v : FlagValue) : string := match v with VString s => s | _ => "" end.
Definition flag_bool (v : FlagValue) : bool := match v with VBool b => b | _ => false end.
Definition flag_int (v : FlagValue) : Z := match v with VInt z => z | _ => 0%Z end.
Definition flag_float (v : FlagValue) : float64 :=
  match v with VFloat64 f => f | _ => S754_zero false end.

(** The switch in the callback of [fs.Visit]. *)
Definition apply_flag (cfg : AppConfig) (f : string * FlagValue) : AppConfig :=
  let '(name, v) := f in
  let named s := bool_decide (name = s) in
  if named "server" then on_IRC (λ i, i <| irc_Server := flag_string v |>) cfg
  else if named "nick" then on_IRC (λ i, i <| irc_Nick := flag_string v |>) cfg
  else if named "username" then on_IRC (λ i, i <| irc_Username := flag_string v |>) cfg
  else if named "password" then on_IRC (λ i, i <| irc_Password := flag_string v |>) cfg
  else if named "realname" then on_IRC (λ i, i <| irc_RealName := flag_string v |>) cfg
  else if named "channels" then
    on_IRC (λ i, i <| irc_Channels := splitChannels (flag_string v) |>) cfg
  else if named "tls" then on_IRC (λ i, i <| irc_TLS := flag_bool v |>) cfg
  else if named "tls-insecure" then
    on_IRC (λ i, i <| irc_TLSInsecureSkipVerify := flag_bool v |>) cfg
  else if named "sasl" then on_IRC (λ i, i <| irc_SASL := flag_bool v |>) cfg
  else if named "log-level" then cfg <| cfg_LogLevel := flag_string v |>
  else if named "log-format" then cfg <| cfg_LogFmt := flag_string v |>
  else if named "debug" then on_IRC (λ i, i <| irc_Debug := flag_bool v |>) cfg
  else if named "dashboard-addr" then cfg <| cfg_DashboardAddr := flag_string v |>
  else if named "rate-limit" then on_IRC (λ i, i <| irc_RateLimit := flag_float v |>) cfg
  else if named "rate-limit-burst" then on_IRC (λ i, i <| irc_RateLimitBurst := flag_int v |>) cfg
  else if named "state-file" then cfg <| cfg_StateFile := flag_string v |>
  else if named "capabilities" then cfg <| cfg_Capabilities := splitChannels (flag_string v) |>
  else if named "otel-endpoint" then on_OTel (λ o, o <| ot_Endpoint := flag_string v |>) cfg
  else if named "otel-service-name" then on_OTel (λ o, o <| ot_ServiceName := flag_string v |>) cfg
  else if named "role" then cfg <| cfg_AgentRole := flag_string v |>
  else if named "roles" then cfg <| cfg_Roles := splitChannels (flag_string v) |>
  else if named "max-load" then cfg <| cfg_MaxLoad := flag_int v |>
  else if named "claim-jitter" then
    when_some (parse_duration (flag_string v)) (λ d c, c <| cfg_ClaimJitter := d |>) cfg
  else if named "max-review-iterations" then cfg <| cfg_MaxReviewIterations := flag_int v |>
  else cfg.

(** ** [Load] *)

Inductive LoadError :=
| ErrFlags (e : FlagError)
| ErrReadFile (path : string)
| ErrYAML (path : string).

Context (parse_int : string → option Z) (parse_float : string → option float64).
Context (env : string → string) (read_file : string → option string).
Context (yaml_Unmarshal : string → option fileConfig).

Definition loadFromFile (cfg : AppConfig) (path : string) : AppConfig + LoadError :=
  match read_file path with
  | None => inr (ErrReadFile path)
  | Some data =>
      match yaml_Unmarshal data with
      | None => inr (ErrYAML path)
      | Some fc => inl (apply_file fc cfg)
      end
  end.

(** The path of the configuration file. *)
Definition config_path (actual : gmap string FlagValue) : string :=
  let configPath := match actual !! "config" with Some v => flag_string v | None => "" end in
  if bool_decide (configPath = "") then env "BORG_CONFIG" else configPath.

Definition Load (args : list string) : AppConfig + LoadError :=
  match flag_Parse parse_int parse_float formal ∅ args with
  | inr e => inr (ErrFlags e)
  | inl (actual, _) =>
      let layer2 :=
        if bool_decide (config_path actual = "") then inl default_AppConfig
        else loadFromFile default_AppConfig (config_path actual) in
      match layer2 with
      | inr e => inr e
      | inl cfg => inl (foldl apply_flag (applyEnv env cfg) (visit actual))
      end
  end.
End config.

(** Every flag sets its own setting only. *)
Section flag_settings.
Context {Cfg T : Type} (apply_flag : Cfg → string * FlagValue → Cfg) (P : Cfg → T).

Lemma flag_decides (g : FlagValue → T) name actual cfg r :
  (∀ c k v, k ≠ name → P (apply_flag c (k, v)) = P c) →
  (∀ c v, P (apply_flag c (name, v)) = g v) →
  P cfg = r →
  P (foldl apply_flag cfg (visit actual)) = default r (g <$> actual !! name).
Proof.
  intros Hother Hname <-. rewrite (foldl_visit _ P (λ v _, g v) name) by done.
  by destruct (actual !! name).
Qed.

Lemma flag_decides_parsed {B} (g : B → T) (p : FlagValue → option B) name actual cfg r :
  (∀ c k v, k ≠ name → P (apply_flag c (k, v)) = P c) →
  (∀ c v, P (apply_flag c (name, v)) = default (P c) (g <$> p v)) →
  P cfg = r →
  P (foldl apply_flag cfg (visit actual)) = default r (g <$> (actual !! name ≫= p)).
Proof.
  intros Hother Hname <-. rewrite (foldl_visit _ P (λ v x, default x (g <$> p v)) name) by done.
  by destruct (actual !! name).
Qed.

Lemma no_flag actual cfg r :
  (∀ c k v, P (apply_flag c (k, v)) = P c) → P cfg = r →
  P (foldl apply_flag cfg (visit actual)) = r.
Proof.
  intros Hf <-. induction (visit actual) as [|[k v] l IH] using rev_ind; [done|].
  by rewrite foldl_snoc, Hf.
Qed.
End flag_settings.

Ltac other_flag P :=
  intros ? k ?; try intros Hk; unfold apply_flag; cbv zeta;
  repeat (case_bool_decide;
    [subst; solve [done | reflexivity | apply (skip_some P); reflexivity]|]); reflexivity.

(** One setting of the result of [Load]: flags, environment, file, default. *)
Ltac load_setting P :=
  cbn [setting];
  first [ apply (flag_decides _ P); [solve [other_flag P]|reflexivity|]
        | apply (flag_decides_parsed _ P);
            [solve [other_flag P]
            |intros; cbn; unfold when_some; by destruct (_ : option Duration)|]
        | apply (no_flag _ P); [solve [other_flag P]|] ];
  unfold applyEnv; through_layer P;
  match goal with |- context [match ?file with Some _ => _ | None => _ end] => destruct file end;
  [unfold apply_file; cbn; through_layer P|reflexivity].

Section load.
Context (parse_duration : string → option Duration).
Context (parse_int : string → option Z) (parse_float : string → option float64).
Context (env : string → string) (read_file : string → option string).
Context (yaml_Unmarshal : string → option fileConfig).

(** A number of the file that counts only when it is positive. *)
Definition if_positive (n : Z) : option Z := if bool_decide (0 < n)%Z then Some n else None.
Definition if_positive_float (f : float64) : option float64 :=
  if SFltb (S754_zero false) f then Some f else None.

(** Where the settings of a loaded configuration come from, all of them: the flag if it
    was given, else the environment variable if it is set, else the file if it has
    the setting, else the default. *)
Record precedence (actual : gmap string FlagValue) (file : option fileConfig) (cfg : AppConfig)
    : Prop := {
  pr_Server : irc_Server (cfg_IRC cfg) = setting [flag_string <$> actual !! "server";
    id <$> nonempty (env "IRC_SERVER"); id <$> (file ≫= λ fc, nonempty (fi_Server (fc_IRC fc)))] "";
  pr_Nick : irc_Nick (cfg_IRC cfg) = setting [flag_string <$> actual !! "nick";
    id <$> nonempty (env "IRC_NICK"); id <$> (file ≫= λ fc, nonempty (fi_Nick (fc_IRC fc)))] "";
  pr_Username : irc_Username (cfg_IRC cfg) = setting [flag_string <$> actual !! "username";
    id <$> nonempty (env "IRC_USERNAME");
    id <$> (file ≫= λ fc, nonempty (fi_Username (fc_IRC fc)))] "";
  pr_Password : irc_Password (cfg_IRC cfg) = setting [flag_string <$> actual !! "password";
    id <$> nonempty (env "IRC_PASSWORD");
    id <$> (file ≫= λ fc, nonempty (fi_Password (fc_IRC fc)))] "";
  pr_Channels : irc_Channels (cfg_IRC cfg) =
    setting [splitChannels ∘ flag_string <$> actual !! "channels";
      splitChannels <$> nonempty (env "IRC_CHANNELS");
      id <$> (file ≫= λ fc, nonempty_list (fi_Channels (fc_IRC fc)))] [];
  pr_TLS : irc_TLS (cfg_IRC cfg) = setting [flag_bool <$> actual !! "tls";
    id <$> (file ≫= λ fc, fi_TLS (fc_IRC fc))] true;
  pr_SASL : irc_SASL (cfg_IRC cfg) = setting [flag_bool <$> actual !! "sasl";
    id <$> (file ≫= λ fc, fi_SASL (fc_IRC fc))] true;
  pr_LogLevel : cfg_LogLevel cfg = setting [flag_string <$> actual !! "log-level";
    id <$> nonempty (env "LOG_LEVEL"); id <$> (file ≫= λ fc, nonempty (fc_LogLevel fc))] "info";
  pr_DashboardAddr : cfg_DashboardAddr cfg = setting [flag_string <$> actual !! "dashboard-addr";
    id <$> nonempty (env "DASHBOARD_ADDR");
    id <$> (file ≫= λ fc, nonempty (fc_DashboardAddr fc))] "";
  pr_StateFile : cfg_StateFile cfg = setting [flag_string <$> actual !! "state-file";
    id <$> nonempty (env "STATE_FILE"); id <$> (file ≫= λ fc, nonempty (fc_StateFile fc))] "";
  pr_Capabilities : cfg_Capabilities cfg =
    setting [splitChannels ∘ flag_string <$> actual !! "capabilities";
      splitChannels <$> nonempty (env "AGENT_CAPABILITIES");
      id <$> (file ≫= λ fc, nonempty_list (fc_Capabilities fc))] [];
  pr_Roles : cfg_Roles cfg = setting [splitChannels ∘ flag_string <$> actual !! "roles";
    splitChannels <$> nonempty (env "AGENT_ROLES")] [];
  pr_ClaimJitter : cfg_ClaimJitter cfg =
    setting [id <$> (actual !! "claim-jitter" ≫= λ v, parse_duration (flag_string v));
      id <$> (nonempty (env "CLAIM_JITTER") ≫= parse_duration)] 0%Z;
  pr_MaxReviewIterations : cfg_MaxReviewIterations cfg =
    setting [flag_int <$> actual !! "max-review-iterations";
      id <$> (nonempty (env "MAX_REVIEW_ITERATIONS") ≫= Atoi)] 0%Z;
  pr_ACLRules : cfg_ACLRules cfg =
    setting [id <$> (file ≫= λ fc, nonempty_list (fc_ACLRules fc))] [];
  pr_RealName : irc_RealName (cfg_IRC cfg) = setting [flag_string <$> actual !! "realname";
    id <$> nonempty (env "IRC_REALNAME");
    id <$> (file ≫= λ fc, nonempty (fi_RealName (fc_IRC fc)))] "";
  pr_TLSInsecureSkipVerify : irc_TLSInsecureSkipVerify (cfg_IRC cfg) =
    setting [flag_bool <$> actual !! "tls-insecure";
      (λ fc, fi_TLSInsecureSkipVerify (fc_IRC fc)) <$> file] false;
  pr_SASLMech : irc_SASLMech (cfg_IRC cfg) =
    setting [id <$> (file ≫= λ fc, nonempty (fi_SASLMech (fc_IRC fc)))] "PLAIN";
  pr_AutoRejoinOnKick : irc_AutoRejoinOnKick (cfg_IRC cfg) =
    setting [(λ fc, fi_AutoRejoinOnKick (fc_IRC fc)) <$> file] false;
  pr_Reconnect : irc_Reconnect (cfg_IRC cfg) =
    setting [id <$> (file ≫= λ fc, fi_Reconnect (fc_IRC fc))] true;
  pr_MaxReconnectAttempts : irc_MaxReconnectAttempts (cfg_IRC cfg) =
    setting [id <$> (file ≫= λ fc, if_positive (fi_MaxReconnectAttempts (fc_IRC fc)))] 3%Z;
  pr_ReconnectBackoff : irc_ReconnectBackoff (cfg_IRC cfg) =
    setting [id <$> (file ≫= λ fc, nonempty (fi_ReconnectBackoff (fc_IRC fc)) ≫= parse_duration)]
      (1 * second)%Z;
  pr_MaxReconnectBackoff : irc_MaxReconnectBackoff (cfg_IRC cfg) =
    setting [id <$> (file ≫= λ fc, nonempty (fi_MaxReconnectBackoff (fc_IRC fc)) ≫= parse_duration)]
      (120 * second)%Z;
  pr_RateLimit : irc_RateLimit (cfg_IRC cfg) = setting [flag_float <$> actual !! "rate-limit";
    id <$> (file ≫= λ fc, fi_RateLimit (fc_IRC fc))] float_two;
  pr_RateLimitBurst : irc_RateLimitBurst (cfg_IRC cfg) =
    setting [flag_int <$> actual !! "rate-limit-burst";
      id <$> (file ≫= λ fc, fi_RateLimitBurst (fc_IRC fc))] 5%Z;
  pr_PingFrequency : irc_PingFrequency (cfg_IRC cfg) =
    setting [id <$> (file ≫= λ fc, nonempty (fi_PingFrequency (fc_IRC fc)) ≫= parse_duration)]
      (120 * second)%Z;
  pr_Timeout : irc_Timeout (cfg_IRC cfg) =
    setting [id <$> (file ≫= λ fc, nonempty (fi_Timeout (fc_IRC fc)) ≫= parse_duration)]
      (60 * second)%Z;
  pr_QuitMessage : irc_QuitMessage (cfg_IRC cfg) =
    setting [id <$> (file ≫= λ fc, nonempty (fi_QuitMessage (fc_IRC fc)))] "agent shutting down";
  pr_Debug : irc_Debug (cfg_IRC cfg) = setting [flag_bool <$> actual !! "debug";
    (λ fc, fi_Debug (fc_IRC fc)) <$> file] false;
  pr_LogFmt : cfg_LogFmt cfg = setting [flag_string <$> actual !! "log-format";
    id <$> nonempty (env "LOG_FORMAT"); id <$> (file ≫= λ fc, nonempty (fc_LogFmt fc))] "text";
  pr_DiscoveryTTL : cfg_DiscoveryTTL cfg =
    setting [id <$> (file ≫= λ fc, nonempty (fc_DiscoveryTTL fc) ≫= parse_duration)] 0%Z;
  pr_FederationServers : cfg_FederationServers cfg =
    setting [id <$> (file ≫= λ fc, nonempty_list (fc_FederationServers fc))] [];
  pr_FederationMappings : cfg_FederationMappings cfg =
    setting [id <$> (file ≫= λ fc, nonempty_list (fc_FederationMappings fc))] [];
  pr_Endpoint : ot_Endpoint (cfg_OTel cfg) = setting [flag_string <$> actual !! "otel-endpoint";
    id <$> nonempty (env "OTEL_EXPORTER_OTLP_ENDPOINT");
    id <$> (file ≫= λ fc, nonempty (ot_Endpoint (fc_OTel fc)))] "";
  pr_ServiceName : ot_ServiceName (cfg_OTel cfg) =
    setting [flag_string <$> actual !! "otel-service-name";
      id <$> (file ≫= λ fc, nonempty (ot_ServiceName (fc_OTel fc)))] "";
  pr_SampleRate : ot_SampleRate (cfg_OTel cfg) =
    setting [id <$> (file ≫= λ fc, if_positive_float (ot_SampleRate (fc_OTel fc)))] (S754_zero false);
  pr_AgentRole : cfg_AgentRole cfg = setting [flag_string <$> actual !! "role";
    id <$> nonempty (env "AGENT_ROLE")] "";
  pr_MaxLoad : cfg_MaxLoad cfg = setting [flag_int <$> actual !! "max-load";
    id <$> (nonempty (env "MAX_LOAD") ≫= Atoi)] 0%Z
}.

Lemma layers_precedence actual file :
  precedence actual file
    (foldl (apply_flag parse_duration)
       (applyEnv parse_duration env
          (match file with
           | Some fc => apply_file parse_duration fc default_AppConfig
           | None => default_AppConfig
           end)) (visit actual)).
Proof.
  split.
  - load_setting (λ c, irc_Server (cfg_IRC c)).
  - load_setting (λ c, irc_Nick (cfg_IRC c)).
  - load_setting (λ c, irc_Username (cfg_IRC c)).
  - load_setting (λ c, irc_Password (cfg_IRC c)).
  - load_setting (λ c, irc_Channels (cfg_IRC c)).
  - load_setting (λ c, irc_TLS (cfg_IRC c)).
  - load_setting (λ c, irc_SASL (cfg_IRC c)).
  - load_setting (λ c, cfg_LogLevel c).
  - load_setting (λ c, cfg_DashboardAddr c).
  - load_setting (λ c, cfg_StateFile c).
  - load_setting (λ c, cfg_Capabilities c).
  - load_setting (λ c, cfg_Roles c).
  - load_setting (λ c, cfg_ClaimJitter c).
  - load_setting (λ c, cfg_MaxReviewIterations c).
  - load_setting (λ c, cfg_ACLRules c).
  - load_setting (λ c, irc_RealName (cfg_IRC c)).
  - load_setting (λ c, irc_TLSInsecureSkipVerify (cfg_IRC c)).
  - load_setting (λ c, irc_SASLMech (cfg_IRC c)).
  - load_setting (λ c, irc_AutoRejoinOnKick (cfg_IRC c)).
  - load_setting (λ c, irc_Reconnect (cfg_IRC c)).
  - load_setting (λ c, irc_MaxReconnectAttempts (cfg_IRC c)).
  - load_setting (λ c, irc_ReconnectBackoff (cfg_IRC c)).
  - load_setting (λ c, irc_MaxReconnectBackoff (cfg_IRC c)).
  - load_setting (λ c, irc_RateLimit (cfg_IRC c)).
  - load_setting (λ c, irc_RateLimitBurst (cfg_IRC c)).
  - load_setting (λ c, irc_PingFrequency (cfg_IRC c)).
  - load_setting (λ c, irc_Timeout (cfg_IRC c)).
  - load_setting (λ c, irc_QuitMessage (cfg_IRC c)).
  - load_setting (λ c, irc_Debug (cfg_IRC c)).
  - load_setting (λ c, cfg_LogFmt c).
  - load_setting (λ c, cfg_DiscoveryTTL c).
  - load_setting (λ c, cfg_FederationServers c).
  - load_setting (λ c, cfg_FederationMappings c).
  - load_setting (λ c, ot_Endpoint (cfg_OTel c)).
  - load_setting (λ c, ot_ServiceName (cfg_OTel c)).
  - load_setting (λ c, ot_SampleRate (cfg_OTel c)).
  - load_setting (λ c, cfg_AgentRole c).
  - load_setting (λ c, cfg_MaxLoad c).
Qed.

End load.

(** A run: the nick from the flag, the server from the environment. *)
Definition sample_env (name : string) : string :=
  if bool_decide (name = "IRC_SERVER") then "irc.example:6697"
  else if bool_decide (name = "IRC_NICK") then "ignored" else "".

Definition sample_Load (args : list string) : AppConfig + LoadError :=
  Load (λ _, None) (λ _, None) (λ _, None) sample_env (λ _, None) (λ _, None) args.

Definition loaded (args : list string) : AppConfig :=
  match sample_Load args with inl cfg => cfg | inr _ => default_AppConfig end.


Example Load_test :
  irc_Nick (cfg_IRC (loaded ["--nick"; "a"])) = "a" ∧
  irc_Server (cfg_IRC (loaded ["--nick"; "a"])) = "irc.example:6697" ∧
  irc_TLS (cfg_IRC (loaded ["--nick"; "a"])) = true.
Proof. split_and!; vm_compute; reflexivity. Qed.
