(* ===== verification/Message.v ===== *)
(** * The message format: [pkg/protocol/message.go] and [errors.go]

    Actions, messages, and the prefix test that tells protocol messages from
    chat. *)

From S2P Require Import Prelude GoStrings.

(** The Go type is a string with constants. [ActionOther raw] stands for a
    string that is none of the constants. *)
Inductive Action :=
  | ActionStarted
  | ActionCompleted
  | ActionBlocked
  | ActionAcknowledged
  | ActionHelpNeeded
  | ActionContext
  | ActionRequestContext
  | ActionSharingContext
  | ActionDiscover
  | ActionCapabilities
  | ActionOffer
  | ActionClaim
  | ActionAssign
  | ActionAccept
  | ActionDecline
  | ActionYield
  | ActionCheckpoint
  | ActionHandoff
  | ActionReviewRequest
  | ActionReviewComplete
  | ActionGateCheck
  | ActionVote
  | ActionEscalate
  | ActionCostReport
  | ActionOther (raw : string).

#[export] Instance Action_eq_dec : EqDecision Action.
Proof. solve_decision. Defined.

(** [string(a)] *)
Definition action_string (a : Action) : string :=
  match a with
  | ActionStarted => "STARTED"
  | ActionCompleted => "COMPLETED"
  | ActionBlocked => "BLOCKED"
  | ActionAcknowledged => "ACKNOWLEDGED"
  | ActionHelpNeeded => "HELP-NEEDED"
  | ActionContext => "CONTEXT"
  | ActionRequestContext => "REQUEST-CONTEXT"
  | ActionSharingContext => "SHARING-CONTEXT"
  | ActionDiscover => "DISCOVER"
  | ActionCapabilities => "CAPABILITIES"
  | ActionOffer => "OFFER"
  | ActionClaim => "CLAIM"
  | ActionAssign => "ASSIGN"
  | ActionAccept => "ACCEPT"
  | ActionDecline => "DECLINE"
  | ActionYield => "YIELD"
  | ActionCheckpoint => "CHECKPOINT"
  | ActionHandoff => "HANDOFF"
  | ActionReviewRequest => "REVIEW-REQUEST"
  | ActionReviewComplete => "REVIEW-COMPLETE"
  | ActionGateCheck => "GATE-CHECK"
  | ActionVote => "VOTE"
  | ActionEscalate => "ESCALATE"
  | ActionCostReport => "COST-REPORT"
  | ActionOther raw => raw
  end.

(** The keys of [validActions]. *)
Definition validActions : list Action :=
  [ActionStarted; ActionCompleted; ActionBlocked; ActionAcknowledged;
   ActionHelpNeeded; ActionContext; ActionRequestContext; ActionSharingContext;
   ActionDiscover; ActionCapabilities; ActionOffer; ActionClaim;
   ActionAssign; ActionAccept; ActionDecline; ActionYield;
   ActionCheckpoint; ActionHandoff; ActionReviewRequest; ActionReviewComplete;
   ActionGateCheck; ActionVote; ActionEscalate; ActionCostReport].

(** [Action(s)]: the conversion of a string. *)
Definition action_of_string (s : string) : Action :=
  match find (λ a, bool_decide (action_string a = s)) validActions with
  | Some a => a
  | None => ActionOther s
  end.

Definition Valid (a : Action) : bool := bool_decide (a ∈ validActions).

(** A [nil] map and an empty one are read alike, so [Fields] is a map. *)
Record Message := {
  msg_Action : Action;
  msg_Fields : gmap string string;
  msg_Tags : list string;
  msg_Payload : string;
  msg_Channel : string;
  msg_Nick : string;
  msg_Timestamp : Time
}.

#[export] Instance Message_eta : RecordEta Message := λ r,
  {| msg_Action := msg_Action r; msg_Fields := msg_Fields r; msg_Tags := msg_Tags r;
     msg_Payload := msg_Payload r; msg_Channel := msg_Channel r; msg_Nick := msg_Nick r;
     msg_Timestamp := msg_Timestamp r |}.

Definition Get (m : Message) (key : string) : string :=
  default "" (msg_Fields m !! key).

Definition HasTag (m : Message) (tag : string) : bool :=
  bool_decide (tag ∈ msg_Tags m).

(** What the text of an [ErrCredentialDetected] names. *)
Inductive CredentialSite :=
  | SensitiveKey (k : string)
  | PatternInField (k : string)
  | PatternInPayload.

#[export] Instance CredentialSite_eq_dec : EqDecision CredentialSite.
Proof. solve_decision. Defined.

Inductive ProtocolError :=
  | ErrEmptyMessage
  | ErrUnknownAction (actionStr : string)
  | ErrUnclosedQuote (key : string)
  | ErrCredentialDetected (what : CredentialSite).

#[export] Instance ProtocolError_eq_dec : EqDecision ProtocolError.
Proof. solve_decision. Defined.

(** The prefixes that [init] builds; the order of the loop over them does not
    show in the result of [IsProtocolMessage]. *)
Definition actionPrefixes : list string :=
  validActions ≫= λ a, [action_string a +:+ " "; action_string a +:+ bytes [9]].

Definition IsProtocolMessage (raw : string) : bool :=
  let raw := TrimSpace raw in
  if existsb (HasPrefix raw) actionPrefixes then true
  else Valid (action_of_string raw).

(** ** Actions and their strings *)

Lemma Valid_action_of_string a : Valid a = true → action_of_string (action_string a) = a.
Proof.
  unfold Valid. rewrite bool_decide_eq_true. intros Ha.
  repeat (apply elem_of_cons in Ha as [->|Ha]; [vm_compute; reflexivity|]).
  by apply not_elem_of_nil in Ha.
Qed.

Lemma action_string_of_string s : action_string (action_of_string s) = s.
Proof.
  unfold action_of_string.
  destruct (find _ validActions) as [a|] eqn:E; [|done].
  apply find_some in E as [_ E]. by apply bool_decide_eq_true in E.
Qed.

Lemma Valid_other s : Valid (ActionOther s) = false.
Proof.
  unfold Valid. apply bool_decide_eq_false. intros H.
  repeat (apply elem_of_cons in H as [?|H]; [done|]). by apply not_elem_of_nil in H.
Qed.

(** Every constant is in [validActions], so [Valid] fails on [ActionOther] only. *)
Lemma Valid_spec a : Valid a = true ↔ ∀ s, a ≠ ActionOther s.
Proof.
  split; [intros H s ->; by rewrite Valid_other in H|].
  intros H. destruct a; try (vm_compute; reflexivity). by destruct (H raw).
Qed.

(** The names of the actions are made of upper-case letters and hyphens. *)
Definition action_byte (c : ascii) : bool :=
  ascii_range 65 90 c || bool_decide (c = "-"%char).

Lemma Valid_action_bytes a :
  Valid a = true → all_bytes action_byte (action_string a) = true ∧ action_string a ≠ "".
Proof.
  unfold Valid. rewrite bool_decide_eq_true. intros Ha.
  repeat (apply elem_of_cons in Ha as [->|Ha]; [by vm_compute|]).
  by apply not_elem_of_nil in Ha.
Qed.

(** Bytes of an action name are neither blanks nor part of a space, and are
    their own upper case. *)
Lemma action_byte_spec c :
  action_byte c = true →
  is_blank c = false ∧ space_byte c = false ∧ upper_byte c = c ∧
  nat_of_ascii c < 128.
Proof. by destruct c as [[] [] [] [] [] [] [] []]; vm_compute; repeat constructor || intros. Qed.

(** ** Messages the agent builds

    The composite literals [&Message{Action: a, Fields: ..., Tags: ...,
    Payload: ...}]: the other fields have their zero values. *)
Definition literal (a : Action) (fields : gmap string string) (tags : list string)
    (payload : string) : Message :=
  {| msg_Action := a; msg_Fields := fields; msg_Tags := tags; msg_Payload := payload;
     msg_Channel := ""; msg_Nick := ""; msg_Timestamp := zero_time |}.

(** [client.SendMessage(target, text)]: the calls are collected in order. *)
Abbreviation Outbox := (list (string * string)) (only parsing).

(** Where a reply goes: the channel, or the sender of a private message. *)
Definition reply_target (msg : Message) : string :=
  if bool_decide (msg_Channel msg = "") then msg_Nick msg else msg_Channel msg.

(** Texts in brackets, which the agent writes for people and for other
    servers, are never protocol messages. *)
Lemma bracket_not_action r :
  existsb (HasPrefix (String "[" r)) actionPrefixes = false ∧
  Valid (action_of_string (String "[" r)) = false.
Proof.
  split; [reflexivity|].
  replace (action_of_string (String "[" r)) with (ActionOther (String "[" r)); [apply Valid_other|].
  reflexivity.
Qed.

Lemma IsProtocolMessage_bracket r : IsProtocolMessage ("[" +:+ r) = false.
Proof.
  unfold IsProtocolMessage, TrimSpace. rewrite app_str_cons, app_str_nil_l.
  rewrite TrimLeft_id by (by apply starts_space_cons).
  destruct (TrimRight_spec (String "[" r)) as [_ [back Hb]].
  destruct (TrimRight (String "[" r)) as [|c t] eqn:E; [vm_compute; reflexivity|].
  rewrite app_str_cons in Hb. injection Hb as <- _.
  destruct (bracket_not_action t) as [-> ->]. done.
Qed.
