(* ===== verification/Parser.v ===== *)
(** * [Parse]: [pkg/protocol/parser.go]

    The index [i] into [body] is modelled by the part of [body] that is still
    to be read. *)

From S2P Require Import Prelude GoStrings Message.

Definition splitFirst (s : string) : string * string :=
  match span (λ c, negb (is_blank c)) s with
  | (_, "") => (s, "")
  | (first, String _ rest) => (first, TrimSpace rest)
  end.

Definition set_field (k v : string) (m : Message) : Message :=
  {| msg_Action := msg_Action m; msg_Fields := <[k := v]> (msg_Fields m);
     msg_Tags := msg_Tags m; msg_Payload := msg_Payload m;
     msg_Channel := msg_Channel m; msg_Nick := msg_Nick m;
     msg_Timestamp := msg_Timestamp m |}.

Definition add_tag (t : string) (m : Message) : Message :=
  {| msg_Action := msg_Action m; msg_Fields := msg_Fields m;
     msg_Tags := msg_Tags m ++ [t]; msg_Payload := msg_Payload m;
     msg_Channel := msg_Channel m; msg_Nick := msg_Nick m;
     msg_Timestamp := msg_Timestamp m |}.

Definition not_blank (c : ascii) : bool := negb (is_blank c).
Definition not_blank_eq (c : ascii) : bool :=
  negb (bool_decide (c = "="%char)) && not_blank c.

Definition quote : ascii := "034"%char.
Definition not_quote (c : ascii) : bool := negb (bool_decide (c = quote)).

(** The value of a field, once its [=] has been read. *)
Definition tokenize_value (key : string) (msg : Message) (rest : string) :
    (Message * string) + (Message + ProtocolError) :=
  let unquoted :=
    let '(v, rest') := span not_blank rest in inl (set_field key v msg, rest') in
  match rest with
  | String q rest' =>
      if decide (q = quote) then
        match span not_quote rest' with
        | (_, "") => inr (inr (ErrUnclosedQuote key))
        | (v, String _ rest'') => inl (set_field key v msg, rest'')
        end
      else unquoted
  | "" => unquoted
  end.

(** One iteration of the loop of [tokenize]. *)
Definition tokenize_step (st : Message * string) :
    (Message * string) + (Message + ProtocolError) :=
  let '(msg, body) := st in
  match body with
  | "" => inr (inl msg)
  | String c rest =>
      if is_blank c then inl (msg, rest)
      else if decide (c = "#"%char) then
        let '(tag, rest) := span not_blank rest in
        inl (if decide (tag = "") then msg else add_tag tag msg, rest)
      else
        match span not_blank_eq body with
        | (key, String e rest) =>
            if decide (e = "="%char) then tokenize_value key msg rest
            else inl (msg, String e rest)
        | (_, "") => inl (msg, "")
        end
  end.

Lemma tokenize_value_length key msg rest s' :
  tokenize_value key msg rest = inl s' → String.length s'.2 ≤ String.length rest.
Proof.
  unfold tokenize_value. intros H.
  pose proof (span_length not_blank rest) as Hu.
  destruct (span not_blank rest) as [v r].
  destruct rest as [|q rest']; [by simplify_eq/=|].
  case_decide; [|by simplify_eq/=].
  pose proof (span_length not_quote rest') as Hq.
  destruct (span not_quote rest') as [v' [|e r']]; simplify_eq/=. lia.
Qed.

Lemma tokenize_step_decreasing :
  decreasing tokenize_step (λ st, String.length st.2).
Proof.
  intros [msg body] s' H. destruct body as [|c rest]; [done|]. cbn -[span] in *.
  destruct (is_blank c) eqn:Hb; [simplify_eq/=; lia|].
  case_decide as Hh.
  { pose proof (span_length not_blank rest).
    destruct (span not_blank rest). simplify_eq/=. lia. }
  pose proof (span_length not_blank_eq rest) as Hl.
  cbn in H. unfold not_blank_eq in H at 1. unfold not_blank in H. rewrite Hb in H.
  destruct (decide (c = "="%char)) as [->|Hc].
  - cbn in H. apply tokenize_value_length in H. lia.
  - rewrite bool_decide_eq_false_2 in H by done. cbn in H.
    fold not_blank in H. fold not_blank_eq in H.
    destruct (span not_blank_eq rest) as [key [|e r]]; simplify_eq/=; [lia|].
    case_decide; simplify_eq/=; [|lia]. apply tokenize_value_length in H. lia.
Qed.

Definition tokenize (msg : Message) (body : string) : Message + ProtocolError :=
  loop tokenize_step_decreasing (msg, body).

Definition new_message (a : Action) : Message :=
  {| msg_Action := a; msg_Fields := ∅; msg_Tags := []; msg_Payload := "";
     msg_Channel := ""; msg_Nick := ""; msg_Timestamp := zero_time |}.

Definition set_payload (p : string) (m : Message) : Message :=
  {| msg_Action := msg_Action m; msg_Fields := msg_Fields m;
     msg_Tags := msg_Tags m; msg_Payload := p;
     msg_Channel := msg_Channel m; msg_Nick := msg_Nick m;
     msg_Timestamp := msg_Timestamp m |}.

Definition Parse (raw : string) : Message + ProtocolError :=
  let raw := TrimSpace raw in
  if decide (raw = "") then inr ErrEmptyMessage
  else
    let '(actionStr, rest) := splitFirst raw in
    let action := action_of_string (ToUpper actionStr) in
    if negb (Valid action) then inr (ErrUnknownAction actionStr)
    else if decide (action = ActionSharingContext)
    then inl (set_payload rest (new_message action))
    else tokenize (new_message action) rest.

(** The double quote as a string. *)
Definition qt : string := String quote "".

Example Parse_ex1 :
  Parse ("started task=db-migration note=" +:+ qt +:+ "a b" +:+ qt +:+ "#urgent word # #x") =
  inl {| msg_Action := ActionStarted;
         msg_Fields := {["task" := "db-migration"; "note" := "a b"]};
         msg_Tags := ["urgent"; "x"]; msg_Payload := ""; msg_Channel := "";
         msg_Nick := ""; msg_Timestamp := 0%Z |}.
Proof. vm_compute. reflexivity. Qed.

Example Parse_ex2 :
  Parse ("STARTED a=b note=" +:+ qt +:+ "a b") = inr (ErrUnclosedQuote "note").
Proof. vm_compute. reflexivity. Qed.
