(* ===== verification/Serializer.v ===== *)
(** * [Message.String]: [pkg/protocol/serializer.go], and the round trip *)

From S2P Require Import Prelude GoStrings Message Parser.

Section serializer.
Context `{MR : MapRange}.

(** The keys of [Fields], collected in the order of the map loop and then
    sorted by [sort.Strings]. *)
Definition sorted_keys (fields : gmap string string) : list string :=
  merge_sort String.le (range 0 fields).*1.

(** What [String] writes for one value. *)
Definition value_text (v : string) : string :=
  if ContainsAny v is_blank then qt +:+ v +:+ qt else v.

Definition field_text (fields : gmap string string) (k : string) : string :=
  k +:+ "=" +:+ value_text (default "" (fields !! k)).

Definition tag_text (t : string) : string := "#" +:+ t.

(** Every token is written after a space. *)
Fixpoint spaced (tokens : list string) : string :=
  match tokens with
  | [] => ""
  | t :: tokens => " " +:+ t +:+ spaced tokens
  end.

Definition Message_String (m : Message) : string :=
  action_string (msg_Action m) +:+
  (if decide (msg_Action m = ActionSharingContext) then
     (if decide (msg_Payload m = "") then "" else " " +:+ msg_Payload m)
   else spaced ((field_text (msg_Fields m) <$> sorted_keys (msg_Fields m)) ++
                (tag_text <$> msg_Tags m))).
End serializer.

Example Message_String_ex :
  Message_String (set_field "task" "b c" (set_field "priority" "high"
    (add_tag "x" (new_message ActionStarted))))
  = "STARTED priority=high task=" +:+ qt +:+ "b c" +:+ qt +:+ " #x".
Proof. vm_compute. reflexivity. Qed.

(** ** The order of the map loop does not show *)
Lemma sorted_keys_unique (MR MR' : MapRange) fields :
  @sorted_keys MR fields = @sorted_keys MR' fields.
Proof.
  unfold sorted_keys. apply (Sorted_unique String.le).
  - apply Sorted_merge_sort, _.
  - apply Sorted_merge_sort, _.
  - rewrite !merge_sort_Permutation. apply fmap_Permutation.
    by rewrite !range_perm.
Qed.

Lemma elem_of_sorted_keys `{MR : MapRange} fields k :
  k ∈ sorted_keys fields ↔ is_Some (fields !! k).
Proof. unfold sorted_keys. rewrite merge_sort_Permutation. apply elem_of_range_fst. Qed.

(** ** The messages that the wire format can carry *)

(** A key holds no blank and no [=], does not start a tag or a space. *)
Definition key_ok (k : string) : bool :=
  all_bytes not_blank_eq k && negb (HasPrefix k "#") && negb (starts_space k).

(** A value is written in quotes, and then holds none, when it holds a blank;
    otherwise it must not look quoted and must not end in a space. *)
Definition value_ok (v : string) : bool :=
  if ContainsAny v is_blank then all_bytes not_quote v
  else negb (HasPrefix v qt) && negb (ends_space v).

Definition tag_ok (t : string) : bool :=
  bool_decide (t ≠ "") && all_bytes not_blank t && negb (ends_space t).

Definition field_ok (kv : string * string) : bool := key_ok kv.1 && value_ok kv.2.

Definition wf_message (m : Message) : bool :=
  Valid (msg_Action m) &&
  if decide (msg_Action m = ActionSharingContext) then
    bool_decide (msg_Fields m = ∅) && bool_decide (msg_Tags m = []) &&
    bool_decide (TrimSpace (msg_Payload m) = msg_Payload m)
  else
    bool_decide (msg_Payload m = "") &&
    forallb field_ok (map_to_list (msg_Fields m)) && forallb tag_ok (msg_Tags m).

(** What is left of a message on the wire: the dispatcher sets the rest. *)
Definition wire_view (m : Message) : Message :=
  {| msg_Action := msg_Action m; msg_Fields := msg_Fields m;
     msg_Tags := msg_Tags m; msg_Payload := msg_Payload m;
     msg_Channel := ""; msg_Nick := ""; msg_Timestamp := zero_time |}.

(** ** Reading one token back *)

Lemma tokenize_unfold msg body :
  tokenize msg body =
    match tokenize_step (msg, body) with inl (m, b) => tokenize m b | inr r => r end.
Proof.
  unfold tokenize at 1. rewrite loop_unfold. by destruct (tokenize_step _) as [[]|].
Qed.

Lemma tokenize_blank msg c rest :
  is_blank c = true → tokenize msg (String c rest) = tokenize msg rest.
Proof.
  intros Hc. rewrite tokenize_unfold. unfold tokenize_step. by rewrite Hc.
Qed.

Lemma tokenize_end msg : tokenize msg "" = inl msg.
Proof. by rewrite tokenize_unfold. Qed.

(** What may follow a token: nothing, or a blank. *)
Definition stops (s : string) : Prop := s = "" ∨ ∃ c r, s = String c r ∧ is_blank c = true.

Lemma span_not_blank_stops a s :
  all_bytes not_blank a = true → stops s → span not_blank (a +:+ s) = (a, s).
Proof.
  intros Ha [->|(c & r & -> & Hc)].
  - rewrite app_str_nil_r. by apply span_full.
  - apply span_prefix; [done|]. unfold not_blank. by rewrite Hc.
Qed.

Lemma tokenize_tag msg t s :
  t ≠ "" → all_bytes not_blank t = true → stops s →
  tokenize msg (tag_text t +:+ s) = tokenize (add_tag t msg) s.
Proof.
  intros Ht Ha Hs. unfold tag_text. rewrite <- app_str_assoc, app_str_cons, app_str_nil_l.
  rewrite tokenize_unfold. unfold tokenize_step.
  change (is_blank "#"%char) with false. rewrite decide_True by done. cbv iota.
  rewrite span_not_blank_stops by done. by rewrite decide_False.
Qed.

Lemma not_blank_no_ContainsAny v :
  ContainsAny v is_blank = false → all_bytes not_blank v = true.
Proof. unfold ContainsAny. by rewrite negb_false_iff. Qed.

Lemma tokenize_value_text k v msg s :
  value_ok v = true → stops s →
  tokenize_value k msg (value_text v +:+ s) = inl (set_field k v msg, s).
Proof.
  unfold value_ok, value_text. destruct (ContainsAny v is_blank) eqn:Hc.
  - intros Hq Hs. rewrite <- !app_str_assoc. unfold qt.
    rewrite !app_str_cons, !app_str_nil_l. unfold tokenize_value.
    rewrite decide_True by done. by rewrite span_prefix.
  - intros [Hp _]%andb_prop Hs. apply not_blank_no_ContainsAny in Hc.
    unfold tokenize_value. rewrite span_not_blank_stops by done.
    destruct (v +:+ s) as [|q r] eqn:E; [done|].
    rewrite decide_False; [done|]. intros ->.
    destruct v as [|d v]; [destruct Hs as [->|(d & r' & -> & Hd)]; [done|]|].
    + rewrite app_str_nil_l in E. by simplify_eq.
    + rewrite app_str_cons in E. injection E as -> _. by vm_compute in Hp.
Qed.

Lemma tokenize_field msg k v s :
  key_ok k = true → value_ok v = true → stops s →
  tokenize msg ((k +:+ "=" +:+ value_text v) +:+ s) = tokenize (set_field k v msg) s.
Proof.
  unfold key_ok. intros [[Hk Hh]%andb_prop _]%andb_prop Hv Hs.
  rewrite <- !app_str_assoc. rewrite app_str_cons, app_str_nil_l.
  rewrite tokenize_unfold.
  pose proof (span_prefix not_blank_eq k "="%char (value_text v +:+ s) Hk eq_refl) as Hsp.
  assert (∃ c r, k +:+ String "=" (value_text v +:+ s) = String c r ∧
    is_blank c = false ∧ c ≠ "#"%char) as (c & r & Hcr & Hb & Hc).
  { destruct k as [|d k]; [by eexists _, _|]. rewrite app_str_cons.
    eexists _, _. split; [done|]. cbn in Hk. apply andb_prop in Hk as [Hd _].
    unfold not_blank_eq, not_blank in Hd.
    apply andb_prop in Hd as [_ Hd%negb_true_iff]. split; [done|].
    intros ->. by vm_compute in Hh. }
  rewrite Hcr in *. unfold tokenize_step. rewrite Hb, decide_False by done.
  rewrite Hsp, decide_True by done. by rewrite tokenize_value_text.
Qed.

Lemma stops_spaced toks : stops (spaced toks).
Proof. destruct toks; [by left|]. right. by eexists _, _. Qed.

(** ** The text survives the trimming *)

(** A string with a byte that no space contains, after which no space ends it:
    nothing written before it makes it end in a space. *)
Definition solid (s : string) : Prop :=
  ∃ a c b, s = a +:+ String c b ∧ space_byte c = false ∧ ends_space b = false.

Lemma solid_ends s : solid s → ends_space s = false.
Proof. intros (a & c & b & -> & Hc & Hb). by apply ends_space_app. Qed.

Lemma solid_app x s : solid s → solid (x +:+ s).
Proof.
  intros (a & c & b & -> & Hc & Hb). exists (x +:+ a), c, b.
  by rewrite app_str_assoc.
Qed.

Definition token_ok (t : string) : Prop :=
  solid t ∧ ∀ s, starts_space (t +:+ s) = false.

Lemma field_token_ok (fields : gmap string string) k :
  key_ok k = true → value_ok (default "" (fields !! k)) = true →
  token_ok (field_text fields k).
Proof.
  unfold field_text. set (v := default "" (fields !! k)).
  unfold key_ok. intros [_ Hk%negb_true_iff]%andb_prop Hv.
  rewrite app_str_cons, app_str_nil_l. split.
  - unfold value_ok in Hv. unfold value_text. destruct (ContainsAny v is_blank).
    + exists (k +:+ String "=" (qt +:+ v)), quote, "".
      split_and!; [|done..]. rewrite <- (app_str_assoc k), app_str_cons.
      by rewrite <- app_str_assoc.
    + apply andb_prop in Hv as [_ Hv%negb_true_iff]. by exists k, "="%char, v.
  - intros s. rewrite <- app_str_assoc, app_str_cons. by apply starts_space_app.
Qed.

Lemma tag_token_ok t : tag_ok t = true → token_ok (tag_text t).
Proof.
  unfold tag_ok. intros [_ Ht%negb_true_iff]%andb_prop. split.
  - by exists "", "#"%char, t.
  - intros s. by apply starts_space_cons.
Qed.

Lemma solid_token_spaced t toks :
  token_ok t → Forall token_ok toks → solid (t +:+ spaced toks).
Proof.
  revert t. induction toks as [|t' toks IH]; intros t [Ht _].
  - cbn. by rewrite app_str_nil_r.
  - intros [Ht' Hall]%Forall_cons. cbn. apply solid_app, solid_app. by apply IH.
Qed.

Lemma solid_action a : Valid a = true → solid (action_string a).
Proof.
  intros [Hb Hne]%Valid_action_bytes. destruct (action_string a) as [|c s]; [done|].
  cbn in Hb. apply andb_prop in Hb as [Hc Hs].
  exists "", c, s. split_and!; [done|by apply action_byte_spec in Hc as (_ & ? & _)|].
  apply ends_space_nonspace. eapply all_bytes_impl; [|exact Hs].
  intros d Hd%action_byte_spec. by destruct Hd as (_ & -> & _).
Qed.

Lemma starts_space_action a s :
  Valid a = true → starts_space (action_string a +:+ s) = false.
Proof.
  intros [Hb Hne]%Valid_action_bytes. destruct (action_string a) as [|c r]; [done|].
  rewrite app_str_cons. apply starts_space_cons. cbn in Hb.
  apply andb_prop in Hb as [Hc _]. by apply action_byte_spec in Hc as (_ & ? & _).
Qed.

Lemma action_not_blank a :
  Valid a = true → all_bytes (λ c, negb (is_blank c)) (action_string a) = true.
Proof.
  intros [Hb _]%Valid_action_bytes. eapply all_bytes_impl; [|exact Hb].
  intros c Hc%action_byte_spec. by destruct Hc as (-> & _).
Qed.

Lemma ToUpper_action a : Valid a = true → ToUpper (action_string a) = action_string a.
Proof.
  intros [Hb _]%Valid_action_bytes. apply ToUpper_fixed.
  eapply all_bytes_impl; [|exact Hb]. intros c Hc%action_byte_spec.
  destruct Hc as (_ & _ & Hu & Hlt). apply andb_true_intro. split.
  - by apply Nat.ltb_lt.
  - by apply bool_decide_eq_true.
Qed.

(** [Parse] on an action and a rest that need no trimming. *)
Lemma Parse_action a rest :
  Valid a = true → ends_space (action_string a +:+ " " +:+ rest) = false →
  Parse (action_string a +:+ " " +:+ rest) =
    if decide (a = ActionSharingContext)
    then inl (set_payload (TrimSpace rest) (new_message a))
    else tokenize (new_message a) (TrimSpace rest).
Proof.
  intros Ha He. unfold Parse. cbv zeta.
  rewrite TrimSpace_id by (done || by apply starts_space_action).
  rewrite decide_False.
  2:{ apply Valid_action_bytes in Ha as [_ Hne].
      destruct (action_string a); [done|]. by rewrite app_str_cons. }
  unfold splitFirst. rewrite app_str_cons, app_str_nil_l.
  rewrite span_prefix; [|by apply action_not_blank|done].
  rewrite ToUpper_action, Valid_action_of_string by done. by rewrite Ha.
Qed.

Lemma Parse_bare_action a :
  Valid a = true →
  Parse (action_string a) =
    if decide (a = ActionSharingContext)
    then inl (set_payload "" (new_message a)) else inl (new_message a).
Proof.
  intros Ha. unfold Parse. cbv zeta.
  rewrite TrimSpace_id.
  2:{ rewrite <- (app_str_nil_r (action_string a)). by apply starts_space_action. }
  2:{ by apply solid_ends, solid_action. }
  rewrite decide_False by by apply Valid_action_bytes in Ha as [_ Hne].
  unfold splitFirst. rewrite span_full by by apply action_not_blank.
  rewrite ToUpper_action, Valid_action_of_string, Ha, tokenize_end by done. done.
Qed.

(** ** Reading the tokens back *)

Lemma tokenize_fields (fields : gmap string string) ks msg s :
  Forall (λ k, key_ok k = true ∧ value_ok (default "" (fields !! k)) = true) ks →
  stops s →
  tokenize msg (spaced (field_text fields <$> ks) +:+ s) =
    tokenize (foldl (λ m k, set_field k (default "" (fields !! k)) m) msg ks) s.
Proof.
  revert msg. induction ks as [|k ks IH]; intros msg Hall Hs.
  - cbn. by rewrite app_str_nil_l.
  - apply Forall_cons in Hall as [[Hk Hv] Hall]. cbn -[field_text].
    rewrite <- !app_str_assoc, app_str_cons, app_str_nil_l.
    rewrite tokenize_blank by done. unfold field_text at 1.
    rewrite (tokenize_field _ k (default "" (fields !! k))); [by apply IH|done..|].
    destruct ks as [|k' ks]; [by rewrite app_str_nil_l|right; by eexists _, _].
Qed.

Lemma tokenize_tags ts msg :
  Forall (λ t, tag_ok t = true) ts →
  tokenize msg (spaced (tag_text <$> ts)) = inl (foldl (λ m t, add_tag t m) msg ts).
Proof.
  revert msg. induction ts as [|t ts IH]; intros msg Hall; [apply tokenize_end|].
  apply Forall_cons in Hall as [Ht Hall]. cbn -[tag_text].
  rewrite app_str_cons, app_str_nil_l, tokenize_blank by done.
  unfold tag_ok in Ht. apply andb_prop in Ht as [[Hne%bool_decide_eq_true Hb]%andb_prop _].
  rewrite tokenize_tag by (done || apply stops_spaced). by apply IH.
Qed.

Lemma spaced_app l l' : spaced (l ++ l') = spaced l +:+ spaced l'.
Proof.
  induction l as [|t l IH]; [done|]. cbn [app spaced].
  by rewrite IH, <- !app_str_assoc.
Qed.

Lemma foldl_set_field (fields : gmap string string) ks m :
  foldl (λ m k, set_field k (default "" (fields !! k)) m) m ks =
    {| msg_Action := msg_Action m;
       msg_Fields := foldl (λ f k, <[k := default "" (fields !! k)]> f) (msg_Fields m) ks;
       msg_Tags := msg_Tags m; msg_Payload := msg_Payload m;
       msg_Channel := msg_Channel m; msg_Nick := msg_Nick m;
       msg_Timestamp := msg_Timestamp m |}.
Proof.
  revert m. induction ks as [|k ks IH]; intros m; [by destruct m|]. cbn. by rewrite IH.
Qed.

Lemma foldl_add_tag ts m :
  foldl (λ m t, add_tag t m) m ts =
    {| msg_Action := msg_Action m; msg_Fields := msg_Fields m;
       msg_Tags := msg_Tags m ++ ts; msg_Payload := msg_Payload m;
       msg_Channel := msg_Channel m; msg_Nick := msg_Nick m;
       msg_Timestamp := msg_Timestamp m |}.
Proof.
  revert m. induction ts as [|t ts IH]; intros m.
  - cbn. rewrite app_nil_r. by destruct m.
  - cbn [foldl]. rewrite IH. cbn. by rewrite <- app_assoc.
Qed.

Lemma foldl_insert_lookup (fields init : gmap string string) ks i :
  foldl (λ f k, <[k := default "" (fields !! k)]> f) init ks !! i =
    if decide (i ∈ ks) then Some (default "" (fields !! i)) else init !! i.
Proof.
  revert init. induction ks as [|k ks IH]; intros init; [done|]. cbn.
  rewrite IH. destruct (decide (i ∈ ks)).
  - by rewrite decide_True by by right.
  - destruct (decide (i = k)) as [->|].
    + rewrite decide_True by by left. by rewrite lookup_insert_eq.
    + rewrite decide_False by by intros [?|?]%elem_of_cons.
      by rewrite lookup_insert_ne.
Qed.

Lemma foldl_insert_keys `{MR : MapRange} (fields : gmap string string) :
  foldl (λ f k, <[k := default "" (fields !! k)]> f) ∅ (sorted_keys fields) = fields.
Proof.
  apply map_eq. intros i. rewrite foldl_insert_lookup.
  destruct (decide (i ∈ sorted_keys fields)) as [Hin|Hin].
  - apply elem_of_sorted_keys in Hin as [v ->]. done.
  - rewrite elem_of_sorted_keys, <- eq_None_not_Some in Hin. by rewrite Hin.
Qed.

Section round_trip.
Context `{MR : MapRange}.

Lemma wf_sorted_keys m :
  forallb field_ok (map_to_list (msg_Fields m)) = true →
  Forall (λ k, key_ok k = true ∧ value_ok (default "" (msg_Fields m !! k)) = true)
    (sorted_keys (msg_Fields m)).
Proof.
  intros Hf. apply Forall_forall. intros k [v Hv]%elem_of_sorted_keys. rewrite Hv.
  rewrite forallb_forall in Hf. specialize (Hf (k, v)).
  rewrite <- list_elem_of_In, elem_of_map_to_list in Hf.
  by specialize (Hf Hv) as [? ?]%andb_prop.
Qed.

Lemma wf_tags m :
  forallb tag_ok (msg_Tags m) = true → Forall (λ t, tag_ok t = true) (msg_Tags m).
Proof. rewrite forallb_forall, Forall_forall. intros H t Ht. apply H. by apply list_elem_of_In. Qed.

(** The tokens of a well-formed message, and the text between them. *)
Lemma spaced_tokens_solid m :
  forallb field_ok (map_to_list (msg_Fields m)) = true →
  forallb tag_ok (msg_Tags m) = true →
  Forall token_ok ((field_text (msg_Fields m) <$> sorted_keys (msg_Fields m)) ++
                   (tag_text <$> msg_Tags m)).
Proof.
  intros Hf%wf_sorted_keys Ht%wf_tags. apply Forall_app. split; apply Forall_fmap.
  - eapply Forall_impl; [exact Hf|]. intros k [Hk Hv]. by apply field_token_ok.
  - eapply Forall_impl; [exact Ht|]. intros t. apply tag_token_ok.
Qed.

Lemma tokenize_spaced m :
  forallb field_ok (map_to_list (msg_Fields m)) = true →
  forallb tag_ok (msg_Tags m) = true →
  msg_Payload m = "" →
  tokenize (new_message (msg_Action m))
    (spaced ((field_text (msg_Fields m) <$> sorted_keys (msg_Fields m)) ++
             (tag_text <$> msg_Tags m))) = inl (wire_view m).
Proof.
  intros Hf%wf_sorted_keys Ht%wf_tags Hp.
  rewrite spaced_app, tokenize_fields by (done || apply stops_spaced).
  rewrite tokenize_tags by done.
  rewrite foldl_add_tag, foldl_set_field. cbn. rewrite foldl_insert_keys.
  unfold wire_view. by rewrite Hp.
Qed.

Lemma Parse_String_tokens m :
  wf_message m = true → msg_Action m ≠ ActionSharingContext →
  Parse (Message_String m) = inl (wire_view m).
Proof.
  unfold wf_message. intros [Ha H]%andb_prop Hne. rewrite decide_False in H by done.
  apply andb_prop in H as [[Hp%bool_decide_eq_true Hf]%andb_prop Ht].
  pose proof (tokenize_spaced m Hf Ht Hp) as Htok.
  pose proof (spaced_tokens_solid m Hf Ht) as Hok.
  unfold Message_String. rewrite decide_False by done.
  set (toks := _ ++ _) in *. destruct toks as [|t toks].
  - cbn [spaced] in *. rewrite app_str_nil_r, Parse_bare_action by done.
    rewrite decide_False by done. by rewrite tokenize_end in Htok.
  - apply Forall_cons in Hok as [Hst Hok].
    pose proof (solid_token_spaced _ _ Hst Hok) as Hs. destruct Hst as [_ Hst].
    cbn [spaced] in *.
    rewrite Parse_action; [|done|by apply solid_ends, solid_app, solid_app].
    rewrite decide_False by done. rewrite app_str_cons, app_str_nil_l in Htok.
    rewrite tokenize_blank in Htok by done.
    rewrite TrimSpace_id; [done|apply Hst|by apply solid_ends].
Qed.

Lemma Parse_String_payload m :
  wf_message m = true → msg_Action m = ActionSharingContext →
  Parse (Message_String m) = inl (wire_view m).
Proof.
  unfold wf_message. intros [_ H]%andb_prop Ha. rewrite decide_True in H by done.
  apply andb_prop in H as
    [[Hf%bool_decide_eq_true Ht%bool_decide_eq_true]%andb_prop Hp%bool_decide_eq_true].
  unfold Message_String, wire_view. rewrite Ha, decide_True, Hf, Ht by done.
  case_decide as Hne; [by rewrite Hne|].
  rewrite Parse_action; [|done|].
  - rewrite decide_True by done. by rewrite Hp.
  - rewrite app_str_assoc.
    change (action_string ActionSharingContext +:+ " ")
      with ("SHARING-CONTEX" +:+ "T" +:+ " ").
    rewrite <- !app_str_assoc. apply ends_space_app; [done|].
    apply ends_space_blank; [done|]. destruct (TrimSpace_spec (msg_Payload m)) as (_ & He & _).
    by rewrite Hp in He.
Qed.

(** What [Parse] reads back from a serialized message. *)
Lemma Parse_Message_String m :
  wf_message m = true → Parse (Message_String m) = inl (wire_view m).
Proof.
  intros H. destruct (decide (msg_Action m = ActionSharingContext)).
  - by apply Parse_String_payload.
  - by apply Parse_String_tokens.
Qed.
End round_trip.

(** ** Messages whose fields are well-formed one by one *)

Definition fields_ok (m : gmap string string) : Prop :=
  map_Forall (λ k v, key_ok k = true ∧ value_ok v = true) m.

Lemma fields_ok_empty : fields_ok ∅.
Proof. apply map_Forall_empty. Qed.

Lemma fields_ok_insert k v m :
  key_ok k = true → value_ok v = true → fields_ok m → fields_ok (<[k := v]> m).
Proof. intros. by apply map_Forall_insert_2. Qed.

Lemma fields_ok_singleton k v :
  key_ok k = true → value_ok v = true → fields_ok {[k := v]}.
Proof. intros. by apply map_Forall_singleton. Qed.

Lemma wf_literal a fields tags :
  Valid a = true → a ≠ ActionSharingContext → fields_ok fields → forallb tag_ok tags = true →
  wf_message (literal a fields tags "") = true.
Proof.
  intros Ha Hne Hf Ht. unfold wf_message. cbn. rewrite Ha, decide_False by done. cbn.
  rewrite Ht, andb_true_r. apply forallb_forall. intros [k v] Hin%list_elem_of_In%elem_of_map_to_list.
  destruct (Hf k v Hin) as [Hk Hv]. unfold field_ok. cbn. by rewrite Hk, Hv.
Qed.
