(* ===== verification/Codec.v ===== *)
(** * What the codec guarantees

    The parser and the serializer taken together: the round trips, the
    determinism of the serializer, and what the prefix test of
    [IsProtocolMessage] says about [Parse]. *)

From S2P Require Import Prelude GoStrings GoNum Message Parser Serializer.

(** ** The fields and tags that the tokenizer stores *)

Lemma all_nonspace s :
  all_bytes plain s = true → all_bytes not_blank s = true →
  all_bytes (λ c, negb (space_byte c)) s = true.
Proof.
  induction s as [|c s IH]; [done|]. cbn.
  intros [Hp Hps]%andb_prop [Hb Hbs]%andb_prop. apply andb_true_intro.
  split; [|by apply IH].
  unfold plain, not_blank in *. apply negb_true_iff in Hb. by rewrite Hb, orb_false_r in Hp.
Qed.

Lemma not_blank_eq_not_blank s :
  all_bytes not_blank_eq s = true → all_bytes not_blank s = true.
Proof. apply all_bytes_impl. unfold not_blank_eq. by intros c [_ ?]%andb_prop. Qed.

Lemma plain_span p s :
  all_bytes plain s = true →
  all_bytes plain (span p s).1 = true ∧ all_bytes plain (span p s).2 = true.
Proof.
  intros H. rewrite <- (span_app p s), all_bytes_app in H. by apply andb_prop.
Qed.

Lemma ContainsAny_false v :
  all_bytes not_blank v = true → ContainsAny v is_blank = false.
Proof. intros H. unfold ContainsAny. by apply negb_false_iff. Qed.

Lemma value_ok_unquoted v :
  all_bytes plain v = true → all_bytes not_blank v = true →
  HasPrefix v qt = false → value_ok v = true.
Proof.
  intros Hp Hb Hq. unfold value_ok. rewrite ContainsAny_false, Hq by done.
  by rewrite ends_space_nonspace by by apply all_nonspace.
Qed.

Lemma value_ok_quoted v :
  all_bytes plain v = true → all_bytes not_quote v = true → value_ok v = true.
Proof.
  intros Hp Hq. destruct (ContainsAny v is_blank) eqn:Hc.
  - unfold value_ok. by rewrite Hc.
  - apply value_ok_unquoted; [done|by apply not_blank_no_ContainsAny|].
    destruct (HasPrefix v qt) eqn:E; [|done].
    apply HasPrefix_spec in E as [r ->]. by vm_compute in Hq.
Qed.

Lemma key_ok_span c rest key e r :
  all_bytes plain (String c rest) = true → c ≠ "#"%char →
  span not_blank_eq (String c rest) = (key, String e r) → key_ok key = true.
Proof.
  intros Hp Hc E.
  pose proof (span_all not_blank_eq (String c rest)) as Hall.
  pose proof (span_app not_blank_eq (String c rest)) as Happ.
  destruct (plain_span not_blank_eq _ Hp) as [Hk _]. rewrite E in *. cbn [fst snd] in *.
  unfold key_ok. rewrite Hall.
  rewrite starts_space_nonspace by (apply all_nonspace; [done|by apply not_blank_eq_not_blank]).
  destruct (HasPrefix key "#") eqn:Hh; [|done].
  apply HasPrefix_spec in Hh as [t ->]. rewrite !app_str_cons in Happ. by simplify_eq.
Qed.

(** ** The invariant of the loop of [tokenize] *)
Definition tokens_ok (a : Action) (m : Message) : Prop :=
  m = {| msg_Action := a; msg_Fields := msg_Fields m; msg_Tags := msg_Tags m;
         msg_Payload := ""; msg_Channel := ""; msg_Nick := ""; msg_Timestamp := zero_time |}
  ∧ map_Forall (λ k v, field_ok (k, v) = true) (msg_Fields m)
  ∧ Forall (λ t, tag_ok t = true) (msg_Tags m).

Lemma tokens_ok_new a : tokens_ok a (new_message a).
Proof. split_and!; [done|by apply map_Forall_empty|by apply Forall_nil]. Qed.

Lemma tokens_ok_set_field a k v m :
  tokens_ok a m → key_ok k = true → value_ok v = true → tokens_ok a (set_field k v m).
Proof.
  intros (Hm & Hf & Ht) Hk Hv. rewrite Hm. split_and!; [done| |done].
  cbn. apply map_Forall_insert_2; [|done]. unfold field_ok. cbn. by rewrite Hk, Hv.
Qed.

Lemma tokens_ok_add_tag a t m : tokens_ok a m → tag_ok t = true → tokens_ok a (add_tag t m).
Proof.
  intros (Hm & Hf & Ht) Hk. rewrite Hm. split_and!; [done..|].
  cbn. apply Forall_app. by repeat constructor.
Qed.

Definition tokenize_inv (a : Action) (st : Message * string) : Prop :=
  tokens_ok a st.1 ∧ all_bytes plain st.2 = true.

Lemma tokenize_value_inv a key msg rest st' :
  tokens_ok a msg → key_ok key = true → all_bytes plain rest = true →
  tokenize_value key msg rest = inl st' → tokenize_inv a st'.
Proof.
  intros Hm Hk Hp H. unfold tokenize_value in H.
  pose proof (plain_span not_blank rest Hp) as [Hp1 Hp2].
  pose proof (span_all not_blank rest) as Hall.
  pose proof (span_app not_blank rest) as Happ.
  destruct (span not_blank rest) as [v r]. cbn [fst snd] in *.
  destruct rest as [|q rest'].
  - destruct v; [|done]. injection H as <-. split; [|done]. by apply tokens_ok_set_field.
  - destruct (decide (q = quote)) as [->|Hq].
    + cbn in Hp. pose proof (plain_span not_quote rest' Hp) as [Hq1 Hq2].
      pose proof (span_all not_quote rest') as Hqall.
      destruct (span not_quote rest') as [w [|e r']]; [done|]. cbn [fst snd] in *.
      injection H as <-. cbn in Hq2. apply andb_prop in Hq2 as [_ Hq2].
      split; [|done]. apply tokens_ok_set_field; [done..|by apply value_ok_quoted].
    + injection H as <-. split; [|done]. apply tokens_ok_set_field; [done..|].
      apply value_ok_unquoted; [done..|].
      destruct (HasPrefix v qt) eqn:E; [|done].
      apply HasPrefix_spec in E as [t ->]. unfold qt in Happ.
      rewrite !app_str_cons in Happ. by simplify_eq.
Qed.

Lemma tokenize_step_inv a st st' :
  tokenize_inv a st → tokenize_step st = inl st' → tokenize_inv a st'.
Proof.
  destruct st as [msg body]. intros [Hm Hp] H. cbn [fst snd] in *.
  destruct body as [|c rest]; [done|]. unfold tokenize_step in H.
  assert (all_bytes plain rest = true) as Hpr by by apply andb_prop in Hp as [_ ?].
  destruct (is_blank c); [by injection H as <-|].
  case_decide as Hh.
  - pose proof (plain_span not_blank rest Hpr) as [Hp1 Hp2].
    pose proof (span_all not_blank rest) as Hall.
    destruct (span not_blank rest) as [t r]. cbn [fst snd] in *. injection H as <-.
    split; [|done]. case_decide as Ht; [done|]. apply tokens_ok_add_tag; [done|].
    unfold tag_ok. rewrite bool_decide_eq_true_2, Hall by done.
    by rewrite ends_space_nonspace by by apply all_nonspace.
  - pose proof (plain_span not_blank_eq _ Hp) as [Hp1 Hp2].
    destruct (span not_blank_eq (String c rest)) as [key [|e r]] eqn:E;
      cbn [fst snd] in *; [by injection H as <-|].
    case_decide; [|by injection H as <-].
    cbn in Hp2. apply andb_prop in Hp2 as [_ Hp2].
    eapply tokenize_value_inv; [done| |done|exact H]. by eapply key_ok_span.
Qed.

Lemma tokenize_step_result a st r :
  tokenize_inv a st → tokenize_step st = inr r →
  match r with inl m => tokens_ok a m | inr e => ∃ k, e = ErrUnclosedQuote k end.
Proof.
  destruct st as [msg body]. intros [Hm _] H. unfold tokenize_step in H.
  destruct body as [|c rest]; [by injection H as <-|].
  destruct (is_blank c); [done|]. case_decide; [by destruct (span _ _)|].
  destruct (span _ _) as [key [|e s]]; [done|]. case_decide; [|done].
  unfold tokenize_value in H. destruct (span not_blank s) as [v t].
  destruct s as [|q s]; [done|]. case_decide; [|done].
  destruct (span not_quote s) as [w [|f u]]; [|done]. injection H as <-. by exists key.
Qed.

Lemma tokenize_result a body :
  all_bytes plain body = true →
  match tokenize (new_message a) body with
  | inl m => tokens_ok a m
  | inr e => ∃ k, e = ErrUnclosedQuote k
  end.
Proof.
  intros Hp. unfold tokenize. apply (loop_inv _ _ _ (tokenize_inv a)).
  - split; [apply tokens_ok_new|done].
  - apply tokenize_step_inv.
  - apply tokenize_step_result.
Qed.

(** ** The action of a parsed message, without any condition on the text *)

Lemma tokenize_action a body :
  match tokenize (new_message a) body with
  | inl m => msg_Action m = a
  | inr e => ∃ k, e = ErrUnclosedQuote k
  end.
Proof.
  unfold tokenize. apply (loop_inv _ _ _ (λ st, msg_Action st.1 = a)); [done|..].
  - intros [msg b] st' Ha H. destruct b as [|c rest]; [done|]. unfold tokenize_step in H.
    destruct (is_blank c); [by injection H as <-|].
    case_decide.
    { destruct (span _ _). injection H as <-. cbn. by case_decide. }
    destruct (span _ _) as [key [|e s]]; [by injection H as <-|].
    case_decide; [|by injection H as <-]. unfold tokenize_value in H.
    destruct (span not_blank s) as [v t]. destruct s as [|q s]; [by injection H as <-|].
    case_decide; [|by injection H as <-].
    destruct (span not_quote s) as [w [|f u]]; by simplify_eq.
  - intros [msg b] r Ha H. destruct b as [|c rest]; [by injection H as <-|].
    unfold tokenize_step in H. destruct (is_blank c); [done|].
    case_decide; [by destruct (span _ _)|].
    destruct (span _ _) as [key [|e s]]; [done|]. case_decide; [|done].
    unfold tokenize_value in H. destruct (span not_blank s) as [v t].
    destruct s as [|q s]; [done|]. case_decide; [|done].
    destruct (span not_quote s) as [w [|f u]]; [|done]. injection H as <-. by exists key.
Qed.

Lemma splitFirst_action a raw :
  Valid a = true →
  (splitFirst raw).1 = action_string a ↔
    raw = action_string a ∨
    HasPrefix raw (action_string a +:+ " ") = true ∨
    HasPrefix raw (action_string a +:+ bytes [9]) = true.
Proof.
  intros Ha. pose proof (action_not_blank a Ha) as Hb.
  assert (∀ c r, is_blank c = true →
    (splitFirst (action_string a +:+ String c r)).1 = action_string a) as Hc.
  { intros c r Hc. unfold splitFirst. by rewrite span_prefix by (done || by rewrite Hc). }
  split.
  - unfold splitFirst. pose proof (span_app (λ c, negb (is_blank c)) raw) as Happ.
    pose proof (span_stop (λ c, negb (is_blank c)) raw) as Hstop.
    destruct (span _ raw) as [first [|c r]]; cbn [fst snd] in *; [by left|].
    intros ->. right. specialize (Hstop c r eq_refl). apply negb_false_iff in Hstop.
    unfold is_blank in Hstop. subst raw.
    apply orb_true_iff in Hstop as [->%bool_decide_eq_true| ->%bool_decide_eq_true].
    + left. apply HasPrefix_spec. exists r. by rewrite <- app_str_assoc.
    + right. apply HasPrefix_spec. exists r. by rewrite <- app_str_assoc.
  - intros [->|[[r ->]%HasPrefix_spec|[r ->]%HasPrefix_spec]].
    + unfold splitFirst. by rewrite span_full.
    + rewrite <- app_str_assoc. by apply Hc.
    + rewrite <- app_str_assoc. by apply Hc.
Qed.

Lemma existsb_actionPrefixes raw :
  existsb (HasPrefix raw) actionPrefixes = true ↔
  ∃ a, Valid a = true ∧ (HasPrefix raw (action_string a +:+ " ") = true ∨
                         HasPrefix raw (action_string a +:+ bytes [9]) = true).
Proof.
  rewrite existsb_exists. unfold Valid, actionPrefixes. setoid_rewrite <- list_elem_of_In.
  split.
  - intros (p & Hp & H). apply list_elem_of_bind in Hp as (a & Hp & Ha).
    exists a. rewrite bool_decide_eq_true. split; [done|].
    apply elem_of_cons in Hp as [->|Hp]; [by left|]. apply list_elem_of_singleton in Hp as ->.
    by right.
  - intros (a & Ha%bool_decide_eq_true & H).
    destruct H as [H|H]; (eexists; split; [apply list_elem_of_bind; exists a; split;
      [|exact Ha]|exact H]); rewrite !elem_of_cons; tauto.
Qed.

Lemma IsProtocolMessage_first raw :
  IsProtocolMessage raw = true ↔
  ∃ a, Valid a = true ∧ (splitFirst (TrimSpace raw)).1 = action_string a.
Proof.
  unfold IsProtocolMessage. cbv zeta. split.
  - destruct (existsb _ _) eqn:E.
    + intros _. apply existsb_actionPrefixes in E as (a & Ha & H).
      exists a. split; [done|]. apply splitFirst_action; [done|]. by right.
    + intros Hv. exists (action_of_string (TrimSpace raw)). split; [done|].
      apply splitFirst_action; [done|]. left. by rewrite action_string_of_string.
  - intros (a & Ha & H). apply splitFirst_action in H; [|done].
    destruct (existsb _ _) eqn:E; [done|]. destruct H as [->|H].
    + by rewrite Valid_action_of_string.
    + assert (existsb (HasPrefix (TrimSpace raw)) actionPrefixes = true); [|congruence].
      apply existsb_actionPrefixes. by exists a.
Qed.

Lemma tokens_ok_wf a m :
  Valid a = true → a ≠ ActionSharingContext → tokens_ok a m →
  wf_message m = true ∧ wire_view m = m.
Proof.
  intros Ha Hne (Hm & Hf & Ht). rewrite Hm. split; [|done].
  unfold wf_message. cbn. rewrite Ha, decide_False, andb_true_iff, andb_true_iff by done.
  split_and!; [done|..]; apply forallb_forall.
  - intros [k v] Hin. rewrite <- list_elem_of_In, elem_of_map_to_list in Hin. by apply Hf.
  - intros t Hin. rewrite Forall_forall in Ht. apply Ht. by apply list_elem_of_In.
Qed.

Lemma TrimSpace_plain s : all_bytes plain s = true → all_bytes plain (TrimSpace s) = true.
Proof.
  destruct (TrimSpace_spec s) as (_ & _ & f & b & Hs). intros H.
  rewrite Hs, !all_bytes_app in H. apply andb_prop in H as [_ H].
  by apply andb_prop in H as [H _].
Qed.

Lemma splitFirst_plain s : all_bytes plain s = true → all_bytes plain (splitFirst s).2 = true.
Proof.
  intros H. unfold splitFirst. destruct (plain_span (λ c, negb (is_blank c)) s H) as [_ H2].
  destruct (span _ s) as [f [|c r]]; [done|]. cbn [fst snd] in *.
  apply andb_prop in H2 as [_ H2]. by apply TrimSpace_plain.
Qed.

Lemma splitFirst_trimmed s : TrimSpace (splitFirst s).2 = (splitFirst s).2.
Proof.
  unfold splitFirst. destruct (span _ s) as [f [|c r]]; [done|]. cbn. apply TrimSpace_idemp.
Qed.

(** ** Properties *)

(** C3. Serializing a message and parsing the text gives the message back, for
    every message that the wire format can carry ([wf_message]): keys without
    blanks and [=], values that hold a blank or a quote but not both, tags of
    one word, a trimmed payload for SHARING-CONTEXT. *)
Theorem Parse_String_roundtrip `{MR : MapRange} m :
  wf_message m = true → Parse (Message_String m) = inl (wire_view m).
Proof. apply Parse_Message_String. Qed.

Definition sample_message : Message :=
  set_field "task" "db migration" (set_field "priority" "high"
    (add_tag "urgent" (add_tag "blocked-by-x" (new_message ActionBlocked)))).

Lemma Parse_String_roundtrip_witness :
  wf_message sample_message = true ∧
  Parse (Message_String sample_message) = inl (wire_view sample_message).
Proof.
  split; [vm_compute; reflexivity|].
  apply (@Parse_String_roundtrip range_backward). vm_compute. reflexivity.
Defined.

(** The text of a message does not depend on the order in which Go visits
    the entries of the [Fields] map. *)
Theorem String_deterministic (MR MR' : MapRange) m :
  @Message_String MR m = @Message_String MR' m.
Proof.
  unfold Message_String. by rewrite (sorted_keys_unique MR MR').
Qed.

(** What [Parse] returns for a text whose only spaces are blanks is well
    formed, and its serialization parses to the same message: parsing is
    idempotent up to serialization. *)
Theorem Parse_reparse `{MR : MapRange} raw m :
  all_bytes plain raw = true → Parse raw = inl m →
  wf_message m = true ∧ Parse (Message_String m) = inl m.
Proof.
  intros Hp H.
  enough (wf_message m = true ∧ wire_view m = m) as [Hw Hv].
  { split; [done|]. by rewrite Parse_Message_String, Hv. }
  unfold Parse in H. case_decide; [done|].
  pose proof (splitFirst_plain _ (TrimSpace_plain _ Hp)) as Hr.
  pose proof (splitFirst_trimmed (TrimSpace raw)) as Ht.
  destruct (splitFirst (TrimSpace raw)) as [act rest]. cbn [snd] in *.
  destruct (negb _) eqn:Hv; [done|]. apply negb_false_iff in Hv.
  case_decide as Ha.
  - injection H as <-. rewrite Ha. split; [|done]. unfold wf_message. cbn -[Valid TrimSpace].
    rewrite Ht. by rewrite (bool_decide_eq_true_2 (rest = rest)).
  - pose proof (tokenize_result (action_of_string (ToUpper act)) rest Hr) as Hres.
    rewrite H in Hres. by eapply tokens_ok_wf.
Qed.

Lemma Parse_reparse_witness :
  Parse "  completed  task=a=b word #t " = inl (set_field "task" "a=b"
    (add_tag "t" (new_message ActionCompleted))) ∧
  Parse (Message_String (set_field "task" "a=b" (add_tag "t" (new_message ActionCompleted)))) =
    inl (set_field "task" "a=b" (add_tag "t" (new_message ActionCompleted))).
Proof.
  split; [vm_compute; reflexivity|].
  apply (Parse_reparse "  completed  task=a=b word #t "); vm_compute; reflexivity.
Defined.

(** ** Serialized messages are protocol messages *)

Lemma space_action_disjoint u a v :
  Valid a = true → action_string a = v +:+ u → all_bytes space_byte u = true → u = "".
Proof.
  intros [Hb _]%Valid_action_bytes E Hu. destruct u as [|c u]; [done|]. exfalso.
  rewrite E, all_bytes_app in Hb. cbn [all_bytes] in Hb, Hu. apply andb_prop in Hb as [_ [Hc _]%andb_prop].
  apply andb_prop in Hu as [Hs _]. apply action_byte_spec in Hc as (_ & ? & _). congruence.
Qed.

(** The first word of the text of a message is its action, whatever its fields, tags
    and payload hold. *)
Lemma first_word_String `{MR : MapRange} m :
  Valid (msg_Action m) = true →
  (splitFirst (TrimSpace (Message_String m))).1 = action_string (msg_Action m).
Proof.
  intros Ha. set (A := action_string (msg_Action m)).
  assert (∃ rest, Message_String m = A +:+ rest ∧
    (rest = "" ∨ ∃ r, rest = " " +:+ r)) as (rest & E & Hr).
  { unfold Message_String. eexists. split; [done|]. repeat case_decide; [by left|by right; eexists|].
    destruct (_ ++ _) as [|t toks]; [by left|]. right. by eexists. }
  rewrite E. unfold TrimSpace. rewrite TrimLeft_id by by apply starts_space_action.
  destruct (TrimRight_back (A +:+ rest)) as (back & Hback & Hsp).
  set (T := TrimRight (A +:+ rest)) in *.
  apply splitFirst_action; [done|]. fold A.
  destruct (Nat.le_gt_cases (String.length T) (String.length A)) as [Hle|Hle].
  - symmetry in Hback. destruct (app_split_le T back A rest Hback Hle) as (u & HA & Hu).
    rewrite Hu, all_bytes_app in Hsp. apply andb_prop in Hsp as [Hsp _].
    assert (u = "") as -> by (eapply space_action_disjoint; [exact Ha|exact HA|exact Hsp]).
    left. by rewrite HA, app_str_nil_r.
  - destruct (app_split_le A rest T back Hback) as (u & HT & Hu); [lia|].
    rewrite HT in Hle |- *. destruct Hr as [->|[r ->]].
    + destruct u; [|done]. rewrite app_str_nil_r in Hle. lia.
    + destruct u as [|c u]; [rewrite app_str_nil_r in Hle; lia|].
      rewrite app_str_cons in Hu. injection Hu as <- _. right. left.
      apply HasPrefix_spec. exists u. by rewrite <- app_str_assoc.
Qed.

Lemma IsProtocolMessage_text `{MR : MapRange} m :
  Valid (msg_Action m) = true → IsProtocolMessage (Message_String m) = true.
Proof.
  intros Ha. apply IsProtocolMessage_first. exists (msg_Action m). split; [done|].
  by apply first_word_String.
Qed.

Lemma IsProtocolMessage_String `{MR : MapRange} m :
  wf_message m = true → IsProtocolMessage (Message_String m) = true.
Proof. intros [Ha _]%andb_prop. by apply IsProtocolMessage_text. Qed.

(** [IsProtocolMessage] accepts exactly the texts whose first word is the
    name of an action, and on these [Parse] returns a message with that action
    or fails with an unclosed quote: never with an empty message or an unknown
    action. *)
Theorem IsProtocolMessage_spec raw :
  (IsProtocolMessage raw = true ↔
     ∃ a, Valid a = true ∧ (splitFirst (TrimSpace raw)).1 = action_string a) ∧
  (∀ a, Valid a = true → (splitFirst (TrimSpace raw)).1 = action_string a →
     match Parse raw with
     | inl m => msg_Action m = a
     | inr e => ∃ k, e = ErrUnclosedQuote k
     end).
Proof.
  split; [apply IsProtocolMessage_first|]. intros a Ha Hf. unfold Parse. cbv zeta.
  rewrite decide_False.
  2:{ intros E. rewrite E in Hf. by destruct (Valid_action_bytes a Ha) as [_ []]. }
  destruct (splitFirst _) as [act rest]. cbn in Hf. subst act.
  rewrite ToUpper_action, Valid_action_of_string, Ha by done. cbn [negb].
  case_decide; [done|]. apply tokenize_action.
Qed.

(** ** Numbers on the wire *)

Definition number_byte (c : ascii) : bool := ascii_range 48 57 c || bool_decide (c = "-"%char).

Lemma number_byte_spec c :
  number_byte c = true → is_blank c = false ∧ space_byte c = false ∧ c ≠ quote.
Proof. by destruct c as [[] [] [] [] [] [] [] []]; vm_compute; repeat constructor || intros. Qed.

Lemma number_digit d : (0 <= d < 10)%Z → number_byte (digit_char d) = true.
Proof.
  intros Hd. assert (d = 0 ∨ d = 1 ∨ d = 2 ∨ d = 3 ∨ d = 4 ∨ d = 5 ∨ d = 6 ∨ d = 7 ∨
    d = 8 ∨ d = 9)%Z as H by lia. by destruct_or!; subst d.
Qed.

Lemma FormatUint_bytes n : (0 <= n)%Z → all_bytes number_byte (FormatUint n) = true.
Proof.
  intros Hn. unfold FormatUint.
  apply (loop_inv _ _ _ (λ st, (0 <= st.1)%Z ∧ all_bytes number_byte st.2 = true)
    (λ r, all_bytes number_byte r = true)); [done|..].
  - intros [m acc] st' [Hm Hp]. unfold format_step. simpl in *.
    destruct (Z.ltb_spec m 10) as [|Hge]; [done|]. intros [= <-].
    pose proof (Z.mod_pos_bound m 10 ltac:(lia)).
    split; [apply Z.div_pos; simpl; lia|]. cbn [all_bytes snd]. by rewrite number_digit by lia.
  - intros [m acc] r [Hm Hp]. unfold format_step. simpl in *.
    destruct (Z.ltb_spec m 10) as [Hlt|]; [|done]. intros [= <-].
    cbn [all_bytes]. by rewrite number_digit by lia.
Qed.

(** A value made of bytes that are neither blanks, spaces nor quotes. *)
Lemma value_ok_bytes (p : ascii → bool) v :
  (∀ c, p c = true → is_blank c = false ∧ space_byte c = false ∧ c ≠ quote) →
  all_bytes p v = true → value_ok v = true.
Proof.
  intros Hp Hb. unfold value_ok. rewrite ContainsAny_false.
  - apply andb_true_iff. split.
    + apply negb_true_iff. destruct (HasPrefix v qt) eqn:E; [|done].
      apply HasPrefix_spec in E as [r E]. rewrite E in Hb. cbn in Hb.
      apply andb_prop in Hb as [Hq _]. by apply Hp in Hq as (_ & _ & []).
    + apply negb_true_iff, ends_space_nonspace. eapply all_bytes_impl; [|exact Hb].
      intros c (_ & Hs & _)%Hp. by rewrite Hs.
  - eapply all_bytes_impl; [|exact Hb]. intros c (Hs & _)%Hp. unfold not_blank. by rewrite Hs.
Qed.

Lemma value_ok_FormatInt n : value_ok (FormatInt n) = true.
Proof.
  apply (value_ok_bytes number_byte); [exact number_byte_spec|].
  unfold FormatInt. destruct (Z.ltb_spec n 0); [|by apply FormatUint_bytes].
  cbn. apply FormatUint_bytes. lia.
Qed.
