(* ===== verification/Regex.v ===== *)
(** * Regular expressions on bytes, for the patterns of the sanitizer

    The program uses [regexp] only to search a string for one of five fixed
    patterns. A pattern is an expression on bytes; a rune outside ASCII is the
    concatenation of its UTF-8 bytes. The matcher takes derivatives and is
    proved to decide the language of the expression. *)

From S2P Require Import Prelude GoStrings.

Inductive regex :=
  | Zero
  | Eps
  | Class (p : ascii → bool)
  | Cat (r1 r2 : regex)
  | Alt (r1 r2 : regex)
  | Star (r : regex).

Inductive matches : regex → string → Prop :=
  | matches_eps : matches Eps ""
  | matches_class p c : p c = true → matches (Class p) (String c "")
  | matches_cat r1 r2 s1 s2 :
      matches r1 s1 → matches r2 s2 → matches (Cat r1 r2) (s1 +:+ s2)
  | matches_alt_l r1 r2 s : matches r1 s → matches (Alt r1 r2) s
  | matches_alt_r r1 r2 s : matches r2 s → matches (Alt r1 r2) s
  | matches_star_nil r : matches (Star r) ""
  | matches_star_cons r s1 s2 :
      matches r s1 → matches (Star r) s2 → matches (Star r) (s1 +:+ s2).

Create HintDb regex.
#[export] Hint Constructors matches : regex.

(** Derived forms: a literal, one byte or a rune, [r{n}], [r{n,}] and [r+]. *)
Definition lit (c : ascii) : regex := Class (λ d, bool_decide (c = d)).

Fixpoint lits (s : string) : regex :=
  match s with "" => Eps | String c s => Cat (lit c) (lits s) end.

Fixpoint repeat (n : nat) (r : regex) : regex :=
  match n with O => Eps | S n => Cat r (repeat n r) end.

Definition at_least (n : nat) (r : regex) : regex := Cat (repeat n r) (Star r).

(** ** The matcher *)
Fixpoint nullable (r : regex) : bool :=
  match r with
  | Zero | Class _ => false
  | Eps | Star _ => true
  | Cat r1 r2 => nullable r1 && nullable r2
  | Alt r1 r2 => nullable r1 || nullable r2
  end.

(** Concatenation and alternative without the dead branches. *)
Definition cat (r1 r2 : regex) : regex :=
  match r1 with Zero => Zero | Eps => r2 | _ => Cat r1 r2 end.

Definition alt (r1 r2 : regex) : regex :=
  match r1, r2 with Zero, _ => r2 | _, Zero => r1 | _, _ => Alt r1 r2 end.

Fixpoint deriv (c : ascii) (r : regex) : regex :=
  match r with
  | Zero | Eps => Zero
  | Class p => if p c then Eps else Zero
  | Cat r1 r2 =>
      if nullable r1 then alt (cat (deriv c r1) r2) (deriv c r2)
      else cat (deriv c r1) r2
  | Alt r1 r2 => alt (deriv c r1) (deriv c r2)
  | Star r => cat (deriv c r) (Star r)
  end.

(** Some prefix of [s] matches. *)
Fixpoint match_prefix (r : regex) (s : string) : bool :=
  nullable r ||
  match s with "" => false | String c s => match_prefix (deriv c r) s end.

(** [MatchString]: some part of [s] matches. *)
Fixpoint MatchString (r : regex) (s : string) : bool :=
  match_prefix r s ||
  match s with "" => false | String _ s => MatchString r s end.

(** ** The matcher decides the language *)

Lemma matches_cat_inv r1 r2 s :
  matches (Cat r1 r2) s → ∃ s1 s2, s = s1 +:+ s2 ∧ matches r1 s1 ∧ matches r2 s2.
Proof. inversion 1; subst. eauto. Qed.

Lemma app_str_eq_nil a b : a +:+ b = "" → a = "" ∧ b = "".
Proof. destruct a; [by intros ?|done]. Qed.

Lemma nullable_spec r : nullable r = true ↔ matches r "".
Proof.
  split.
  - induction r; cbn; try done; eauto with regex.
    + intros [H1 H2]%andb_prop. rewrite <- (app_str_nil_l "").
      apply matches_cat; auto.
    + intros [H|H]%orb_prop; eauto with regex.
  - intros H. remember "" as s eqn:Hs. revert Hs.
    induction H; intros Hs; cbn; try done.
    + apply app_str_eq_nil in Hs as [-> ->]. by rewrite IHmatches1, IHmatches2.
    + by rewrite IHmatches.
    + rewrite IHmatches by done. apply orb_true_r.
Qed.

Lemma cat_spec r1 r2 s : matches (cat r1 r2) s ↔ matches (Cat r1 r2) s.
Proof.
  destruct r1; try done; cbn; split; intros H.
  - inversion H.
  - apply matches_cat_inv in H as (s1 & s2 & _ & H & _). inversion H.
  - rewrite <- (app_str_nil_l s). eauto with regex.
  - apply matches_cat_inv in H as (s1 & s2 & -> & H & ?). inversion H. subst.
    by rewrite app_str_nil_l.
Qed.

Lemma alt_spec r1 r2 s : matches (alt r1 r2) s ↔ matches r1 s ∨ matches r2 s.
Proof.
  assert (∀ a b, matches (Alt a b) s ↔ matches a s ∨ matches b s) as Halt.
  { split; [inversion 1; subst; auto|intros [?|?]; eauto with regex]. }
  assert (∀ t, ¬ matches Zero t) by (intros t H; inversion H).
  destruct r1, r2; cbn; rewrite ?Halt; naive_solver.
Qed.

(** A nonempty match of a star takes its first byte from a nonempty round. *)
Lemma matches_star_cons_inv r c s :
  matches (Star r) (String c s) →
  ∃ s1 s2, s = s1 +:+ s2 ∧ matches r (String c s1) ∧ matches (Star r) s2.
Proof.
  intros H. remember (Star r) as q eqn:Hq. remember (String c s) as t eqn:Ht.
  revert Hq Ht. induction H as [| | | | | |q s1 s2 H1 _ H2 IH]; intros Hq Ht; try done.
  injection Hq as ->. destruct s1 as [|d s1].
  - rewrite app_str_nil_l in Ht. by apply IH.
  - rewrite app_str_cons in Ht. injection Ht as -> <-. eauto.
Qed.

Lemma matches_cat_cons r1 r2 c s :
  matches (Cat r1 r2) (String c s) ↔
    (∃ s1 s2, s = s1 +:+ s2 ∧ matches r1 (String c s1) ∧ matches r2 s2) ∨
    (matches r1 "" ∧ matches r2 (String c s)).
Proof.
  split.
  - intros (t1 & t2 & Ht & H1 & H2)%matches_cat_inv. destruct t1 as [|d t1].
    + rewrite app_str_nil_l in Ht. subst t2. by right.
    + rewrite app_str_cons in Ht. injection Ht as <- ->. left. eauto.
  - intros [(s1 & s2 & -> & H1 & H2)|[H1 H2]].
    + rewrite <- app_str_cons. by constructor.
    + rewrite <- (app_str_nil_l (String c s)). by constructor.
Qed.

Lemma deriv_spec c r s : matches (deriv c r) s ↔ matches r (String c s).
Proof.
  revert s. induction r as [| |p|r1 IH1 r2 IH2|r1 IH1 r2 IH2|r IH]; intros s; cbn.
  - split; inversion 1.
  - split; inversion 1.
  - destruct (p c) eqn:Hp; split; intros H; inversion H; subst; try congruence.
    + by constructor.
    + constructor.
  - assert (matches (cat (deriv c r1) r2) s ↔
      ∃ s1 s2, s = s1 +:+ s2 ∧ matches r1 (String c s1) ∧ matches r2 s2) as Hcat.
    { rewrite cat_spec. split.
      - intros (s1 & s2 & -> & H1 & H2)%matches_cat_inv. apply IH1 in H1. eauto.
      - intros (s1 & s2 & -> & H1 & H2). apply IH1 in H1. by constructor. }
    rewrite matches_cat_cons, <- nullable_spec. destruct (nullable r1).
    + rewrite alt_spec, Hcat, IH2. naive_solver.
    + rewrite Hcat. naive_solver.
  - rewrite alt_spec, IH1, IH2.
    split; [intros [?|?]; eauto with regex|inversion 1; subst; auto].
  - rewrite cat_spec. split.
    + intros (s1 & s2 & -> & H1 & H2)%matches_cat_inv. apply IH in H1.
      rewrite <- app_str_cons. by constructor.
    + intros (s1 & s2 & -> & H1 & H2)%matches_star_cons_inv. apply IH in H1.
      by constructor.
Qed.

Lemma match_prefix_spec r s :
  match_prefix r s = true ↔ ∃ mid post, s = mid +:+ post ∧ matches r mid.
Proof.
  revert r. induction s as [|c s IH]; intros r; cbn.
  - rewrite orb_false_r, nullable_spec. split; [by exists "", ""|].
    by intros (m & p & [-> _]%symmetry%app_str_eq_nil & H).
  - rewrite orb_true_iff, nullable_spec, IH. split.
    + intros [H|(m & p & -> & H%deriv_spec)]; [by exists "", (String c s)|].
      by exists (String c m), p.
    + intros ([|d m] & p & Hs & H); [by left|]. rewrite app_str_cons in Hs.
      injection Hs as -> ->. right. exists m, p. by rewrite deriv_spec.
Qed.

Lemma MatchString_spec r s :
  MatchString r s = true ↔ ∃ pre mid post, s = pre +:+ mid +:+ post ∧ matches r mid.
Proof.
  induction s as [|c s IH]; cbn.
  - rewrite orb_false_r, orb_true_iff, nullable_spec. split.
    + intros [H|[=]]. by exists "", "", "".
    + intros (a & m & p & [-> [-> _]%app_str_eq_nil]%symmetry%app_str_eq_nil & H). by left.
  - rewrite orb_true_iff, IH.
    change (nullable r || match_prefix (deriv c r) s) with (match_prefix r (String c s)).
    rewrite match_prefix_spec. split.
    + intros [(m & p & Hs & H)|(a & m & p & -> & H)].
      * by exists "", m, p.
      * by exists (String c a), m, p.
    + intros ([|d a] & m & p & Hs & H).
      * left. by exists m, p.
      * rewrite app_str_cons in Hs. injection Hs as -> ->. right. by exists a, m, p.
Qed.
