(* ===== verification/Events.v ===== *)
(** * The events of the IRC client: [pkg/ircclient/client.go]

    What the client hands to the handlers that the program registers. *)

From S2P Require Import Prelude.

Record MessageEvent := {
  ev_Channel : string;
  ev_Nick : string;
  ev_User : string;
  ev_Host : string;
  ev_Message : string;
  ev_IsNotice : bool;
  ev_Timestamp : Time
}.

Record JoinEvent := {
  je_Channel : string;
  je_Nick : string;
  je_User : string;
  je_Host : string;
  je_Timestamp : Time
}.

Record PartEvent := {
  pe_Channel : string;
  pe_Nick : string;
  pe_User : string;
  pe_Host : string;
  pe_Message : string;
  pe_Timestamp : Time
}.

Record KickEvent := {
  ke_Channel : string;
  ke_Nick : string;
  ke_KickedBy : string;
  ke_Message : string;
  ke_Timestamp : Time
}.

Record ErrorEvent := { ee_Message : string; ee_Timestamp : Time }.

Record ConnectEvent := { ce_Server : string; ce_Nick : string; ce_Timestamp : Time }.

Record DisconnectEvent := { de_Server : string; de_Timestamp : Time }.

(** What a handler is called with. *)
Inductive Event :=
| OfMessage (ev : MessageEvent)
| OfJoin (ev : JoinEvent)
| OfPart (ev : PartEvent)
| OfKick (ev : KickEvent)
| OfError (ev : ErrorEvent)
| OfConnect (ev : ConnectEvent)
| OfDisconnect (ev : DisconnectEvent).
