(* ===== verification/Pacing.v ===== *)
(** * Pacing the IRC client: [pkg/ircclient/backoff.go], [ratelimiter.go]

    The exponential backoff between reconnections and the token bucket for
    outgoing messages. Both compute with floating-point numbers; the theorems
    are about the numbers that the code computes, rounding included. *)

From S2P Require Import Prelude GoNum GoFloat FloatTheory.

Local Open Scope Z_scope.

(** ** Backoff *)
Record Backoff := {
  bo_Base : Duration;
  bo_Max : Duration;
  bo_attempt : Z
}.

#[export] Instance Backoff_eta : RecordEta Backoff := λ r,
  {| bo_Base := bo_Base r; bo_Max := bo_Max r; bo_attempt := bo_attempt r |}.

Definition NewBackoff (base max : Duration) : Backoff :=
  {| bo_Base := base; bo_Max := max; bo_attempt := 0 |}.

Definition Attempt (b : Backoff) : Z := bo_attempt b.

Definition Reset (b : Backoff) : Backoff := b <| bo_attempt := 0 |>.

(** The ceiling of the next delay. *)
Definition ceiling `{FloatOverflow} (b : Backoff) : Duration :=
  let exp := Pow2 (bo_attempt b) in
  let ceiling := int_of_float (fmul (float_of_Z (bo_Base b)) exp) in
  if bool_decide (bo_Max b < ceiling) || bool_decide (ceiling ≤ 0) then bo_Max b else ceiling.

(** [rand.Int64N(n)] is an argument; it panics ([None]) when [n <= 0]. *)
Definition Next `{FloatOverflow} (Int64N : Z → Z) (b : Backoff) : option (Duration * Backoff) :=
  let n := wrap64 (ceiling b + 1) in
  if bool_decide (n ≤ 0) then None
  else Some (Int64N n, b <| bo_attempt := wrap64 (bo_attempt b + 1) |>).

(** ** Rate limiter *)
Record RateLimiter := {
  rl_tokens : float64;
  rl_maxTokens : float64;
  rl_refillRate : float64;
  rl_lastRefill : Time
}.

#[export] Instance RateLimiter_eta : RecordEta RateLimiter := λ r,
  {| rl_tokens := rl_tokens r; rl_maxTokens := rl_maxTokens r;
     rl_refillRate := rl_refillRate r; rl_lastRefill := rl_lastRefill r |}.

Definition NewRateLimiter (now : Time) (rate : float64) (burst : Z) : RateLimiter :=
  {| rl_tokens := float_of_Z burst; rl_maxTokens := float_of_Z burst;
     rl_refillRate := rate; rl_lastRefill := now |}.

Definition refill (now : Time) (r : RateLimiter) : RateLimiter :=
  let elapsed := Seconds (Sub now (rl_lastRefill r)) in
  let tokens := fadd (rl_tokens r) (fmul elapsed (rl_refillRate r)) in
  let tokens := if fltb (rl_maxTokens r) tokens then rl_maxTokens r else tokens in
  r <| rl_tokens := tokens |> <| rl_lastRefill := now |>.

(** The body shared by [Allow] and by an iteration of [Wait]: refill and take a
    token if there is one. *)
Definition take_token (now : Time) (r : RateLimiter) : bool * RateLimiter :=
  let r := refill now r in
  if fleb (float_of_Z 1) (rl_tokens r)
  then (true, r <| rl_tokens := fsub (rl_tokens r) (float_of_Z 1) |>)
  else (false, r).

Definition Allow (now : Time) (r : RateLimiter) : bool * RateLimiter := take_token now r.

(** How long [Wait] sleeps when there is no token. *)
Definition waitDur `{FloatOverflow} (r : RateLimiter) : Duration :=
  let deficit := fsub (float_of_Z 1) (rl_tokens r) in
  int_of_float (fmul (fdiv deficit (rl_refillRate r)) (float_of_Z 1000000000)).

(** [Wait] as a loop over the times at which its iterations run: the limiter
    after a token was taken, or the one it still waits with and the sleeps so
    far. The context of the client is never cancelled. *)
Fixpoint Wait `{FloatOverflow} (nows : list Time) (r : RateLimiter)
    : RateLimiter + RateLimiter * list Duration :=
  match nows with
  | [] => inr (r, [])
  | now :: nows =>
      let '(ok, r) := take_token now r in
      if ok then inl r
      else
        match Wait nows r with
        | inl r' => inl r'
        | inr (r', ds) => inr (r', waitDur r :: ds)
        end
  end.

(** The answers of [n] calls of [Allow] at one moment, and the limiter after. *)
Fixpoint allow_times (n : nat) (now : Time) (r : RateLimiter) : list bool * RateLimiter :=
  match n with
  | O => ([], r)
  | S n =>
      let '(ok, r) := Allow now r in
      let '(oks, r) := allow_times n now r in (ok :: oks, r)
  end.

(** ** Theorems *)

(** C35. The backoff: the delay before the next attempt is drawn from 0 to
    the base doubled at every attempt, capped at the maximum, at any attempt
    number however large ([2^attempt] overflows to infinity, and what the
    conversion gives then is platform-dependent), and the call never panics. *)
Theorem Next_spec `{FloatOverflow} Int64N b :
  (∀ n, 0 < n → 0 ≤ Int64N n < n) →
  0 < bo_Base b < 2 ^ 53 → 0 < bo_Max b < max_int64 → 0 ≤ bo_attempt b < max_int64 →
  let top := Z.min (bo_Max b) (bo_Base b * 2 ^ bo_attempt b) in
  ∃ d, Next Int64N b = Some (d, b <| bo_attempt := bo_attempt b + 1 |>) ∧
    0 ≤ d ≤ top ∧ d = Int64N (top + 1).
Proof.
  intros Hrand Hbase Hmax Hatt top.
  assert (ceiling b = top) as Hc.
  { unfold ceiling. rewrite int_of_float_scaled by lia.
    assert (0 < 2 ^ bo_attempt b) by lia. unfold top.
    set (f := fmul _ _). pose proof (float_overflow_values f) as Hf.
    destruct (_ <=? max_int64) eqn:E.
    - rewrite (bool_decide_eq_false_2 (_ ≤ 0)), orb_false_r by nia.
      case_bool_decide; nia.
    - rewrite Z.min_l by lia.
      rewrite !elem_of_cons, elem_of_nil in Hf. unfold min_int64, max_int64 in *.
      destruct Hf as [->|[->|[->|[]]]].
      + by rewrite (bool_decide_eq_true_2 (_ ≤ 0)), orb_true_r by lia.
      + by rewrite (bool_decide_eq_true_2 (_ ≤ 0)), orb_true_r by lia.
      + by rewrite bool_decide_eq_true_2 by lia. }
  assert (0 < top < max_int64) as Htop.
  { unfold top. assert (0 < 2 ^ bo_attempt b) by lia. nia. }
  unfold Next. rewrite Hc, (wrap64_id (top + 1)) by (unfold int64_ok, min_int64, max_int64 in *; lia).
  rewrite bool_decide_eq_false_2 by lia.
  rewrite wrap64_id by (unfold int64_ok, min_int64, max_int64 in *; lia).
  eexists. split; [done|]. specialize (Hrand (top + 1)). split; [lia|done].
Qed.

Lemma Next_spec_witness :
  Next (λ n, n - 1) (NewBackoff 1000000000 120000000000 <| bo_attempt := 3 |>) =
    Some (8000000000, NewBackoff 1000000000 120000000000 <| bo_attempt := 4 |>) ∧
  Next (λ n, n - 1) (NewBackoff 1000000000 120000000000 <| bo_attempt := 2000 |>) =
    Some (120000000000, NewBackoff 1000000000 120000000000 <| bo_attempt := 2001 |>).
Proof.
  split.
  - destruct (Next_spec (λ n, n - 1) (NewBackoff 1000000000 120000000000 <| bo_attempt := 3 |>))
      as (d & Hn & _ & Hd); [intros n Hn; lia|done|done|done|].
    rewrite Hn, Hd. reflexivity.
  - vm_compute. reflexivity.
Defined.

(** *** The token bucket *)

Definition finite_rate (f : float64) : Prop :=
  match f with S754_zero _ | S754_finite _ _ _ => True | _ => False end.

(** A second refill at the same moment changes nothing. *)
Lemma refill_same now r n burst :
  finite_rate (rl_refillRate r) → 0 ≤ n ≤ burst → burst < 2 ^ 53 →
  rl_tokens r = float_of_Z n → rl_maxTokens r = float_of_Z burst → rl_lastRefill r = now →
  refill now r = r.
Proof.
  intros Hrate Hn Hb Ht Hm Hl. unfold refill. rewrite Hl, Ht, Hm.
  replace (Seconds (Sub now now)) with (S754_zero false) by (unfold Sub; by rewrite Z.sub_diag).
  assert (∃ s, fmul (S754_zero false) (rl_refillRate r) = S754_zero s) as [s ->].
  { destruct (rl_refillRate r); try done; by eexists. }
  rewrite fadd_zero_r by lia. rewrite fltb_of_Z by lia.
  destruct (burst <? n) eqn:E; [lia|]. destruct r; cbn in *. by subst.
Qed.

Lemma take_refilled now r n burst :
  0 ≤ n ≤ burst → burst < 2 ^ 53 → rl_tokens (refill now r) = float_of_Z n →
  take_token now r = if 1 <=? n then (true, refill now r <| rl_tokens := float_of_Z (n - 1) |>)
               else (false, refill now r).
Proof.
  intros Hn Hb Ht. unfold take_token. rewrite Ht, fleb_of_Z by lia.
  destruct (1 <=? n) eqn:E; [|done]. rewrite fsub_1 by lia. done.
Qed.

Lemma allow_times_spec n now r k burst :
  finite_rate (rl_refillRate r) → Z.of_nat k ≤ burst → burst < 2 ^ 53 →
  rl_tokens (refill now r) = float_of_Z (Z.of_nat k) → rl_maxTokens r = float_of_Z burst →
  (allow_times n now r).1 = replicate (n `min` k) true ++ replicate (n - k) false.
Proof.
  revert r k. induction n as [|n IH]; intros r k Hrate Hk Hb Ht Hm; [done|].
  cbn [allow_times]. unfold Allow. rewrite (take_refilled now r (Z.of_nat k) burst) by (done || lia).
  destruct (1 <=? Z.of_nat k) eqn:E; cycle 1.
  - assert (k = 0%nat) as -> by lia.
    specialize (IH (refill now r) 0%nat).
    destruct (allow_times n now (refill now r)) as [oks r'] eqn:Ea. cbn [fst] in *.
    rewrite IH; [|done|lia|done| |done].
    { rewrite Nat.min_0_r, Nat.sub_0_r. by destruct n. }
    rewrite (refill_same now (refill now r) 0 burst) by (done || lia). done.
  - destruct k as [|k]; [done|].
    replace (Z.of_nat (S k) - 1) with (Z.of_nat k) by lia.
    set (r1 := refill now r <| rl_tokens := float_of_Z (Z.of_nat k) |>).
    specialize (IH r1 k). destruct (allow_times n now r1) as [oks r'] eqn:Ea. cbn [fst] in *.
    rewrite IH; [done|done|lia|done| |done].
    rewrite (refill_same now r1 (Z.of_nat k) burst) by (done || lia). done.
Qed.

(** Burst: whenever the bucket is full (when the limiter is created, and
    after every refill that reaches the capacity), exactly [burst] messages pass
    at that moment and every further one is held back. *)
Theorem burst_spec n now r burst :
  finite_rate (rl_refillRate r) → 0 ≤ burst < 2 ^ 53 →
  rl_maxTokens r = float_of_Z burst → rl_tokens (refill now r) = float_of_Z burst →
  (allow_times n now r).1 =
    replicate (n `min` Z.to_nat burst) true ++ replicate (n - Z.to_nat burst) false.
Proof.
  intros Hrate Hb Hm Ht. apply (allow_times_spec n now r _ burst); try done; [lia|lia|].
  by rewrite Z2Nat.id by lia.
Qed.

(** The default limiter, 2 messages per second with a burst of 5: at the start,
    and again after ten seconds without a message. *)
Lemma burst_spec_witness :
  let r := NewRateLimiter 0 (float_of_Z 2) 5 in
  (allow_times 7 0 r).1 = [true; true; true; true; true; false; false] ∧
  (allow_times 7 10000000000 (allow_times 3 0 r).2).1 =
    [true; true; true; true; true; false; false].
Proof.
  intros r. split.
  - apply (burst_spec 7 0 r 5); [done|done|done|]. vm_compute. reflexivity.
  - apply (burst_spec 7 10000000000 (allow_times 3 0 r).2 5); [done|done| |];
      vm_compute; reflexivity.
Defined.

Lemma take_no_burst now r :
  rl_maxTokens r = S754_zero false →
  (take_token now r).1 = false ∧ rl_maxTokens (take_token now r).2 = S754_zero false.
Proof.
  intros Hm. unfold take_token, refill. rewrite Hm. cbn [rl_tokens rl_maxTokens].
  set (t := fadd _ _). destruct (fltb _ t) eqn:E; [done|].
  replace (fleb (float_of_Z 1) t) with false; [done|].
  destruct t as [| [] | | []]; done.
Qed.

(** A limiter whose burst is 0 (a configuration with [rate_limit] and no
    [rate_limit_burst], which [Validate] accepts) lets nothing through: [Wait]
    sleeps again after every sleep, however long it waits, so the client that
    sends its first message blocks for ever. *)
Theorem zero_burst_blocks `{FloatOverflow} now rate nows :
  ∃ r ds, Wait nows (NewRateLimiter now rate 0) = inr (r, ds) ∧ length ds = length nows.
Proof.
  assert (rl_maxTokens (NewRateLimiter now rate 0) = S754_zero false) as Hm by done.
  revert Hm. generalize (NewRateLimiter now rate 0) as r.
  induction nows as [|t nows IH]; intros r Hm; [by exists r, []|].
  cbn [Wait]. pose proof (take_no_burst t r Hm) as [Ht Hm'].
  destruct (take_token t r) as [ok r1]. cbn [fst snd] in *. subst ok.
  destruct (IH r1 Hm') as (r2 & ds & -> & Hlen). eexists r2, _. split; [done|]. cbn. lia.
Qed.
