(* ===== verification/IrcClient.v ===== *)
(** * The IRC client: [pkg/ircclient/connection.go]

    The client wraps a connection of the library go-ircevo. Modelled are what
    the client keeps (the channels it is in, the tables of handlers, the rate
    limiter, the backoff), its callbacks for the events of the connection and the
    loop that reconnects. The connection is the library's: its constructor and
    the nick that it reports are arguments, and what the client asks of it is a
    list of commands. Handlers are function values, named by numbers. *)

From S2P Require Import Prelude GoStrings GoNum GoFloat FloatTheory Config Pacing Events.

(** The texts of [handlerKinds]: "msg", "join", "part", "kick", "error",
    "connect", "disconnect". *)
Inductive HandlerKind :=
| KindMsg | KindJoin | KindPart | KindKick | KindError | KindConnect | KindDisconnect.

#[export] Instance HandlerKind_eq_dec : EqDecision HandlerKind.
Proof. solve_decision. Defined.

Abbreviation Handler := nat (only parsing).
Abbreviation HandlerID := Z (only parsing).

(** ** The library *)

(** The settings of an [irc.Connection] that the client makes. *)
Record Connection := {
  conn_RealName : string;
  conn_UseTLS : bool;
  conn_InsecureSkipVerify : bool;
  conn_UseSASL : bool;
  conn_SASLLogin : string;
  conn_SASLPassword : string;
  conn_SASLMech : string;
  conn_QuitMessage : string;
  conn_Debug : bool;
  conn_HandleErrorAsDisconnect : bool;
  conn_SmartErrorHandling : bool;
  conn_MaxRecoverableReconnects : Z;
  conn_PingFreq : Duration;
  conn_Timeout : Duration
}.

(** An [irc.Event]: its source, its arguments and its text. *)
Record IrcEvent := {
  ie_Nick : string;
  ie_User : string;
  ie_Host : string;
  ie_Arguments : list string;
  ie_Message : string
}.

(** The methods of the connection that the client calls. *)
Inductive Command :=
| CmdJoin (channel : string)
| CmdPart (channel : string)
| CmdPrivmsg (target message : string)
| CmdNotice (target message : string)
| CmdRaw (message : string)
| CmdNick (nick : string)
| CmdQuit.

(** ** The client *)

Record ircClient := {
  cl_cfg : IRCConfig;
  cl_conn : Connection;
  cl_channels : gmap string bool;
  cl_limiter : option RateLimiter;
  cl_backoff : option Backoff;
  cl_nextID : HandlerID;
  cl_msgHandlers : gmap HandlerID Handler;
  cl_joinHandlers : gmap HandlerID Handler;
  cl_partHandlers : gmap HandlerID Handler;
  cl_kickHandlers : gmap HandlerID Handler;
  cl_errHandlers : gmap HandlerID Handler;
  cl_connHandlers : gmap HandlerID Handler;
  cl_discHandlers : gmap HandlerID Handler;
  cl_handlerKinds : gmap HandlerID HandlerKind
}.

#[export] Instance ircClient_eta : RecordEta ircClient := λ r,
  {| cl_cfg := cl_cfg r; cl_conn := cl_conn r; cl_channels := cl_channels r;
     cl_limiter := cl_limiter r; cl_backoff := cl_backoff r; cl_nextID := cl_nextID r;
     cl_msgHandlers := cl_msgHandlers r; cl_joinHandlers := cl_joinHandlers r;
     cl_partHandlers := cl_partHandlers r; cl_kickHandlers := cl_kickHandlers r;
     cl_errHandlers := cl_errHandlers r; cl_connHandlers := cl_connHandlers r;
     cl_discHandlers := cl_discHandlers r; cl_handlerKinds := cl_handlerKinds r |}.

(** [cfg.ReconnectBackoff > 0 && cfg.MaxReconnectBackoff > 0] *)
Definition own_reconnect (cfg : IRCConfig) : bool :=
  bool_decide (0 < irc_ReconnectBackoff cfg)%Z && bool_decide (0 < irc_MaxReconnectBackoff cfg)%Z.

Definition configure_conn (cfg : IRCConfig) (conn : Connection) : Connection :=
  {| conn_RealName := if bool_decide (irc_RealName cfg = "") then irc_Nick cfg
                      else irc_RealName cfg;
     conn_UseTLS := true;
     conn_InsecureSkipVerify := irc_TLSInsecureSkipVerify cfg;
     conn_UseSASL := true;
     conn_SASLLogin := irc_Username cfg;
     conn_SASLPassword := irc_Password cfg;
     conn_SASLMech := if bool_decide (irc_SASLMech cfg = "") then "PLAIN" else irc_SASLMech cfg;
     conn_QuitMessage := irc_QuitMessage cfg;
     conn_Debug := irc_Debug cfg;
     conn_HandleErrorAsDisconnect := true;
     conn_SmartErrorHandling := true;
     conn_MaxRecoverableReconnects :=
       if own_reconnect cfg then 0%Z
       else if bool_decide (0 < irc_MaxReconnectAttempts cfg)%Z then irc_MaxReconnectAttempts cfg
       else conn_MaxRecoverableReconnects conn;
     conn_PingFreq := if bool_decide (0 < irc_PingFrequency cfg)%Z then irc_PingFrequency cfg
                      else conn_PingFreq conn;
     conn_Timeout := if bool_decide (0 < irc_Timeout cfg)%Z then irc_Timeout cfg
                     else conn_Timeout conn |}.

Inductive ClientError := InvalidConfig (errs : list ConfigError) | NoConnection.

(** [irc.IRC(nick, user)] is an argument. *)
Definition NewClient (irc_IRC : string → string → option Connection) (now : Time)
    (cfg : IRCConfig) : ClientError + ircClient :=
  match Validate cfg with
  | (_ :: _) as errs => inl (InvalidConfig errs)
  | [] =>
      match irc_IRC (irc_Nick cfg) (irc_Username cfg) with
      | None => inl NoConnection
      | Some conn =>
          inr {| cl_cfg := cfg; cl_conn := configure_conn cfg conn; cl_channels := ∅;
                 cl_limiter := if fltb float_zero (irc_RateLimit cfg)
                               then Some (NewRateLimiter now (irc_RateLimit cfg)
                                            (irc_RateLimitBurst cfg))
                               else None;
                 cl_backoff := if own_reconnect cfg
                               then Some (NewBackoff (irc_ReconnectBackoff cfg)
                                            (irc_MaxReconnectBackoff cfg))
                               else None;
                 cl_nextID := 0; cl_msgHandlers := ∅; cl_joinHandlers := ∅;
                 cl_partHandlers := ∅; cl_kickHandlers := ∅; cl_errHandlers := ∅;
                 cl_connHandlers := ∅; cl_discHandlers := ∅; cl_handlerKinds := ∅ |}
      end
  end.

(** ** Handlers *)

Definition table (k : HandlerKind) (c : ircClient) : gmap HandlerID Handler :=
  match k with
  | KindMsg => cl_msgHandlers c | KindJoin => cl_joinHandlers c | KindPart => cl_partHandlers c
  | KindKick => cl_kickHandlers c | KindError => cl_errHandlers c
  | KindConnect => cl_connHandlers c | KindDisconnect => cl_discHandlers c
  end.

Definition on_table (k : HandlerKind)
    (f : gmap HandlerID Handler → gmap HandlerID Handler) (c : ircClient) : ircClient :=
  match k with
  | KindMsg => c <| cl_msgHandlers := f (cl_msgHandlers c) |>
  | KindJoin => c <| cl_joinHandlers := f (cl_joinHandlers c) |>
  | KindPart => c <| cl_partHandlers := f (cl_partHandlers c) |>
  | KindKick => c <| cl_kickHandlers := f (cl_kickHandlers c) |>
  | KindError => c <| cl_errHandlers := f (cl_errHandlers c) |>
  | KindConnect => c <| cl_connHandlers := f (cl_connHandlers c) |>
  | KindDisconnect => c <| cl_discHandlers := f (cl_discHandlers c) |>
  end.

(** The body that the seven [On] functions share. *)
Definition register (k : HandlerKind) (handler : Handler) (c : ircClient)
    : ircClient * HandlerID :=
  let id := cl_nextID c in
  let c := c <| cl_nextID := wrap64 (id + 1) |> in
  let c := on_table k <[id := handler]> c in
  (c <| cl_handlerKinds := <[id := k]> (cl_handlerKinds c) |>, id).

Definition OnMessage := register KindMsg.
Definition OnJoin := register KindJoin.
Definition OnPart := register KindPart.
Definition OnKick := register KindKick.
Definition OnError := register KindError.
Definition OnConnect := register KindConnect.
Definition OnDisconnect := register KindDisconnect.

Definition RemoveHandler (id : HandlerID) (c : ircClient) : ircClient :=
  match cl_handlerKinds c !! id with
  | None => c
  | Some kind =>
      let c := c <| cl_handlerKinds := delete id (cl_handlerKinds c) |> in
      on_table kind (delete id) c
  end.

Section callbacks.
Context `{MR : MapRange} `{FO : FloatOverflow}.

(** [for _, h := range c.handlers { h(ev) }] *)
Definition call_all (handlers : gmap HandlerID Handler) (ev : Event) : list (Handler * Event) :=
  (λ kv, (kv.2, ev)) <$> range 0 handlers.

(** What a callback does: the client after, the commands for the connection and
    the calls of handlers. *)
Record Reaction := {
  re_client : ircClient;
  re_commands : list Command;
  re_calls : list (Handler * Event)
}.

(** ** The callbacks of [registerInternalCallbacks]

    [None] is the panic of [e.Arguments[0]] on an event without arguments;
    [self] is what [c.conn.GetNick()] returns. *)

Definition message_callback (isNotice : bool) (now : Time) (c : ircClient) (e : IrcEvent)
    : option Reaction :=
  match ie_Arguments e with
  | [] => None
  | channel :: _ =>
      let ev := {| ev_Channel := channel; ev_Nick := ie_Nick e; ev_User := ie_User e;
                   ev_Host := ie_Host e; ev_Message := ie_Message e; ev_IsNotice := isNotice;
                   ev_Timestamp := now |} in
      Some {| re_client := c; re_commands := [];
              re_calls := call_all (cl_msgHandlers c) (OfMessage ev) |}
  end.

Definition on_PRIVMSG := message_callback false.

Definition on_NOTICE (now : Time) (c : ircClient) (e : IrcEvent) : option Reaction :=
  if bool_decide (ie_Nick e = "")
  then Some {| re_client := c; re_commands := []; re_calls := [] |}
  else message_callback true now c e.

Definition on_JOIN (self : string) (now : Time) (c : ircClient) (e : IrcEvent)
    : option Reaction :=
  match ie_Arguments e with
  | [] => None
  | channel :: _ =>
      let c := if bool_decide (ie_Nick e = self)
               then c <| cl_channels := <[channel := true]> (cl_channels c) |> else c in
      let ev := {| je_Channel := channel; je_Nick := ie_Nick e; je_User := ie_User e;
                   je_Host := ie_Host e; je_Timestamp := now |} in
      Some {| re_client := c; re_commands := [];
              re_calls := call_all (cl_joinHandlers c) (OfJoin ev) |}
  end.

Definition on_PART (self : string) (now : Time) (c : ircClient) (e : IrcEvent)
    : option Reaction :=
  match ie_Arguments e with
  | [] => None
  | channel :: _ =>
      let c := if bool_decide (ie_Nick e = self)
               then c <| cl_channels := delete channel (cl_channels c) |> else c in
      let ev := {| pe_Channel := channel; pe_Nick := ie_Nick e; pe_User := ie_User e;
                   pe_Host := ie_Host e; pe_Message := ie_Message e; pe_Timestamp := now |} in
      Some {| re_client := c; re_commands := [];
              re_calls := call_all (cl_partHandlers c) (OfPart ev) |}
  end.

Definition on_KICK (self : string) (now : Time) (c : ircClient) (e : IrcEvent)
    : option Reaction :=
  match ie_Arguments e with
  | [] => None
  | channel :: rest =>
      let kicked := match rest with [] => "" | k :: _ => k end in
      let own := bool_decide (kicked = self) in
      let c := if own then c <| cl_channels := delete channel (cl_channels c) |> else c in
      let ev := {| ke_Channel := channel; ke_Nick := kicked; ke_KickedBy := ie_Nick e;
                   ke_Message := ie_Message e; ke_Timestamp := now |} in
      Some {| re_client := c;
              re_commands := if own && irc_AutoRejoinOnKick (cl_cfg c)
                             then [CmdJoin channel] else [];
              re_calls := call_all (cl_kickHandlers c) (OfKick ev) |}
  end.

Definition on_ERROR (now : Time) (c : ircClient) (e : IrcEvent) : Reaction :=
  let ev := {| ee_Message := ie_Message e; ee_Timestamp := now |} in
  {| re_client := c; re_commands := [];
     re_calls := call_all (cl_errHandlers c) (OfError ev) |}.

(** The callback for 001 (RPL_WELCOME) that [Connect] adds. *)
Definition on_welcome (self : string) (now : Time) (c : ircClient) : Reaction :=
  let c := c <| cl_backoff := Reset <$> cl_backoff c |> in
  let ev := {| ce_Server := irc_Server (cl_cfg c); ce_Nick := self; ce_Timestamp := now |} in
  {| re_client := c; re_commands := CmdJoin <$> irc_Channels (cl_cfg c);
     re_calls := call_all (cl_connHandlers c) (OfConnect ev) |}.

(** ** The loop of [Connect]

    What the goroutine does when [c.conn.Loop()] returns: stop ([c.done <- nil]),
    or sleep and call [c.conn.Reconnect()]; whether that fails or not, the next
    thing is [c.conn.Loop()] again. *)
Inductive LoopResult :=
| LoopDone
| LoopSleep (delay : Duration) (c : ircClient)
| LoopPanic.

Definition after_Loop (Int64N : Z → Z) (now : Time) (c : ircClient)
    : list (Handler * Event) * LoopResult :=
  let ev := {| de_Server := irc_Server (cl_cfg c); de_Timestamp := now |} in
  (call_all (cl_discHandlers c) (OfDisconnect ev),
   match cl_backoff c with
   | None => LoopDone
   | Some backoff =>
       if negb (irc_Reconnect (cl_cfg c)) then LoopDone
       else if bool_decide (0 < irc_MaxReconnectAttempts (cl_cfg c))%Z
               && bool_decide (irc_MaxReconnectAttempts (cl_cfg c) ≤ Attempt backoff)%Z
       then LoopDone
       else
         match Next Int64N backoff with
         | None => LoopPanic
         | Some (delay, backoff) => LoopSleep delay (c <| cl_backoff := Some backoff |>)
         end
   end).

(** The loop while no connection succeeds: [Loop] returns at these times. The
    delays slept and, when it stopped, how. *)
Fixpoint run_loop (Int64N : Z → Z) (nows : list Time) (c : ircClient)
    : list Duration * option LoopResult :=
  match nows with
  | [] => ([], None)
  | now :: nows =>
      match (after_Loop Int64N now c).2 with
      | LoopSleep delay c =>
          let '(ds, r) := run_loop Int64N nows c in (delay :: ds, r)
      | r => ([], Some r)
      end
  end.

(** ** The methods *)

Definition Disconnect : list Command := [CmdQuit].

Definition cl_Join (channel : string) : list Command := [CmdJoin channel].

Definition cl_Part (channel : string) (c : ircClient) : ircClient * list Command :=
  (c <| cl_channels := delete channel (cl_channels c) |>, [CmdPart channel]).

Definition JoinedChannels (c : ircClient) : list string := (range 0 (cl_channels c)).*1.

(** [None] while no iteration of the limiter's [Wait] got a token. *)
Definition waitRateLimit (nows : list Time) (c : ircClient) : option ircClient :=
  match cl_limiter c with
  | None => Some c
  | Some limiter =>
      match Wait nows limiter with
      | inl limiter => Some (c <| cl_limiter := Some limiter |>)
      | inr _ => None
      end
  end.

Definition SendMessage (nows : list Time) (target message : string) (c : ircClient)
    : option (ircClient * list Command) :=
  (λ c, (c, [CmdPrivmsg target message])) <$> waitRateLimit nows c.

Definition SendNotice (nows : list Time) (target message : string) (c : ircClient)
    : option (ircClient * list Command) :=
  (λ c, (c, [CmdNotice target message])) <$> waitRateLimit nows c.

Definition SendRaw (nows : list Time) (message : string) (c : ircClient)
    : option (ircClient * list Command) :=
  (λ c, (c, [CmdRaw message])) <$> waitRateLimit nows c.

Definition SetNick (nick : string) : list Command := [CmdNick nick].
End callbacks.

(** ** Theorems *)

(** *** Who may connect *)

(** C28. A client exists only for a valid configuration and connects with TLS and
    SASL, with the account of the configuration and some mechanism; while the
    client reconnects on its own, the library does not. *)
Theorem NewClient_secure irc_IRC now cfg c :
  NewClient irc_IRC now cfg = inr c →
  Validate cfg = [] ∧ cl_cfg c = cfg ∧
  conn_UseTLS (cl_conn c) = true ∧ conn_UseSASL (cl_conn c) = true ∧
  conn_SASLLogin (cl_conn c) = irc_Username cfg ∧
  conn_SASLPassword (cl_conn c) = irc_Password cfg ∧
  conn_SASLLogin (cl_conn c) ≠ "" ∧ conn_SASLPassword (cl_conn c) ≠ "" ∧
  conn_SASLMech (cl_conn c) ≠ "" ∧
  (is_Some (cl_backoff c) → conn_MaxRecoverableReconnects (cl_conn c) = 0%Z).
Proof.
  unfold NewClient. destruct (Validate cfg) as [|e errs] eqn:Hv; [|done].
  destruct (irc_IRC _ _) as [conn|]; [|done]. intros [= <-]. cbn.
  assert (irc_Username cfg ≠ "" ∧ irc_Password cfg ≠ "") as [Hu Hp].
  { unfold Validate in Hv. rewrite !app_nil in Hv. destruct Hv as (_ & _ & Hu & Hp & _).
    by repeat case_bool_decide. }
  repeat split; try done.
  - by case_bool_decide.
  - destruct (own_reconnect cfg); [done|by intros []].
Qed.

Lemma NewClient_valid irc_IRC now cfg c :
  NewClient irc_IRC now cfg = inr c → Validate cfg = [] ∧ cl_cfg c = cfg.
Proof.
  unfold NewClient. destruct (Validate cfg) as [|e errs]; [|done].
  destruct (irc_IRC _ _); [|done]. by intros [= <-].
Qed.

(** *** The tables of handlers *)

Lemma table_on_table k k' f c :
  table k (on_table k' f c) = if decide (k = k') then f (table k c) else table k c.
Proof. by destruct k, k'. Qed.

Lemma table_kinds k c v : table k (c <| cl_handlerKinds := v |>) = table k c.
Proof. by destruct k. Qed.

Lemma table_nextID k c v : table k (c <| cl_nextID := v |>) = table k c.
Proof. by destruct k. Qed.

Lemma on_table_frame k f c :
  cl_nextID (on_table k f c) = cl_nextID c ∧
  cl_handlerKinds (on_table k f c) = cl_handlerKinds c.
Proof. by destruct k. Qed.

(** An operation on the tables: a registration or a removal. *)
Inductive TableOp := OpOn (k : HandlerKind) (h : Handler) | OpRemove (id : HandlerID).

Definition table_step (c : ircClient) (op : TableOp) : ircClient :=
  match op with
  | OpOn k h => (register k h c).1
  | OpRemove id => RemoveHandler id c
  end.

(** The ids that the callers of the [On] methods get, in order. *)
Fixpoint ids_handed (c : ircClient) (ops : list TableOp) : list HandlerID :=
  match ops with
  | [] => []
  | OpOn k h :: ops => let '(c, id) := register k h c in id :: ids_handed c ops
  | OpRemove id :: ops => ids_handed (RemoveHandler id c) ops
  end.

(** The specification: the registrations so far and the live ones among them. *)
Record Registrations := {
  regs_count : nat;
  regs_live : list (HandlerID * HandlerKind * Handler)
}.

Definition regs_step (r : Registrations) (op : TableOp) : Registrations :=
  match op with
  | OpOn k h => {| regs_count := S (regs_count r);
                   regs_live := (Z.of_nat (regs_count r), k, h) :: regs_live r |}
  | OpRemove id => {| regs_count := regs_count r;
                      regs_live := List.filter (λ x, negb (bool_decide (x.1.1 = id))) (regs_live r) |}
  end.

Record tables_ok (c : ircClient) (r : Registrations) : Prop := {
  ok_next : cl_nextID c = Z.of_nat (regs_count r);
  ok_bound id k h : (id, k, h) ∈ regs_live r → (0 ≤ id < Z.of_nat (regs_count r))%Z;
  ok_table k id h : table k c !! id = Some h ↔ (id, k, h) ∈ regs_live r;
  ok_nodup : NoDup (regs_live r).*1.*1;
  ok_kinds id k : cl_handlerKinds c !! id = Some k ↔ ∃ h, (id, k, h) ∈ regs_live r
}.

Lemma tables_ok_on c r k h :
  (Z.of_nat (regs_count r) < max_int64)%Z → tables_ok c r →
  tables_ok (table_step c (OpOn k h)) (regs_step r (OpOn k h)).
Proof.
  intros Hmax [Hn Hb Ht Hd Hk]. cbn [table_step regs_step]. unfold register. cbn [fst].
  set (id := Z.of_nat (regs_count r)) in *.
  assert (∀ k' h', (id, k', h') ∉ regs_live r) as Hfresh.
  { intros k' h' Hin. apply Hb in Hin. lia. }
  split.
  - cbn [cl_nextID regs_count]. destruct (on_table_frame k <[cl_nextID c := h]>
      (c <| cl_nextID := wrap64 (cl_nextID c + 1) |>)) as [-> _]. cbn [cl_nextID].
    rewrite Hn, wrap64_id; [|unfold int64_ok, min_int64, max_int64 in *]; lia.
  - intros id' k' h'. cbn [regs_live regs_count]. rewrite elem_of_cons.
    intros [[= -> -> ->]|Hin]; [lia|]. apply Hb in Hin. lia.
  - intros k' id' h'. rewrite table_kinds, table_on_table, table_nextID. rewrite Hn.
    cbn [regs_live]. rewrite elem_of_cons, <- Ht. case_decide as E.
    + subst k'. destruct (decide (id' = id)) as [->|Hne].
      * rewrite lookup_insert, decide_True by done. split.
        { intros [= ->]. by left. }
        { intros [[= ->]|Hin]; [done|]. apply Ht in Hin. by apply Hfresh in Hin. }
      * rewrite lookup_insert_ne by done. split; [by right|]. by intros [[= ??]|?].
    + split; [by right|]. by intros [[= ???]|?].
  - cbn [regs_live]. rewrite !fmap_cons. constructor; [|done]. cbn.
    intros ([id' k'] & E & ([[id2 k2] h'] & [= -> ->] & Hin)%list_elem_of_fmap)%list_elem_of_fmap.
    cbn in E. subst id2. by apply Hfresh in Hin.
  - intros id' k'. cbn [cl_handlerKinds regs_live].
    destruct (on_table_frame k <[cl_nextID c := h]>
      (c <| cl_nextID := wrap64 (cl_nextID c + 1) |>)) as [_ ->]. cbn [cl_handlerKinds].
    rewrite Hn. setoid_rewrite elem_of_cons. destruct (decide (id' = id)) as [->|Hne].
    + rewrite lookup_insert, decide_True by done. split.
      * intros [= ->]. exists h. by left.
      * intros (h' & [[= -> _]|Hin]); [done|]. by apply Hfresh in Hin.
    + rewrite lookup_insert_ne, Hk by done. split.
      * intros [h' ?]. exists h'. by right.
      * intros (h' & [[= ???]|?]); [done|by exists h'].
Qed.

Lemma tables_ok_remove c r id :
  tables_ok c r → tables_ok (table_step c (OpRemove id)) (regs_step r (OpRemove id)).
Proof.
  intros [Hn Hb Ht Hd Hk]. cbn [table_step regs_step].
  assert (∀ id' k h, (id', k, h) ∈ List.filter (λ x, negb (bool_decide (x.1.1 = id))) (regs_live r)
    ↔ id' ≠ id ∧ (id', k, h) ∈ regs_live r) as Hlive.
  { intros id' k h. rewrite elem_of_filter_bool, negb_true_iff, bool_decide_eq_false. cbn. tauto. }
  assert (NoDup (List.filter (λ x, negb (bool_decide (x.1.1 = id))) (regs_live r)).*1.*1) as Hnd.
  { rewrite <- !list_fmap_compose in *. by apply NoDup_fmap_filter. }
  unfold RemoveHandler. destruct (cl_handlerKinds c !! id) as [kind|] eqn:E.
  - destruct (on_table_frame kind (delete id)
      (c <| cl_handlerKinds := delete id (cl_handlerKinds c) |>)) as [E1 E2].
    apply Hk in E as [h0 Hh0]. split.
    + by rewrite E1.
    + intros id' k h [_ Hin]%Hlive. by apply Hb in Hin.
    + intros k id' h. cbn [regs_live]. rewrite Hlive, table_on_table, table_kinds, <- Ht.
      case_decide as Ek.
      * subst k. destruct (decide (id' = id)) as [->|Hne].
        { rewrite lookup_delete, decide_True by done. split; [done|by intros []]. }
        { rewrite lookup_delete_ne by done. tauto. }
      * split; [|by intros []]. intros Hl. split; [|done]. intros ->.
        apply Ht in Hl. assert (cl_handlerKinds c !! id = Some k) by (apply Hk; by exists h).
        assert (cl_handlerKinds c !! id = Some kind) by (apply Hk; by exists h0). congruence.
    + exact Hnd.
    + intros id' k. cbn [regs_live]. rewrite E2. cbn [cl_handlerKinds]. setoid_rewrite Hlive.
      destruct (decide (id' = id)) as [->|Hne].
      * rewrite lookup_delete, decide_True by done. split; [done|by intros (? & [] & _)].
      * rewrite lookup_delete_ne, Hk by done. by split; intros (h & ?); exists h; [|tauto].
  - assert (∀ k h, (id, k, h) ∉ regs_live r) as Hno.
    { intros k h Hin. assert (cl_handlerKinds c !! id = Some k) by (apply Hk; by exists h).
      congruence. }
    assert (∀ id' k h, (id', k, h) ∈ regs_live r → id' ≠ id) as Hne.
    { intros id' k h Hin ->. by apply Hno in Hin. }
    split; [done| | | |]; cbn [regs_live regs_count].
    + intros id' k h [_ Hin]%Hlive. by apply Hb in Hin.
    + intros k id' h. rewrite Hlive, Ht. split; [|tauto]. intros Hin.
      split; [by eapply Hne|done].
    + exact Hnd.
    + intros id' k. rewrite Hk. setoid_rewrite Hlive. split.
      * intros [h Hin]. exists h. split; [by eapply Hne|done].
      * intros (h & _ & Hin). by exists h.
Qed.

(** The registrations of a sequence of operations. *)
Definition registrations (ops : list TableOp) : Registrations :=
  foldl regs_step {| regs_count := 0; regs_live := [] |} ops.

Lemma tables_ok_step c r op :
  (Z.of_nat (regs_count r) < max_int64)%Z → tables_ok c r →
  tables_ok (table_step c op) (regs_step r op).
Proof. destruct op; [apply tables_ok_on|intros _; apply tables_ok_remove]. Qed.

Lemma tables_ok_new c :
  cl_nextID c = 0%Z → cl_handlerKinds c = ∅ → (∀ k, table k c = ∅) →
  tables_ok c {| regs_count := 0; regs_live := [] |}.
Proof.
  intros Hn Hk Ht. split; cbn.
  - done.
  - by intros ??? ?%not_elem_of_nil.
  - intros k id h. rewrite Ht, lookup_empty, elem_of_nil. done.
  - constructor.
  - intros id k. rewrite Hk, lookup_empty. setoid_rewrite elem_of_nil. by split; [|intros []].
Qed.

Lemma tables_run_ok c r ops :
  tables_ok c r → (Z.of_nat (regs_count r + length ops) ≤ max_int64)%Z →
  tables_ok (foldl table_step c ops) (foldl regs_step r ops) ∧
  ids_handed c ops = Z.of_nat <$>
    seq (regs_count r) (regs_count (foldl regs_step r ops) - regs_count r) ∧
  regs_count r ≤ regs_count (foldl regs_step r ops).
Proof.
  revert c r. induction ops as [|op ops IH]; intros c r Hok Hlen; cbn [foldl length] in *.
  { by rewrite Nat.sub_diag. }
  assert (tables_ok (table_step c op) (regs_step r op)) as Hok'; [apply tables_ok_step; [lia|done]|].
  destruct (IH _ _ Hok') as (H1 & H2 & H3); [destruct op; cbn; lia|].
  split; [exact H1|]. revert H2 H3. generalize (regs_count (foldl regs_step (regs_step r op) ops)) as n.
  destruct op as [k h|id]; intros n H2 H3; [|by split].
  cbn [regs_step regs_count table_step] in *. split; [|lia].
  cbn [ids_handed]. unfold register in *. cbn [fst] in H2. rewrite H2, (ok_next _ _ Hok).
  by replace (n - regs_count r) with (S (n - S (regs_count r))) by lia.
Qed.

Section theorems.
Context `{MR : MapRange} `{FO : FloatOverflow}.

Lemma call_all_elem m ev h ev' :
  (h, ev') ∈ call_all m ev ↔ ev' = ev ∧ ∃ id, m !! id = Some h.
Proof.
  unfold call_all. rewrite list_elem_of_fmap. split.
  - intros ([id h'] & [= -> ->] & Hin). apply elem_of_range in Hin. split; [done|by exists id].
  - intros (-> & id & Hid). exists (id, h). by rewrite elem_of_range.
Qed.

(** The live handlers of a kind are called, each once. *)
Lemma calls_live c r k ev :
  tables_ok c r →
  call_all (table k c) ev ≡ₚ
    (λ x, (x.2, ev)) <$> List.filter (λ x, bool_decide (x.1.2 = k)) (regs_live r).
Proof.
  intros [Hn Hb Ht Hd Hk]. unfold call_all. set (live := List.filter _ _).
  transitivity ((λ kv : Z * nat, (kv.2, ev)) <$> ((λ x, (x.1.1, x.2)) <$> live)).
  { apply fmap_Permutation. apply NoDup_Permutation.
    - apply NoDup_range.
    - apply (NoDup_fmap_1 fst). rewrite <- list_fmap_compose.
      apply (NoDup_fmap_filter (fst ∘ (λ x, (x.1.1, x.2)))). by rewrite <- list_fmap_compose in Hd.
    - intros [id h]. rewrite elem_of_range, Ht, list_elem_of_fmap. unfold live.
      setoid_rewrite elem_of_filter_bool. split.
      + intros Hin. exists (id, k, h). split; [done|]. split; [done|]. by apply bool_decide_eq_true.
      + intros ([[id' k'] h'] & [= -> ->] & Hin & Hk'%bool_decide_eq_true). cbn in Hk'. by subst. }
  by rewrite <- list_fmap_compose.
Qed.

Lemma NewClient_tables irc_IRC now cfg c :
  NewClient irc_IRC now cfg = inr c → tables_ok c {| regs_count := 0; regs_live := [] |}.
Proof.
  intros Hc. unfold NewClient in Hc. destruct (Validate cfg); [|done].
  destruct (irc_IRC _ _); [|done]. injection Hc as <-. apply tables_ok_new; [done|done|by intros []].
Qed.

Lemma NewClient_run irc_IRC now cfg c ops :
  NewClient irc_IRC now cfg = inr c → (Z.of_nat (length ops) ≤ max_int64)%Z →
  tables_ok (foldl table_step c ops) (registrations ops).
Proof. intros Hc%NewClient_tables Hlen. by destruct (tables_run_ok c _ ops Hc Hlen). Qed.

(** C17. Handlers: after any sequence of registrations and removals (fewer than
    2^63) a client's seven tables are, together, the registrations that were not
    removed: the ids handed out to the callers are 0, 1, 2 and so on, whatever the
    kinds, and an event calls exactly the live handlers of its kind, each once. *)
Theorem handlers_refine irc_IRC now cfg c ops k ev :
  NewClient irc_IRC now cfg = inr c → (Z.of_nat (length ops) ≤ max_int64)%Z →
  let c' := foldl table_step c ops in
  let live := List.filter (λ x, bool_decide (x.1.2 = k)) (regs_live (registrations ops)) in
  ids_handed c ops = Z.of_nat <$> seq 0 (regs_count (registrations ops)) ∧
  cl_nextID c' = Z.of_nat (regs_count (registrations ops)) ∧
  call_all (table k c') ev ≡ₚ (λ x, (x.2, ev)) <$> live.
Proof.
  intros Hc Hlen c' live. apply NewClient_tables in Hc.
  destruct (tables_run_ok c _ ops Hc Hlen) as (Hok & Hids & _).
  cbn [regs_count] in Hids. rewrite Nat.sub_0_r in Hids.
  split; [exact Hids|]. split; [apply Hok|by apply calls_live].
Qed.

(** *** The channels *)

(** What can change the channels that a client believes it is in, and what might:
    events about some nick while the own nick is [self], the client's own [Part],
    the loss of the connection (with a reconnection) and the welcome. *)
Inductive ChannelEvent :=
| SawJoin (self : string) (e : IrcEvent)
| SawPart (self : string) (e : IrcEvent)
| SawKick (self : string) (e : IrcEvent)
| CalledPart (channel : string)
| LostConnection
| SawWelcome (self : string).

Definition client_of (c : ircClient) (r : option Reaction) : ircClient :=
  match r with Some re => re_client re | None => c end.

Definition channel_step (Int64N : Z → Z) (now : Time) (c : ircClient) (ev : ChannelEvent)
    : ircClient :=
  match ev with
  | SawJoin self e => client_of c (on_JOIN self now c e)
  | SawPart self e => client_of c (on_PART self now c e)
  | SawKick self e => client_of c (on_KICK self now c e)
  | CalledPart channel => (cl_Part channel c).1
  | LostConnection =>
      match (after_Loop Int64N now c).2 with LoopSleep _ c => c | _ => c end
  | SawWelcome self => re_client (on_welcome self now c)
  end.

(** The specification for one channel: in it after an own JOIN, not in it after an
    own PART or KICK or a call of [Part]. *)
Definition member_step (channel : string) (member : bool) (ev : ChannelEvent) : bool :=
  match ev with
  | SawJoin self e =>
      if bool_decide (head (ie_Arguments e) = Some channel ∧ ie_Nick e = self) then true else member
  | SawPart self e =>
      if bool_decide (head (ie_Arguments e) = Some channel ∧ ie_Nick e = self) then false else member
  | SawKick self e =>
      if bool_decide (head (ie_Arguments e) = Some channel ∧
                      default "" (ie_Arguments e !! 1) = self) then false else member
  | CalledPart ch => if bool_decide (ch = channel) then false else member
  | LostConnection | SawWelcome _ => member
  end.

Definition in_channel (channel : string) (c : ircClient) : bool :=
  bool_decide (is_Some (cl_channels c !! channel)).

Lemma in_channel_insert ch ch' (m : gmap string bool) v :
  bool_decide (is_Some (<[ch' := v]> m !! ch)) =
    bool_decide (ch' = ch) || bool_decide (is_Some (m !! ch)).
Proof.
  rewrite lookup_insert. case_decide as E; [|by rewrite (bool_decide_eq_false_2 (ch' = ch))].
  by rewrite (bool_decide_eq_true_2 (ch' = ch)).
Qed.

Lemma in_channel_delete ch ch' (m : gmap string bool) :
  bool_decide (is_Some (delete ch' m !! ch)) =
    negb (bool_decide (ch' = ch)) && bool_decide (is_Some (m !! ch)).
Proof.
  rewrite lookup_delete. case_decide as E.
  - rewrite (bool_decide_eq_true_2 (ch' = ch)) by done. apply bool_decide_eq_false_2.
    by intros [].
  - by rewrite (bool_decide_eq_false_2 (ch' = ch)).
Qed.

Lemma channel_step_member Int64N now c ev channel :
  in_channel channel (channel_step Int64N now c ev) =
    member_step channel (in_channel channel c) ev.
Proof.
  unfold in_channel. destruct ev as [self e|self e|self e|ch| |self]; cbn [channel_step member_step].
  - unfold on_JOIN. destruct (ie_Arguments e) as [|ch args]; [done|]. cbn [head client_of re_client].
    destruct (bool_decide_reflect (ie_Nick e = self)) as [Hs|Hs].
    + cbn [cl_channels]. rewrite in_channel_insert. repeat case_bool_decide; naive_solver.
    + repeat case_bool_decide; naive_solver.
  - unfold on_PART. destruct (ie_Arguments e) as [|ch args]; [done|]. cbn [head client_of re_client].
    destruct (bool_decide_reflect (ie_Nick e = self)) as [Hs|Hs].
    + cbn [cl_channels]. rewrite in_channel_delete. repeat case_bool_decide; naive_solver.
    + repeat case_bool_decide; naive_solver.
  - unfold on_KICK. destruct (ie_Arguments e) as [|ch args]; [done|]. cbn [head client_of re_client].
    replace (default "" ((ch :: args) !! 1)) with (match args with [] => "" | k :: _ => k end)
      by (by destruct args).
    destruct (bool_decide_reflect (match args with [] => "" | k :: _ => k end = self)) as [Hs|Hs].
    + cbn [cl_channels]. rewrite in_channel_delete. repeat case_bool_decide; naive_solver.
    + repeat case_bool_decide; naive_solver.
  - cbn [cl_Part fst cl_channels]. rewrite in_channel_delete. by case_bool_decide.
  - unfold after_Loop. cbn [snd]. destruct (cl_backoff c); [|done].
    destruct (negb _); [done|]. destruct (_ && _); [done|]. by destruct (Next _ _) as [[]|].
  - done.
Qed.

Lemma elem_of_JoinedChannels ch c : ch ∈ JoinedChannels c ↔ in_channel ch c = true.
Proof. unfold JoinedChannels, in_channel. by rewrite elem_of_range_fst, bool_decide_eq_true. Qed.

(** C26. The channels of a client: after any sequence of events, [JoinedChannels]
    lists, once each, exactly the channels about which the last own event was a
    JOIN; the events of other nicks change nothing, and neither does the loss of
    the connection. *)
Theorem channels_tracked Int64N now cfg irc_IRC c evs channel :
  NewClient irc_IRC now cfg = inr c →
  let c' := foldl (channel_step Int64N now) c evs in
  NoDup (JoinedChannels c') ∧
  (channel ∈ JoinedChannels c' ↔ foldl (member_step channel) false evs = true).
Proof.
  intros Hc c'. split; [apply NoDup_fst_range|]. rewrite elem_of_JoinedChannels.
  replace false with (in_channel channel c); cycle 1.
  { unfold NewClient in Hc. destruct (Validate cfg); [|done]. destruct (irc_IRC _ _); [|done].
    injection Hc as <-. done. }
  unfold c'. clear Hc c'. revert c. induction evs as [|ev evs IH]; intros c; [done|]. cbn [foldl].
  by rewrite IH, channel_step_member.
Qed.

(** A channel that is not among the configured ones is not joined again after
    the connection was lost, yet [JoinedChannels] goes on listing it. *)
Theorem lost_channels_listed Int64N now now' self c c' calls delay channel :
  channel ∈ JoinedChannels c → channel ∉ irc_Channels (cl_cfg c) →
  after_Loop Int64N now c = (calls, LoopSleep delay c') →
  let re := on_welcome self now' c' in
  channel ∈ JoinedChannels (re_client re) ∧ CmdJoin channel ∉ re_commands re.
Proof.
  intros Hin Hcfg Hl re.
  assert (cl_channels c' = cl_channels c ∧ cl_cfg c' = cl_cfg c) as [Ech Ecfg].
  { unfold after_Loop in Hl. destruct (cl_backoff c); [|done].
    destruct (negb _); [done|]. destruct (_ && _); [done|].
    destruct (Next _ _) as [[]|]; [|done]. by injection Hl as _ _ <-. }
  rewrite elem_of_JoinedChannels in *. unfold in_channel, re, on_welcome in *.
  cbn [re_client cl_channels re_commands cl_cfg]. rewrite Ech, Ecfg. split; [done|].
  by intros (ch & [= <-] & Hch)%list_elem_of_fmap.
Qed.

(** *** Reconnecting *)

(** C27. A client that cannot reach its server gives up: it sleeps exactly as
    often as it has attempts left, each time no longer than the base doubled at
    every attempt and than the maximum, and then the loop ends. *)
Theorem reconnect_gives_up Int64N nows c b :
  (∀ n, (0 < n)%Z → (0 ≤ Int64N n < n)%Z) →
  cl_backoff c = Some b → irc_Reconnect (cl_cfg c) = true →
  (0 < bo_Base b < 2 ^ 53)%Z → (0 < bo_Max b < max_int64)%Z →
  (0 < irc_MaxReconnectAttempts (cl_cfg c) < max_int64)%Z →
  (0 ≤ bo_attempt b ≤ irc_MaxReconnectAttempts (cl_cfg c))%Z →
  (irc_MaxReconnectAttempts (cl_cfg c) - bo_attempt b < Z.of_nat (length nows))%Z →
  let '(ds, result) := run_loop Int64N nows c in
  result = Some LoopDone ∧
  Z.of_nat (length ds) = (irc_MaxReconnectAttempts (cl_cfg c) - bo_attempt b)%Z ∧
  ∀ i d, ds !! i = Some d →
    (0 ≤ d ≤ Z.min (bo_Max b) (bo_Base b * 2 ^ (bo_attempt b + Z.of_nat i)))%Z.
Proof.
  intros Hrand. revert c b. induction nows as [|now nows IH]; intros c b Hb Hr Hbase Hmax Hn Hatt Hlen.
  { cbn in Hlen. lia. }
  cbn [run_loop]. unfold after_Loop. cbn [snd]. rewrite Hb, Hr. cbn [negb].
  rewrite bool_decide_eq_true_2 by lia. cbn [andb]. unfold Attempt. case_bool_decide as Hge.
  - split; [done|]. split; [cbn; lia|]. intros i d Hi. by rewrite lookup_nil in Hi.
  - destruct (Next_spec Int64N b) as (d & -> & Hd & _); [done|done|done|lia|].
    set (b' := b <| bo_attempt := (bo_attempt b + 1)%Z |>).
    specialize (IH (c <| cl_backoff := Some b' |>) b' eq_refl Hr Hbase Hmax Hn).
    cbn [cl_cfg b' bo_attempt bo_Max bo_Base] in IH. cbn [length] in Hlen.
    specialize (IH ltac:(lia) ltac:(lia)).
    destruct (run_loop _ _ _) as [ds r]. destruct IH as (-> & Hl & Hds).
    split; [done|]. split; [cbn; lia|]. intros [|i] d' Hi.
    + injection Hi as <-. by rewrite Z.add_0_r.
    + apply Hds in Hi. replace (bo_attempt b + Z.of_nat (S i))%Z
        with (bo_attempt b + 1 + Z.of_nat i)%Z by lia. done.
Qed.
End theorems.

(** ** Concrete runs *)

Definition sample_config : IRCConfig :=
  {| irc_Server := "irc.example.org:6697"; irc_Nick := "alice"; irc_Username := "alice";
     irc_Password := "secret"; irc_RealName := ""; irc_TLS := true;
     irc_TLSInsecureSkipVerify := false; irc_SASL := true; irc_SASLMech := "PLAIN";
     irc_Channels := ["#agents"]; irc_AutoRejoinOnKick := false; irc_Reconnect := true;
     irc_MaxReconnectAttempts := 3; irc_PingFrequency := 120 * second;
     irc_Timeout := 60 * second; irc_QuitMessage := ""; irc_Debug := false;
     irc_RateLimit := float_two; irc_RateLimitBurst := 5;
     irc_ReconnectBackoff := 1 * second; irc_MaxReconnectBackoff := 120 * second |}%Z.

(** A library whose connections have no settings yet. *)
Definition sample_connection : Connection :=
  {| conn_RealName := ""; conn_UseTLS := false; conn_InsecureSkipVerify := false;
     conn_UseSASL := false; conn_SASLLogin := ""; conn_SASLPassword := "";
     conn_SASLMech := ""; conn_QuitMessage := ""; conn_Debug := false;
     conn_HandleErrorAsDisconnect := false; conn_SmartErrorHandling := false;
     conn_MaxRecoverableReconnects := 3; conn_PingFreq := 0; conn_Timeout := 0 |}.

Definition sample_IRC (nick user : string) : option Connection := Some sample_connection.

Definition sample_client : ircClient :=
  {| cl_cfg := sample_config; cl_conn := configure_conn sample_config sample_connection;
     cl_channels := ∅; cl_limiter := Some (NewRateLimiter 0 float_two 5);
     cl_backoff := Some (NewBackoff (1 * second) (120 * second)); cl_nextID := 0;
     cl_msgHandlers := ∅; cl_joinHandlers := ∅; cl_partHandlers := ∅; cl_kickHandlers := ∅;
     cl_errHandlers := ∅; cl_connHandlers := ∅; cl_discHandlers := ∅; cl_handlerKinds := ∅ |}.

Lemma sample_client_ok : NewClient sample_IRC 0 sample_config = inr sample_client.
Proof. reflexivity. Qed.

Lemma NewClient_secure_witness :
  conn_UseTLS (cl_conn sample_client) = true ∧ conn_SASLLogin (cl_conn sample_client) = "alice" ∧
  conn_MaxRecoverableReconnects (cl_conn sample_client) = 0%Z.
Proof.
  destruct (NewClient_secure sample_IRC 0 sample_config sample_client)
    as (_ & _ & Ht & _ & Hl & _ & _ & _ & _ & Hr); [reflexivity|].
  split; [exact Ht|]. split; [exact Hl|]. apply Hr. by eexists.
Defined.

(** Two message handlers and a join handler; the first one is removed. *)
Definition sample_ops : list TableOp := [OpOn KindMsg 10; OpOn KindJoin 20; OpOn KindMsg 11; OpRemove 0].

Lemma handlers_refine_witness :
  let ev := OfError {| ee_Message := "x"; ee_Timestamp := 0 |} in
  ids_handed sample_client sample_ops = [0; 1; 2]%Z ∧
  call_all (table KindMsg (foldl table_step sample_client sample_ops)) ev ≡ₚ [(11, ev)].
Proof.
  intros ev.
  destruct (handlers_refine sample_IRC 0 sample_config sample_client sample_ops KindMsg ev)
    as (Hids & _ & Hc); [reflexivity|done|]. split; [exact Hids|]. rewrite Hc. reflexivity.
Defined.

Definition own_event (channel : string) : IrcEvent :=
  {| ie_Nick := "alice"; ie_User := ""; ie_Host := ""; ie_Arguments := [channel]; ie_Message := "" |}.

Lemma channels_tracked_witness :
  let evs := [SawJoin "alice" (own_event "#agents"); SawJoin "alice" (own_event "#tmp");
              SawJoin "bob" (own_event "#other"); SawPart "alice" (own_event "#agents");
              LostConnection] in
  let c := foldl (channel_step (λ n, n - 1) 0)%Z sample_client evs in
  "#tmp" ∈ JoinedChannels c ∧ "#agents" ∉ JoinedChannels c.
Proof.
  intros evs c. split.
  - by apply (channels_tracked (λ n, n - 1)%Z 0 sample_config sample_IRC sample_client evs "#tmp").
  - intros Hin.
    by apply (channels_tracked (λ n, n - 1)%Z 0 sample_config sample_IRC sample_client evs "#agents")
      in Hin.
Defined.

(** The client joins a channel on its own; then the connection is lost. *)
Lemma lost_channels_listed_witness :
  let c := channel_step (λ n, n - 1)%Z 0 sample_client (SawJoin "alice" (own_event "#tmp")) in
  match (after_Loop (λ n, n - 1)%Z 0 c).2 with
  | LoopSleep _ c' =>
      "#tmp" ∈ JoinedChannels c' ∧ re_commands (on_welcome "alice" 9 c') = [CmdJoin "#agents"]
  | _ => False
  end.
Proof.
  intros c. destruct (after_Loop (λ n, n - 1)%Z 0 c) as [calls r] eqn:E.
  destruct r as [|d c'|]; [by vm_compute in E| |by vm_compute in E]. cbn [snd].
  destruct (lost_channels_listed (λ n, n - 1)%Z 0 9 "alice" c c' calls d "#tmp") as [Hin _].
  - by vm_compute; left.
  - intros Hin%list_elem_of_singleton. discriminate.
  - exact E.
  - split; [exact Hin|]. by vm_compute in E; injection E as <- <- <-.
Defined.

Lemma reconnect_gives_up_witness :
  (run_loop (λ n, n - 1)%Z [0; 0; 0; 0; 0]%Z sample_client).2 = Some LoopDone ∧
  (run_loop (λ n, n - 1)%Z [0; 0; 0; 0; 0]%Z sample_client).1 =
    [1000000000; 2000000000; 4000000000]%Z.
Proof.
  split; [|by vm_compute].
  pose proof (reconnect_gives_up (λ n, n - 1)%Z [0; 0; 0; 0; 0]%Z sample_client
    (NewBackoff 1000000000 120000000000)) as H.
  destruct (run_loop _ _ _) as [ds r]. apply H; (done || (intros n Hn; lia)).
Defined.
