(* ===== verification/Client.v ===== *)
(** * The interface of an IRC client: [pkg/ircclient/client.go]

    What the program asks of a client, as a class: its operations, and the laws that the
    code which uses a client relies on. [ircClient] is the implementation. What its
    connection reports is an argument of the operations that read it. *)

From S2P Require Import Prelude GoStrings Config Pacing Events IrcClient.

(** What the library's connection reports. *)
Record ConnectionView := { vw_Connected : bool; vw_Valid : bool; vw_Nick : string }.

(** How connecting ends: the server's welcome, an error of the dial, or the end of the
    context. *)
Inductive ConnectOutcome := Welcomed | DialFailed (err : string) | ContextDone (err : string).

(** The seven functions that register a handler are one, with the kind of event. *)
Class Client (C : Type) := {
  client_Connect : ConnectOutcome → C → option string * list Command;
  client_Disconnect : C → list Command;
  client_Connected : ConnectionView → C → bool;
  client_Healthy : ConnectionView → C → bool;
  client_Join : string → C → C * list Command;
  client_Part : string → C → C * list Command;
  client_JoinedChannels : C → list string;
  client_SendMessage : list Time → string → string → C → option (C * list Command);
  client_SendNotice : list Time → string → string → C → option (C * list Command);
  client_SendRaw : list Time → string → C → option (C * list Command);
  client_Nick : ConnectionView → C → string;
  client_SetNick : string → C → C * list Command;
  client_On : HandlerKind → Handler → C → C * HandlerID;
  client_RemoveHandler : HandlerID → C → C;
  client_Wait : C → option string
}.

Class LawfulClient (C : Type) `{Client C} : Prop := {
  joined_once c : NoDup (client_JoinedChannels c);
  part_asks channel c : (client_Part channel c).2 = [CmdPart channel];
  part_leaves channel c ch :
    ch ∈ client_JoinedChannels (client_Part channel c).1 ↔ ch ∈ client_JoinedChannels c ∧ ch ≠ channel;
  join_waits channel c :
    client_Join channel c = (c, [CmdJoin channel]);
  disconnect_quits c : client_Disconnect c = [CmdQuit];
  message_asks nows target message c c' cmds :
    client_SendMessage nows target message c = Some (c', cmds) →
    cmds = [CmdPrivmsg target message] ∧ client_JoinedChannels c' = client_JoinedChannels c;
  handlers_keep_channels k h c : client_JoinedChannels (client_On k h c).1 = client_JoinedChannels c
}.

(** ** What is done with a client *)

Section use.
Context {C : Type} `{Client C}.

(** [for _, ch := range channels { client.Part(ch) }] *)
Definition part_all (channels : list string) (client : C) : C * list Command :=
  foldl (λ acc ch, let '(c, cmds) := client_Part ch acc.1 in (c, acc.2 ++ cmds)) (client, []) channels.

Context `{!LawfulClient C}.

Lemma part_all_spec channels client :
  (part_all channels client).2 = CmdPart <$> channels ∧
  ∀ ch, ch ∈ client_JoinedChannels (part_all channels client).1 ↔
    ch ∈ client_JoinedChannels client ∧ ch ∉ channels.
Proof.
  unfold part_all. induction channels as [|ch channels IH] using rev_ind.
  - split; [done|]. intros ch. cbn. pose proof (not_elem_of_nil ch). tauto.
  - rewrite foldl_snoc. destruct (foldl _ _ _) as [c cmds], IH as [IH1 IH2]. cbn [fst snd] in *.
    pose proof (part_asks ch c) as Ha. pose proof (part_leaves ch c) as Hl.
    destruct (client_Part ch c) as [c' more]. cbn [fst snd] in *. rewrite Ha, IH1, fmap_app. split; [done|].
    intros ch'. rewrite Hl, IH2, not_elem_of_app, list_elem_of_singleton. tauto.
Qed.

(** Whoever parts from all channels of a client leaves each of them once and is in
    none. *)
Lemma leave_all client :
  let '(client', cmds) := part_all (client_JoinedChannels client) client in
  cmds = CmdPart <$> client_JoinedChannels client ∧ NoDup (client_JoinedChannels client) ∧
  client_JoinedChannels client' = [].
Proof.
  destruct (part_all_spec (client_JoinedChannels client) client) as [H1 H2].
  destruct (part_all _ _) as [client' cmds]. cbn [fst snd] in *. split; [done|]. split; [apply joined_once|].
  destruct (client_JoinedChannels client') as [|ch l] eqn:E; [done|].
  assert (ch ∈ client_JoinedChannels client') as Hin by (rewrite E; by left). rewrite E in Hin.
  apply H2 in Hin. tauto.
Qed.
End use.

(** ** The implementation *)

Section implementation.
Context `{MR : MapRange}.

Definition cl_Connect (outcome : ConnectOutcome) (c : ircClient) : option string * list Command :=
  match outcome with
  | Welcomed => (None, [])
  | DialFailed err => (Some ("connect to " +:+ irc_Server (cl_cfg c) +:+ ": " +:+ err), [])
  | ContextDone err => (Some err, [CmdQuit])
  end.

(** The end of the loop sends nil. *)
Definition cl_Wait (c : ircClient) : option string := None.

#[export] Instance ircClient_Client : Client ircClient := {
  client_Connect := cl_Connect;
  client_Disconnect _ := Disconnect;
  client_Connected view _ := vw_Connected view;
  client_Healthy view _ := vw_Valid view;
  client_Join channel c := (c, cl_Join channel);
  client_Part := cl_Part;
  client_JoinedChannels := JoinedChannels;
  client_SendMessage := SendMessage;
  client_SendNotice := SendNotice;
  client_SendRaw := SendRaw;
  client_Nick view _ := vw_Nick view;
  client_SetNick nick c := (c, SetNick nick);
  client_On := register;
  client_RemoveHandler := RemoveHandler;
  client_Wait := cl_Wait
}.

#[export] Instance ircClient_lawful : LawfulClient ircClient.
Proof.
  split; cbn.
  - intros c. apply NoDup_fst_range.
  - done.
  - intros channel c ch. unfold JoinedChannels. rewrite !elem_of_range_fst. cbn.
    rewrite lookup_delete_is_Some. naive_solver.
  - done.
  - done.
  - intros nows target message c c' cmds. unfold SendMessage, waitRateLimit.
    destruct (cl_limiter c) as [l|]; [destruct (Wait nows l)|]; by intros [= <- <-].
  - intros k h c. by destruct k.
Qed.
End implementation.
