(* ===== verification/State.v ===== *)
(** * The state store: [internal/agent/state.go]

    Tasks, the dependency edges between them, and what each agent works on.
    A slice is a list, a map of pointers is a map of records: the store hands
    out copies only ([GetTask], [ListTasks], [Snapshot]), so no record is
    reached by two names, except for the slice [Tags] that a stored task shares
    with the message it came from and that nothing writes to. *)

From S2P Require Import Prelude GoStrings GoNum Message.

Definition TaskStatusStarted : string := "started".
Definition TaskStatusCompleted : string := "completed".
Definition TaskStatusBlocked : string := "blocked".
Definition TaskStatusOffered : string := "offered".
Definition TaskStatusClaimed : string := "claimed".
Definition TaskStatusAssigned : string := "assigned".
Definition TaskStatusYielded : string := "yielded".

Record TaskInfo := {
  Name : string;
  Status : string;
  Priority : string;
  WaitingFor : string;
  Tags : list string;
  LastAgent : string;
  UpdatedAt : Time;
  Owner : string;
  Scope : string;
  Progress : Z;
  Summary : string
}.

#[export] Instance TaskInfo_eta : RecordEta TaskInfo := λ r,
  {| Name := Name r; Status := Status r; Priority := Priority r;
     WaitingFor := WaitingFor r; Tags := Tags r; LastAgent := LastAgent r;
     UpdatedAt := UpdatedAt r; Owner := Owner r; Scope := Scope r;
     Progress := Progress r; Summary := Summary r |}.

Definition new_TaskInfo (name : string) : TaskInfo :=
  {| Name := name; Status := ""; Priority := ""; WaitingFor := ""; Tags := [];
     LastAgent := ""; UpdatedAt := zero_time; Owner := ""; Scope := "";
     Progress := 0; Summary := "" |}.

Record DependencyEdge := {
  Blocked : string;
  BlockedBy : string;
  Resolved : bool;
  ResolvedAt : Time
}.

#[export] Instance DependencyEdge_eta : RecordEta DependencyEdge := λ e,
  {| Blocked := Blocked e; BlockedBy := BlockedBy e; Resolved := Resolved e;
     ResolvedAt := ResolvedAt e |}.

#[export] Instance DependencyEdge_eq_dec : EqDecision DependencyEdge.
Proof. solve_decision. Defined.

Definition new_edge (blocked blockedBy : string) : DependencyEdge :=
  {| Blocked := blocked; BlockedBy := blockedBy; Resolved := false;
     ResolvedAt := zero_time |}.

Record AgentStatus := {
  as_Nick : string;
  as_Channel : string;
  as_TaskName : string;
  as_UpdatedAt : Time
}.

Record DependencyStatsInfo := {
  TotalEdges : nat;
  ResolvedEdges : nat;
  UnresolvedEdges : nat;
  BlockedTasks : nat;
  UnblockedTasks_count : nat
}.

Record StateStore := {
  tasks : gmap string TaskInfo;
  dependencies : list DependencyEdge;
  agents : gmap string AgentStatus
}.

#[export] Instance StateStore_eta : RecordEta StateStore := λ s,
  {| tasks := tasks s; dependencies := dependencies s; agents := agents s |}.

Definition NewStateStore : StateStore :=
  {| tasks := ∅; dependencies := []; agents := ∅ |}.

(** ** Cycle detection

    One iteration of the loop of [hasCycleLocked]: the state is the map
    [visited] (the set of its true keys) and the stack, last element first. *)

(** The inner loop over the edges of [node]: [inl stack'] when it runs to the
    end, [inr true] when it returns. *)
Fixpoint cycle_edges (deps : list DependencyEdge) (blocked node : string)
    (stack : list string) : list string + bool :=
  match deps with
  | [] => inl stack
  | e :: deps =>
      if bool_decide (Blocked e = node) && negb (Resolved e) then
        if bool_decide (BlockedBy e = blocked) then inr true
        else cycle_edges deps blocked node (BlockedBy e :: stack)
      else cycle_edges deps blocked node stack
  end.

Definition cycle_step (deps : list DependencyEdge) (blocked : string)
    (st : gset string * list string) : (gset string * list string) + bool :=
  let '(visited, stack) := st in
  match stack with
  | [] => inr false
  | node :: stack =>
      if bool_decide (node ∈ visited) then inl (visited, stack)
      else match cycle_edges deps blocked node stack with
           | inr b => inr b
           | inl stack => inl ({[node]} ∪ visited, stack)
           end
  end.

(** The stack plus the unresolved edges that are still to be followed. *)
Definition out_edge (visited : gset string) (e : DependencyEdge) : bool :=
  negb (Resolved e) && bool_decide (Blocked e ∉ visited).

Definition cycle_measure (deps : list DependencyEdge) (st : gset string * list string) : nat :=
  length st.2 + count (out_edge st.1) deps.

Lemma cycle_edges_length deps blocked node stack stack' :
  cycle_edges deps blocked node stack = inl stack' →
  length stack' = length stack +
    count (λ e, bool_decide (Blocked e = node) && negb (Resolved e)) deps.
Proof.
  revert stack. induction deps as [|e deps IH]; intros stack.
  - cbn. intros [= <-]. unfold count. cbn. lia.
  - rewrite count_cons. cbn. destruct (_ && _).
    + case_bool_decide; [done|]. intros ->%IH. cbn. lia.
    + intros ->%IH. lia.
Qed.

Lemma count_out_edge_visit deps visited node :
  node ∉ visited →
  count (out_edge visited) deps =
    count (λ e, bool_decide (Blocked e = node) && negb (Resolved e)) deps +
    count (out_edge ({[node]} ∪ visited)) deps.
Proof.
  intros Hn. induction deps as [|e deps IH]; [done|]. rewrite !count_cons, IH.
  unfold out_edge at 1 3. destruct (Resolved e); cbn [negb andb].
  - rewrite andb_false_r. lia.
  - rewrite andb_true_r. destruct (decide (Blocked e = node)) as [->|Hne].
    + rewrite !bool_decide_eq_true_2 by done.
      rewrite bool_decide_eq_false_2 by set_solver. lia.
    + rewrite (bool_decide_eq_false_2 (Blocked e = node)) by done.
      rewrite (bool_decide_ext (Blocked e ∉ {[node]} ∪ visited) (Blocked e ∉ visited))
        by set_solver. lia.
Qed.

Lemma cycle_step_decreasing deps blocked :
  decreasing (cycle_step deps blocked) (cycle_measure deps).
Proof.
  intros [visited stack] st'. unfold cycle_step, cycle_measure.
  destruct stack as [|node stack]; [done|]. case_bool_decide as Hv.
  - intros [= <-]. cbn. lia.
  - destruct (cycle_edges _ _ _ _) as [stack'|b] eqn:E; [|done]. intros [= <-]. cbn.
    apply cycle_edges_length in E.
    rewrite (count_out_edge_visit _ _ _ Hv). lia.
Qed.

Definition hasCycleLocked (s : StateStore) (blocked blockedBy : string) : bool :=
  if bool_decide (blocked = blockedBy) then true
  else loop (cycle_step_decreasing (dependencies s) blocked) (∅, [blockedBy]).

Definition HasCycle (s : StateStore) (blocked blockedBy : string) : bool :=
  hasCycleLocked s blocked blockedBy.

(** ** The dependency graph *)

(** An unresolved edge: the first task waits for the second. *)
Definition edge (deps : list DependencyEdge) (a b : string) : Prop :=
  ∃ e, e ∈ deps ∧ Blocked e = a ∧ BlockedBy e = b ∧ Resolved e = false.

(** [a] waits for [b], directly or through other tasks. *)
Definition waits_for (deps : list DependencyEdge) : string → string → Prop :=
  tc (edge deps).

Definition acyclic (deps : list DependencyEdge) : Prop :=
  ∀ t, ¬ waits_for deps t t.

Lemma edge_nil a b : ¬ edge [] a b.
Proof. by intros (e & []%not_elem_of_nil & _). Qed.

Lemma edge_cons e deps a b :
  edge (e :: deps) a b ↔
    (Blocked e = a ∧ BlockedBy e = b ∧ Resolved e = false) ∨ edge deps a b.
Proof. unfold edge. setoid_rewrite elem_of_cons. naive_solver. Qed.

Lemma edge_app deps deps' a b :
  edge (deps ++ deps') a b ↔ edge deps a b ∨ edge deps' a b.
Proof. unfold edge. setoid_rewrite elem_of_app. naive_solver. Qed.

Lemma cycle_edges_inl deps blocked node stack stack' :
  cycle_edges deps blocked node stack = inl stack' →
  ¬ edge deps node blocked ∧ ∀ m, m ∈ stack' ↔ m ∈ stack ∨ edge deps node m.
Proof.
  revert stack. induction deps as [|e deps IH]; intros stack; cbn.
  - intros [= <-]. split; [apply edge_nil|]. intros m.
    pose proof (edge_nil node m). naive_solver.
  - setoid_rewrite edge_cons. case_bool_decide as Hb; cbn.
    + destruct (Resolved e); cbn; [intros ?%IH; naive_solver|].
      case_bool_decide; [done|]. intros [H1 H2]%IH. split; [naive_solver|].
      intros m. rewrite H2, elem_of_cons. naive_solver.
    + intros ?%IH. naive_solver.
Qed.

Lemma cycle_edges_inr deps blocked node stack b :
  cycle_edges deps blocked node stack = inr b → b = true ∧ edge deps node blocked.
Proof.
  revert stack. induction deps as [|e deps IH]; intros stack; cbn; [done|].
  rewrite edge_cons. case_bool_decide as Hb; cbn.
  - destruct (Resolved e) eqn:Hr; cbn; [intros ?%IH; naive_solver|].
    case_bool_decide; [intros [= <-]; naive_solver|]. intros ?%IH. naive_solver.
  - intros ?%IH. naive_solver.
Qed.

Section has_cycle.
Context (deps : list DependencyEdge) (blocked blockedBy : string).

(** What holds at the head of the loop: the stack is reachable; the visited
    nodes have all their successors visited or on the stack; the node looked
    for is neither. *)
Record cycle_inv (st : gset string * list string) : Prop := {
  ci_reach : ∀ n, n ∈ st.2 → rtc (edge deps) blockedBy n;
  ci_start : blockedBy ∈ st.1 ∨ blockedBy ∈ st.2;
  ci_closed : ∀ n m, n ∈ st.1 → edge deps n m → m ∈ st.1 ∨ m ∈ st.2;
  ci_visited : blocked ∉ st.1;
  ci_stack : blocked ∉ st.2
}.

Lemma cycle_inv_step st st' :
  cycle_inv st → cycle_step deps blocked st = inl st' → cycle_inv st'.
Proof.
  destruct st as [visited stack]. intros [Hr Hs Hc Hv Hk]. cbn [fst snd] in *.
  unfold cycle_step. destruct stack as [|node stack]; [done|].
  case_bool_decide as Hvis.
  - intros [= <-]. split; cbn [fst snd]; set_solver.
  - destruct (cycle_edges _ _ _ _) as [stack'|] eqn:E; [|done]. intros [= <-].
    apply cycle_edges_inl in E as [Hb Hst]. split; cbn [fst snd].
    + intros n [?|He]%Hst; [set_solver|].
      eapply rtc_r; [apply (Hr node); set_solver|exact He].
    + rewrite Hst. set_solver.
    + intros n m [->%elem_of_singleton|Hn]%elem_of_union He; rewrite Hst; [by right; right|].
      destruct (Hc n m Hn He) as [?|Hm]; set_solver.
    + set_solver.
    + rewrite Hst. set_solver.
Qed.

Lemma cycle_inv_end st b :
  cycle_inv st → cycle_step deps blocked st = inr b →
  b = true ↔ rtc (edge deps) blockedBy blocked.
Proof.
  destruct st as [visited stack]. intros [Hr Hs Hc Hv Hk]. cbn [fst snd] in *.
  unfold cycle_step. destruct stack as [|node stack].
  - intros [= <-]. split; [done|]. intros Hreach. exfalso. apply Hv.
    assert (blockedBy ∈ visited) as Hin by (by destruct Hs as [?|[]%not_elem_of_nil]).
    clear Hs Hv Hk Hr. induction Hreach as [|n m k He _ IH]; [done|]. apply IH.
    by destruct (Hc n m Hin He) as [?|[]%not_elem_of_nil].
  - case_bool_decide; [done|].
    destruct (cycle_edges _ _ _ _) as [|b'] eqn:E; [done|]. intros [= ->].
    apply cycle_edges_inr in E as [-> He]. split; [intros _|done].
    eapply rtc_r; [apply (Hr node); set_solver|done].
Qed.
End has_cycle.

(** [hasCycleLocked] decides whether [blockedBy] already waits for [blocked]. *)
Lemma hasCycleLocked_rtc s blocked blockedBy :
  hasCycleLocked s blocked blockedBy = true ↔
    rtc (edge (dependencies s)) blockedBy blocked.
Proof.
  unfold hasCycleLocked. case_bool_decide as Heq.
  - subst. split; [by intros; constructor|done].
  - apply (loop_inv _ _ _ (cycle_inv (dependencies s) blocked blockedBy)
      (λ b, b = true ↔ rtc (edge (dependencies s)) blockedBy blocked)).
    + split; cbn [fst snd]; [|set_solver..].
      intros n ->%list_elem_of_singleton. constructor.
    + apply cycle_inv_step.
    + apply cycle_inv_end.
Qed.

(** ** Edges: adding and resolving *)

Definition same_edge (e edge : DependencyEdge) : bool :=
  bool_decide (Blocked e = Blocked edge) && bool_decide (BlockedBy e = BlockedBy edge).

(** The store after the call, and the result. *)
Definition addDependencyLocked (s : StateStore) (edge : DependencyEdge) : StateStore * bool :=
  if existsb (λ e, same_edge e edge) (dependencies s) then (s, false)
  else if hasCycleLocked s (Blocked edge) (BlockedBy edge) then (s, false)
  else (s <| dependencies := dependencies s ++ [edge] |>, true).

Definition AddDependency (s : StateStore) (edge : DependencyEdge) : StateStore :=
  (addDependencyLocked s edge).1.

(** The edges that a BLOCKED message names, in the order in which they are
    added: the [waiting-for] field, then the [blocked-by-] tags. *)
Definition message_edges (msg : Message) (taskName : string) : list DependencyEdge :=
  (if bool_decide (Get msg "waiting-for" = "") then []
   else [new_edge taskName (Get msg "waiting-for")]) ++
  (msg_Tags msg ≫= λ tag,
     if HasPrefix tag "blocked-by-" then
       if bool_decide (TrimPrefix tag "blocked-by-" = "") then []
       else [new_edge taskName (TrimPrefix tag "blocked-by-")]
     else []).

Definition extractDependenciesLocked (s : StateStore) (msg : Message) (taskName : string)
    : StateStore :=
  foldl AddDependency s (message_edges msg taskName).

Definition resolve_edge (now : Time) (taskName : string) (e : DependencyEdge) : DependencyEdge :=
  if bool_decide (BlockedBy e = taskName) && negb (Resolved e)
  then e <| Resolved := true |> <| ResolvedAt := now |> else e.

Definition resolveDependenciesLocked (now : Time) (s : StateStore) (taskName : string)
    : StateStore :=
  s <| dependencies := resolve_edge now taskName <$> dependencies s |>.

(** ** [UpdateTask] *)

(** The task named by the message, or a new one. *)
Definition task_or_new (s : StateStore) (taskName : string) : TaskInfo :=
  default (new_TaskInfo taskName) (tasks s !! taskName).

(** What every action records. *)
Definition touch (msg : Message) (info : TaskInfo) : TaskInfo :=
  info <| Tags := msg_Tags msg |> <| LastAgent := msg_Nick msg |>
       <| UpdatedAt := msg_Timestamp msg |>.

(** The effect of the switch on the action on the task itself. *)
Definition apply_action (msg : Message) (info : TaskInfo) : TaskInfo :=
  match msg_Action msg with
  | ActionStarted =>
      info <| Status := TaskStatusStarted |> <| Priority := Get msg "priority" |>
  | ActionCompleted => info <| Status := TaskStatusCompleted |>
  | ActionBlocked =>
      info <| Status := TaskStatusBlocked |> <| WaitingFor := Get msg "waiting-for" |>
  | ActionOffer =>
      let info := info <| Status := TaskStatusOffered |> <| Priority := Get msg "priority" |> in
      if bool_decide (Get msg "scope" = "") then info
      else info <| Scope := Get msg "scope" |>
  | ActionClaim => info <| Status := TaskStatusClaimed |> <| Owner := msg_Nick msg |>
  | ActionAssign => info <| Status := TaskStatusAssigned |> <| Owner := Get msg "to" |>
  | ActionAccept => info <| Status := TaskStatusStarted |> <| Owner := msg_Nick msg |>
  | ActionDecline =>
      let info :=
        if bool_decide (Status info = TaskStatusAssigned)
        then info <| Status := TaskStatusOffered |> else info in
      info <| Owner := "" |>
  | ActionYield => info <| Status := TaskStatusYielded |> <| Owner := "" |>
  | ActionCheckpoint =>
      let info :=
        if bool_decide (Get msg "progress" = "") then info
        else match Atoi (Get msg "progress") with
             | Some v => info <| Progress := v |>
             | None => info
             end in
      if bool_decide (Get msg "summary" = "") then info
      else info <| Summary := Get msg "summary" |>
  | ActionHandoff => info <| Owner := Get msg "to" |>
  | _ => info
  end.

(** Its effect on the edges. *)
Definition apply_action_deps (now : Time) (msg : Message) (taskName : string) (s : StateStore)
    : StateStore :=
  match msg_Action msg with
  | ActionCompleted => resolveDependenciesLocked now s taskName
  | ActionBlocked => extractDependenciesLocked s msg taskName
  | _ => s
  end.

Definition UpdateTask (now : Time) (s : StateStore) (msg : Message) : StateStore :=
  let taskName := Get msg "task" in
  if bool_decide (taskName = "") then s
  else
    let info := apply_action msg (touch msg (task_or_new s taskName)) in
    apply_action_deps now msg taskName (s <| tasks := <[taskName := info]> (tasks s) |>).

Definition UpdateAgentStatus (now : Time) (s : StateStore) (nick channel taskName : string)
    : StateStore :=
  s <| agents := <[nick := {| as_Nick := nick; as_Channel := channel;
                              as_TaskName := taskName; as_UpdatedAt := now |}]> (agents s) |>.

(** ** Queries *)

Definition GetTask (s : StateStore) (name : string) : option TaskInfo := tasks s !! name.

Definition GetAgentStatus (s : StateStore) (nick : string) : option AgentStatus :=
  agents s !! nick.

Section queries.
Context `{MR : MapRange}.

Definition ListTasks (s : StateStore) : list TaskInfo := (range 0 (tasks s)).*2.

Definition ListAgents (s : StateStore) : list AgentStatus := (range 0 (agents s)).*2.

Definition TasksByStatus (s : StateStore) (status : string) : list TaskInfo :=
  List.filter (λ info, bool_decide (Status info = status)) (range 0 (tasks s)).*2.

(** The scan over the edges of one task: [hasDeps] and [allResolved]. *)
Fixpoint scan_edges (deps : list DependencyEdge) (name : string)
    (hasDeps : bool) : bool * bool :=
  match deps with
  | [] => (hasDeps, true)
  | e :: deps =>
      if bool_decide (Blocked e = name) then
        if negb (Resolved e) then (true, false) else scan_edges deps name true
      else scan_edges deps name hasDeps
  end.

(** A task that was blocked and waits for nothing any more. *)
Definition unblocked (s : StateStore) (info : TaskInfo) : bool :=
  if negb (bool_decide (Status info = TaskStatusBlocked)) then false
  else let '(hasDeps, allResolved) := scan_edges (dependencies s) (Name info) false in
       hasDeps && allResolved.

Definition UnblockedTasks (s : StateStore) : list TaskInfo :=
  List.filter (unblocked s) (range 0 (tasks s)).*2.

Definition still_blocked (s : StateStore) (info : TaskInfo) : bool :=
  if negb (bool_decide (Status info = TaskStatusBlocked)) then false
  else let '(hasDeps, allResolved) := scan_edges (dependencies s) (Name info) false in
       negb (hasDeps && allResolved) && hasDeps.

Definition DependencyStats (s : StateStore) : DependencyStatsInfo :=
  {| TotalEdges := length (dependencies s);
     ResolvedEdges := count Resolved (dependencies s);
     UnresolvedEdges := count (λ e, negb (Resolved e)) (dependencies s);
     BlockedTasks := count (still_blocked s) (range 0 (tasks s)).*2;
     UnblockedTasks_count := count (unblocked s) (range 0 (tasks s)).*2 |}.
End queries.

Definition ResolvedDependencies (s : StateStore) : list DependencyEdge :=
  List.filter Resolved (dependencies s).

Definition BlockersOf (s : StateStore) (taskName : string) (includeResolved : bool)
    : list DependencyEdge :=
  List.filter (λ e, bool_decide (Blocked e = taskName) && (includeResolved || negb (Resolved e)))
    (dependencies s).

Definition BlockedBy_edges (s : StateStore) (taskName : string) (includeResolved : bool)
    : list DependencyEdge :=
  List.filter (λ e, bool_decide (BlockedBy e = taskName) && (includeResolved || negb (Resolved e)))
    (dependencies s).

Definition AllDependencies (s : StateStore) : list DependencyEdge := dependencies s.

(** ** Snapshots *)
Record PersistedState := {
  ps_Tasks : gmap string TaskInfo;
  ps_Dependencies : list DependencyEdge;
  ps_Agents : gmap string AgentStatus;
  ps_SavedAt : Time
}.

(** The loops that copy the entries of a map into a new one. *)
Definition copy_map {V} `{MR : MapRange} (n : nat) (m : gmap string V) : gmap string V :=
  foldl (λ acc kv, <[kv.1 := kv.2]> acc) ∅ (range n m).

Definition Snapshot `{MR : MapRange} (now : Time) (s : StateStore) : PersistedState :=
  {| ps_Tasks := copy_map 0 (tasks s); ps_Dependencies := dependencies s;
     ps_Agents := copy_map 1 (agents s); ps_SavedAt := now |}.

Definition Restore `{MR : MapRange} (s : StateStore) (ps : PersistedState) : StateStore :=
  {| tasks := copy_map 0 (ps_Tasks ps); dependencies := ps_Dependencies ps;
     agents := copy_map 1 (ps_Agents ps) |}.

(** ** Transitive dependencies

    The inner loop over the edges of [node], and the loop over the queue. *)
Definition bfs_edge (node : string)
    (acc : gset string * list string * list string) (e : DependencyEdge) :=
  let '(visited, queue, result) := acc in
  if bool_decide (Blocked e = node) && negb (Resolved e) &&
     bool_decide (BlockedBy e ∉ visited)
  then ({[BlockedBy e]} ∪ visited, queue ++ [BlockedBy e], result ++ [BlockedBy e])
  else acc.

Definition bfs_step (deps : list DependencyEdge)
    (st : gset string * list string * list string)
    : (gset string * list string * list string) + list string :=
  let '(visited, queue, result) := st in
  match queue with
  | [] => inr result
  | node :: queue => inl (foldl (bfs_edge node) (visited, queue, result) deps)
  end.

(** An edge whose blocker has not been visited can still extend the queue. *)
Definition bfs_open (visited : gset string) (e : DependencyEdge) : bool :=
  negb (Resolved e) && bool_decide (BlockedBy e ∉ visited).

Definition bfs_measure (deps : list DependencyEdge)
    (st : gset string * list string * list string) : nat :=
  length st.1.2 + count (bfs_open st.1.1) deps.

Lemma bfs_open_visit deps visited b :
  count (bfs_open ({[b]} ∪ visited)) deps ≤ count (bfs_open visited) deps ∧
  ((∃ e, e ∈ deps ∧ BlockedBy e = b ∧ bfs_open visited e = true) →
   count (bfs_open ({[b]} ∪ visited)) deps < count (bfs_open visited) deps).
Proof.
  induction deps as [|e deps [IH1 IH2]].
  - split; [done|]. intros (? & []%not_elem_of_nil & _).
  - rewrite !count_cons.
    assert (bfs_open ({[b]} ∪ visited) e = true → bfs_open visited e = true) as Hm.
    { unfold bfs_open. rewrite !andb_true_iff, !bool_decide_eq_true. set_solver. }
    split.
    + destruct (bfs_open ({[b]} ∪ visited) e); [rewrite Hm by done; lia|lia].
    + intros (e' & [->|Hin]%elem_of_cons & Hb & Ho).
      * rewrite Ho. replace (bfs_open ({[b]} ∪ visited) e) with false; [lia|].
        symmetry. unfold bfs_open. rewrite (bool_decide_eq_false_2 (_ ∉ _)) by set_solver.
        apply andb_false_r.
      * specialize (IH2 (ex_intro _ e' (conj Hin (conj Hb Ho)))).
        destruct (bfs_open ({[b]} ∪ visited) e); [rewrite Hm by done; lia|lia].
Qed.

(** The inner loop does not increase the measure: a queued node uses up its
    own edge. *)
Lemma bfs_edges_measure deps es node st :
  (∀ e, e ∈ es → e ∈ deps) →
  bfs_measure deps (foldl (bfs_edge node) st es) ≤ bfs_measure deps st.
Proof.
  revert st. induction es as [|e es IH]; intros [[visited queue] result] Hsub; [done|].
  cbn [foldl]. etransitivity; [apply IH; set_solver|]. unfold bfs_edge.
  destruct (bool_decide (Blocked e = node)); [|done].
  destruct (Resolved e) eqn:Hr; [done|]. cbn [negb andb].
  case_bool_decide as Hv; [|done].
  destruct (bfs_open_visit deps visited (BlockedBy e)) as [_ Hlt].
  unfold bfs_measure. cbn [fst snd]. rewrite length_app. cbn [length].
  enough (count (bfs_open ({[BlockedBy e]} ∪ visited)) deps
          < count (bfs_open visited) deps) by lia.
  apply Hlt. exists e. split; [set_solver|]. split; [done|].
  unfold bfs_open. by rewrite Hr, bool_decide_eq_true_2.
Qed.

Lemma bfs_step_decreasing deps : decreasing (bfs_step deps) (bfs_measure deps).
Proof.
  intros [[visited [|node queue]] result] st'; cbn; [done|]. intros [= <-].
  eapply Nat.le_lt_trans; [by apply bfs_edges_measure|].
  unfold bfs_measure. cbn. lia.
Qed.

Definition TransitiveDependencies (s : StateStore) (taskName : string) : list string :=
  loop (bfs_step_decreasing (dependencies s)) (∅, [taskName], []).

(** ** Lemmas shared by the clients of the store *)

Lemma UpdateTask_no_task now s msg : Get msg "task" = "" → UpdateTask now s msg = s.
Proof. intros Ht. unfold UpdateTask. by rewrite Ht. Qed.

Lemma addDependencyLocked_tasks s e :
  tasks (addDependencyLocked s e).1 = tasks s ∧ agents (addDependencyLocked s e).1 = agents s.
Proof.
  unfold addDependencyLocked. destruct (existsb _ _); [done|].
  by destruct (hasCycleLocked _ _ _).
Qed.

Lemma extractDependenciesLocked_tasks s msg t :
  tasks (extractDependenciesLocked s msg t) = tasks s ∧
  agents (extractDependenciesLocked s msg t) = agents s.
Proof.
  unfold extractDependenciesLocked. generalize (message_edges msg t). intros es.
  revert s. induction es as [|e es IH]; intros s; [done|]. cbn [foldl].
  destruct (IH (AddDependency s e)) as [-> ->]. apply addDependencyLocked_tasks.
Qed.

Lemma apply_action_deps_tasks now msg t s :
  tasks (apply_action_deps now msg t s) = tasks s ∧
  agents (apply_action_deps now msg t s) = agents s.
Proof.
  unfold apply_action_deps.
  destruct (msg_Action msg); try done. apply extractDependenciesLocked_tasks.
Qed.

(** The tasks after an update. *)
Lemma tasks_UpdateTask now s msg :
  Get msg "task" ≠ "" →
  tasks (UpdateTask now s msg) =
    <[Get msg "task" := apply_action msg (touch msg (task_or_new s (Get msg "task")))]> (tasks s).
Proof.
  intros Ht. unfold UpdateTask. rewrite bool_decide_eq_false_2 by done.
  by destruct (apply_action_deps_tasks now msg (Get msg "task") (s <| tasks :=
    <[Get msg "task" := apply_action msg (touch msg (task_or_new s (Get msg "task")))]>
      (tasks s) |>)) as [-> _].
Qed.

Lemma agents_UpdateTask now s msg : agents (UpdateTask now s msg) = agents s.
Proof.
  unfold UpdateTask. case_bool_decide; [done|].
  by rewrite (proj2 (apply_action_deps_tasks _ _ _ _)).
Qed.

Lemma copy_map_eq {V} `{MR : MapRange} n (m : gmap string V) : copy_map n m = m.
Proof. etransitivity; [apply (foldl_insert_range id)|apply map_fmap_id]. Qed.
#[export] Hint Rewrite @copy_map_eq : borg.

Lemma scan_edges_spec deps name hasDeps :
  scan_edges deps name hasDeps =
    (hasDeps || existsb (λ e, bool_decide (Blocked e = name)) deps,
     forallb (λ e, negb (bool_decide (Blocked e = name)) || Resolved e) deps) ∨
  (∃ e, e ∈ deps ∧ Blocked e = name ∧ Resolved e = false) ∧
  scan_edges deps name hasDeps = (true, false).
Proof.
  revert hasDeps. induction deps as [|e deps IH]; intros hasDeps; cbn.
  - left. by rewrite orb_false_r.
  - case_bool_decide as Hb; cbn.
    + destruct (Resolved e) eqn:Hr; cbn.
      * destruct (IH true) as [->|[(e' & ? & ?) ->]]; [left; by rewrite orb_true_r|right].
        split; [|done]. exists e'. set_solver.
      * right. split; [|done]. exists e. set_solver.
    + destruct (IH hasDeps) as [->|[(e' & ? & ?) ->]]; [by left|right].
      split; [|done]. exists e'. set_solver.
Qed.

(** [unblocked]: the task is blocked, it has dependencies, all resolved. *)
Lemma unblocked_spec s info :
  unblocked s info = true ↔
    Status info = TaskStatusBlocked ∧
    (∃ e, e ∈ dependencies s ∧ Blocked e = Name info) ∧
    (∀ e, e ∈ dependencies s → Blocked e = Name info → Resolved e = true).
Proof.
  unfold unblocked. case_bool_decide as Hs; cbn; [|naive_solver].
  destruct (scan_edges_spec (dependencies s) (Name info) false)
    as [->|[(e & He & Hb & Hr) ->]]; [|split; [done|]; intros (_ & _ & H);
      by rewrite (H e He Hb) in Hr].
  rewrite andb_true_iff, orb_false_l, existsb_exists, forallb_forall.
  setoid_rewrite <- list_elem_of_In. setoid_rewrite bool_decide_eq_true.
  setoid_rewrite orb_true_iff. setoid_rewrite negb_true_iff.
  setoid_rewrite bool_decide_eq_false. split; [naive_solver|].
  intros (_ & H1 & H2). split; [done|]. intros e He.
  destruct (decide (Blocked e = Name info)); naive_solver.
Qed.
