(* ===== verification/Dependencies.v ===== *)
(** * The dependency graph of the state store: theorems about [State.v]

    Cycle rejection, the invariant of every reachable store, the queries on
    the graph, and what each protocol action does to it. *)

From S2P Require Import Prelude GoStrings GoNum Message State.

(** ** Graph lemmas *)

Lemma waits_for_mono deps deps' a b :
  (∀ x y, edge deps x y → edge deps' x y) → waits_for deps a b → waits_for deps' a b.
Proof. intros Hsub. induction 1; [by constructor; auto|]. eapply tc_l; eauto. Qed.

Lemma waits_for_app_l deps deps' a b : waits_for deps a b → waits_for (deps ++ deps') a b.
Proof. apply waits_for_mono. intros x y. rewrite edge_app. by left. Qed.

(** A path in the graph with one more edge uses it or does not. *)
Lemma waits_for_snoc deps e a b :
  waits_for (deps ++ [e]) a b →
  waits_for deps a b ∨
  (Resolved e = false ∧ rtc (edge deps) a (Blocked e) ∧ rtc (edge deps) (BlockedBy e) b).
Proof.
  induction 1 as [a b Hab|a b c Hab _ IH].
  - apply edge_app in Hab as [?|[Hab|[]%edge_nil]%edge_cons]; [left; by constructor|].
    right. destruct Hab as (<- & <- & ?). repeat split; [done|constructor..].
  - apply edge_app in Hab as [Hab|[Hab|[]%edge_nil]%edge_cons].
    + destruct IH as [?|(? & ? & ?)]; [left; by eapply tc_l|right].
      repeat split; [done|by eapply rtc_l|done].
    + right. destruct Hab as (<- & <- & ?). repeat split; [done|constructor|].
      destruct IH as [IH|(_ & _ & ?)]; [by apply tc_rtc|done].
Qed.

Lemma acyclic_mono deps deps' :
  (∀ x y, edge deps' x y → edge deps x y) → acyclic deps → acyclic deps'.
Proof. intros Hsub Hac t Ht. eapply Hac, waits_for_mono; eauto. Qed.

Lemma acyclic_snoc deps e :
  acyclic deps → Resolved e = false →
  acyclic (deps ++ [e]) ↔ ¬ rtc (edge deps) (BlockedBy e) (Blocked e).
Proof.
  intros Hac Hr. split.
  - intros Hac' Hpath. apply (Hac' (Blocked e)).
    eapply tc_rtc_r; [apply tc_once|].
    + apply edge_app. right. apply edge_cons. left. by repeat split.
    + revert Hpath. apply rtc_subrel. intros x y ?. apply edge_app. by left.
  - intros Hno t [?|(_ & H1 & H2)]%waits_for_snoc; [by eapply Hac|].
    apply Hno. by transitivity t.
Qed.

(** In a finite acyclic graph every chain of waiting tasks ends. *)
Lemma waits_for_sn deps t : acyclic deps → sn (edge deps) t.
Proof.
  intros Hac. apply tc_finite_sn; [intros x; apply Hac|].
  exists (BlockedBy <$> deps). intros x Hx.
  assert (∃ y, edge deps y x) as (y & e & He & _ & <- & _).
  { induction Hx as [? ? ?|]; eauto. }
  apply list_elem_of_fmap. eauto.
Qed.

(** ** Adding and resolving edges *)

Lemma resolve_edge_ends now t e :
  Blocked (resolve_edge now t e) = Blocked e ∧ BlockedBy (resolve_edge now t e) = BlockedBy e.
Proof. unfold resolve_edge. by destruct (_ && _). Qed.

Lemma resolve_edge_Resolved now t e :
  Resolved (resolve_edge now t e) = bool_decide (BlockedBy e = t) || Resolved e.
Proof.
  unfold resolve_edge. case_bool_decide; cbn; [|done]. by destruct (Resolved e) eqn:?.
Qed.

Lemma edge_resolve now t (deps : list DependencyEdge) a b :
  edge (resolve_edge now t <$> deps) a b ↔ edge deps a b ∧ b ≠ t.
Proof.
  unfold edge. setoid_rewrite list_elem_of_fmap. split.
  - intros (e & (e0 & -> & He0) & Ha & Hb & Hr).
    destruct (resolve_edge_ends now t e0) as [Ea Eb]. rewrite resolve_edge_Resolved in Hr.
    apply orb_false_iff in Hr as [Hne%bool_decide_eq_false Hr].
    split; [exists e0|]; repeat split; congruence || done.
  - intros [(e & He & <- & <- & Hr) Hne]. exists (resolve_edge now t e).
    destruct (resolve_edge_ends now t e) as [-> ->]. rewrite resolve_edge_Resolved, Hr.
    rewrite bool_decide_eq_false_2 by done. split; [by exists e|done].
Qed.

Definition ends (e : DependencyEdge) : string * string := (Blocked e, BlockedBy e).

Lemma ends_resolve now t (deps : list DependencyEdge) : ends <$> (resolve_edge now t <$> deps) = ends <$> deps.
Proof.
  rewrite <- list_fmap_compose. apply list_fmap_ext. intros _ e _. unfold compose, ends.
  by destruct (resolve_edge_ends now t e) as [-> ->].
Qed.

Lemma existsb_same_edge (deps : list DependencyEdge) e :
  existsb (λ e', same_edge e' e) deps = true ↔ ends e ∈ ends <$> deps.
Proof.
  rewrite existsb_exists, list_elem_of_fmap. setoid_rewrite <- list_elem_of_In.
  unfold same_edge, ends. setoid_rewrite andb_true_iff. setoid_rewrite bool_decide_eq_true.
  split; intros (e' & H1 & H2); exists e'; naive_solver congruence.
Qed.

(** The three outcomes of [addDependencyLocked]. *)
Lemma addDependencyLocked_cases s e :
  (ends e ∈ ends <$> dependencies s ∧ addDependencyLocked s e = (s, false)) ∨
  (ends e ∉ ends <$> dependencies s ∧
   rtc (edge (dependencies s)) (BlockedBy e) (Blocked e) ∧
   addDependencyLocked s e = (s, false)) ∨
  (ends e ∉ ends <$> dependencies s ∧
   ¬ rtc (edge (dependencies s)) (BlockedBy e) (Blocked e) ∧
   addDependencyLocked s e = (s <| dependencies := dependencies s ++ [e] |>, true)).
Proof.
  pose proof (existsb_same_edge (dependencies s) e) as Hsame.
  pose proof (hasCycleLocked_rtc s (Blocked e) (BlockedBy e)) as Hcyc.
  unfold addDependencyLocked. destruct (existsb _ _); [left; naive_solver|right].
  rewrite <- Hsame, <- Hcyc. destruct (hasCycleLocked _ _ _); [left|right]; naive_solver.
Qed.

(** What holds of the edges of a store: no task waits for itself, and no two
    edges have the same ends. *)
Record graph_ok (deps : list DependencyEdge) : Prop := {
  go_acyclic : acyclic deps;
  go_ends : NoDup (ends <$> deps)
}.

Lemma graph_ok_nil : graph_ok [].
Proof.
  split; [|constructor]. intros t Ht.
  assert (∀ a b, waits_for [] a b → False) as H; [|by eapply H].
  induction 1; [by eapply edge_nil|done].
Qed.

Lemma graph_ok_add s e :
  graph_ok (dependencies s) → graph_ok (dependencies (AddDependency s e)).
Proof.
  intros [Hac Hnd]. unfold AddDependency.
  destruct (addDependencyLocked_cases s e) as [[_ ->]|[(_ & _ & ->)|(Hn & Hc & ->)]]; [done..|].
  cbn. split.
  - destruct (Resolved e) eqn:Hr; [|by apply acyclic_snoc].
    eapply acyclic_mono; [|exact Hac]. intros x y.
    rewrite edge_app, edge_cons. intros [?|[(_ & _ & ?)|[]%edge_nil]]; [done|congruence].
  - rewrite fmap_app. apply NoDup_app. split_and!; [done| |apply NoDup_singleton].
    intros x Hx Hx2. apply list_elem_of_singleton in Hx2. by subst x.
Qed.

Lemma graph_ok_extract s msg t :
  graph_ok (dependencies s) → graph_ok (dependencies (extractDependenciesLocked s msg t)).
Proof.
  unfold extractDependenciesLocked. generalize (message_edges msg t). intros es.
  revert s. induction es as [|e es IH]; intros s Hok; [done|].
  apply IH. by apply graph_ok_add.
Qed.

Lemma graph_ok_resolve now t (deps : list DependencyEdge) : graph_ok deps → graph_ok (resolve_edge now t <$> deps).
Proof.
  intros [Hac Hnd]. split; [|by rewrite ends_resolve].
  eapply acyclic_mono; [|exact Hac]. intros x y. rewrite edge_resolve. tauto.
Qed.
#[export] Hint Resolve graph_ok_nil graph_ok_add graph_ok_extract graph_ok_resolve : borg.

(** ** Cycle detection *)

(** C5. [HasCycle] always terminates and is exact: in an acyclic graph it
    answers true precisely when adding the edge [blocked → blockedBy] would
    make some task wait for itself. *)
Theorem HasCycle_exact s blocked blockedBy (Hac : acyclic (dependencies s)) :
  HasCycle s blocked blockedBy = true ↔
    ¬ acyclic (dependencies s ++ [new_edge blocked blockedBy]).
Proof.
  unfold HasCycle.
  pose proof (hasCycleLocked_rtc s blocked blockedBy) as Hc.
  rewrite (acyclic_snoc _ (new_edge blocked blockedBy)) by done. cbn.
  destruct (hasCycleLocked s blocked blockedBy); naive_solver.
Qed.

(** ** The reachable stores

    The operations that change a store. A store is restored from the snapshot
    of a reachable one. *)
Inductive reachable : StateStore → Prop :=
| reachable_new : reachable NewStateStore
| reachable_update now s msg : reachable s → reachable (UpdateTask now s msg)
| reachable_add s e : reachable s → reachable (AddDependency s e)
| reachable_agent now s nick channel taskName :
    reachable s → reachable (UpdateAgentStatus now s nick channel taskName)
| reachable_restore `{MR : MapRange} now s s' :
    reachable s → reachable s' → reachable (Restore s (Snapshot now s')).

Definition statuses : list string :=
  [""; TaskStatusStarted; TaskStatusCompleted; TaskStatusBlocked; TaskStatusOffered;
   TaskStatusClaimed; TaskStatusAssigned; TaskStatusYielded].

Record store_ok (s : StateStore) : Prop := {
  so_graph : graph_ok (dependencies s);
  so_names : ∀ k info, tasks s !! k = Some info → k ≠ "" ∧ Name info = k ∧ Status info ∈ statuses;
  so_agents : ∀ k st, agents s !! k = Some st → as_Nick st = k
}.

Lemma Name_apply_action msg info : Name (apply_action msg info) = Name info.
Proof.
  unfold apply_action. destruct (msg_Action msg); try done; cbn;
    repeat (case_bool_decide || destruct (Atoi _)); done.
Qed.

Lemma Status_apply_action msg info :
  Status info ∈ statuses → Status (apply_action msg info) ∈ statuses.
Proof.
  intros Hs.
  assert (∀ x, bool_decide (x ∈ statuses) = true → x ∈ statuses) as Hd.
  { intros x. apply bool_decide_eq_true_1. }
  unfold apply_action. destruct (msg_Action msg); try exact Hs;
    try (apply Hd; reflexivity); cbn;
    repeat (case_bool_decide || destruct (Atoi _));
    first [exact Hs | apply Hd; reflexivity].
Qed.

Lemma store_ok_UpdateTask now s msg : store_ok s → store_ok (UpdateTask now s msg).
Proof.
  intros [Hg Hn Ha]. destruct (decide (Get msg "task" = "")) as [Ht|Ht].
  { by rewrite UpdateTask_no_task. }
  split.
  - unfold UpdateTask. rewrite bool_decide_eq_false_2 by done.
    unfold apply_action_deps. destruct (msg_Action msg);
      first [exact Hg | by apply graph_ok_resolve | by apply graph_ok_extract].
  - intros k info. rewrite tasks_UpdateTask by done.
    rewrite lookup_insert_Some. intros [[<- <-]|[_ Hk]]; [|by apply Hn].
    rewrite Name_apply_action. split; [done|].
    unfold task_or_new. destruct (tasks s !! Get msg "task") as [info|] eqn:E; cbn.
    + apply Hn in E as (_ & ? & Hs). split; [done|]. by apply Status_apply_action.
    + split; [done|]. apply Status_apply_action. cbn. apply elem_of_cons. by left.
  - intros k st. rewrite agents_UpdateTask. apply Ha.
Qed.

Lemma store_ok_reachable s (Hs : reachable s) : store_ok s.
Proof.
  induction Hs as [|now s msg _ IH|s e _ IH|now s nick channel t _ IH|MR now s s' _ IH _ IH'].
  - split; [apply graph_ok_nil|done..].
  - by apply store_ok_UpdateTask.
  - destruct IH as [Hg Hn Ha]. destruct (addDependencyLocked_tasks s e) as [Et Ea].
    unfold AddDependency. split; [by apply graph_ok_add|rewrite Et; apply Hn|rewrite Ea; apply Ha].
  - destruct IH as [Hg Hn Ha]. split; [done..|]. intros k st. cbn.
    rewrite lookup_insert_Some. intros [[<- <-]|[_ Hk]]; [done|by apply Ha].
  - unfold Restore, Snapshot. cbn. autorewrite with borg. by destruct s'.
Qed.

(** C4. The invariant of the state store: from an empty store, whatever
    messages are applied, dependencies added, agents recorded and snapshots
    restored, the unresolved dependencies form no cycle, no dependency is
    stored twice, every task is stored under its own non-empty name with one
    of the known statuses, and every agent under its own nick. *)
Theorem reachable_store_ok s (Hs : reachable s) : store_ok s.
Proof. by apply store_ok_reachable. Qed.

(** No deadlock: in a reachable store, whenever a task waits for another,
    following the unresolved dependencies reaches a task that waits for
    nothing, so there is always a task whose completion makes progress. *)
Theorem blocked_has_root s t u (Hs : reachable s) (Htu : edge (dependencies s) t u) :
  ∃ r, waits_for (dependencies s) t r ∧ BlockersOf s r false = [].
Proof.
  destruct (store_ok_reachable s Hs) as [[Hac _] _ _].
  assert (∀ x, ∃ r, rtc (edge (dependencies s)) x r ∧ BlockersOf s r false = []) as Hroot.
  { intros x. induction (waits_for_sn (dependencies s) x Hac) as [x _ IH].
    destruct (BlockersOf s x false) as [|e l] eqn:E; [exists x; by split; [constructor|]|].
    assert (e ∈ BlockersOf s x false) as He by (rewrite E; by apply elem_of_cons; left).
    unfold BlockersOf in He. rewrite elem_of_filter_bool in He.
    rewrite andb_true_iff, bool_decide_eq_true in He. cbn in He.
    destruct He as (He & Hb & Hr%negb_true_iff).
    destruct (IH (BlockedBy e)) as (r & Hpath & Hr'); [exists e; by repeat split|].
    exists r. split; [|done]. eapply rtc_l; [|done]. exists e. by repeat split. }
  destruct (Hroot u) as (r & Hpath & Hr). exists r. split; [|done].
  eapply tc_rtc_r; [|done]. by constructor.
Qed.

(** ** Transitive dependencies *)

Lemma bfs_edges_spec es node visited queue result :
  ∃ new, foldl (bfs_edge node) (visited, queue, result) es =
      (list_to_set new ∪ visited, queue ++ new, result ++ new) ∧
    NoDup new ∧ ∀ x, x ∈ new ↔ x ∉ visited ∧ edge es node x.
Proof.
  revert visited queue result. induction es as [|e es IH]; intros visited queue result.
  - exists []. cbn. rewrite !app_nil_r, union_empty_l_L. split_and!; [done|constructor|].
    intros x. pose proof (edge_nil node x). set_solver.
  - cbn [foldl]. unfold bfs_edge at 2.
    destruct (bool_decide (Blocked e = node) && negb (Resolved e) &&
              bool_decide (BlockedBy e ∉ visited)) eqn:E.
    + rewrite !andb_true_iff, !bool_decide_eq_true, negb_true_iff in E.
      destruct E as [[Hb Hr] Hv].
      destruct (IH ({[BlockedBy e]} ∪ visited) (queue ++ [BlockedBy e])
        (result ++ [BlockedBy e])) as (new & -> & Hnd & Hin).
      exists (BlockedBy e :: new). cbn [list_to_set]. split_and!.
      * f_equal; [f_equal|]; [|by rewrite <- app_assoc..].
        apply leibniz_equiv. set_solver.
      * constructor; [|done]. rewrite Hin. set_solver.
      * intros x. rewrite elem_of_cons, Hin, edge_cons. destruct (decide (x = BlockedBy e)); set_solver.
    + destruct (IH visited queue result) as (new & -> & Hnd & Hin). exists new.
      split_and!; [done..|]. intros x. rewrite Hin, edge_cons.
      rewrite !andb_false_iff, !bool_decide_eq_false, negb_false_iff in E.
      split; [tauto|]. intros [Hx [(<- & <- & Hr)|?]]; [|done].
      destruct E as [[?|?]|?]; [done|congruence|tauto].
Qed.

(** What holds at the head of the loop over the queue. *)
Record bfs_inv (deps : list DependencyEdge) (t : string)
    (st : gset string * list string * list string) : Prop := {
  bi_visited : ∀ x, x ∈ st.1.1 ↔ x ∈ st.2;
  bi_nodup : NoDup st.2;
  bi_queue : ∀ x, x ∈ st.1.2 → x = t ∨ x ∈ st.2;
  bi_sound : ∀ x, x ∈ st.2 → waits_for deps t x;
  bi_closed : ∀ n m, n = t ∨ n ∈ st.2 → edge deps n m → n ∈ st.1.2 ∨ m ∈ st.2
}.

Lemma bfs_inv_init deps t : bfs_inv deps t (∅, [t], []).
Proof.
  split; cbn [fst snd].
  - set_solver.
  - constructor.
  - intros x ->%list_elem_of_singleton. by left.
  - by intros x []%not_elem_of_nil.
  - intros n m [->|[]%not_elem_of_nil] _. left. by apply list_elem_of_singleton.
Qed.

Lemma bfs_inv_step deps t st st' :
  bfs_inv deps t st → bfs_step deps st = inl st' → bfs_inv deps t st'.
Proof.
  destruct st as [[visited [|node queue]] result]; [done|]. intros [Hv Hnd Hq Hs Hc].
  cbn in Hv, Hnd, Hq, Hs, Hc. cbn [bfs_step]. intros [= <-].
  destruct (bfs_edges_spec deps node visited queue result) as (new & -> & Hnd' & Hin).
  split; cbn.
  - set_solver.
  - apply NoDup_app. split_and!; [done| |done]. intros x Hx Hx'. apply Hin in Hx' as [Hx' _].
    by apply Hx', Hv.
  - set_solver.
  - intros x [Hx|Hx]%elem_of_app; [by apply Hs|]. apply Hin in Hx as [_ He].
    destruct (Hq node) as [->|Hn]; [set_solver|by constructor|].
    eapply tc_r; [by apply Hs|done].
  - intros n m Hn He. destruct (decide (n = node)) as [->|Hne].
    + right. apply elem_of_app. destruct (decide (m ∈ visited)) as [?|Hm].
      * left. by apply Hv.
      * right. by apply Hin.
    + destruct Hn as [->|[Hn|Hn]%elem_of_app].
      * destruct (Hc t m) as [?|?]; [by left|done|set_solver..].
      * destruct (Hc n m) as [?|?]; [by right|done|set_solver..].
      * set_solver.
Qed.

Lemma bfs_inv_end deps t st r :
  bfs_inv deps t st → bfs_step deps st = inr r → NoDup r ∧ ∀ x, x ∈ r ↔ waits_for deps t x.
Proof.
  destruct st as [[visited [|node queue]] result]; [|done]. intros [_ Hnd _ Hs Hc].
  cbn in *. intros [= <-]. split; [done|]. intros x. split; [apply Hs|].
  assert (∀ a b, waits_for deps a b → a = t ∨ a ∈ result → b ∈ result) as H.
  { induction 1 as [a b He|a b c He _ IH]; intros Ha;
      destruct (Hc _ _ Ha He) as [[]%not_elem_of_nil|?]; auto. }
  intros Hw. by apply (H t x Hw); left.
Qed.

(** [TransitiveDependencies] terminates and lists exactly the tasks that
    [taskName] waits for, directly or through others, each one once. *)
Theorem TransitiveDependencies_spec s taskName :
  NoDup (TransitiveDependencies s taskName) ∧
  ∀ t, t ∈ TransitiveDependencies s taskName ↔ waits_for (dependencies s) taskName t.
Proof.
  unfold TransitiveDependencies.
  apply (loop_inv _ _ _ (bfs_inv (dependencies s) taskName)
    (λ r, NoDup r ∧ ∀ t, t ∈ r ↔ waits_for (dependencies s) taskName t)).
  - apply bfs_inv_init.
  - apply bfs_inv_step.
  - apply bfs_inv_end.
Qed.

(** ** What an update does *)

Lemma dependencies_UpdateTask now s msg :
  Get msg "task" ≠ "" →
  dependencies (UpdateTask now s msg) =
    match msg_Action msg with
    | ActionCompleted => resolve_edge now (Get msg "task") <$> dependencies s
    | ActionBlocked => dependencies (extractDependenciesLocked
        (s <| tasks := <[Get msg "task" := apply_action msg (touch msg
                           (task_or_new s (Get msg "task")))]> (tasks s) |>)
        msg (Get msg "task"))
    | _ => dependencies s
    end.
Proof.
  intros Ht. unfold UpdateTask. rewrite bool_decide_eq_false_2 by done.
  unfold apply_action_deps. by destruct (msg_Action msg).
Qed.

(** What adding edges one by one gives: old edges stay; each named edge is
    there, unless it would close a cycle. *)
Lemma foldl_AddDependency es s :
  ∃ added, dependencies (foldl AddDependency s es) = dependencies s ++ added ∧
    (∀ e, e ∈ added → e ∈ es) ∧
    ∀ e, e ∈ es → ends e ∈ ends <$> (dependencies s ++ added) ∨
      rtc (edge (dependencies s ++ added)) (BlockedBy e) (Blocked e).
Proof.
  revert s. induction es as [|e es IH]; intros s.
  - exists []. cbn. rewrite app_nil_r. split_and!; set_solver.
  - cbn [foldl]. destruct (IH (AddDependency s e)) as (added & -> & Hsub & Hall).
    unfold AddDependency in *.
    assert (∀ d x y, rtc (edge (dependencies s)) x y →
      rtc (edge (dependencies s ++ d)) x y) as Hmono.
    { intros d x y. apply rtc_subrel. intros ???. apply edge_app. by left. }
    destruct (addDependencyLocked_cases s e) as [[Hin E]|[(Hn & Hc & E)|(Hn & Hc & E)]];
      rewrite E in Hall |- *; cbn [fst dependencies] in *.
    + exists added. split_and!; [done|set_solver|].
      intros e' [->|He']%elem_of_cons; [|auto]. left. rewrite fmap_app. apply elem_of_app. by left.
    + exists added. split_and!; [done|set_solver|].
      intros e' [->|He']%elem_of_cons; [|auto]. right. auto.
    + exists (e :: added). rewrite <- app_assoc in *. split_and!; [done|set_solver|].
      intros e' [->|He']%elem_of_cons; [|auto]. left.
      rewrite !fmap_app. cbn. set_solver.
Qed.

(** An update concerns only the task that the message names: a message
    without a task changes nothing, the records of the other tasks and of the
    agents stay as they are, and the dependencies change only on COMPLETED and
    BLOCKED. *)
Theorem UpdateTask_frame now s msg :
  (Get msg "task" = "" → UpdateTask now s msg = s) ∧
  (∀ t, t ≠ Get msg "task" → GetTask (UpdateTask now s msg) t = GetTask s t) ∧
  agents (UpdateTask now s msg) = agents s ∧
  (msg_Action msg ≠ ActionCompleted → msg_Action msg ≠ ActionBlocked →
   dependencies (UpdateTask now s msg) = dependencies s).
Proof.
  split_and!; [apply UpdateTask_no_task| |apply agents_UpdateTask|].
  - intros t Hne. destruct (decide (Get msg "task" = "")) as [E|E].
    + by rewrite UpdateTask_no_task.
    + unfold GetTask. rewrite tasks_UpdateTask by done. by apply lookup_insert_ne.
  - intros H1 H2. destruct (decide (Get msg "task" = "")) as [E|E].
    + by rewrite UpdateTask_no_task.
    + rewrite dependencies_UpdateTask by done. by destruct (msg_Action msg).
Qed.

(** C6. COMPLETED marks exactly the unresolved edges that wait for the completed
    task as resolved, with the time of the update, and leaves every other edge
    as it is, the time at which it was resolved included; so nothing waits for
    that task any more, and then [UnblockedTasks] lists exactly the other tasks
    that are blocked, have dependencies, and were waiting for nothing but the
    completed task. *)
Theorem completed_unblocks `{MR : MapRange} now s msg
    (Ha : msg_Action msg = ActionCompleted) (Ht : Get msg "task" ≠ "") :
  dependencies (UpdateTask now s msg) =
    (λ e, if bool_decide (BlockedBy e = Get msg "task") && negb (Resolved e)
          then {| Blocked := Blocked e; BlockedBy := BlockedBy e;
                  Resolved := true; ResolvedAt := now |}
          else e) <$> dependencies s ∧
  (∀ a b, edge (dependencies (UpdateTask now s msg)) a b ↔
     edge (dependencies s) a b ∧ b ≠ Get msg "task") ∧
  (∀ info, info ∈ UnblockedTasks (UpdateTask now s msg) ↔
     (∃ k, k ≠ Get msg "task" ∧ GetTask s k = Some info) ∧
     Status info = TaskStatusBlocked ∧
     (∃ e, e ∈ dependencies s ∧ Blocked e = Name info) ∧
     (∀ b, edge (dependencies s) (Name info) b → b = Get msg "task")).
Proof.
  assert (dependencies (UpdateTask now s msg) =
    resolve_edge now (Get msg "task") <$> dependencies s) as Hd.
  { rewrite dependencies_UpdateTask by done. by rewrite Ha. }
  split; [exact Hd|]. split; [intros a b; rewrite Hd; apply edge_resolve|].
  intros info. unfold UnblockedTasks. rewrite elem_of_filter_bool, unblocked_spec, Hd.
  assert (info ∈ (range 0 (tasks (UpdateTask now s msg))).*2 ↔
    ∃ k, tasks (UpdateTask now s msg) !! k = Some info) as ->.
  { rewrite list_elem_of_fmap. setoid_rewrite <- (elem_of_range 0). split.
    - intros ([k i] & -> & ?). by exists k.
    - intros [k ?]. by exists (k, info). }
  rewrite tasks_UpdateTask by done. split.
  - intros ([k Hk] & Hs & (e & He & Hb) & Hall).
    apply list_elem_of_fmap in He as (e0 & -> & He0).
    destruct (resolve_edge_ends now (Get msg "task") e0) as [Hb0 _]. split_and!.
    + exists k. apply lookup_insert_Some in Hk as [[_ <-]|[Hne Hk]]; [|by split].
      unfold apply_action in Hs. rewrite Ha in Hs. done.
    + done.
    + exists e0. split; congruence.
    + intros b (e & He & Hbe & <- & Hr).
      specialize (Hall (resolve_edge now (Get msg "task") e)).
      rewrite resolve_edge_Resolved, Hr, orb_false_r, bool_decide_eq_true in Hall.
      apply Hall; [by apply list_elem_of_fmap_2|].
      by rewrite (proj1 (resolve_edge_ends _ _ _)).
  - intros ((k & Hne & Hk) & Hs & (e & He & Hb) & Hall). split_and!; [|done| |].
    + exists k. by rewrite lookup_insert_ne.
    + exists (resolve_edge now (Get msg "task") e). split; [by apply list_elem_of_fmap_2|].
      by rewrite (proj1 (resolve_edge_ends _ _ _)).
    + intros e' (e0 & -> & He0)%list_elem_of_fmap.
      rewrite (proj1 (resolve_edge_ends _ _ _)), resolve_edge_Resolved. intros Hb0.
      destruct (Resolved e0) eqn:Hr; [apply orb_true_r|].
      rewrite bool_decide_eq_true_2; [done|]. apply Hall. by exists e0.
Qed.

(** BLOCKED only appends: the edges recorded before are untouched, every
    new edge is one that the message names (its [waiting-for] field or a
    [#blocked-by-] tag) and leads from the blocked task, and a named edge is
    missing afterwards only when it would have closed a cycle. *)
Theorem blocked_adds_edges now s msg
    (Ha : msg_Action msg = ActionBlocked) (Ht : Get msg "task" ≠ "") :
  ∃ added, dependencies (UpdateTask now s msg) = dependencies s ++ added ∧
    (∀ e, e ∈ added → e ∈ message_edges msg (Get msg "task") ∧ Blocked e = Get msg "task") ∧
    (∀ e, e ∈ message_edges msg (Get msg "task") →
       ends e ∈ ends <$> dependencies (UpdateTask now s msg) ∨
       rtc (edge (dependencies (UpdateTask now s msg))) (BlockedBy e) (Get msg "task")).
Proof.
  rewrite dependencies_UpdateTask, Ha by done. unfold extractDependenciesLocked.
  destruct (foldl_AddDependency (message_edges msg (Get msg "task"))
    (s <| tasks := <[Get msg "task" := apply_action msg (touch msg
       (task_or_new s (Get msg "task")))]> (tasks s) |>)) as (added & -> & Hsub & Hall).
  assert (∀ e, e ∈ message_edges msg (Get msg "task") → Blocked e = Get msg "task") as Hb.
  { intros e. unfold message_edges. rewrite elem_of_app, list_elem_of_bind.
    intros [He|(tag & He & _)]; revert He; repeat case_match; set_solver. }
  exists added. split_and!; [done|by auto|].
  intros e He. rewrite <- (Hb e He). by apply Hall.
Qed.

(** ** Statistics and snapshots *)

Lemma elem_of_BlockersOf s t e :
  e ∈ BlockersOf s t false ↔ e ∈ dependencies s ∧ Blocked e = t ∧ Resolved e = false.
Proof.
  unfold BlockersOf. rewrite elem_of_filter_bool, andb_true_iff, bool_decide_eq_true. cbn.
  by rewrite negb_true_iff.
Qed.

Lemma BlockersOf_nil s t :
  BlockersOf s t false = [] ↔ ∀ e, e ∈ dependencies s → Blocked e = t → Resolved e = true.
Proof.
  split.
  - intros Hnil e He Hb. destruct (Resolved e) eqn:Hr; [done|].
    assert (e ∈ BlockersOf s t false) as Hin by by apply elem_of_BlockersOf.
    rewrite Hnil in Hin. by apply not_elem_of_nil in Hin.
  - intros Hall. destruct (BlockersOf s t false) as [|e l] eqn:E; [done|].
    assert (e ∈ BlockersOf s t false) as (He & Hb & Hr)%elem_of_BlockersOf
      by (rewrite E; apply elem_of_cons; by left).
    by rewrite (Hall e He Hb) in Hr.
Qed.

Lemma still_blocked_eq s info :
  still_blocked s info =
    bool_decide (Status info = TaskStatusBlocked) &&
    negb (bool_decide (BlockersOf s (Name info) false = [])).
Proof.
  unfold still_blocked. case_bool_decide; cbn; [|done].
  destruct (scan_edges_spec (dependencies s) (Name info) false)
    as [->|[(e & He & Hb & Hr) ->]]; cbn.
  - destruct (forallb _ _) eqn:Hf.
    + rewrite bool_decide_eq_true_2; [by destruct (existsb _ _)|].
      apply BlockersOf_nil. intros e He Hb. rewrite forallb_forall in Hf.
      apply list_elem_of_In, Hf in He. by rewrite bool_decide_eq_true_2 in He.
    + rewrite andb_false_r. cbn. rewrite <- not_true_iff_false, forallb_forall in Hf.
      setoid_rewrite <- list_elem_of_In in Hf.
      destruct (existsb _ _) eqn:Hex.
      * rewrite bool_decide_eq_false_2; [done|]. intros Hnil. apply Hf. intros e He.
        case_bool_decide; [cbn; by eapply BlockersOf_nil|done].
      * exfalso. apply Hf. intros e He. case_bool_decide as Hb; [|done].
        apply not_true_iff_false in Hex. exfalso. apply Hex, existsb_exists.
        exists e. rewrite <- list_elem_of_In. split; [done|]. by apply bool_decide_eq_true_2.
  - rewrite bool_decide_eq_false_2; [done|]. rewrite BlockersOf_nil. intros Hall.
    by rewrite (Hall e He Hb) in Hr.
Qed.

Lemma filter_filter_bool {A} (p q : A → bool) l :
  List.filter p (List.filter q l) = List.filter (λ x, q x && p x) l.
Proof.
  induction l as [|x l IH]; [done|]. cbn. destruct (q x); cbn; [destruct (p x)|]; by rewrite IH.
Qed.

Lemma count_disjoint_le {A} (p q r : A → bool) l :
  (∀ x, p x = true → q x = true → False) →
  (∀ x, p x = true → r x = true) → (∀ x, q x = true → r x = true) →
  count p l + count q l ≤ count r l.
Proof.
  intros Hpq Hp Hq. induction l as [|x l IH]; [done|]. rewrite !count_cons.
  specialize (Hpq x). specialize (Hp x). specialize (Hq x).
  destruct (p x), (q x), (r x); cbn; try lia; exfalso; naive_solver.
Qed.

(** The statistics agree with the queries: the edges split into resolved
    and unresolved ones, the unblocked count is the length of
    [UnblockedTasks], and the blocked count is the number of blocked tasks for
    which [BlockersOf] still gives an unresolved edge; no blocked task is
    counted in both. *)
Theorem DependencyStats_spec `{MR : MapRange} s :
  let stats := DependencyStats s in
  TotalEdges stats = ResolvedEdges stats + UnresolvedEdges stats ∧
  ResolvedEdges stats = length (ResolvedDependencies s) ∧
  UnblockedTasks_count stats = length (UnblockedTasks s) ∧
  BlockedTasks stats = length (List.filter
    (λ info, negb (bool_decide (BlockersOf s (Name info) false = [])))
    (TasksByStatus s TaskStatusBlocked)) ∧
  BlockedTasks stats + UnblockedTasks_count stats ≤ length (TasksByStatus s TaskStatusBlocked).
Proof.
  cbn. split_and!; [by rewrite count_negb|done|done| |].
  - unfold count, TasksByStatus. rewrite filter_filter_bool. f_equal.
    apply filter_ext. intros info. apply still_blocked_eq.
  - apply count_disjoint_le.
    + intros info. rewrite still_blocked_eq, andb_true_iff, negb_true_iff, bool_decide_eq_false.
      intros [_ Hn] (_ & _ & Hall)%unblocked_spec. by apply Hn, BlockersOf_nil.
    + intros info. rewrite still_blocked_eq. by intros [? _]%andb_true_iff.
    + intros info (Hs & _)%unblocked_spec. by apply bool_decide_eq_true_2.
Qed.

(** A dependency that was resolved once cannot block again: when a task
    whose edges are all resolved sends BLOCKED with the same [waiting-for], the
    edge is taken for a duplicate, nothing is recorded, and [UnblockedTasks]
    lists the task at once although what it waits for is not done. *)
Theorem reblock_is_ignored `{MR : MapRange} now s msg e info
    (Ha : msg_Action msg = ActionBlocked)
    (Ht : GetTask s (Get msg "task") = Some info) (Hn : Name info = Get msg "task")
    (Hne : Get msg "task" ≠ "") (Htags : msg_Tags msg = [])
    (He : e ∈ dependencies s) (Hb : Blocked e = Get msg "task")
    (Hw : BlockedBy e = Get msg "waiting-for")
    (Hall : BlockersOf s (Get msg "task") false = []) :
  dependencies (UpdateTask now s msg) = dependencies s ∧
  Get msg "task" ∈ Name <$> UnblockedTasks (UpdateTask now s msg).
Proof.
  assert (dependencies (UpdateTask now s msg) = dependencies s) as Hd.
  { rewrite dependencies_UpdateTask, Ha by done.
    unfold extractDependenciesLocked, message_edges. rewrite Htags, app_nil_r.
    case_bool_decide; [done|]. cbn [foldl]. unfold AddDependency.
    destruct (addDependencyLocked_cases (s <| tasks := <[Get msg "task" := apply_action msg
       (touch msg (task_or_new s (Get msg "task")))]> (tasks s) |>)
       (new_edge (Get msg "task") (Get msg "waiting-for"))) as [[_ ->]|[(Hno & _)|(Hno & _)]];
      [done|exfalso; apply Hno; apply list_elem_of_fmap; exists e; split; [|done];
            unfold ends, new_edge; cbn; congruence..]. }
  split; [done|]. apply list_elem_of_fmap.
  exists (apply_action msg (touch msg info)). unfold GetTask in Ht.
  assert (Name (apply_action msg (touch msg info)) = Get msg "task") as En.
  { rewrite Name_apply_action. exact Hn. }
  split; [done|]. unfold UnblockedTasks. rewrite elem_of_filter_bool, unblocked_spec, Hd, En.
  split_and!.
  - apply list_elem_of_fmap. exists (Get msg "task", apply_action msg (touch msg info)).
    split; [done|]. rewrite elem_of_range, tasks_UpdateTask by done.
    unfold task_or_new. rewrite Ht. apply lookup_insert_eq.
  - unfold apply_action. by rewrite Ha.
  - by exists e.
  - by apply BlockersOf_nil.
Qed.

(** ** A concrete run *)

Definition task_message (a : Action) (fields : list (string * string)) (tags : list string)
    : Message :=
  {| msg_Action := a; msg_Fields := list_to_map fields; msg_Tags := tags; msg_Payload := "";
     msg_Channel := "#dev"; msg_Nick := "alice"; msg_Timestamp := 7 |}.

(** [deploy] waits for [build] and [test]; [test] waits for [build]. *)
Definition run_messages : list Message :=
  [task_message ActionBlocked [("task", "deploy"); ("waiting-for", "build")]
     ["blocked-by-test"; "blocked-by-"; "urgent"];
   task_message ActionBlocked [("task", "test"); ("waiting-for", "build")] [];
   task_message ActionBlocked [("task", "build"); ("waiting-for", "deploy")] []].

Definition run_store : StateStore := foldl (UpdateTask 5) NewStateStore run_messages.

Example run_edges : ends <$> dependencies run_store =
  [("deploy", "build"); ("deploy", "test"); ("test", "build")].
Proof. vm_compute. reflexivity. Qed.

Example run_transitive : TransitiveDependencies run_store "deploy" = ["build"; "test"].
Proof. vm_compute. reflexivity. Qed.

Lemma run_store_reachable : reachable run_store.
Proof. unfold run_store. cbn [foldl run_messages]. repeat constructor. Qed.

Lemma run_acyclic : acyclic (dependencies run_store).
Proof. apply (go_acyclic _ (so_graph _ (store_ok_reachable _ run_store_reachable))). Qed.

Lemma HasCycle_exact_witness :
  HasCycle run_store "build" "deploy" = true ↔
    ¬ acyclic (dependencies run_store ++ [new_edge "build" "deploy"]).
Proof. apply (HasCycle_exact run_store "build" "deploy"). exact run_acyclic. Defined.

Lemma reachable_store_ok_witness : store_ok run_store.
Proof. apply (reachable_store_ok run_store). exact run_store_reachable. Defined.

Lemma blocked_has_root_witness :
  ∃ r, waits_for (dependencies run_store) "deploy" r ∧ BlockersOf run_store r false = [].
Proof.
  apply (blocked_has_root run_store "deploy" "test").
  - exact run_store_reachable.
  - exists (new_edge "deploy" "test"). repeat split.
    apply (list_elem_of_lookup_2 _ 1). vm_compute. reflexivity.
Defined.

Definition completed_build : Message := task_message ActionCompleted [("task", "build")] [].

Definition completed_store : StateStore := UpdateTask 9 run_store completed_build.

Lemma completed_unblocks_witness :
  dependencies completed_store =
    (λ e, if bool_decide (BlockedBy e = "build") && negb (Resolved e)
          then {| Blocked := Blocked e; BlockedBy := BlockedBy e;
                  Resolved := true; ResolvedAt := 9 |}
          else e) <$> dependencies run_store ∧
  (∀ a b, edge (dependencies completed_store) a b ↔
     edge (dependencies run_store) a b ∧ b ≠ "build") ∧
  (∀ info, info ∈ UnblockedTasks completed_store ↔
     (∃ k, k ≠ "build" ∧ GetTask run_store k = Some info) ∧
     Status info = TaskStatusBlocked ∧
     (∃ e, e ∈ dependencies run_store ∧ Blocked e = Name info) ∧
     (∀ b, edge (dependencies run_store) (Name info) b → b = "build")).
Proof. apply (completed_unblocks 9 run_store completed_build); [reflexivity|discriminate]. Defined.

Example completed_unblocks_test : Name <$> UnblockedTasks completed_store = ["test"].
Proof. vm_compute. reflexivity. Qed.

Definition blocked_ship : Message :=
  task_message ActionBlocked [("task", "ship"); ("waiting-for", "deploy")] ["blocked-by-ship"].

Lemma blocked_adds_edges_witness :
  ∃ added, dependencies (UpdateTask 9 run_store blocked_ship) = dependencies run_store ++ added ∧
    (∀ e, e ∈ added → e ∈ message_edges blocked_ship "ship" ∧ Blocked e = "ship") ∧
    (∀ e, e ∈ message_edges blocked_ship "ship" →
       ends e ∈ ends <$> dependencies (UpdateTask 9 run_store blocked_ship) ∨
       rtc (edge (dependencies (UpdateTask 9 run_store blocked_ship))) (BlockedBy e) "ship").
Proof. apply (blocked_adds_edges 9 run_store blocked_ship); [reflexivity|discriminate]. Defined.

Definition blocked_again : Message :=
  task_message ActionBlocked [("task", "test"); ("waiting-for", "build")] [].

Lemma reblock_is_ignored_witness :
  dependencies (UpdateTask 9 completed_store blocked_again) = dependencies completed_store ∧
  "test" ∈ Name <$> UnblockedTasks (UpdateTask 9 completed_store blocked_again).
Proof.
  apply (reblock_is_ignored 9 completed_store blocked_again
    {| Blocked := "test"; BlockedBy := "build"; Resolved := true; ResolvedAt := 9 |}
    (default (new_TaskInfo "test") (GetTask completed_store "test"))); try reflexivity.
  - discriminate.
  - apply (list_elem_of_lookup_2 _ 2). vm_compute. reflexivity.
Defined.
