(* ===== verification/TaskBoard.v ===== *)
(** * The task board: [internal/agent/taskboard.go]

    Offers, the claims on them and their arbitration. [time.AfterFunc] runs its
    function once, some time after the call: the timers that have been started
    and have not fired are a list beside the board ([armed]), and firing one of
    them is a step of the system. The field [state] of the Go struct is never
    read and is left out. *)

From S2P Require Import Prelude.

Record OfferInfo := {
  of_Task : string;
  of_Channel : string;
  of_OfferedBy : string;
  of_Priority : string;
  of_Scope : string;
  of_OfferedAt : Time;
  of_ClaimedBy : string
}.

#[export] Instance OfferInfo_eta : RecordEta OfferInfo := λ r,
  {| of_Task := of_Task r; of_Channel := of_Channel r; of_OfferedBy := of_OfferedBy r;
     of_Priority := of_Priority r; of_Scope := of_Scope r; of_OfferedAt := of_OfferedAt r;
     of_ClaimedBy := of_ClaimedBy r |}.

Record ClaimEntry := {
  ce_Nick : string;
  ce_Load : Z;
  ce_ClaimedAt : Time
}.

Record TaskBoard := {
  claimJitter : Duration;
  offers : gmap string OfferInfo;
  pendingClaims : gmap string (list ClaimEntry);
  timers : gset string
}.

#[export] Instance TaskBoard_eta : RecordEta TaskBoard := λ r,
  {| claimJitter := claimJitter r; offers := offers r;
     pendingClaims := pendingClaims r; timers := timers r |}.

Definition NewTaskBoard (claimJitter : Duration) : TaskBoard :=
  {| claimJitter := claimJitter; offers := ∅; pendingClaims := ∅; timers := ∅ |}.

Definition RecordOffer (now : Time) (tb : TaskBoard)
    (task channel offeredBy priority scope : string) : TaskBoard :=
  tb <| offers := <[task := {| of_Task := task; of_Channel := channel;
          of_OfferedBy := offeredBy; of_Priority := priority; of_Scope := scope;
          of_OfferedAt := now; of_ClaimedBy := "" |}]> (offers tb) |>.

(** [if offer, ok := tb.offers[task]; ok { offer.ClaimedBy = nick }] *)
Definition set_claimed (tb : TaskBoard) (task nick : string) : TaskBoard :=
  tb <| offers := alter (λ o, o <| of_ClaimedBy := nick |>) task (offers tb) |>.

(** The claims on a task; a missing key reads as a nil slice. *)
Definition claims_of (tb : TaskBoard) (task : string) : list ClaimEntry :=
  default [] (pendingClaims tb !! task).

(** The board, the result, and the timer that the call starts, if it does. *)
Definition RecordClaim (now : Time) (tb : TaskBoard) (task nick : string) (load : Z)
    : TaskBoard * string * option string :=
  let entry := {| ce_Nick := nick; ce_Load := load; ce_ClaimedAt := now |} in
  let claims := claims_of tb task ++ [entry] in
  let tb := tb <| pendingClaims := <[task := claims]> (pendingClaims tb) |> in
  if bool_decide (claimJitter tb = 0%Z) then
    let winner := ce_Nick (hd entry claims) in
    let tb := set_claimed tb task winner in
    (tb <| pendingClaims := delete task (pendingClaims tb) |>, winner, None)
  else if bool_decide (task ∈ timers tb) then (tb, "", None)
  else (tb <| timers := {[task]} ∪ timers tb |>, "", Some task).

(** The loop that picks the winner. *)
Definition lower_load (winner c : ClaimEntry) : ClaimEntry :=
  if (ce_Load c <? ce_Load winner)%Z then c else winner.

(** The function of the timer. *)
Definition resolveArbitration (tb : TaskBoard) (task : string) : TaskBoard :=
  match claims_of tb task with
  | [] => tb
  | c :: claims =>
      let winner := foldl lower_load c claims in
      let tb := set_claimed tb task (ce_Nick winner) in
      tb <| pendingClaims := delete task (pendingClaims tb) |>
         <| timers := timers tb ∖ {[task]} |>
  end.

Definition RecordAssign (now : Time) (tb : TaskBoard) (task to assignedBy channel : string)
    : TaskBoard :=
  match offers tb !! task with
  | Some _ => set_claimed tb task to
  | None =>
      tb <| offers := <[task := {| of_Task := task; of_Channel := channel;
              of_OfferedBy := assignedBy; of_Priority := ""; of_Scope := "";
              of_OfferedAt := now; of_ClaimedBy := to |}]> (offers tb) |>
  end.

Definition RecordDecline (tb : TaskBoard) (task : string) : TaskBoard :=
  set_claimed tb task "".

Definition RecordYield (tb : TaskBoard) (task : string) : TaskBoard :=
  set_claimed tb task "".

Definition GetOffer (tb : TaskBoard) (task : string) : option OfferInfo := offers tb !! task.

Definition ListOffers `{MR : MapRange} (tb : TaskBoard) : list OfferInfo :=
  (range 0 (offers tb)).*2.

Definition PendingClaims (tb : TaskBoard) (task : string) : list ClaimEntry :=
  claims_of tb task.

Definition Winner (tb : TaskBoard) (task : string) : string :=
  match offers tb !! task with
  | Some o => of_ClaimedBy o
  | None => ""
  end.

(** ** The system: a board and its running timers *)

Inductive board_step : TaskBoard * list string → TaskBoard * list string → Prop :=
| step_offer now tb armed task channel by_ priority scope :
    board_step (tb, armed) (RecordOffer now tb task channel by_ priority scope, armed)
| step_claim now tb armed task nick load tb' r timer :
    RecordClaim now tb task nick load = (tb', r, timer) →
    board_step (tb, armed) (tb', option_list timer ++ armed)
| step_assign now tb armed task to by_ channel :
    board_step (tb, armed) (RecordAssign now tb task to by_ channel, armed)
| step_decline tb armed task : board_step (tb, armed) (RecordDecline tb task, armed)
| step_yield tb armed task : board_step (tb, armed) (RecordYield tb task, armed)
| step_fire tb before task after :
    board_step (tb, before ++ task :: after) (resolveArbitration tb task, before ++ after).

(** ** Arbitration *)

(** [w] is the earliest of the claims with the lowest load. *)
Definition first_lowest (claims : list ClaimEntry) (w : ClaimEntry) : Prop :=
  ∃ before after, claims = before ++ w :: after ∧
    (∀ c, c ∈ before → (ce_Load w < ce_Load c)%Z) ∧
    (∀ c, c ∈ after → (ce_Load w <= ce_Load c)%Z).

Lemma foldl_lower_load c claims : first_lowest (c :: claims) (foldl lower_load c claims).
Proof.
  induction claims as [|d claims IH] using rev_ind.
  - exists [], []. split_and!; [done|set_solver..].
  - rewrite foldl_snoc. destruct IH as (before & after & E & Hb & Ha).
    revert E Hb Ha. generalize (foldl lower_load c claims). intros w E Hb Ha.
    rewrite app_comm_cons, E. unfold lower_load.
    destruct (Z.ltb_spec (ce_Load d) (ce_Load w)).
    + exists (before ++ w :: after), []. split_and!; [done| |set_solver].
      intros x [Hx|[->|Hx]%elem_of_cons]%elem_of_app; [apply Hb in Hx; lia|lia|].
      apply Ha in Hx. lia.
    + exists before, (after ++ [d]). split_and!; [by rewrite <- app_assoc|done|].
      intros x [Hx| ->%list_elem_of_singleton]%elem_of_app; [auto|lia].
Qed.

Lemma offers_set_claimed tb task nick t :
  offers (set_claimed tb task nick) !! t =
    (if decide (t = task) then λ o, o <| of_ClaimedBy := nick |> else id) <$> (offers tb !! t).
Proof.
  cbn. destruct (decide (t = task)) as [->|].
  - apply lookup_alter_eq.
  - rewrite lookup_alter_ne by done. by rewrite option_fmap_id.
Qed.

(** Deferred arbitration: when the timer of a task with pending claims
    fires, the offer goes to the earliest claim among those with the lowest
    load, the task's claims and its timer entry are removed, and everything
    about the other tasks stays as it is. *)
Theorem resolveArbitration_spec tb task (Hc : PendingClaims tb task ≠ []) :
  ∃ w, first_lowest (PendingClaims tb task) w ∧
    let tb' := resolveArbitration tb task in
    GetOffer tb' task = (λ o, o <| of_ClaimedBy := ce_Nick w |>) <$> GetOffer tb task ∧
    PendingClaims tb' task = [] ∧ task ∉ timers tb' ∧
    ∀ t, t ≠ task → GetOffer tb' t = GetOffer tb t ∧
      PendingClaims tb' t = PendingClaims tb t ∧ (t ∈ timers tb' ↔ t ∈ timers tb).
Proof.
  unfold PendingClaims, resolveArbitration, GetOffer in *.
  destruct (claims_of tb task) as [|c claims]; [done|].
  exists (foldl lower_load c claims). split; [apply foldl_lower_load|]. cbn. split_and!.
  - apply lookup_alter_eq.
  - unfold claims_of. cbn. by rewrite lookup_delete_eq.
  - set_solver.
  - intros t Hne. unfold claims_of. cbn.
    rewrite lookup_alter_ne, lookup_delete_ne by done. set_solver.
Qed.

(** ** The invariant of the board *)

Record board_ok (st : TaskBoard * list string) : Prop := {
  bo_armed : ∀ t, t ∈ st.2 ↔ t ∈ timers st.1;
  bo_once : NoDup st.2;
  bo_claims : ∀ t, is_Some (pendingClaims st.1 !! t) ↔ t ∈ timers st.1;
  bo_nonempty : ∀ t, pendingClaims st.1 !! t ≠ Some [];
  bo_offers : ∀ t o, offers st.1 !! t = Some o → of_Task o = t;
  bo_instant : claimJitter st.1 = 0%Z → timers st.1 = ∅
}.

Lemma board_ok_offers tb armed offs :
  board_ok (tb, armed) → (∀ t o, offs !! t = Some o → of_Task o = t) →
  board_ok (tb <| offers := offs |>, armed).
Proof. intros [H1 H2 H3 H4 H5 H6] Ho. by split. Qed.

Lemma board_ok_set_claimed tb armed task nick :
  board_ok (tb, armed) → board_ok (set_claimed tb task nick, armed).
Proof.
  intros Hok. apply board_ok_offers; [done|]. intros t o.
  rewrite lookup_alter_Some. intros [(<- & o' & Ho & ->)|[_ Ho]]; cbn;
    by eapply (bo_offers _ Hok).
Qed.

Lemma board_ok_insert tb armed task o :
  board_ok (tb, armed) → of_Task o = task →
  board_ok (tb <| offers := <[task := o]> (offers tb) |>, armed).
Proof.
  intros Hok Ht. apply board_ok_offers; [done|]. intros t o'.
  rewrite lookup_insert_Some. intros [[<- <-]|[_ Ho]]; [done|]. by eapply (bo_offers _ Hok).
Qed.

Lemma board_ok_fire tb before task after :
  board_ok (tb, before ++ task :: after) →
  board_ok (resolveArbitration tb task, before ++ after).
Proof.
  intros Hok. destruct (board_ok_set_claimed tb _ task
    (ce_Nick (foldl lower_load (hd (Build_ClaimEntry "" 0 0) (claims_of tb task))
                               (tl (claims_of tb task)))) Hok) as [H1 H2 H3 H4 H5 H6].
  assert (task ∈ timers tb) as Ht.
  { apply (bo_armed _ Hok). cbn. set_solver. }
  apply (bo_claims _ Hok) in Ht as [claims Hc]. cbn in Hc.
  unfold resolveArbitration, claims_of in *. rewrite Hc in *. cbn in H1, H2, H3, H4, H5, H6 |- *.
  destruct claims as [|c claims]; [by destruct (H4 task)|]. cbn in *.
  apply NoDup_app in H2 as (Hb & Hd & Hnd). inversion Hnd as [|?? Hta Hna]; subst.
  split; cbn.
  - intros t. rewrite elem_of_difference, <- H1, elem_of_singleton, !elem_of_app, elem_of_cons.
    split; [|tauto]. intros Ht'. split; [tauto|]. intros ->. destruct Ht' as [Ht'|?]; [|done].
    apply (Hd task Ht'). by left.
  - apply NoDup_app. split_and!; [done| |done]. intros x Hx Hx'. apply (Hd x Hx). by right.
  - intros t. rewrite elem_of_difference, elem_of_singleton, <- H3.
    rewrite lookup_delete_is_Some. naive_solver.
  - intros t. rewrite lookup_delete_Some. intros [_ ?]. by apply (H4 t).
  - exact H5.
  - intros Hj. rewrite H6 by done. set_solver.
Qed.

Lemma board_ok_claim now tb armed task nick load tb' r timer :
  board_ok (tb, armed) → RecordClaim now tb task nick load = (tb', r, timer) →
  board_ok (tb', option_list timer ++ armed).
Proof.
  intros [H1 H2 H3 H4 H5 H6]. unfold RecordClaim. cbn [claimJitter timers].
  cbn in H1, H2, H3, H4, H5, H6.
  destruct (claims_of tb task ++ [_]) as [|c claims] eqn:Ec; [by destruct (claims_of tb task)|].
  case_bool_decide as Hj; [|case_bool_decide as Ht]; intros [= <- <- <-].
  - apply (board_ok_set_claimed (tb <| pendingClaims := delete task
      (<[task := c :: claims]> (pendingClaims tb)) |>)).
    rewrite delete_insert_eq. specialize (H6 Hj).
    assert (delete task (pendingClaims tb) = pendingClaims tb) as ->.
    { apply delete_id. apply eq_None_not_Some. rewrite H3, H6. set_solver. }
    by split.
  - split; cbn; try done.
    + intros t. rewrite lookup_insert_is_Some, H3. destruct (decide (task = t)) as [<-|]; tauto.
    + intros t. rewrite lookup_insert_Some. intros [[_ ?]|[_ ?]]; [done|by apply (H4 t)].
  - assert (pendingClaims tb !! task = None) as Hnone by (apply eq_None_not_Some; by rewrite H3).
    split; cbn.
    + intros t. rewrite elem_of_cons, H1. set_solver.
    + constructor; [by rewrite H1|done].
    + intros t. rewrite lookup_insert_is_Some, H3, elem_of_union, elem_of_singleton.
      destruct (decide (task = t)) as [<-|]; [tauto|]. naive_solver.
    + intros t. rewrite lookup_insert_Some. intros [[_ ?]|[_ ?]]; [done|by apply (H4 t)].
    + done.
    + intros Hj'. by destruct Hj.
Qed.

Lemma board_ok_step st st' : board_ok st → board_step st st' → board_ok st'.
Proof.
  intros Hok Hst. destruct Hst.
  - by apply board_ok_insert.
  - by eapply board_ok_claim.
  - unfold RecordAssign. destruct (offers tb !! task).
    + by apply board_ok_set_claimed.
    + by apply board_ok_insert.
  - by apply board_ok_set_claimed.
  - by apply board_ok_set_claimed.
  - by apply board_ok_fire.
Qed.

Lemma board_ok_new jitter : board_ok (NewTaskBoard jitter, []).
Proof.
  split; cbn; [set_solver|constructor| |done..].
  intros t. rewrite lookup_empty. split; [by intros []|set_solver].
Qed.

Lemma board_ok_reachable jitter st : rtc board_step (NewTaskBoard jitter, []) st → board_ok st.
Proof. apply rtc_invariant; [apply board_ok_step|apply board_ok_new]. Qed.

Lemma claimJitter_reachable jitter st :
  rtc board_step (NewTaskBoard jitter, []) st → claimJitter st.1 = jitter.
Proof.
  intros Hreach. apply (rtc_invariant board_step (λ st, claimJitter st.1 = jitter)
    (NewTaskBoard jitter, []) st); [|reflexivity|exact Hreach].
  clear. intros st st' IH Hst. destruct Hst; cbn in *; try done.
  - revert H. unfold RecordClaim. cbn. repeat case_bool_decide; by intros [= <- <- <-].
  - unfold RecordAssign. by destruct (offers _ !! _).
  - unfold resolveArbitration. by destruct (claims_of _ _).
Qed.

(** In a good board a timer runs on a task exactly when claims on it are pending. *)
Lemma armed_iff_pending tb armed task :
  board_ok (tb, armed) → task ∈ armed ↔ PendingClaims tb task ≠ [].
Proof.
  intros [H1 _ H3 H4 _ _]. cbn in H1, H3, H4. rewrite H1, <- H3. unfold PendingClaims, claims_of.
  specialize (H4 task). destruct (pendingClaims tb !! task) as [[|c l]|]; cbn.
  - done.
  - split; [done|]. intros _. by eexists.
  - split; [by intros []|done].
Qed.

(** C7. No claim is forgotten: in every state of the board that offers,
    claims, assignments, declines, yields and timers can lead to, exactly one
    timer runs for every task with pending claims and none for any other task,
    so that a running timer always finds claims to arbitrate; with a jitter of
    0 no timer ever runs. Whichever timer fires, it is gone afterwards, no claim
    is left pending on its task, and the task's offer, if there is one, goes to
    the first of the claimants with the lowest load. *)
Theorem claims_are_arbitrated jitter tb armed
    (Hreach : rtc board_step (NewTaskBoard jitter, []) (tb, armed)) :
  NoDup armed ∧
  (∀ task, task ∈ armed ↔ PendingClaims tb task ≠ []) ∧
  (jitter = 0%Z → armed = []) ∧
  ∀ before task after, armed = before ++ task :: after →
    let tb' := resolveArbitration tb task in
    board_step (tb, armed) (tb', before ++ after) ∧
    task ∉ before ++ after ∧ PendingClaims tb' task = [] ∧
    ∃ w, first_lowest (PendingClaims tb task) w ∧
      GetOffer tb' task = (λ o, o <| of_ClaimedBy := ce_Nick w |>) <$> GetOffer tb task.
Proof.
  pose proof (board_ok_reachable _ _ Hreach) as Hok.
  pose proof (claimJitter_reachable _ _ Hreach) as Hj. cbn in Hj.
  split_and!; [apply (bo_once _ Hok)|intros task; by apply armed_iff_pending| |].
  - intros H0. rewrite <- Hj in H0. apply (bo_instant _ Hok) in H0. cbn in H0.
    destruct armed as [|t l]; [done|]. exfalso.
    pose proof (proj1 (bo_armed _ Hok t) (list_elem_of_here t l)) as Ht. cbn in Ht.
    rewrite H0 in Ht. set_solver.
  - intros before task after -> tb'. split; [constructor|].
    assert (PendingClaims tb task ≠ []) as Hc.
    { apply (armed_iff_pending _ _ _ Hok). apply elem_of_app. right. left. }
    destruct (resolveArbitration_spec tb task Hc) as (w & Hw & Ho & Hp & Ht & _).
    split; [|split; [exact Hp|by exists w]].
    pose proof (board_ok_fire _ _ _ _ Hok) as Hok'. by rewrite (bo_armed _ Hok').
Qed.

(** With a jitter of 0 the arbitration is instant and the last claim wins:
    each claim is reported as the winner and takes the offer from the claim
    before it, so of several claims on an offer the last one holds it. *)
Theorem instant_claims_last_wins tb task nick (claims : list (Time * string * Z)) now load o
    (Hj : claimJitter tb = 0%Z) (Hp : pendingClaims tb = ∅) (Ho : GetOffer tb task = Some o) :
  let tb' := foldl (λ b c, (RecordClaim c.1.1 b task c.1.2 c.2).1.1) tb claims in
  (RecordClaim now tb' task nick load).1.2 = nick ∧
  Winner (RecordClaim now tb' task nick load).1.1 task = nick.
Proof.
  assert (∀ now tb nick load, claimJitter tb = 0%Z → pendingClaims tb = ∅ →
    is_Some (offers tb !! task) →
    let r := RecordClaim now tb task nick load in
    r.1.2 = nick ∧ Winner r.1.1 task = nick ∧ claimJitter r.1.1 = 0%Z ∧
    pendingClaims r.1.1 = ∅ ∧ is_Some (offers r.1.1 !! task)) as Hone.
  { clear. intros now tb nick load Hj Hp [o Ho]. unfold RecordClaim, claims_of. cbn.
    rewrite Hp, lookup_empty, bool_decide_eq_true_2 by done. cbn.
    unfold Winner. cbn. rewrite lookup_alter_eq, Ho. cbn.
    split_and!; [done..| |done]. rewrite delete_insert_eq. by rewrite delete_empty. }
  intros tb'. assert (claimJitter tb' = 0%Z ∧ pendingClaims tb' = ∅ ∧
    is_Some (offers tb' !! task)) as (H1 & H2 & H3).
  { assert (is_Some (offers tb !! task)) as Hs by by eexists. subst tb'. clear Ho.
    revert tb Hj Hp Hs. induction claims as [|c claims IH]; intros tb Hj Hp Hs; [done|].
    cbn [foldl]. destruct (Hone c.1.1 tb c.1.2 c.2 Hj Hp Hs) as (_ & _ & ? & ? & ?).
    by apply IH. }
  by destruct (Hone now tb' nick load H1 H2 H3) as (? & ? & _).
Qed.

(** ** A concrete run *)

Definition sample_board (jitter : Duration) : TaskBoard :=
  RecordOffer 1 (NewTaskBoard jitter) "t" "#dev" "lead" "high" "".

Definition claimed_board : TaskBoard :=
  (RecordClaim 3 (RecordClaim 2 (sample_board 10) "t" "a" 5).1.1 "t" "b" 2).1.1.

Lemma resolveArbitration_spec_witness :
  ∃ w, first_lowest (PendingClaims claimed_board "t") w ∧
    let tb' := resolveArbitration claimed_board "t" in
    GetOffer tb' "t" = (λ o, o <| of_ClaimedBy := ce_Nick w |>) <$> GetOffer claimed_board "t" ∧
    PendingClaims tb' "t" = [] ∧ "t" ∉ timers tb' ∧
    ∀ t, t ≠ "t" → GetOffer tb' t = GetOffer claimed_board t ∧
      PendingClaims tb' t = PendingClaims claimed_board t ∧
      (t ∈ timers tb' ↔ t ∈ timers claimed_board).
Proof. apply (resolveArbitration_spec claimed_board "t"). discriminate. Defined.

Example arbitration_test : Winner (resolveArbitration claimed_board "t") "t" = "b".
Proof. reflexivity. Qed.

Lemma claims_are_arbitrated_witness :
  NoDup ["t"] ∧ (∀ task, task ∈ ["t"] ↔ PendingClaims claimed_board task ≠ []) ∧
  (10%Z = 0%Z → ["t"] = []) ∧
  ∀ before task after, ["t"] = before ++ task :: after →
    let tb' := resolveArbitration claimed_board task in
    board_step (claimed_board, ["t"]) (tb', before ++ after) ∧
    task ∉ before ++ after ∧ PendingClaims tb' task = [] ∧
    ∃ w, first_lowest (PendingClaims claimed_board task) w ∧
      GetOffer tb' task = (λ o, o <| of_ClaimedBy := ce_Nick w |>) <$> GetOffer claimed_board task.
Proof.
  apply (claims_are_arbitrated 10 claimed_board ["t"]).
  eapply rtc_l; [apply (step_offer 1 _ _ "t" "#dev" "lead" "high" "")|].
  eapply rtc_l; [apply (step_claim 2 _ _ "t" "a" 5 (RecordClaim 2 (sample_board 10) "t" "a" 5).1.1
    "" (Some "t")); reflexivity|].
  eapply rtc_l; [apply (step_claim 3 _ _ "t" "b" 2 claimed_board "" None); reflexivity|].
  apply rtc_refl.
Defined.

Lemma instant_claims_last_wins_witness :
  let tb' := foldl (λ b c, (RecordClaim c.1.1 b "t" c.1.2 c.2).1.1) (sample_board 0)
               [(2%Z, "first", 1%Z)] in
  (RecordClaim 3 tb' "t" "last" 9).1.2 = "last" ∧
  Winner (RecordClaim 3 tb' "t" "last" 9).1.1 "t" = "last".
Proof.
  apply (instant_claims_last_wins (sample_board 0) "t" "last" [(2%Z, "first", 1%Z)] 3 9
    {| of_Task := "t"; of_Channel := "#dev"; of_OfferedBy := "lead"; of_Priority := "high";
       of_Scope := ""; of_OfferedAt := 1; of_ClaimedBy := "" |}); reflexivity.
Defined.
