(* ===== verification/Handoff.v ===== *)
(** * Checkpoints and handoffs: [internal/agent/handoff.go] *)

From S2P Require Import Prelude.

Record CheckpointRecord := {
  cp_Task : string;
  cp_Nick : string;
  cp_Progress : Z;
  cp_Summary : string;
  cp_Channel : string;
  cp_Timestamp : Time
}.

Record HandoffRecord := {
  ho_Task : string;
  ho_From : string;
  ho_To : string;
  ho_ContextID : string;
  ho_Channel : string;
  ho_Progress : Z;
  ho_Accepted : bool;
  ho_CreatedAt : Time
}.

#[export] Instance HandoffRecord_eta : RecordEta HandoffRecord := λ r,
  {| ho_Task := ho_Task r; ho_From := ho_From r; ho_To := ho_To r;
     ho_ContextID := ho_ContextID r; ho_Channel := ho_Channel r;
     ho_Progress := ho_Progress r; ho_Accepted := ho_Accepted r;
     ho_CreatedAt := ho_CreatedAt r |}.

Record HandoffStore := {
  checkpoints : gmap string (list CheckpointRecord);
  handoffs : gmap string HandoffRecord
}.

#[export] Instance HandoffStore_eta : RecordEta HandoffStore := λ r,
  {| checkpoints := checkpoints r; handoffs := handoffs r |}.

Definition NewHandoffStore : HandoffStore := {| checkpoints := ∅; handoffs := ∅ |}.

(** A missing key reads as a nil slice. *)
Definition Checkpoints (hs : HandoffStore) (task : string) : list CheckpointRecord :=
  default [] (checkpoints hs !! task).

Definition RecordCheckpoint (now : Time) (hs : HandoffStore)
    (task nick : string) (progress : Z) (summary channel : string) : HandoffStore :=
  hs <| checkpoints := <[task := Checkpoints hs task ++
          [{| cp_Task := task; cp_Nick := nick; cp_Progress := progress;
              cp_Summary := summary; cp_Channel := channel; cp_Timestamp := now |}]]>
        (checkpoints hs) |>.

(** The progress of the last checkpoint, 0 without one. *)
Definition latest_progress (hs : HandoffStore) (task : string) : Z :=
  match last (Checkpoints hs task) with
  | Some cp => cp_Progress cp
  | None => 0
  end.

Definition RecordHandoff (now : Time) (hs : HandoffStore)
    (task from to contextID channel : string) : HandoffStore :=
  let progress := latest_progress hs task in
  hs <| handoffs := <[task := {| ho_Task := task; ho_From := from; ho_To := to;
          ho_ContextID := contextID; ho_Channel := channel; ho_Progress := progress;
          ho_Accepted := false; ho_CreatedAt := now |}]> (handoffs hs) |>.

Definition AcceptHandoff (hs : HandoffStore) (task nick : string) : HandoffStore :=
  match handoffs hs !! task with
  | Some h => if bool_decide (ho_To h = nick)
              then hs <| handoffs := <[task := h <| ho_Accepted := true |>]> (handoffs hs) |>
              else hs
  | None => hs
  end.

Definition GetHandoff (hs : HandoffStore) (task : string) : option HandoffRecord :=
  handoffs hs !! task.

Definition ListHandoffs `{MR : MapRange} (hs : HandoffStore) : list HandoffRecord :=
  (range 0 (handoffs hs)).*2.

(** ** Histories *)

Inductive handoff_op :=
| OpCheckpoint (now : Time) (task nick : string) (progress : Z) (summary channel : string)
| OpHandoff (now : Time) (task from to contextID channel : string)
| OpAccept (task nick : string).

Definition handoff_run (hs : HandoffStore) (op : handoff_op) : HandoffStore :=
  match op with
  | OpCheckpoint now task nick progress summary channel =>
      RecordCheckpoint now hs task nick progress summary channel
  | OpHandoff now task from to contextID channel =>
      RecordHandoff now hs task from to contextID channel
  | OpAccept task nick => AcceptHandoff hs task nick
  end.

(** The progress that a history has reported on a task. *)
Definition reported (task : string) (acc : Z) (op : handoff_op) : Z :=
  match op with
  | OpCheckpoint _ t _ progress _ _ => if bool_decide (t = task) then progress else acc
  | _ => acc
  end.

Definition hands_off (task : string) (op : handoff_op) : bool :=
  match op with
  | OpHandoff _ t _ _ _ _ => bool_decide (t = task)
  | _ => false
  end.

Definition accepts (task to : string) (op : handoff_op) : bool :=
  match op with
  | OpAccept t nick => bool_decide (t = task) && bool_decide (nick = to)
  | _ => false
  end.

Lemma latest_progress_step hs task op :
  latest_progress (handoff_run hs op) task = reported task (latest_progress hs task) op.
Proof.
  destruct op as [now t nick progress summary channel|now t from to ctx channel|t nick]; cbn.
  - unfold latest_progress, Checkpoints. cbn. case_bool_decide as Ht.
    + subst. rewrite lookup_insert_eq. cbn. by rewrite last_snoc.
    + by rewrite lookup_insert_ne.
  - done.
  - unfold AcceptHandoff. destruct (handoffs hs !! t); [|done]. by case_bool_decide.
Qed.

Lemma latest_progress_run hs task ops :
  latest_progress (foldl handoff_run hs ops) task =
    foldl (reported task) (latest_progress hs task) ops.
Proof.
  revert hs. induction ops as [|op ops IH]; intros hs; [done|]. cbn [foldl].
  by rewrite IH, latest_progress_step.
Qed.

Lemma GetHandoff_step hs task op h :
  hands_off task op = false → GetHandoff hs task = Some h →
  GetHandoff (handoff_run hs op) task =
    Some (h <| ho_Accepted := ho_Accepted h || accepts task (ho_To h) op |>).
Proof.
  intros Hno Hh. destruct h as [ht hf hto hctx hch hp ha hc]. unfold GetHandoff in *.
  destruct op as [now t nick progress summary channel|now t from to ctx channel|t nick]; cbn in *.
  - by rewrite orb_false_r.
  - apply bool_decide_eq_false in Hno. by rewrite lookup_insert_ne, orb_false_r.
  - unfold AcceptHandoff. case_bool_decide as Ht; cbn.
    + subst t. rewrite Hh. cbn. rewrite (bool_decide_ext (hto = nick) (nick = hto)) by done.
      case_bool_decide; cbn; [by rewrite lookup_insert_eq, orb_true_r|by rewrite orb_false_r].
    + rewrite orb_false_r. destruct (handoffs hs !! t); [|done].
      case_bool_decide; [|done]. cbn. by rewrite lookup_insert_ne.
Qed.

(** A handoff record tells the history of its task: it holds the parties
    of the latest HANDOFF, the progress of the last checkpoint before it (0
    without one), and it is accepted exactly when an ACCEPT from the nick it
    was handed to came after it; acceptances by others, or before the handoff,
    do not count. *)
Theorem GetHandoff_history before now task from to contextID channel after
    (Hlast : forallb (λ op, negb (hands_off task op)) after = true) :
  GetHandoff (foldl handoff_run NewHandoffStore
      (before ++ OpHandoff now task from to contextID channel :: after)) task =
    Some {| ho_Task := task; ho_From := from; ho_To := to; ho_ContextID := contextID;
            ho_Channel := channel; ho_Progress := foldl (reported task) 0%Z before;
            ho_Accepted := existsb (accepts task to) after; ho_CreatedAt := now |}.
Proof.
  rewrite foldl_app. cbn [foldl handoff_run].
  pose proof (latest_progress_run NewHandoffStore task before) as Hp.
  change (latest_progress NewHandoffStore task) with 0%Z in Hp. rewrite <- Hp. clear Hp.
  generalize (foldl handoff_run NewHandoffStore before). intros hs.
  assert (∀ h hs', GetHandoff hs' task = Some h →
    GetHandoff (foldl handoff_run hs' after) task =
      Some (h <| ho_Accepted := ho_Accepted h || existsb (accepts task (ho_To h)) after |>)) as Hrun.
  { induction after as [|op after IH]; intros h hs' Hh; cbn.
    - rewrite orb_false_r, Hh. by destruct h.
    - cbn in Hlast. apply andb_true_iff in Hlast as [Hop%negb_true_iff Hlast].
      rewrite (IH Hlast _ _ (GetHandoff_step _ _ _ _ Hop Hh)). cbn. by rewrite orb_assoc. }
  rewrite (Hrun _ _ (lookup_insert_eq _ _ _)). done.
Qed.

Lemma GetHandoff_history_witness :
  GetHandoff (foldl handoff_run NewHandoffStore
      ([OpCheckpoint 1 "t" "a" 40 "" "#dev"; OpCheckpoint 2 "u" "a" 90 "" "#dev"; OpAccept "t" "b"] ++
       OpHandoff 3 "t" "a" "b" "ctx" "#dev" :: [OpAccept "t" "c"; OpAccept "t" "b"])) "t" =
    Some {| ho_Task := "t"; ho_From := "a"; ho_To := "b"; ho_ContextID := "ctx";
            ho_Channel := "#dev"; ho_Progress := 40; ho_Accepted := true; ho_CreatedAt := 3 |}.
Proof.
  apply (GetHandoff_history [OpCheckpoint 1 "t" "a" 40 "" "#dev";
    OpCheckpoint 2 "u" "a" 90 "" "#dev"; OpAccept "t" "b"] 3 "t" "a" "b" "ctx" "#dev"
    [OpAccept "t" "c"; OpAccept "t" "b"]). reflexivity.
Defined.
