(* ===== verification/Review.v ===== *)
(** * Reviews and gates: [internal/agent/review.go] *)

From S2P Require Import Prelude GoNum.

(** [ReviewVerdict] and [GateStatus] are string types; a verdict that is not
    one of the constants can come from the wire. *)
Definition ReviewApproved : string := "approved".
Definition ReviewChangesRequested : string := "changes-requested".
Definition ReviewRejected : string := "rejected".

Definition GatePassed : string := "passed".
Definition GateFailed : string := "failed".
Definition GatePending : string := "pending".

Record ReviewRecord := {
  rr_Task : string;
  rr_PR : string;
  rr_ReviewType : string;
  rr_RequestedBy : string;
  rr_Reviewer : string;
  rr_Verdict : string;
  rr_Details : string;
  rr_Channel : string;
  rr_RequestedAt : Time;
  rr_CompletedAt : Time;
  rr_Iteration : Z
}.

#[export] Instance ReviewRecord_eta : RecordEta ReviewRecord := λ r,
  {| rr_Task := rr_Task r; rr_PR := rr_PR r; rr_ReviewType := rr_ReviewType r;
     rr_RequestedBy := rr_RequestedBy r; rr_Reviewer := rr_Reviewer r;
     rr_Verdict := rr_Verdict r; rr_Details := rr_Details r; rr_Channel := rr_Channel r;
     rr_RequestedAt := rr_RequestedAt r; rr_CompletedAt := rr_CompletedAt r;
     rr_Iteration := rr_Iteration r |}.

Record GateRecord := {
  gr_Task : string;
  gr_Gate : string;
  gr_Status : string;
  gr_Details : string;
  gr_CheckedBy : string;
  gr_Channel : string;
  gr_CheckedAt : Time
}.

Record ReviewSummary := {
  rs_Task : string;
  rs_TotalReviews : nat;
  rs_PendingReviews : nat;
  rs_ApprovedReviews : nat;
  rs_AllGatesPassed : bool;
  rs_IterationCount : Z;
  rs_NeedsEscalation : bool
}.

Record ReviewStore := {
  reviews : gmap string (list ReviewRecord);
  gates : gmap string (list GateRecord);
  iterations : gmap string Z;
  maxIterations : Z
}.

#[export] Instance ReviewStore_eta : RecordEta ReviewStore := λ r,
  {| reviews := reviews r; gates := gates r; iterations := iterations r;
     maxIterations := maxIterations r |}.

Definition NewReviewStore (maxIterations : Z) : ReviewStore :=
  {| reviews := ∅; gates := ∅; iterations := ∅; maxIterations := maxIterations |}.

(** Reads of the maps; a missing key gives the zero value. *)
Definition Reviews (rs : ReviewStore) (task : string) : list ReviewRecord :=
  default [] (reviews rs !! task).

Definition Gates (rs : ReviewStore) (task : string) : list GateRecord :=
  default [] (gates rs !! task).

Definition iteration (rs : ReviewStore) (task : string) : Z :=
  default 0%Z (iterations rs !! task).

Definition RecordRequest (now : Time) (rs : ReviewStore)
    (task pr reviewType requestedBy channel : string) : ReviewStore :=
  let n := wrap64 (iteration rs task + 1) in
  rs <| iterations := <[task := n]> (iterations rs) |>
     <| reviews := <[task := Reviews rs task ++
          [{| rr_Task := task; rr_PR := pr; rr_ReviewType := reviewType;
              rr_RequestedBy := requestedBy; rr_Reviewer := ""; rr_Verdict := "";
              rr_Details := ""; rr_Channel := channel; rr_RequestedAt := now;
              rr_CompletedAt := zero_time; rr_Iteration := n |}]]> (reviews rs) |>.

(** The condition of the loop of [RecordComplete]. *)
Definition pending_for (task pr : string) (r : ReviewRecord) : bool :=
  bool_decide (rr_Task r = task) && (bool_decide (pr = "") || bool_decide (rr_PR r = pr)) &&
  bool_decide (rr_Verdict r = "").

Definition complete (now : Time) (reviewer verdict details : string) (r : ReviewRecord)
    : ReviewRecord :=
  r <| rr_Reviewer := reviewer |> <| rr_Verdict := verdict |> <| rr_Details := details |>
    <| rr_CompletedAt := now |>.

(** The records are changed in place, from the last one down. A task without
    records stays without an entry. *)
Definition RecordComplete (now : Time) (rs : ReviewStore)
    (task pr reviewer verdict details channel : string) : ReviewStore :=
  rs <| reviews := alter (update_last (pending_for task pr)
          (complete now reviewer verdict details)) task (reviews rs) |>.

Definition RecordGate (now : Time) (rs : ReviewStore)
    (task gate status details checkedBy channel : string) : ReviewStore :=
  rs <| gates := <[task := Gates rs task ++
          [{| gr_Task := task; gr_Gate := gate; gr_Status := status; gr_Details := details;
              gr_CheckedBy := checkedBy; gr_Channel := channel; gr_CheckedAt := now |}]]>
        (gates rs) |>.

(** The latest status of each gate: the loop that fills the map [latest]. *)
Definition latest_gates (gates : list GateRecord) : gmap string string :=
  foldl (λ latest g, <[gr_Gate g := gr_Status g]> latest) ∅ gates.

Section reads.
Context `{MR : MapRange}.

Definition allGatesPassedLocked (rs : ReviewStore) (task : string) : bool :=
  match Gates rs task with
  | [] => false
  | gates => forallb (λ kv, bool_decide (kv.2 = GatePassed)) (range 0 (latest_gates gates))
  end.

Definition AllGatesPassed (rs : ReviewStore) (task : string) : bool :=
  allGatesPassedLocked rs task.

Definition Summary (rs : ReviewStore) (task : string) : ReviewSummary :=
  {| rs_Task := task;
     rs_TotalReviews := length (Reviews rs task);
     rs_PendingReviews := count (λ r, bool_decide (rr_Verdict r = "")) (Reviews rs task);
     rs_ApprovedReviews := count (λ r, bool_decide (rr_Verdict r = ReviewApproved)) (Reviews rs task);
     rs_AllGatesPassed := allGatesPassedLocked rs task;
     rs_IterationCount := iteration rs task;
     rs_NeedsEscalation :=
       bool_decide (0 < maxIterations rs)%Z &&
       bool_decide (maxIterations rs < iteration rs task)%Z |}.

Definition ListReviews (rs : ReviewStore) : list ReviewRecord :=
  concat (range 0 (reviews rs)).*2.
End reads.

(** ** Gates *)

Lemma latest_gates_lookup gates gate :
  latest_gates gates !! gate =
    gr_Status <$> last (List.filter (λ g, bool_decide (gr_Gate g = gate)) gates).
Proof.
  unfold latest_gates. induction gates as [|g gates IH] using rev_ind; [done|].
  rewrite foldl_snoc, List.filter_app. cbn. case_bool_decide as Hg.
  - subst. by rewrite lookup_insert_eq, last_snoc.
  - by rewrite lookup_insert_ne, app_nil_r, IH.
Qed.

(** [AllGatesPassed] holds exactly when the task has gate checks and, for
    every gate checked, the latest check passed; earlier results of a gate do
    not count, and the answer does not depend on the order in which the map of
    the latest results is visited. *)
Theorem AllGatesPassed_spec `{MR : MapRange} rs task :
  AllGatesPassed rs task = true ↔
    Gates rs task ≠ [] ∧
    ∀ before g after, Gates rs task = before ++ g :: after →
      (∀ g', g' ∈ after → gr_Gate g' ≠ gr_Gate g) → gr_Status g = GatePassed.
Proof.
  unfold AllGatesPassed, allGatesPassedLocked.
  destruct (Gates rs task) as [|g0 gates0]; [by split; [|intros []]|].
  set (gates := g0 :: gates0).
  rewrite forallb_forall. setoid_rewrite <- list_elem_of_In.
  assert ((∀ x, x ∈ range 0 (latest_gates gates) → bool_decide (x.2 = GatePassed) = true) ↔
    ∀ gate status, latest_gates gates !! gate = Some status → status = GatePassed) as ->.
  { split.
    - intros H gate status Hl. apply (elem_of_range 0) in Hl. apply H in Hl.
      by apply bool_decide_eq_true in Hl.
    - intros H [gate status] Hl. apply elem_of_range in Hl. apply bool_decide_eq_true.
      by eapply H. }
  assert (∀ g (after : list GateRecord), (∀ g', g' ∈ after → gr_Gate g' ≠ gr_Gate g) ↔
    (∀ g', g' ∈ after → bool_decide (gr_Gate g' = gr_Gate g) = false)) as Hafter.
  { intros g after. by setoid_rewrite bool_decide_eq_false. }
  setoid_rewrite Hafter. setoid_rewrite latest_gates_lookup. split.
  - intros H. split; [done|]. intros before g after E Ha.
    apply (H (gr_Gate g)). by rewrite E, last_filter by (done || by apply bool_decide_eq_true_2).
  - intros [_ H] gate status.
    destruct (last_match (λ g, bool_decide (gr_Gate g = gate)) gates)
      as [Hno|(before & g & after & E & Hg & Ha)]; [by rewrite filter_none|].
    rewrite E, last_filter by done. cbn. intros [= <-].
    apply bool_decide_eq_true in Hg. subst gate. by eapply H.
Qed.

(** ** Requests and completions *)

Inductive review_op :=
| OpRequest (now : Time) (task pr reviewType requestedBy channel : string)
| OpComplete (now : Time) (task pr reviewer verdict details channel : string)
| OpGate (now : Time) (task gate status details checkedBy channel : string).

Definition review_run (rs : ReviewStore) (op : review_op) : ReviewStore :=
  match op with
  | OpRequest now task pr reviewType requestedBy channel =>
      RecordRequest now rs task pr reviewType requestedBy channel
  | OpComplete now task pr reviewer verdict details channel =>
      RecordComplete now rs task pr reviewer verdict details channel
  | OpGate now task gate status details checkedBy channel =>
      RecordGate now rs task gate status details checkedBy channel
  end.

Definition requests (task : string) (op : review_op) : bool :=
  match op with
  | OpRequest _ t _ _ _ _ => bool_decide (t = task)
  | _ => false
  end.

Lemma iteration_run ops max task :
  let rs := foldl review_run (NewReviewStore max) ops in
  maxIterations rs = max ∧
  length (Reviews rs task) = count (requests task) ops ∧
  iteration rs task = wrap64 (Z.of_nat (count (requests task) ops)).
Proof.
  induction ops as [|op ops IH] using rev_ind; [done|]. rewrite foldl_snoc. cbn zeta.
  assert (count (requests task) (ops ++ [op]) =
    count (requests task) ops + (if requests task op then 1 else 0)) as ->.
  { unfold count. rewrite List.filter_app, length_app. cbn. by destruct (requests task op). }
  cbn zeta in IH. revert IH. generalize (foldl review_run (NewReviewStore max) ops).
  intros rs (Hm & Hl & Hi). unfold Reviews, iteration in *. destruct op; cbn.
  - case_bool_decide as Ht.
    + subst. rewrite !lookup_insert_eq. cbn. split_and!; [done|by rewrite length_app; unfold Reviews; rewrite Hl|].
      unfold iteration. rewrite Hi, wrap64_add_l. f_equal. lia.
    + rewrite !lookup_insert_ne by done. by rewrite Nat.add_0_r.
  - rewrite Nat.add_0_r. split_and!; [done| |done]. destruct (decide (task = task0)) as [->|].
    + rewrite lookup_alter_eq. destruct (reviews rs !! task0); cbn in *; [|done].
      by rewrite length_update_last.
    + by rewrite lookup_alter_ne.
  - by rewrite Nat.add_0_r.
Qed.

(** Escalation: whatever requests, completions and gate checks a store has
    seen, a task needs escalation exactly when a positive limit is set and more
    reviews than that were requested for it; a limit of 0 never escalates (as
    long as fewer than 2^63 reviews are requested). *)
Theorem NeedsEscalation_spec `{MR : MapRange} max ops task
    (Hsmall : (Z.of_nat (count (requests task) ops) <= max_int64)%Z) :
  rs_NeedsEscalation (Summary (foldl review_run (NewReviewStore max) ops) task) = true ↔
    (0 < max)%Z ∧ (max < Z.of_nat (count (requests task) ops))%Z.
Proof.
  destruct (iteration_run ops max task) as (Hm & _ & Hi). cbn. rewrite Hm, Hi.
  rewrite wrap64_id by (unfold int64_ok, min_int64, max_int64 in *; lia).
  by rewrite andb_true_iff, !bool_decide_eq_true.
Qed.

(** REVIEW-COMPLETE settles exactly one review: the most recent request of
    the task (and of the PR, when the message names one) that has no verdict
    yet; earlier and later ones keep their records. Without such a request
    nothing changes. *)
Theorem RecordComplete_spec now rs task pr reviewer verdict details channel :
  let rs' := RecordComplete now rs task pr reviewer verdict details channel in
  (∀ t, t ≠ task → Reviews rs' t = Reviews rs t) ∧
  ((∀ r, r ∈ Reviews rs task → pending_for task pr r = false) ∧ Reviews rs' task = Reviews rs task ∨
   ∃ before r after, Reviews rs task = before ++ r :: after ∧
     pending_for task pr r = true ∧ (∀ r', r' ∈ after → pending_for task pr r' = false) ∧
     Reviews rs' task = before ++ complete now reviewer verdict details r :: after).
Proof.
  intros rs'. split; [intros t Hne; unfold rs', Reviews; cbn; by rewrite lookup_alter_ne|].
  assert (Reviews rs' task = update_last (pending_for task pr)
    (complete now reviewer verdict details) (Reviews rs task)) as ->.
  { unfold rs', Reviews. cbn. rewrite lookup_alter_eq. by destruct (reviews rs !! task). }
  destruct (last_match (pending_for task pr) (Reviews rs task))
    as [Hno|(before & r & after & E & Hr & Ha)].
  - left. split; [done|]. by apply update_last_none.
  - right. exists before, r, after. split_and!; [done..|]. rewrite E. by apply update_last_found.
Qed.

Definition review_sample : list review_op :=
  [OpRequest 1 "t" "7" "security" "a" "#dev"; OpRequest 2 "u" "8" "" "a" "#dev";
   OpComplete 3 "t" "" "b" "approved" "" "#dev"; OpGate 4 "t" "coverage" "failed" "" "c" "#dev";
   OpRequest 5 "t" "7" "security" "a" "#dev"].

Lemma NeedsEscalation_spec_witness :
  rs_NeedsEscalation (Summary (foldl review_run (NewReviewStore 1) review_sample) "t") = true ↔
    (0 < 1)%Z ∧ (1 < Z.of_nat (count (requests "t") review_sample))%Z.
Proof. apply (NeedsEscalation_spec 1 review_sample "t"). vm_compute. discriminate. Defined.

Example review_sample_summary :
  Summary (foldl review_run (NewReviewStore 1) review_sample) "t" =
    {| rs_Task := "t"; rs_TotalReviews := 2; rs_PendingReviews := 1; rs_ApprovedReviews := 1;
       rs_AllGatesPassed := false; rs_IterationCount := 2; rs_NeedsEscalation := true |}.
Proof. vm_compute. reflexivity. Qed.
