(* ===== verification/Consensus.v ===== *)
(** * Votes and escalations: [internal/agent/consensus.go] *)

From S2P Require Import Prelude.

Record VoteRecord := {
  vr_Topic : string;
  vr_Nick : string;
  vr_Choice : string;
  vr_Channel : string;
  vr_VotedAt : Time
}.

Record TopicSummary := {
  ts_Topic : string;
  ts_Votes : gmap string nat;
  ts_TotalVotes : nat;
  ts_Resolved : bool;
  ts_Resolution : string
}.

Record EscalationRecord := {
  er_Task : string;
  er_ToNick : string;
  er_Reason : string;
  er_Severity : string;
  er_EscalatedBy : string;
  er_Channel : string;
  er_EscalatedAt : Time;
  er_Resolved : bool
}.

#[export] Instance EscalationRecord_eta : RecordEta EscalationRecord := λ r,
  {| er_Task := er_Task r; er_ToNick := er_ToNick r; er_Reason := er_Reason r;
     er_Severity := er_Severity r; er_EscalatedBy := er_EscalatedBy r;
     er_Channel := er_Channel r; er_EscalatedAt := er_EscalatedAt r;
     er_Resolved := er_Resolved r |}.

Record ConsensusStore := {
  votes : gmap string (gmap string VoteRecord);
  escalations : list EscalationRecord
}.

#[export] Instance ConsensusStore_eta : RecordEta ConsensusStore := λ r,
  {| votes := votes r; escalations := escalations r |}.

Definition NewConsensusStore : ConsensusStore := {| votes := ∅; escalations := [] |}.

(** The votes on a topic; a missing key reads as a nil map. *)
Definition votes_on (cs : ConsensusStore) (topic : string) : gmap string VoteRecord :=
  default ∅ (votes cs !! topic).

Definition RecordVote (now : Time) (cs : ConsensusStore) (topic nick choice channel : string)
    : ConsensusStore :=
  cs <| votes := <[topic := <[nick := {| vr_Topic := topic; vr_Nick := nick;
          vr_Choice := choice; vr_Channel := channel; vr_VotedAt := now |}]>
          (votes_on cs topic)]> (votes cs) |>.

(** The body of the loop over the votes; a missing choice counts from 0. *)
Definition tally (s : TopicSummary) (v : VoteRecord) : TopicSummary :=
  {| ts_Topic := ts_Topic s;
     ts_Votes := <[vr_Choice v := S (default 0 (ts_Votes s !! vr_Choice v))]> (ts_Votes s);
     ts_TotalVotes := S (ts_TotalVotes s);
     ts_Resolved := ts_Resolved s;
     ts_Resolution := ts_Resolution s |}.

Definition summarize (topic : string) (vs : list VoteRecord) : TopicSummary :=
  foldl tally {| ts_Topic := topic; ts_Votes := ∅; ts_TotalVotes := 0;
                 ts_Resolved := false; ts_Resolution := "" |} vs.

Definition TopicSummaryFor `{MR : MapRange} (cs : ConsensusStore) (topic : string)
    : TopicSummary :=
  summarize topic (range 0 (votes_on cs topic)).*2.

Definition ListTopics `{MR : MapRange} (cs : ConsensusStore) : list TopicSummary :=
  imap (λ i kv, summarize kv.1 (range (S i) kv.2).*2) (range 0 (votes cs)).

Definition RecordEscalation (now : Time) (cs : ConsensusStore)
    (task toNick reason severity escalatedBy channel : string) : ConsensusStore :=
  cs <| escalations := escalations cs ++
    [{| er_Task := task; er_ToNick := toNick; er_Reason := reason; er_Severity := severity;
        er_EscalatedBy := escalatedBy; er_Channel := channel; er_EscalatedAt := now;
        er_Resolved := false |}] |>.

Definition ResolveEscalation (cs : ConsensusStore) (task : string) : ConsensusStore :=
  cs <| escalations := update_last
    (λ e, bool_decide (er_Task e = task) && negb (er_Resolved e))
    (λ e, e <| er_Resolved := true |>) (escalations cs) |>.

Definition ListEscalations (cs : ConsensusStore) : list EscalationRecord := escalations cs.

(** ** Counting *)

Lemma foldl_tally vs s :
  ts_TotalVotes (foldl tally s vs) = ts_TotalVotes s + length vs ∧
  ∀ c, default 0 (ts_Votes (foldl tally s vs) !! c) =
    default 0 (ts_Votes s !! c) + count (λ v, bool_decide (vr_Choice v = c)) vs.
Proof.
  revert s. induction vs as [|v vs IH]; intros s.
  - split; [|intros c]; unfold count; cbn; lia.
  - cbn [foldl]. destruct (IH (tally s v)) as [-> Hc]. split; [cbn; lia|].
    intros c. rewrite Hc, count_cons. cbn. case_bool_decide as E.
    + subst. rewrite lookup_insert_eq. cbn. lia.
    + rewrite lookup_insert_ne by done. lia.
Qed.

(** ** Histories of votes *)

Record ballot := {
  b_now : Time;
  b_topic : string;
  b_nick : string;
  b_choice : string;
  b_channel : string
}.

Definition vote_run (cs : ConsensusStore) (b : ballot) : ConsensusStore :=
  RecordVote (b_now b) cs (b_topic b) (b_nick b) (b_choice b) (b_channel b).

(** The choice of the last ballot of a nick on a topic. *)
Definition last_choice (bs : list ballot) (topic nick : string) : option string :=
  b_choice <$> last (List.filter
    (λ b, bool_decide (b_topic b = topic) && bool_decide (b_nick b = nick)) bs).

Lemma votes_on_run bs topic nick :
  vr_Choice <$> votes_on (foldl vote_run NewConsensusStore bs) topic !! nick =
    last_choice bs topic nick.
Proof.
  unfold last_choice. induction bs as [|b bs IH] using rev_ind; [done|].
  rewrite foldl_snoc, List.filter_app. cbn.
  unfold votes_on, vote_run, RecordVote. cbn. case_bool_decide as Ht; cbn.
  - rewrite <- Ht, lookup_insert_eq. cbn. case_bool_decide as Hn; cbn.
    + by rewrite <- Hn, lookup_insert_eq, last_snoc.
    + rewrite lookup_insert_ne, app_nil_r by done. rewrite <- Ht in IH. apply IH.
  - rewrite lookup_insert_ne, app_nil_r by done. apply IH.
Qed.

(** One agent, one vote: after any sequence of ballots the total for a
    topic is the number of different nicks that voted on it, and a choice has
    as many votes as there are nicks whose last ballot on the topic names it;
    earlier ballots of a nick and ballots on other topics do not count, and
    the order in which the maps are visited does not matter. *)
Theorem TopicSummaryFor_spec `{MR : MapRange} bs topic (voters : list string)
    (Hnd : NoDup voters)
    (Hall : ∀ nick, nick ∈ voters ↔ is_Some (last_choice bs topic nick)) :
  let s := TopicSummaryFor (foldl vote_run NewConsensusStore bs) topic in
  ts_TotalVotes s = length voters ∧
  ∀ c, default 0 (ts_Votes s !! c) =
    count (λ nick, bool_decide (last_choice bs topic nick = Some c)) voters.
Proof.
  set (m := votes_on (foldl vote_run NewConsensusStore bs) topic).
  assert (∀ nick, vr_Choice <$> m !! nick = last_choice bs topic nick) as Hm.
  { intros nick. apply votes_on_run. }
  assert ((range 0 m).*1 ≡ₚ voters) as Hp.
  { apply NoDup_Permutation; [apply NoDup_fst_range|done|]. intros nick.
    by rewrite elem_of_range_fst, Hall, <- Hm, fmap_is_Some. }
  unfold TopicSummaryFor. fold m. unfold summarize.
  destruct (foldl_tally (range 0 m).*2 {| ts_Topic := topic; ts_Votes := ∅; ts_TotalVotes := 0;
    ts_Resolved := false; ts_Resolution := "" |}) as [-> Hc]. cbn in Hc |- *. split.
  - by rewrite length_fmap, <- (length_fmap fst (range 0 m)), Hp.
  - intros c. rewrite Hc, lookup_empty. cbn. rewrite <- (count_Permutation _ _ _ Hp).
    assert (∀ kv, kv ∈ range 0 m → last_choice bs topic kv.1 = Some (vr_Choice kv.2)) as Hr.
    { intros [k v] Hkv%elem_of_range. cbn. by rewrite <- Hm, Hkv. }
    revert Hr. generalize (range 0 m). intros l Hr.
    induction l as [|kv l IH]; [done|]. rewrite !fmap_cons, !count_cons.
    rewrite (Hr kv) by left. rewrite IH by (intros; apply Hr; by right). f_equal.
    rewrite (bool_decide_ext (Some (vr_Choice kv.2) = Some c) (vr_Choice kv.2 = c)); [done|].
    split; congruence.
Qed.

Definition sample_ballots : list ballot :=
  [{| b_now := 1; b_topic := "db"; b_nick := "a"; b_choice := "sql"; b_channel := "#dev" |};
   {| b_now := 2; b_topic := "db"; b_nick := "b"; b_choice := "kv"; b_channel := "#dev" |};
   {| b_now := 3; b_topic := "ui"; b_nick := "b"; b_choice := "web"; b_channel := "#dev" |};
   {| b_now := 4; b_topic := "db"; b_nick := "a"; b_choice := "kv"; b_channel := "#dev" |}].

Lemma TopicSummaryFor_spec_witness :
  let s := TopicSummaryFor (foldl vote_run NewConsensusStore sample_ballots) "db" in
  ts_TotalVotes s = 2 ∧
  ∀ c, default 0 (ts_Votes s !! c) =
    count (λ nick, bool_decide (last_choice sample_ballots "db" nick = Some c)) ["a"; "b"].
Proof.
  apply (TopicSummaryFor_spec sample_ballots "db" ["a"; "b"]).
  - apply (bool_decide_eq_true_1 _). reflexivity.
  - intros nick. rewrite !elem_of_cons. unfold last_choice.
    destruct (decide (nick = "a")) as [->|Ha]; [split; intros _; [by exists "kv"|by left]|].
    destruct (decide (nick = "b")) as [->|Hb]; [split; intros _; [by exists "kv"|by right; left]|].
    cbn. rewrite !(bool_decide_eq_false_2 (_ = nick)) by congruence. cbn. split.
    + intros [?|[?|[]%not_elem_of_nil]]; congruence.
    + by intros [? ?].
Defined.

Example sample_kv :
  ts_Votes (TopicSummaryFor (foldl vote_run NewConsensusStore sample_ballots) "db") !! "kv" = Some 2.
Proof. vm_compute. reflexivity. Qed.
