(* ===== verification/Workflow.v ===== *)
(** * The workflow engine: [internal/agent/workflow.go]

    Definitions are handed to the engine and out of it by pointer; the model
    takes them as values that nobody changes after registration. The instance
    that [StartWorkflow] returns is the stored one; callers read it only. *)

From S2P Require Import Prelude.

Record WorkflowStage := {
  st_Name : string;
  st_RequiredGates : list string;
  st_RequiredReviews : list string;
  st_NextStage : string
}.

Record WorkflowDefinition := {
  wd_Name : string;
  wd_Stages : list WorkflowStage
}.

Record WorkflowInstance := {
  wi_Name : string;
  wi_Task : string;
  wi_CurrentStage : string;
  wi_Completed : bool
}.

#[export] Instance WorkflowInstance_eta : RecordEta WorkflowInstance := λ r,
  {| wi_Name := wi_Name r; wi_Task := wi_Task r;
     wi_CurrentStage := wi_CurrentStage r; wi_Completed := wi_Completed r |}.

Record WorkflowEngine := {
  definitions : gmap string WorkflowDefinition;
  instances : gmap string WorkflowInstance
}.

#[export] Instance WorkflowEngine_eta : RecordEta WorkflowEngine := λ r,
  {| definitions := definitions r; instances := instances r |}.

Definition GatedPipelineWorkflow : WorkflowDefinition :=
  {| wd_Name := "gated-pipeline";
     wd_Stages :=
       [{| st_Name := "implement"; st_RequiredGates := []; st_RequiredReviews := [];
           st_NextStage := "review" |};
        {| st_Name := "review"; st_RequiredGates := ["monitoring"; "coverage"];
           st_RequiredReviews := ["architecture"; "security"]; st_NextStage := "merge" |};
        {| st_Name := "merge"; st_RequiredGates := []; st_RequiredReviews := [];
           st_NextStage := "release" |};
        {| st_Name := "release"; st_RequiredGates := []; st_RequiredReviews := [];
           st_NextStage := "cleanup" |};
        {| st_Name := "cleanup"; st_RequiredGates := []; st_RequiredReviews := [];
           st_NextStage := "" |}] |}.

Definition CollaborativeHandoffWorkflow : WorkflowDefinition :=
  {| wd_Name := "collaborative-handoff";
     wd_Stages :=
       [{| st_Name := "implement"; st_RequiredGates := []; st_RequiredReviews := [];
           st_NextStage := "checkpoint" |};
        {| st_Name := "checkpoint"; st_RequiredGates := []; st_RequiredReviews := [];
           st_NextStage := "handoff" |};
        {| st_Name := "handoff"; st_RequiredGates := []; st_RequiredReviews := [];
           st_NextStage := "continue" |};
        {| st_Name := "continue"; st_RequiredGates := []; st_RequiredReviews := [];
           st_NextStage := "complete" |};
        {| st_Name := "complete"; st_RequiredGates := []; st_RequiredReviews := [];
           st_NextStage := "" |}] |}.

Definition NewWorkflowEngine : WorkflowEngine :=
  {| definitions := <["collaborative-handoff" := CollaborativeHandoffWorkflow]>
       (<["gated-pipeline" := GatedPipelineWorkflow]> ∅);
     instances := ∅ |}.

Definition RegisterDefinition (we : WorkflowEngine) (def : WorkflowDefinition) : WorkflowEngine :=
  we <| definitions := <[wd_Name def := def]> (definitions we) |>.

Definition StartWorkflow (we : WorkflowEngine) (workflowName task : string)
    : WorkflowEngine * option WorkflowInstance :=
  match definitions we !! workflowName with
  | None => (we, None)
  | Some def =>
      match wd_Stages def with
      | [] => (we, None)
      | stage :: _ =>
          let inst := {| wi_Name := workflowName; wi_Task := task;
                         wi_CurrentStage := st_Name stage; wi_Completed := false |} in
          (we <| instances := <[task := inst]> (instances we) |>, Some inst)
      end
  end.

(** The loop over the stages. *)
Fixpoint advance (stages : list WorkflowStage) (inst : WorkflowInstance)
    : WorkflowInstance * string :=
  match stages with
  | [] => (inst, "")
  | stage :: stages =>
      if bool_decide (st_Name stage = wi_CurrentStage inst) then
        if negb (bool_decide (st_NextStage stage = "")) then
          (inst <| wi_CurrentStage := st_NextStage stage |>, st_NextStage stage)
        else match stages with
             | next :: _ => (inst <| wi_CurrentStage := st_Name next |>, st_Name next)
             | [] => (inst <| wi_Completed := true |>, "")
             end
      else advance stages inst
  end.

Definition AdvanceStage (we : WorkflowEngine) (task : string) : WorkflowEngine * string :=
  match instances we !! task with
  | None => (we, "")
  | Some inst =>
      if wi_Completed inst then (we, "")
      else match definitions we !! wi_Name inst with
           | None => (we, "")
           | Some def =>
               let '(inst, r) := advance (wd_Stages def) inst in
               (we <| instances := <[task := inst]> (instances we) |>, r)
           end
  end.

Definition GetInstance (we : WorkflowEngine) (task : string) : option WorkflowInstance :=
  instances we !! task.

Definition GetDefinition (we : WorkflowEngine) (name : string) : option WorkflowDefinition :=
  definitions we !! name.

Definition CurrentStage (we : WorkflowEngine) (task : string) : option WorkflowStage :=
  inst ← instances we !! task;
  def ← definitions we !! wi_Name inst;
  find (λ stage, bool_decide (st_Name stage = wi_CurrentStage inst)) (wd_Stages def).

Definition ListDefinitions `{MR : MapRange} (we : WorkflowEngine) : list WorkflowDefinition :=
  (range 0 (definitions we)).*2.

Definition ListInstances `{MR : MapRange} (we : WorkflowEngine) : list WorkflowInstance :=
  (range 0 (instances we)).*2.

(** ** Workflows that run forward *)

(** Stages with different names, each of which leads to a later one. *)
Record forward (stages : list WorkflowStage) : Prop := {
  fw_names : NoDup (st_Name <$> stages);
  fw_next : ∀ i stage, stages !! i = Some stage → st_NextStage stage ≠ "" →
    ∃ j stage', i < j ∧ stages !! j = Some stage' ∧ st_Name stage' = st_NextStage stage
}.

Lemma advance_skip before stages inst :
  wi_CurrentStage inst ∉ st_Name <$> before →
  advance (before ++ stages) inst = advance stages inst.
Proof.
  induction before as [|stage before IH]; [done|]. cbn. intros Hn.
  rewrite bool_decide_eq_false_2; [apply IH|]; intros ?; apply Hn; rewrite elem_of_cons; auto.
Qed.

(** One step of a workflow that runs forward: to a later stage, or to the end. *)
Lemma advance_forward stages i stage inst :
  forward stages → stages !! i = Some stage → st_Name stage = wi_CurrentStage inst →
  (∃ j stage', i < j ∧ stages !! j = Some stage' ∧
     advance stages inst = (inst <| wi_CurrentStage := st_Name stage' |>, st_Name stage')) ∨
  (S i = length stages ∧ advance stages inst = (inst <| wi_Completed := true |>, "")).
Proof.
  intros [Hnd Hnext] Hi Hs.
  pose proof (take_drop_middle _ _ _ Hi) as E.
  assert (advance stages inst = advance (stage :: drop (S i) stages) inst) as ->.
  { rewrite <- E at 1. apply advance_skip. rewrite <- Hs.
    rewrite <- E, fmap_app, fmap_cons in Hnd. apply NoDup_app in Hnd as (_ & Hd & _).
    intros Hin. apply (Hd _ Hin). by left. }
  cbn [advance]. rewrite bool_decide_eq_true_2 by done.
  case_bool_decide as Hn; cbn.
  - destruct (drop (S i) stages) as [|next rest] eqn:Ed.
    + right. split; [|done]. apply lookup_lt_Some in Hi.
      assert (length (drop (S i) stages) = 0) as Hl by by rewrite Ed.
      rewrite length_drop in Hl. lia.
    + left. exists (S i), next. split_and!; [lia| |done].
      rewrite <- (Nat.add_0_r (S i)), <- lookup_drop, Ed. done.
  - left. destruct (Hnext i stage Hi Hn) as (j & stage' & Hlt & Hj & Hname).
    exists j, stage'. by rewrite Hname.
Qed.

Definition advance_n (we : WorkflowEngine) (task : string) (n : nat) : WorkflowEngine :=
  Nat.iter n (λ we, (AdvanceStage we task).1) we.

Lemma advance_n_S we task n :
  advance_n we task (S n) = advance_n (AdvanceStage we task).1 task n.
Proof. unfold advance_n. exact (Nat.iter_succ_r n (λ we, (AdvanceStage we task).1) we). Qed.

(** What [AdvanceStage] reports: the stage of the instance, unless completed. *)
Definition stage_reported (inst : option WorkflowInstance) : string :=
  match inst with
  | Some inst => if wi_Completed inst then "" else wi_CurrentStage inst
  | None => ""
  end.

Lemma AdvanceStage_frame we task :
  definitions (AdvanceStage we task).1 = definitions we ∧
  ∀ t, t ≠ task → instances (AdvanceStage we task).1 !! t = instances we !! t.
Proof.
  unfold AdvanceStage. destruct (instances we !! task) as [inst|]; [|done].
  destruct (wi_Completed inst); [done|].
  destruct (definitions we !! wi_Name inst) as [def|]; [|done].
  destruct (advance _ _). cbn. split; [done|]. intros t Ht. by rewrite lookup_insert_ne.
Qed.

Section run.
Context (def : WorkflowDefinition) (workflowName task : string).
Context (Hfw : forward (wd_Stages def)).

Definition in_stage (stage : WorkflowStage) : WorkflowInstance :=
  {| wi_Name := workflowName; wi_Task := task;
     wi_CurrentStage := st_Name stage; wi_Completed := false |}.

Lemma advance_run we i stage :
  definitions we !! workflowName = Some def →
  wd_Stages def !! i = Some stage → GetInstance we task = Some (in_stage stage) →
  ∃ n, n ≤ length (wd_Stages def) - i ∧
    wi_Completed <$> GetInstance (advance_n we task n) task = Some true ∧
    ∀ m, m < n → (∃ j stage', i + m ≤ j ∧ wd_Stages def !! j = Some stage' ∧
        GetInstance (advance_n we task m) task = Some (in_stage stage')) ∧
      (AdvanceStage (advance_n we task m) task).2 =
        stage_reported (GetInstance (advance_n we task (S m)) task).
Proof.
  remember (length (wd_Stages def) - i) as k eqn:Hk. revert we i stage Hk.
  induction k as [k IH] using lt_wf_ind. intros we i stage Hk Hdef Hi Hinst.
  pose proof (lookup_lt_Some _ _ _ Hi) as Hlt.
  destruct (advance_forward (wd_Stages def) i stage (in_stage stage) Hfw Hi eq_refl)
    as [(j & stage' & Hij & Hj & E)|[Hlen E]].
  - assert (AdvanceStage we task =
      (we <| instances := <[task := in_stage stage']> (instances we) |>, st_Name stage')) as Ea.
    { unfold AdvanceStage. unfold GetInstance in Hinst. rewrite Hinst. cbn [wi_Completed in_stage].
      cbn [wi_Name in_stage]. by rewrite Hdef, E. }
    pose proof (lookup_lt_Some _ _ _ Hj) as Hltj.
    destruct (IH (length (wd_Stages def) - j) ltac:(lia) (AdvanceStage we task).1 j stage' eq_refl)
      as (n & Hn & Hdone & Hrun); [by rewrite Ea|done|by rewrite Ea; apply lookup_insert_eq|].
    exists (S n). split_and!; [lia|by rewrite advance_n_S|].
    intros [|m] Hm.
    + split; [exists i, stage; split_and!; [lia|done..]|].
      rewrite advance_n_S. cbn. rewrite Ea. unfold GetInstance. cbn. by rewrite lookup_insert_eq.
    + rewrite (advance_n_S we task m), (advance_n_S we task (S m)). destruct (Hrun m ltac:(lia)) as [(j' & s' & Hle & Hj' & Hs') Hrep].
      split; [exists j', s'; split_and!; [lia|done..]|done].
  - assert (AdvanceStage we task =
      (we <| instances := <[task := in_stage stage <| wi_Completed := true |>]>
        (instances we) |>, "")) as Ea.
    { unfold AdvanceStage. unfold GetInstance in Hinst. rewrite Hinst. cbn [wi_Completed in_stage].
      cbn [wi_Name in_stage]. by rewrite Hdef, E. }
    exists 1. assert (GetInstance (advance_n we task 1) task =
      Some (in_stage stage <| wi_Completed := true |>)) as E1.
    { rewrite advance_n_S, Ea. apply lookup_insert_eq. }
    split_and!; [lia|by rewrite E1|]. intros m Hm. replace m with 0 by lia.
    split; [exists i, stage; split_and!; [lia|done..]|]. rewrite E1. cbn. by rewrite Ea.
Qed.
End run.

(** Workflows finish: when the stages of a definition have different names
    and every [NextStage] names a later stage, a workflow that is started and
    advanced is completed after at most as many advances as there are stages;
    until then it is always in one of the stages, after [m] advances at least
    the [m]-th, each advance reports the stage it moves to (or nothing when it
    completes), and neither the definitions nor the workflows of other tasks
    are touched. *)
Theorem workflow_completes we workflowName task def
    (Hdef : GetDefinition we workflowName = Some def) (Hne : wd_Stages def ≠ [])
    (Hfw : forward (wd_Stages def)) :
  let run := advance_n (StartWorkflow we workflowName task).1 task in
  (∃ n, n ≤ length (wd_Stages def) ∧ wi_Completed <$> GetInstance (run n) task = Some true ∧
    ∀ m, m < n → (∃ j stage, m ≤ j ∧ wd_Stages def !! j = Some stage ∧
        GetInstance (run m) task = Some (in_stage workflowName task stage)) ∧
      (AdvanceStage (run m) task).2 = stage_reported (GetInstance (run (S m)) task)) ∧
  ∀ m, definitions (run m) = definitions we ∧
    ∀ t, t ≠ task → GetInstance (run m) t = GetInstance we t.
Proof.
  intros run. unfold GetDefinition in Hdef.
  destruct (wd_Stages def) as [|stage stages] eqn:Es; [done|].
  assert ((StartWorkflow we workflowName task).1 = we <| instances :=
    <[task := in_stage workflowName task stage]> (instances we) |>) as Est.
  { unfold StartWorkflow. by rewrite Hdef, Es. }
  split.
  - destruct (advance_run def workflowName task ltac:(by rewrite Es)
      (StartWorkflow we workflowName task).1 0 stage) as (n & Hn & Hdone & Hrun);
      [by rewrite Est|by rewrite Es|rewrite Est; apply lookup_insert_eq|].
    rewrite Es in Hn, Hrun. exists n. split_and!; [lia|done|]. intros m Hm. by apply Hrun.
  - intros m. unfold run. induction m as [|m [IHd IHi]].
    + cbn. rewrite Est. cbn. split; [done|]. intros t Ht. unfold GetInstance. cbn.
      by rewrite lookup_insert_ne.
    + destruct (AdvanceStage_frame (advance_n (StartWorkflow we workflowName task).1 task m) task)
        as [Hd Hf]. split; [by rewrite <- IHd, <- Hd|].
      intros t Ht. rewrite <- (IHi t Ht). by apply Hf.
Qed.

(** The built-in definitions run forward. *)
Definition forward_test (stages : list WorkflowStage) : bool :=
  bool_decide (NoDup (st_Name <$> stages)) &&
  forallb (λ i, match stages !! i with
    | None => true
    | Some stage => bool_decide (st_NextStage stage = "") ||
        existsb (λ stage', bool_decide (st_Name stage' = st_NextStage stage)) (drop (S i) stages)
    end) (seq 0 (length stages)).

Lemma forward_test_spec stages : forward_test stages = true → forward stages.
Proof.
  unfold forward_test. rewrite andb_true_iff, bool_decide_eq_true, forallb_forall.
  intros [Hnd Hall]. split; [done|]. intros i stage Hi Hne.
  pose proof (lookup_lt_Some _ _ _ Hi). specialize (Hall i).
  rewrite Hi, bool_decide_eq_false_2, orb_false_l, existsb_exists in Hall by done.
  destruct Hall as (stage' & Hin & Hname); [apply in_seq; lia|].
  apply list_elem_of_In, list_elem_of_lookup in Hin as [k Hk]. rewrite lookup_drop in Hk.
  exists (S i + k), stage'. apply bool_decide_eq_true in Hname. split_and!; [lia|done..].
Qed.

Lemma workflow_completes_witness :
  let run := advance_n (StartWorkflow NewWorkflowEngine "gated-pipeline" "t").1 "t" in
  (∃ n, n ≤ 5 ∧ wi_Completed <$> GetInstance (run n) "t" = Some true ∧
    ∀ m, m < n → (∃ j stage, m ≤ j ∧ wd_Stages GatedPipelineWorkflow !! j = Some stage ∧
        GetInstance (run m) "t" = Some (in_stage "gated-pipeline" "t" stage)) ∧
      (AdvanceStage (run m) "t").2 = stage_reported (GetInstance (run (S m)) "t")) ∧
  ∀ m, definitions (run m) = definitions NewWorkflowEngine ∧
    ∀ t, t ≠ "t" → GetInstance (run m) t = GetInstance NewWorkflowEngine t.
Proof.
  apply (workflow_completes NewWorkflowEngine "gated-pipeline" "t" GatedPipelineWorkflow).
  - reflexivity.
  - discriminate.
  - apply forward_test_spec. vm_compute. reflexivity.
Defined.

Example gated_pipeline_stages :
  let we := (StartWorkflow NewWorkflowEngine "gated-pipeline" "t").1 in
  (λ m, (AdvanceStage (advance_n we "t" m) "t").2) <$> seq 0 6 =
    ["review"; "merge"; "release"; "cleanup"; ""; ""].
Proof. vm_compute. reflexivity. Qed.
