(* ===== verification/Discovery.v ===== *)
(** * Agent discovery: [internal/agent/discovery.go]

    Entries are copied on the way in and out. [strings.ToLower] maps every
    rune by Unicode's tables; the lookup by expertise only compares its results
    with one another, and the function is an argument ([lower]). *)

From S2P Require Import Prelude GoStrings.

Record AgentCapability := {
  ac_Nick : string;
  ac_Expertise : list string;
  ac_Channels : list string;
  ac_CurrentTask : string;
  ac_UpdatedAt : Time;
  ac_ExpiresAt : Time;
  ac_Role : string;
  ac_Load : Z;
  ac_MaxLoad : Z;
  ac_ActiveTasks : list string
}.

#[export] Instance AgentCapability_eta : RecordEta AgentCapability := λ r,
  {| ac_Nick := ac_Nick r; ac_Expertise := ac_Expertise r; ac_Channels := ac_Channels r;
     ac_CurrentTask := ac_CurrentTask r; ac_UpdatedAt := ac_UpdatedAt r;
     ac_ExpiresAt := ac_ExpiresAt r; ac_Role := ac_Role r; ac_Load := ac_Load r;
     ac_MaxLoad := ac_MaxLoad r; ac_ActiveTasks := ac_ActiveTasks r |}.

Record DiscoveryStore := {
  ds_agents : gmap string AgentCapability;
  ds_ttl : Duration
}.

#[export] Instance DiscoveryStore_eta : RecordEta DiscoveryStore := λ r,
  {| ds_agents := ds_agents r; ds_ttl := ds_ttl r |}.

(** [5 * time.Minute] *)
Definition default_ttl : Duration := 300000000000.

Definition NewDiscoveryStore (ttl : Duration) : DiscoveryStore :=
  {| ds_agents := ∅; ds_ttl := if (ttl <=? 0)%Z then default_ttl else ttl |}.

Definition Update (now : Time) (ds : DiscoveryStore) (cap : AgentCapability) : DiscoveryStore :=
  let cp := if IsZero (ac_UpdatedAt cap) then cap <| ac_UpdatedAt := now |> else cap in
  let cp := if IsZero (ac_ExpiresAt cp)
            then cp <| ac_ExpiresAt := (ac_UpdatedAt cp + ds_ttl ds)%Z |> else cp in
  ds <| ds_agents := <[ac_Nick cp := cp]> (ds_agents ds) |>.

(** [now.After(cap.ExpiresAt)] *)
Definition expired (now : Time) (cap : AgentCapability) : bool := (ac_ExpiresAt cap <? now)%Z.

Definition ds_Get (now : Time) (ds : DiscoveryStore) (nick : string) : option AgentCapability :=
  match ds_agents ds !! nick with
  | None => None
  | Some cap => if expired now cap then None else Some cap
  end.

Section store.
Context `{MR : MapRange}.

Definition FindByExpertise (lower : string → string) (now : Time) (ds : DiscoveryStore)
    (tag : string) : list AgentCapability :=
  let tag := lower tag in
  List.filter (λ cap, negb (expired now cap) &&
      existsb (λ e, bool_decide (lower e = tag)) (ac_Expertise cap))
    (range 0 (ds_agents ds)).*2.

Definition ListActive (now : Time) (ds : DiscoveryStore) : list AgentCapability :=
  List.filter (λ cap, negb (expired now cap)) (range 0 (ds_agents ds)).*2.

Definition prune_entry (now : Time) (agents : gmap string AgentCapability)
    (kv : string * AgentCapability) : gmap string AgentCapability :=
  if expired now kv.2 then delete kv.1 agents else agents.

Definition Prune (now : Time) (ds : DiscoveryStore) : DiscoveryStore :=
  ds <| ds_agents := foldl (prune_entry now) (ds_agents ds) (range 0 (ds_agents ds)) |>.

Lemma lookup_Prune now ds nick :
  ds_agents (Prune now ds) !! nick = ds_Get now ds nick.
Proof.
  unfold ds_Get, Prune. cbn.
  assert (∀ l m, foldl (prune_entry now) m l !! nick =
    if existsb (λ kv, bool_decide (kv.1 = nick) && expired now kv.2) l
    then None else m !! nick) as Hfold.
  { induction l as [|[k cap] l IH]; intros m; [done|]. cbn [foldl existsb]. rewrite IH.
    unfold prune_entry. cbn [fst snd]. destruct (expired now cap).
    - rewrite andb_true_r. case_bool_decide as E; cbn.
      + subst. rewrite lookup_delete_eq. by destruct (existsb _ _).
      + by rewrite lookup_delete_ne.
    - by rewrite andb_false_r. }
  rewrite Hfold. destruct (existsb _ _) eqn:Hex.
  - apply existsb_exists in Hex as ([k cap] & Hin & Hcap). apply list_elem_of_In in Hin.
    apply elem_of_range in Hin. cbn in Hcap. rewrite andb_true_iff, bool_decide_eq_true in Hcap.
    destruct Hcap as [<- Hcap]. by rewrite Hin, Hcap.
  - destruct (ds_agents ds !! nick) as [cap|] eqn:E; [|done].
    rewrite existsb_false_elem in Hex. specialize (Hex (nick, cap)).
    rewrite elem_of_range in Hex. specialize (Hex E). cbn in Hex.
    rewrite bool_decide_eq_true_2 in Hex by done. cbn in Hex. by rewrite Hex.
Qed.

Lemma elem_of_ListActive now ds cap :
  cap ∈ ListActive now ds ↔ ∃ nick, ds_Get now ds nick = Some cap.
Proof.
  unfold ListActive, ds_Get. rewrite elem_of_filter_bool, negb_true_iff, list_elem_of_fmap. split.
  - intros [([k c] & -> & Hin%elem_of_range) He]. exists k. cbn in *. by rewrite Hin, He.
  - intros [k Hk]. destruct (ds_agents ds !! k) as [c|] eqn:E; [|done].
    destruct (expired now c) eqn:He; [done|]. injection Hk as <-.
    split; [|done]. exists (k, c). by rewrite elem_of_range.
Qed.

(** Pruning is invisible: it leaves exactly the entries that have not
    expired, and at that moment or any later one the queries give the same
    answers with or without it. *)
Theorem Prune_invisible now later ds nick (Hle : (now <= later)%Z) :
  ds_Get later (Prune now ds) nick = ds_Get later ds nick ∧
  (∀ cap, cap ∈ ListActive later (Prune now ds) ↔ cap ∈ ListActive later ds) ∧
  (∀ cap, ds_agents (Prune now ds) !! nick = Some cap → expired now cap = false).
Proof.
  assert (∀ nick, ds_Get later (Prune now ds) nick = ds_Get later ds nick) as Hget.
  { clear nick. intros nick. unfold ds_Get at 1. rewrite lookup_Prune. unfold ds_Get.
    destruct (ds_agents ds !! nick) as [cap|]; [|done].
    destruct (expired now cap) eqn:He; [|done].
    assert (expired later cap = true) as ->; [|done]. unfold expired in *. lia. }
  split_and!; [done| |].
  - intros cap. rewrite !elem_of_ListActive. by setoid_rewrite Hget.
  - intros cap. rewrite lookup_Prune. unfold ds_Get.
    destruct (ds_agents ds !! nick) as [c|]; [|done].
    destruct (expired now c) eqn:He; [done|]. by intros [= <-].
Qed.
End store.

(** Time to live: an announcement without an expiry of its own (none on
    the wire has one) is visible from the time it carries, or from the time of
    the update when it carries none, for the store's positive TTL and not
    longer; a newer announcement of the nick replaces it, and the other agents'
    entries are untouched. *)
Theorem Update_ttl ttl caps now cap t
    (Hexp : ac_ExpiresAt cap = 0%Z) :
  let ds := foldl (λ ds c, Update (c : Time * AgentCapability).1 ds c.2)
              (NewDiscoveryStore ttl) caps in
  let since := if IsZero (ac_UpdatedAt cap) then now else ac_UpdatedAt cap in
  (0 < ds_ttl ds)%Z ∧
  ds_Get t (Update now ds cap) (ac_Nick cap) =
    (if (t <=? since + ds_ttl ds)%Z
     then Some (cap <| ac_UpdatedAt := since |> <| ac_ExpiresAt := (since + ds_ttl ds)%Z |>)
     else None) ∧
  ∀ nick, nick ≠ ac_Nick cap → ds_Get t (Update now ds cap) nick = ds_Get t ds nick.
Proof.
  assert (ds_ttl (foldl (λ ds c, Update (c : Time * AgentCapability).1 ds c.2)
      (NewDiscoveryStore ttl) caps) = ds_ttl (NewDiscoveryStore ttl)) as Httl.
  { generalize (NewDiscoveryStore ttl). induction caps as [|c caps IH]; intros ds; [done|].
    cbn [foldl]. by rewrite IH. }
  cbn zeta. split_and!.
  - rewrite Httl. cbn. destruct (Z.leb_spec ttl 0); [done|lia].
  - generalize (foldl (λ ds c, Update (c : Time * AgentCapability).1 ds c.2)
      (NewDiscoveryStore ttl) caps). intros ds. unfold ds_Get, Update.
    destruct cap as [cn ce cc ct cu cx cr cl cm ca]. cbn in Hexp. subst cx.
    cbn [ac_UpdatedAt ac_Nick]. destruct (IsZero cu); cbn [ac_ExpiresAt];
      change (IsZero 0) with true; cbn;
      rewrite lookup_insert_eq; unfold expired; cbn; by rewrite Z.ltb_antisym; destruct (_ <=? _)%Z.
  - intros nick Hne. unfold ds_Get, Update. cbn.
    repeat (destruct (IsZero _); cbn); by rewrite lookup_insert_ne.
Qed.

Definition sample_cap (updated : Time) : AgentCapability :=
  {| ac_Nick := "a"; ac_Expertise := ["Go"]; ac_Channels := []; ac_CurrentTask := "";
     ac_UpdatedAt := updated; ac_ExpiresAt := 0; ac_Role := ""; ac_Load := 0; ac_MaxLoad := 0;
     ac_ActiveTasks := [] |}.

Lemma Prune_invisible_witness :
  let ds := Update 5 (NewDiscoveryStore 10) (sample_cap 0) in
  ds_Get 20 (Prune 16 ds) "a" = ds_Get 20 ds "a" ∧
  (∀ cap, cap ∈ ListActive 20 (Prune 16 ds) ↔ cap ∈ ListActive 20 ds) ∧
  (∀ cap, ds_agents (Prune 16 ds) !! "a" = Some cap → expired 16 cap = false).
Proof. apply (Prune_invisible 16 20 (Update 5 (NewDiscoveryStore 10) (sample_cap 0)) "a"). lia. Defined.

Lemma Update_ttl_witness :
  let ds := foldl (λ ds c, Update (c : Time * AgentCapability).1 ds c.2)
              (NewDiscoveryStore 0) [(3%Z, sample_cap 2)] in
  let since := if IsZero 0 then 7%Z else 0%Z in
  (0 < ds_ttl ds)%Z ∧
  ds_Get 9 (Update 7 ds (sample_cap 0)) "a" =
    (if (9 <=? since + ds_ttl ds)%Z
     then Some (sample_cap 0 <| ac_UpdatedAt := since |> <| ac_ExpiresAt := (since + ds_ttl ds)%Z |>)
     else None) ∧
  ∀ nick, nick ≠ "a" → ds_Get 9 (Update 7 ds (sample_cap 0)) nick = ds_Get 9 ds nick.
Proof. apply (Update_ttl 0 [(3%Z, sample_cap 2)] 7 (sample_cap 0) 9). reflexivity. Defined.

Example find_by_expertise_test :
  ac_Nick <$> FindByExpertise ToLower 6 (Update 5 (NewDiscoveryStore 10) (sample_cap 0)) "GO" = ["a"].
Proof. vm_compute. reflexivity. Qed.
