(* ===== verification/Context.v ===== *)
(** * Context sharing: [internal/agent/context_sharing.go]

    The entries of the store are records behind pointers that only the store
    holds; handing one out copies it. A callback is identified by the id of its
    subscription, and a call of it is an element of the result. *)

From S2P Require Import Prelude GoStrings Message Parser Serializer.

Record ContextEntry := {
  cx_Component : string;
  cx_Project : string;
  cx_Status : string;
  cx_Payload : string;
  cx_SharedBy : string;
  cx_UpdatedAt : Time
}.

#[export] Instance ContextEntry_eta : RecordEta ContextEntry := λ r,
  {| cx_Component := cx_Component r; cx_Project := cx_Project r; cx_Status := cx_Status r;
     cx_Payload := cx_Payload r; cx_SharedBy := cx_SharedBy r;
     cx_UpdatedAt := cx_UpdatedAt r |}.

#[export] Instance ContextEntry_eq_dec : EqDecision ContextEntry.
Proof. solve_decision. Defined.

Record ContextRequest := {
  cr_Component : string;
  cr_RequestedBy : string;
  cr_Channel : string;
  cr_RequestedAt : Time;
  cr_Fulfilled : bool;
  cr_FulfilledAt : Time
}.

#[export] Instance ContextRequest_eta : RecordEta ContextRequest := λ r,
  {| cr_Component := cr_Component r; cr_RequestedBy := cr_RequestedBy r;
     cr_Channel := cr_Channel r; cr_RequestedAt := cr_RequestedAt r;
     cr_Fulfilled := cr_Fulfilled r; cr_FulfilledAt := cr_FulfilledAt r |}.

(** [subscriptions]: id to component; the handler is known by the id. *)
Record ContextStore := {
  entries : gmap string ContextEntry;
  ctx_requests : list ContextRequest;
  subscriptions : gmap nat string;
  nextSubID : nat
}.

#[export] Instance ContextStore_eta : RecordEta ContextStore := λ r,
  {| entries := entries r; ctx_requests := ctx_requests r;
     subscriptions := subscriptions r; nextSubID := nextSubID r |}.

Definition NewContextStore : ContextStore :=
  {| entries := ∅; ctx_requests := []; subscriptions := ∅; nextSubID := 0 |}.

Definition TrackRequest (cs : ContextStore) (msg : Message) : ContextStore :=
  let component := Get msg "component" in
  if bool_decide (component = "") then cs
  else cs <| ctx_requests := ctx_requests cs ++
         [{| cr_Component := component; cr_RequestedBy := msg_Nick msg;
             cr_Channel := msg_Channel msg; cr_RequestedAt := msg_Timestamp msg;
             cr_Fulfilled := false; cr_FulfilledAt := zero_time |}] |>.

Definition fulfill (now : Time) (component : string) (r : ContextRequest) : ContextRequest :=
  if bool_decide (cr_Component r = component) && negb (cr_Fulfilled r)
  then r <| cr_Fulfilled := true |> <| cr_FulfilledAt := now |> else r.

Definition FulfillRequest (now : Time) (cs : ContextStore) (component : string) : ContextStore :=
  cs <| ctx_requests := fulfill now component <$> ctx_requests cs |>.

Definition PendingRequests (cs : ContextStore) : list ContextRequest :=
  List.filter (λ r, negb (cr_Fulfilled r)) (ctx_requests cs).

Definition TimedOutRequests (now : Time) (cs : ContextStore) (timeout : Duration)
    : list ContextRequest :=
  let cutoff := (now - timeout)%Z in
  List.filter (λ r, negb (cr_Fulfilled r) && (cr_RequestedAt r <? cutoff)%Z) (ctx_requests cs).

Definition Subscribe (cs : ContextStore) (component : string) : ContextStore * nat :=
  (cs <| subscriptions := <[nextSubID cs := component]> (subscriptions cs) |>
      <| nextSubID := S (nextSubID cs) |>, nextSubID cs).

Definition Unsubscribe (cs : ContextStore) (id : nat) : ContextStore :=
  cs <| subscriptions := delete id (subscriptions cs) |>.

Definition ctx_Get (cs : ContextStore) (component : string) : option ContextEntry :=
  entries cs !! component.

Section store.
Context `{MR : MapRange}.

Definition ListEntries (cs : ContextStore) : list ContextEntry := (range 0 (entries cs)).*2.

(** The calls of the handlers, each with a copy of the entry. *)
Definition fireSubscriptions (cs : ContextStore) (component : string) (entry : ContextEntry)
    : list (nat * ContextEntry) :=
  (λ id, (id, entry)) <$>
    (List.filter (λ kv, bool_decide (kv.2 = component)) (range 0 (subscriptions cs))).*1.

Definition new_entry (component : string) (msg : Message) : ContextEntry :=
  {| cx_Component := component; cx_Project := Get msg "project"; cx_Status := Get msg "status";
     cx_Payload := ""; cx_SharedBy := msg_Nick msg; cx_UpdatedAt := msg_Timestamp msg |}.

Definition Store (now : Time) (cs : ContextStore) (msg : Message)
    : ContextStore * list (nat * ContextEntry) :=
  let component := Get msg "component" in
  if bool_decide (component = "") then (cs, [])
  else
    let entry := new_entry component msg in
    let cs := cs <| entries := <[component := entry]> (entries cs) |> in
    let cs := FulfillRequest now cs component in
    (cs, fireSubscriptions cs component entry).

(** The loop over the entries stops at the first one shared by the sender. *)
Definition payload_target (cs : ContextStore) (nick : string) : option string :=
  fst <$> find (λ kv, bool_decide (cx_SharedBy kv.2 = nick)) (range 0 (entries cs)).

Definition StorePayload (cs : ContextStore) (msg : Message) : ContextStore :=
  match payload_target cs (msg_Nick msg) with
  | Some key =>
      cs <| entries := alter (λ e, e <| cx_Payload := msg_Payload msg |>
                                     <| cx_UpdatedAt := msg_Timestamp msg |>) key (entries cs) |>
  | None =>
      let key := "_payload_" +:+ msg_Nick msg in
      cs <| entries := <[key := {| cx_Component := key; cx_Project := ""; cx_Status := "";
              cx_Payload := msg_Payload msg; cx_SharedBy := msg_Nick msg;
              cx_UpdatedAt := msg_Timestamp msg |}]> (entries cs) |>
  end.

(** [if v != "" { Fields[k] = v }] *)
Definition opt_field (k v : string) (fields : gmap string string) : gmap string string :=
  if bool_decide (v = "") then fields else <[k := v]> fields.

Definition context_reply (entry : ContextEntry) : Message :=
  literal ActionContext
    (opt_field "status" (cx_Status entry) (opt_field "project" (cx_Project entry)
       {["component" := cx_Component entry]})) [] "".

Definition payload_reply (entry : ContextEntry) : Message :=
  literal ActionSharingContext ∅ [] (cx_Payload entry).

Definition HandleContextRequest (cs : ContextStore) (msg : Message) : Outbox :=
  let component := Get msg "component" in
  if bool_decide (component = "") then []
  else match ctx_Get cs component with
       | None => []
       | Some entry =>
           let target := reply_target msg in
           (target, Message_String (context_reply entry)) ::
           (if bool_decide (cx_Payload entry = "") then []
            else [(target, Message_String (payload_reply entry))])
       end.

(** Exactly the subscribers of the component are called, each once. *)
Lemma fireSubscriptions_spec cs component entry :
  NoDup (fireSubscriptions cs component entry).*1 ∧
  ∀ id e, (id, e) ∈ fireSubscriptions cs component entry ↔
    subscriptions cs !! id = Some component ∧ e = entry.
Proof.
  unfold fireSubscriptions. split.
  - rewrite <- list_fmap_compose.
    rewrite (list_fmap_ext _ id) by done. rewrite list_fmap_id.
    pose proof (NoDup_fst_range 0 (subscriptions cs)) as Hnd. revert Hnd.
    generalize (range 0 (subscriptions cs)). intros l.
    induction l as [|[k c] l IH]; cbn; [constructor|]. rewrite NoDup_cons. intros [Hk Hnd].
    case_bool_decide; cbn; [|by apply IH]. constructor; [|by apply IH].
    intros Hin. apply Hk. apply list_elem_of_fmap in Hin as (kv & -> & Hin).
    apply elem_of_filter_bool in Hin as [Hin _]. by apply list_elem_of_fmap_2.
  - intros id e. rewrite list_elem_of_fmap.
    setoid_rewrite list_elem_of_fmap. setoid_rewrite elem_of_filter_bool. split.
    + intros (i & [= -> ->] & ([k c] & -> & Hin%elem_of_range & Hb%bool_decide_eq_true)).
      cbn in *. by subst.
    + intros [Hid ->]. exists id. split; [done|].
      exists (id, component). split; [done|]. rewrite elem_of_range.
      split; [done|]. by apply bool_decide_eq_true.
Qed.

(** Announcing a context answers those who asked: it replaces the entry of
    the component, leaves the other entries alone, marks exactly the pending
    requests for that component as fulfilled now (so none of them is pending
    afterwards and the others stay as they were), and calls each subscriber of
    the component once with the new entry and nobody else. *)
Theorem Store_spec now cs msg (Hc : Get msg "component" ≠ "") :
  let component := Get msg "component" in
  let '(cs', calls) := Store now cs msg in
  ctx_Get cs' component = Some (new_entry component msg) ∧
  (∀ k, k ≠ component → ctx_Get cs' k = ctx_Get cs k) ∧
  PendingRequests cs' =
    List.filter (λ r, negb (bool_decide (cr_Component r = component))) (PendingRequests cs) ∧
  (∀ i r, ctx_requests cs !! i = Some r →
     (cr_Component r ≠ component ∨ cr_Fulfilled r = true) → ctx_requests cs' !! i = Some r) ∧
  NoDup calls.*1 ∧
  ∀ id e, (id, e) ∈ calls ↔ subscriptions cs !! id = Some component ∧ e = new_entry component msg.
Proof.
  cbn zeta. unfold Store. rewrite bool_decide_eq_false_2 by done. split_and!.
  - apply lookup_insert_eq.
  - intros k Hk. unfold ctx_Get. cbn. by rewrite lookup_insert_ne.
  - unfold PendingRequests. cbn. induction (ctx_requests cs) as [|r l IH]; [done|]. cbn.
    unfold fulfill at 1 2.
    destruct (cr_Fulfilled r) eqn:Hf, (decide (cr_Component r = Get msg "component")) as [E|E];
      repeat first [rewrite Hf|rewrite bool_decide_eq_true_2 by exact E
                   |rewrite bool_decide_eq_false_2 by exact E|progress cbn]; by rewrite ?IH.
  - intros i r Hi Hr. cbn. rewrite list_lookup_fmap, Hi. cbn. unfold fulfill. f_equal.
    destruct Hr as [Hr|Hr]; [by rewrite bool_decide_eq_false_2|].
    rewrite Hr, andb_false_r. done.
  - exact (proj1 (fireSubscriptions_spec _ _ _)).
  - exact (proj2 (fireSubscriptions_spec _ _ _)).
Qed.

Lemma fields_ok_opt k v m :
  key_ok k = true → value_ok v = true → fields_ok m → fields_ok (opt_field k v m).
Proof. intros. unfold opt_field. case_bool_decide; [done|]. by apply fields_ok_insert. Qed.

Lemma Get_opt_field k v m : m !! k = None → default "" (opt_field k v m !! k) = v.
Proof.
  intros Hk. unfold opt_field. case_bool_decide; [by rewrite Hk|by rewrite lookup_insert_eq].
Qed.

Lemma lookup_opt_field_ne k k' v m : k ≠ k' → opt_field k v m !! k' = m !! k'.
Proof. intros. unfold opt_field. case_bool_decide; [done|]. by rewrite lookup_insert_ne. Qed.

(** A request for a known context is answered on the wire: the first
    message sent to the asker parses as a CONTEXT announcement with the
    component, project and status of the stored entry, and when the entry has
    a payload (without blanks at its ends) a second message parses as
    SHARING-CONTEXT with exactly that payload. *)
Theorem context_reply_parses cs msg entry
    (He : ctx_Get cs (Get msg "component") = Some entry)
    (Hc : Get msg "component" ≠ "")
    (Hok : forallb value_ok [cx_Component entry; cx_Project entry; cx_Status entry] = true)
    (Hp : TrimSpace (cx_Payload entry) = cx_Payload entry) :
  ∃ text rest, HandleContextRequest cs msg = (reply_target msg, text) :: rest ∧
    (∃ m, Parse text = inl m ∧ msg_Action m = ActionContext ∧ msg_Tags m = [] ∧
       Get m "component" = cx_Component entry ∧ Get m "project" = cx_Project entry ∧
       Get m "status" = cx_Status entry) ∧
    if bool_decide (cx_Payload entry = "") then rest = []
    else ∃ text' m', rest = [(reply_target msg, text')] ∧ Parse text' = inl m' ∧
      msg_Action m' = ActionSharingContext ∧ msg_Payload m' = cx_Payload entry.
Proof.
  cbn in Hok. rewrite !andb_true_iff in Hok. destruct Hok as (H1 & H2 & H3 & _).
  unfold HandleContextRequest. rewrite bool_decide_eq_false_2, He by done.
  eexists _, _. split; [done|]. split.
  - eexists. split; [apply Parse_Message_String, wf_literal; [reflexivity|discriminate| |reflexivity]|].
    + apply fields_ok_opt; [reflexivity|exact H3|].
      apply fields_ok_opt; [reflexivity|exact H2|].
      apply fields_ok_singleton; [reflexivity|exact H1].
    + cbn. unfold Get. cbn. split_and!; [done..| | |].
      * rewrite !lookup_opt_field_ne by done. by rewrite lookup_singleton_eq.
      * rewrite lookup_opt_field_ne by done. apply Get_opt_field. by rewrite lookup_singleton_ne.
      * apply Get_opt_field. rewrite lookup_opt_field_ne by done. by rewrite lookup_singleton_ne.
  - case_bool_decide; [done|]. exists (Message_String (payload_reply entry)),
      (wire_view (payload_reply entry)). split_and!; [done| |done..].
    apply Parse_Message_String. unfold wf_message, payload_reply, literal.
    cbn [msg_Action msg_Fields msg_Tags msg_Payload].
    by rewrite (bool_decide_eq_true_2 _ Hp).
Qed.
End store.

(** ** Concrete runs *)

Definition context_message (nick component payload : string) : Message :=
  {| msg_Action := if bool_decide (payload = "") then ActionContext else ActionSharingContext;
     msg_Fields := if bool_decide (component = "") then ∅
       else {["component" := component; "status" := "in review"]};
     msg_Tags := []; msg_Payload := payload; msg_Channel := "#dev"; msg_Nick := nick;
     msg_Timestamp := 4 |}.

(** A store in which [alice] has announced two components. *)
Definition two_contexts : ContextStore :=
  (Store 5 (Store 5 (Subscribe (TrackRequest NewContextStore (context_message "bob" "api" "")) "api").1
     (context_message "alice" "db" "")).1 (context_message "alice" "api" "")).1.

(** A payload lands on an arbitrary entry of its sender: when the sender
    has announced more than one component, which of them gets the payload of a
    SHARING-CONTEXT message depends on the order in which the map is visited,
    and not on which component was requested or announced last. *)
Theorem StorePayload_depends_on_order :
  ∃ cs msg,
    StorePayload (MR := range_forward) cs msg ≠ StorePayload (MR := range_backward) cs msg ∧
    (∀ MR : MapRange, ∃ k, payload_target cs (msg_Nick msg) = Some k ∧
       cx_SharedBy <$> ctx_Get cs k = Some (msg_Nick msg)).
Proof.
  exists two_contexts, (context_message "alice" "" "schema v2"). split.
  - intros E. apply (f_equal (λ cs, cx_Payload <$> ctx_Get cs "api")) in E.
    vm_compute in E. discriminate.
  - intros MR. unfold payload_target.
    destruct (find _ (range 0 (entries two_contexts))) as [[k e]|] eqn:E.
    + exists k. split; [done|]. apply find_some in E as [Hin Hn]. apply list_elem_of_In in Hin.
      apply elem_of_range in Hin. unfold ctx_Get. rewrite Hin. cbn in *.
      by apply bool_decide_eq_true in Hn as ->.
    + assert (entries two_contexts !! "db" =
        Some (new_entry "db" (context_message "alice" "db" ""))) as Hdb by reflexivity.
      apply (elem_of_range 0), list_elem_of_In in Hdb.
      apply (find_none _ _ E) in Hdb. by apply bool_decide_eq_false in Hdb.
Qed.

Lemma Store_spec_witness :
  let msg := context_message "alice" "api" "" in
  let '(cs', calls) := Store 9 two_contexts msg in
  ctx_Get cs' "api" = Some (new_entry "api" msg) ∧
  (∀ k, k ≠ "api" → ctx_Get cs' k = ctx_Get two_contexts k) ∧
  PendingRequests cs' =
    List.filter (λ r, negb (bool_decide (cr_Component r = "api"))) (PendingRequests two_contexts) ∧
  (∀ i r, ctx_requests two_contexts !! i = Some r →
     (cr_Component r ≠ "api" ∨ cr_Fulfilled r = true) → ctx_requests cs' !! i = Some r) ∧
  NoDup calls.*1 ∧
  ∀ id e, (id, e) ∈ calls ↔ subscriptions two_contexts !! id = Some "api" ∧ e = new_entry "api" msg.
Proof. apply (Store_spec 9 two_contexts (context_message "alice" "api" "")). discriminate. Defined.

Lemma context_reply_parses_witness :
  let cs := StorePayload two_contexts (context_message "alice" "" "schema v2") in
  let msg := context_message "bob" "db" "" in
  let entry := default (new_entry "db" msg) (ctx_Get cs "db") in
  ∃ text rest, HandleContextRequest cs msg = (reply_target msg, text) :: rest ∧
    (∃ m, Parse text = inl m ∧ msg_Action m = ActionContext ∧ msg_Tags m = [] ∧
       Get m "component" = cx_Component entry ∧ Get m "project" = cx_Project entry ∧
       Get m "status" = cx_Status entry) ∧
    if bool_decide (cx_Payload entry = "") then rest = []
    else ∃ text' m', rest = [(reply_target msg, text')] ∧ Parse text' = inl m' ∧
      msg_Action m' = ActionSharingContext ∧ msg_Payload m' = cx_Payload entry.
Proof.
  intros cs msg entry.
  apply (context_reply_parses cs msg entry); [reflexivity|discriminate|reflexivity|reflexivity].
Defined.
