(* ===== verification/ACL.v ===== *)
(** * Access control: [internal/agent/acl.go]

    Rules are tried in order and the first that applies decides; patterns are
    those of [path.Match] ([GoPath]). *)

From S2P Require Import Prelude GoStrings GoPath Config Message.

Record ACLEngine := { rules : list ACLRule }.

Definition NewACLEngine (rules : list ACLRule) : ACLEngine := {| rules := rules |}.

Definition SetRules (e : ACLEngine) (rules : list ACLRule) : ACLEngine := {| rules := rules |}.

Definition matchGlob (pattern value : string) : bool :=
  if bool_decide (pattern = "") || bool_decide (pattern = "*") then true
  else match path_Match pattern value with
       | None => false
       | Some matched => matched
       end.

Definition containsAction (actions : list string) (action : Action) : bool :=
  existsb (λ a, bool_decide (a = action_string action)) actions.

(** The loop over the rules. *)
Fixpoint check_rules (rules : list ACLRule) (nick channel : string) (action : Action) : bool :=
  match rules with
  | [] => true
  | rule :: rules =>
      if negb (matchGlob (acl_Channel rule) channel) then check_rules rules nick channel action
      else if negb (matchGlob (acl_NickPattern rule) nick) then check_rules rules nick channel action
      else if negb (bool_decide (acl_Actions rule = [])) &&
              negb (containsAction (acl_Actions rule) action)
      then check_rules rules nick channel action
      else bool_decide (acl_Effect rule = "allow")
  end.

Definition Check (e : ACLEngine) (nick channel : string) (action : Action) : bool :=
  check_rules (rules e) nick channel action.

(** A rule applies: both patterns match and the action is listed, or none is. *)
Definition applies (rule : ACLRule) (nick channel : string) (action : Action) : Prop :=
  matchGlob (acl_Channel rule) channel = true ∧
  matchGlob (acl_NickPattern rule) nick = true ∧
  (acl_Actions rule = [] ∨ action_string action ∈ acl_Actions rule).

Lemma containsAction_spec actions action :
  containsAction actions action = true ↔ action_string action ∈ actions.
Proof.
  unfold containsAction. rewrite existsb_exists. setoid_rewrite <- list_elem_of_In.
  setoid_rewrite bool_decide_eq_true. naive_solver.
Qed.

Lemma check_rules_cons rule rules nick channel action :
  (applies rule nick channel action ∧
   check_rules (rule :: rules) nick channel action = bool_decide (acl_Effect rule = "allow")) ∨
  (¬ applies rule nick channel action ∧
   check_rules (rule :: rules) nick channel action = check_rules rules nick channel action).
Proof.
  unfold applies. cbn.
  destruct (matchGlob (acl_Channel rule) channel); cbn; [|right; by split; [intros [? _]|]].
  destruct (matchGlob (acl_NickPattern rule) nick); cbn; [|right; by split; [intros (_ & ? & _)|]].
  rewrite <- containsAction_spec. case_bool_decide; cbn; [left; by split_and!; [| |left|]|].
  destruct (containsAction _ _); cbn; [left; by split_and!; [| |right|]|].
  right. split; [|done]. by intros (_ & _ & [?|?]).
Qed.

(** First match wins: a request is allowed exactly when no rule applies to
    it, or when the first rule that applies has the effect [allow]; any other
    effect denies, a later rule never overrides an earlier one, and a rule
    whose pattern is malformed never applies. *)
Theorem Check_first_match e nick channel action :
  Check e nick channel action = true ↔
    (∀ rule, rule ∈ rules e → ¬ applies rule nick channel action) ∨
    ∃ before rule after, rules e = before ++ rule :: after ∧
      (∀ r, r ∈ before → ¬ applies r nick channel action) ∧
      applies rule nick channel action ∧ acl_Effect rule = "allow".
Proof.
  unfold Check. induction (rules e) as [|rule l IH].
  - cbn. split; [|done]. intros _. left. by intros ? ?%not_elem_of_nil.
  - destruct (check_rules_cons rule l nick channel action) as [[Hap ->]|[Hno ->]].
    + rewrite bool_decide_eq_true. split.
      * intros He. right. exists [], rule, l. split_and!; [done| |done..].
        by intros ? ?%not_elem_of_nil.
      * intros [H|(before & r & after & E & Hb & Hr & He)]; [by destruct (H rule); [left|]|].
        destruct before as [|r' before]; injection E as -> ->; [done|].
        by destruct (Hb r'); [left|].
    + rewrite IH. split.
      * intros [H|(before & r & after & -> & Hb & Hr & He)].
        -- left. intros r [->|Hin]%elem_of_cons; auto.
        -- right. exists (rule :: before), r, after. split_and!; [done| |done..].
           intros r' [->|Hin]%elem_of_cons; auto.
      * intros [H|(before & r & after & E & Hb & Hr & He)].
        -- left. intros r0 Hin. apply H. by right.
        -- right. destruct before as [|r' before]; injection E as -> ->; [done|].
           exists before, r, after. split_and!; [done| |done..]. intros r0 Hin. apply Hb. by right.
Qed.

(** Without classes, question marks and escapes a pattern means what it says: it
    is empty or a star and matches everything, or it matches the texts that it
    describes when each star stands for any text without a slash; a pattern without
    a star matches itself alone. *)
Theorem matchGlob_plain pattern value :
  plain_pattern pattern = true →
  (matchGlob pattern value = true ↔ pattern = "" ∨ pattern = "*" ∨ glob pattern value) ∧
  (pattern ≠ "" → in_string "*" pattern = false →
   matchGlob pattern value = bool_decide (value = pattern)).
Proof.
  intros Hp. destruct (path_Match_plain pattern value Hp) as (b & Hb & Hg).
  assert (matchGlob pattern value = true ↔ pattern = "" ∨ pattern = "*" ∨ glob pattern value) as Hm.
  { unfold matchGlob. rewrite Hb. destruct (bool_decide (pattern = "")) eqn:E1.
    { apply bool_decide_eq_true in E1. naive_solver. }
    apply bool_decide_eq_false in E1. case_bool_decide; cbn; naive_solver. }
  split; [done|]. intros Hne Hs. apply eq_bool_prop_intro. rewrite !Is_true_true.
  rewrite Hm, glob_no_star, bool_decide_eq_true by done.
  split; [intros [?|[->|?]]; done|by right; right].
Qed.

(** A nick may contain brackets, which a pattern reads as a class: a rule for the
    nick [bot[1]] applies to another nick. *)
Theorem bracketed_nick :
  let rule := {| acl_Channel := ""; acl_NickPattern := "bot[1]"; acl_Actions := [];
                 acl_Effect := "deny" |} in
  Check (NewACLEngine [rule]) "bot[1]" "#dev" ActionStarted = true ∧
  Check (NewACLEngine [rule]) "bot1" "#dev" ActionStarted = false.
Proof. by vm_compute. Qed.

Lemma matchGlob_plain_witness :
  plain_pattern "agent-*-build" = true ∧ matchGlob "agent-*-build" "agent-x-build-build" = true ∧
  matchGlob "agent-*-build" "agent-build" = false.
Proof.
  split; [done|]. destruct (matchGlob_plain "agent-*-build" "agent-x-build-build") as [H _]; [done|].
  split; [|done]. apply H. right. right.
  apply (glob_chunk "agent-" "*-build"); [done|]. exists "x-build-build". split; [done|].
  apply (glob_star "-build"). exists "x-build", "-build". split_and!; [done..|].
  by apply glob_no_star.
Defined.
