(* ===== verification/Role.v ===== *)
(** * Roles and their automatic responses: [internal/agent/role.go]

    A behavior's handler is a Coq function. [HasRole] compares with
    [strings.EqualFold], a function of Unicode's tables that is an argument. *)

From S2P Require Import Prelude GoStrings Message Review.

Definition RoleArchitectureReviewer : string := "architecture-reviewer".
Definition RoleSecurityReviewer : string := "security-reviewer".
Definition RoleMonitoringGuardian : string := "monitoring-guardian".
Definition RoleTestCoverageEnforcer : string := "test-coverage-enforcer".
Definition RoleMergeCoordinator : string := "merge-coordinator".
Definition RoleReleaseCoordinator : string := "release-coordinator".
Definition RoleCleanupAgent : string := "cleanup-agent".
Definition RoleIncidentResponder : string := "incident-responder".
Definition RoleTechDebtTracker : string := "tech-debt-tracker".

Record RoleBehavior := {
  rb_Role : string;
  rb_TriggerActions : list Action;
  rb_Handler : Message → list Message
}.

Definition Matches (rb : RoleBehavior) (msg : Message) : bool :=
  existsb (λ a, bool_decide (msg_Action msg = a)) (rb_TriggerActions rb).

Record RoleEngine := {
  re_roles : list string;
  re_behaviors : list RoleBehavior
}.

Definition NewRoleEngine (roles : list string) : RoleEngine :=
  {| re_roles := roles; re_behaviors := [] |}.

Definition RegisterBehavior (re : RoleEngine) (behavior : RoleBehavior) : RoleEngine :=
  {| re_roles := re_roles re; re_behaviors := re_behaviors re ++ [behavior] |}.

Definition re_HandleMessage (re : RoleEngine) (msg : Message) : list Message :=
  re_behaviors re ≫= λ b, if Matches b msg then rb_Handler b msg else [].

Definition Roles (re : RoleEngine) : list string := re_roles re.

Definition HasRole (EqualFold : string → string → bool) (re : RoleEngine) (role : string) : bool :=
  existsb (λ r, EqualFold r role) (re_roles re).

Definition ExpertiseTags (re : RoleEngine) : list string :=
  (λ r, "role:" +:+ r) <$> re_roles re.

(** The handlers of the built-in behaviors. *)
Definition auto_review (kind details : string) (msg : Message) : list Message :=
  if negb (bool_decide (Get msg "review-type" = kind)) then []
  else [literal ActionReviewComplete
          (list_to_map [("task", Get msg "task"); ("pr", Get msg "pr");
                        ("verdict", ReviewApproved); ("details", details)]) [] ""].

Definition monitoring_handler (msg : Message) : list Message :=
  if negb (bool_decide (Get msg "review-type" = "monitoring")) then []
  else [literal ActionGateCheck
          (list_to_map [("task", Get msg "task"); ("gate", "monitoring");
                        ("status", GatePassed); ("details", "Monitoring gate auto-passed")]) [] ""].

Definition merge_handler (msg : Message) : list Message :=
  if negb (bool_decide (Get msg "verdict" = ReviewApproved)) then []
  else [literal ActionStarted
          (list_to_map [("task", Get msg "task" +:+ "-merge"); ("priority", "high")]) [] ""].

Definition release_handler (msg : Message) : list Message :=
  if negb (HasSuffix (Get msg "task") "-merge") then []
  else [literal ActionCheckpoint
          (list_to_map [("task", TrimSuffix (Get msg "task") "-merge" +:+ "-release");
                        ("progress", "0"); ("summary", "Release initiated")]) [] ""].

Definition cleanup_handler (msg : Message) : list Message :=
  if negb (HasSuffix (Get msg "task") "-release") then []
  else [literal ActionOffer
          (list_to_map [("task", TrimSuffix (Get msg "task") "-release" +:+ "-cleanup");
                        ("scope", "cleanup")]) [] ""].

Definition incident_handler (msg : Message) : list Message :=
  let sev := Get msg "severity" in
  if negb (bool_decide (sev = "high")) && negb (bool_decide (sev = "critical")) then []
  else [literal ActionStarted
          (list_to_map [("task", Get msg "task" +:+ "-incident"); ("priority", "critical")]) [] ""].

Definition BuiltinBehavior (role : string) : option RoleBehavior :=
  let behavior triggers handler :=
    Some {| rb_Role := role; rb_TriggerActions := triggers; rb_Handler := handler |} in
  if bool_decide (role = RoleArchitectureReviewer) then
    behavior [ActionReviewRequest] (auto_review "architecture" "Architecture review auto-approved")
  else if bool_decide (role = RoleSecurityReviewer) then
    behavior [ActionReviewRequest] (auto_review "security" "Security review auto-approved")
  else if bool_decide (role = RoleMonitoringGuardian) then
    behavior [ActionReviewRequest] monitoring_handler
  else if bool_decide (role = RoleMergeCoordinator) then
    behavior [ActionReviewComplete] merge_handler
  else if bool_decide (role = RoleReleaseCoordinator) then
    behavior [ActionCompleted] release_handler
  else if bool_decide (role = RoleCleanupAgent) then
    behavior [ActionCompleted] cleanup_handler
  else if bool_decide (role = RoleIncidentResponder) then
    behavior [ActionEscalate] incident_handler
  else None.

(** The engine that the agent sets up for its configured roles: [initProtocol]. *)
Definition configured_engine (roles : list string) : RoleEngine :=
  foldl (λ re role, match BuiltinBehavior role with
                    | Some b => RegisterBehavior re b
                    | None => re
                    end) (NewRoleEngine roles) roles.

(** ** Cascades *)

Lemma elem_of_configured roles b :
  b ∈ re_behaviors (configured_engine roles) ↔ ∃ role, role ∈ roles ∧ BuiltinBehavior role = Some b.
Proof.
  unfold configured_engine.
  assert (∀ re, b ∈ re_behaviors (foldl (λ re role, match BuiltinBehavior role with
      | Some b => RegisterBehavior re b | None => re end) re roles) ↔
    b ∈ re_behaviors re ∨ ∃ role, role ∈ roles ∧ BuiltinBehavior role = Some b) as H.
  { induction roles as [|role roles IH]; intros re; cbn [foldl].
    - split; [by left|]. intros [?|(? & []%not_elem_of_nil & _)]; done.
    - rewrite IH. setoid_rewrite elem_of_cons. destruct (BuiltinBehavior role) as [b'|] eqn:E.
      + cbn. rewrite elem_of_app, list_elem_of_singleton. naive_solver.
      + naive_solver. }
  rewrite H. cbn. rewrite elem_of_nil. tauto.
Qed.

(** Every response of a built-in behavior: its trigger and its action. *)
Lemma builtin_response role b msg resp :
  BuiltinBehavior role = Some b → Matches b msg = true → resp ∈ rb_Handler b msg →
  (msg_Action msg = ActionReviewRequest ∧
     (msg_Action resp = ActionReviewComplete ∨ msg_Action resp = ActionGateCheck)) ∨
  (msg_Action msg = ActionReviewComplete ∧ msg_Action resp = ActionStarted) ∨
  (msg_Action msg = ActionCompleted ∧
     (msg_Action resp = ActionCheckpoint ∨ msg_Action resp = ActionOffer)) ∨
  (msg_Action msg = ActionEscalate ∧ msg_Action resp = ActionStarted).
Proof.
  unfold BuiltinBehavior, Matches. intros Hb Hm Hr.
  repeat (case_bool_decide; [injection Hb as <-; cbn in Hm, Hr;
    rewrite orb_false_r in Hm; apply bool_decide_eq_true in Hm; rewrite Hm;
    unfold auto_review, monitoring_handler, merge_handler, release_handler, cleanup_handler,
      incident_handler in Hr;
    repeat (case_bool_decide || destruct (HasSuffix _ _)); cbn in Hr;
    first [by apply not_elem_of_nil in Hr|
           apply list_elem_of_singleton in Hr; subst resp; cbn; tauto]|]).
  done.
Qed.

(** The messages that a set of agents answers with: each agent has its own
    roles and answers what the others send. *)
Definition replies (teams : list (list string)) (msgs : list Message) : list Message :=
  teams ≫= λ roles, msgs ≫= re_HandleMessage (configured_engine roles).

Lemma replies_response teams msgs resp :
  resp ∈ replies teams msgs →
  ∃ msg role b, msg ∈ msgs ∧ BuiltinBehavior role = Some b ∧ Matches b msg = true ∧
    resp ∈ rb_Handler b msg.
Proof.
  unfold replies, re_HandleMessage. rewrite list_elem_of_bind. intros (roles & Hr & _).
  apply list_elem_of_bind in Hr as (msg & Hr & Hin).
  apply list_elem_of_bind in Hr as (b & Hr & Hb).
  apply elem_of_configured in Hb as (role & _ & Hb).
  destruct (Matches b msg) eqn:Hm; [|by apply not_elem_of_nil in Hr].
  by exists msg, role, b.
Qed.

(** No reply storms: however many agents listen, with whatever roles, the
    automatic responses to any messages are answered by at most one more round
    of automatic responses, and those by none: every cascade of the built-in
    behaviors ends after two rounds. *)
Theorem cascades_end teams msgs : replies teams (replies teams (replies teams msgs)) = [].
Proof.
  destruct (replies teams (replies teams (replies teams msgs))) as [|r3 l] eqn:E; [done|].
  assert (r3 ∈ replies teams (replies teams (replies teams msgs))) as H3 by (rewrite E; by left).
  apply replies_response in H3 as (r2 & role3 & b3 & H2 & Hb3 & Hm3 & Hr3).
  apply replies_response in H2 as (r1 & role2 & b2 & H1 & Hb2 & Hm2 & Hr2).
  apply replies_response in H1 as (m & role1 & b1 & _ & Hb1 & Hm1 & Hr1).
  pose proof (builtin_response _ _ _ _ Hb1 Hm1 Hr1).
  pose proof (builtin_response _ _ _ _ Hb2 Hm2 Hr2).
  pose proof (builtin_response _ _ _ _ Hb3 Hm3 Hr3).
  intuition congruence.
Qed.

Example cascade_test :
  (λ m, (msg_Action m, Get m "task")) <$>
    replies [["security-reviewer"]; ["merge-coordinator"]]
      (replies [["security-reviewer"]; ["merge-coordinator"]]
         [literal ActionReviewRequest (list_to_map [("task", "t"); ("review-type", "security")]) [] ""]) =
  [(ActionStarted, "t-merge")].
Proof. vm_compute. reflexivity. Qed.
