(* ===== verification/Inspector.v ===== *)
(** * The debug inspector: [internal/agent/inspector.go]

    The message log is a ring buffer, a slice of fixed length; indexing a
    slice out of its bounds panics ([None]). Capacities and positions are
    non-negative ints. *)

From S2P Require Import Prelude Message State.

Record TaskGraphNode := {
  tg_Task : TaskInfo;
  tg_BlockedBy : list DependencyEdge;
  tg_Blocking : list DependencyEdge
}.

Record BlockedChainEntry := {
  bc_TaskName : string;
  bc_Status : string;
  bc_Resolved : bool
}.

Record AgentActivitySummary := {
  aa_Nick : string;
  aa_Channel : string;
  aa_TaskName : string;
  aa_UpdatedAt : Time
}.

Record MessageLogEntry := {
  ml_Timestamp : Time;
  ml_Direction : string;
  ml_Channel : string;
  ml_Nick : string;
  ml_Action : string;
  ml_Raw : string
}.

Definition zero_entry : MessageLogEntry :=
  {| ml_Timestamp := zero_time; ml_Direction := ""; ml_Channel := ""; ml_Nick := "";
     ml_Action := ""; ml_Raw := "" |}.

(** The stores that the inspector reads are arguments of its queries. *)
Record DebugInspector := {
  msgLog : list MessageLogEntry;
  maxLog : nat;
  logPos : nat;
  logFull : bool
}.

Definition NewDebugInspector (maxLogEntries : Z) : DebugInspector :=
  let n := if (maxLogEntries <=? 0)%Z then 1000 else Z.to_nat maxLogEntries in
  {| msgLog := replicate n zero_entry; maxLog := n; logPos := 0; logFull := false |}.

Definition RecordMessage (d : DebugInspector) (entry : MessageLogEntry) : option DebugInspector :=
  if bool_decide (logPos d < length (msgLog d)) then
    let log := <[logPos d := entry]> (msgLog d) in
    let pos := S (logPos d) in
    Some (if bool_decide (maxLog d ≤ pos)
          then {| msgLog := log; maxLog := maxLog d; logPos := 0; logFull := true |}
          else {| msgLog := log; maxLog := maxLog d; logPos := pos; logFull := logFull d |})
  else None.

(** The loops that read [n] entries; the index of the [i]-th is [idx i]. *)
Definition read_log (d : DebugInspector) (n : nat) (idx : nat → nat) : option (list MessageLogEntry) :=
  mapM (λ i, msgLog d !! idx i) (seq 0 n).

Definition RecentMessages (d : DebugInspector) (n : Z) : option (list MessageLogEntry) :=
  let total := if logFull d then maxLog d else logPos d in
  let n := if (n <=? 0)%Z || (Z.of_nat total <? n)%Z then total else Z.to_nat n in
  if bool_decide (n = 0) then Some []
  else if logFull d then
    let start := (logPos d + maxLog d - n) `mod` maxLog d in
    read_log d n (λ i, (start + i) `mod` maxLog d)
  else
    let start := logPos d - n in
    read_log d n (λ i, start + i).

(** A sequence of recorded messages. *)
Definition record_all (d : DebugInspector) (h : list MessageLogEntry) : option DebugInspector :=
  foldl (λ d e, match d with Some d => RecordMessage d e | None => None end) (Some d) h.

Section queries.
Context `{MR : MapRange}.

Definition TaskGraph (s : StateStore) : list TaskGraphNode :=
  (λ task, {| tg_Task := task; tg_BlockedBy := BlockersOf s (Name task) true;
              tg_Blocking := BlockedBy_edges s (Name task) true |}) <$> ListTasks s.

Definition AgentActivity (s : StateStore) : list AgentActivitySummary :=
  (λ a, {| aa_Nick := as_Nick a; aa_Channel := as_Channel a; aa_TaskName := as_TaskName a;
           aa_UpdatedAt := as_UpdatedAt a |}) <$> ListAgents s.
End queries.

Definition BlockedChain (s : StateStore) (taskName : string) : list BlockedChainEntry :=
  (λ depName,
     {| bc_TaskName := depName;
        bc_Status := match GetTask s depName with Some info => Status info | None => "" end;
        bc_Resolved := match find (λ e, bool_decide (BlockedBy e = depName))
                               (BlockersOf s taskName true) with
                       | Some e => Resolved e
                       | None => false
                       end |}) <$> TransitiveDependencies s taskName.

(** ** The ring buffer is a log of the last entries *)

(** The buffer holds the last [maxLog] entries of the history [h], oldest at
    the position to be written next once it is full. *)
Record ring_ok (d : DebugInspector) (h : list MessageLogEntry) : Prop := {
  ri_length : length (msgLog d) = maxLog d;
  ri_pos : logPos d < maxLog d;
  ri_mod : logPos d = length h `mod` maxLog d;
  ri_full : logFull d = bool_decide (maxLog d ≤ length h);
  ri_log : ∀ i, i < length h → length h ≤ i + maxLog d → msgLog d !! (i `mod` maxLog d) = h !! i
}.

Lemma ring_ok_new n : ring_ok (NewDebugInspector n) [].
Proof.
  unfold NewDebugInspector. destruct (Z.leb_spec n 0).
  - split; cbn -[replicate]; rewrite ?length_replicate; try done; [lia|]. intros; lia.
  - split; cbn; rewrite ?length_replicate; [done|lia|by rewrite Nat.Div0.mod_0_l| |intros; lia].
    symmetry. apply bool_decide_eq_false. lia.
Qed.

Lemma mod_succ_wrap a m :
  0 < m → S a `mod` m = if bool_decide (m ≤ S (a `mod` m)) then 0 else S (a `mod` m).
Proof.
  intros Hm. pose proof (Nat.mod_upper_bound a m ltac:(lia)) as Hlt.
  replace (S a) with (S (a `mod` m) + (a `div` m) * m)
    by (pose proof (Nat.div_mod_eq a m); lia).
  rewrite Nat.Div0.mod_add. case_bool_decide.
  - replace (S (a `mod` m)) with m by lia. apply Nat.Div0.mod_same.
  - apply Nat.mod_small. lia.
Qed.

Lemma mod_inj_window a b m : 0 < m → a < b → b < a + m → a `mod` m ≠ b `mod` m.
Proof.
  intros Hm Hab Hb E. pose proof (Nat.div_mod_eq a m). pose proof (Nat.div_mod_eq b m).
  destruct (le_lt_dec (b `div` m) (a `div` m)) as [Hle|Hlt].
  - apply (Nat.mul_le_mono_l _ _ m) in Hle. lia.
  - apply (Nat.mul_le_mono_l (S (a `div` m)) _ m) in Hlt. lia.
Qed.

Lemma ring_ok_record d h e :
  ring_ok d h → ∃ d', RecordMessage d e = Some d' ∧ ring_ok d' (h ++ [e]).
Proof.
  intros [Hl Hp Hm Hf Hlog]. unfold RecordMessage. rewrite bool_decide_eq_true_2 by lia.
  eexists. split; [done|].
  assert (∀ i, i < length (h ++ [e]) → length (h ++ [e]) ≤ i + maxLog d →
    <[logPos d := e]> (msgLog d) !! (i `mod` maxLog d) = (h ++ [e]) !! i) as Hlog'.
  { intros i. rewrite length_app. cbn. intros Hi Hw.
    destruct (decide (i = length h)) as [->|Hne].
    - rewrite <- Hm, list_lookup_insert_eq by lia. rewrite lookup_app_r by lia.
      by rewrite Nat.sub_diag.
    - rewrite lookup_app_l by lia. rewrite list_lookup_insert_ne; [apply Hlog; lia|].
      rewrite Hm. intros E. symmetry in E. revert E. apply mod_inj_window; lia. }
  pose proof (mod_succ_wrap (length h) (maxLog d) ltac:(lia)) as Hs. rewrite <- Hm in Hs.
  assert (length (h ++ [e]) = S (length h)) as Hlen by (rewrite length_app; cbn; lia).
  case_bool_decide as Hw; (split; cbn; [by rewrite length_insert|lia|by rewrite Hlen| |done]).
  - symmetry. apply bool_decide_eq_true. rewrite Hlen.
    pose proof (Nat.Div0.mod_le (length h) (maxLog d)). lia.
  - rewrite Hf, Hlen. apply bool_decide_ext. split; [lia|]. intros Hge.
    destruct (decide (maxLog d ≤ length h)); [done|].
    rewrite Nat.mod_small in Hm by lia. lia.
Qed.

Lemma read_log_spec d h n idx :
  n ≤ length h → (∀ i, i < n → msgLog d !! idx i = h !! (length h - n + i)) →
  read_log d n idx = Some (drop (length h - n) h).
Proof.
  intros Hn Hidx. unfold read_log. apply mapM_Some. apply Forall2_same_length_lookup_2.
  - rewrite length_seq, length_drop. lia.
  - intros i x y Hx Hy. apply lookup_seq in Hx as [-> Hi]. rewrite lookup_drop in Hy.
    cbn. by rewrite Hidx.
Qed.

(** Reading the log never panics and gives its last entries. *)
Lemma RecentMessages_ring d h n :
  ring_ok d h →
  let kept := min (length h) (maxLog d) in
  let k := if (n <=? 0)%Z || (Z.of_nat kept <? n)%Z then kept else Z.to_nat n in
  RecentMessages d n = Some (drop (length h - k) h).
Proof.
  intros [Hl Hp Hm Hf Hlog]. cbn zeta. unfold RecentMessages.
  assert ((if logFull d then maxLog d else logPos d) = min (length h) (maxLog d)) as ->.
  { rewrite Hf. case_bool_decide; [lia|]. rewrite Hm, Nat.mod_small by lia. lia. }
  set (k := if (n <=? 0)%Z || _ then _ else _).
  assert (k ≤ length h ∧ k ≤ maxLog d) as [Hk1 Hk2].
  { unfold k. destruct (Z.leb_spec n 0), (Z.ltb_spec (Z.of_nat (min (length h) (maxLog d))) n);
      cbn; lia. }
  destruct (decide (k = 0)) as [H0|H0];
    [rewrite (bool_decide_eq_true_2 _ H0), H0, Nat.sub_0_r, drop_all; done|
     rewrite (bool_decide_eq_false_2 _ H0)].
  destruct (logFull d); symmetry in Hf; apply read_log_spec; try done; intros i Hi.
  - apply bool_decide_eq_true in Hf.
    assert (((logPos d + maxLog d - k) `mod` maxLog d + i) `mod` maxLog d =
      (length h - k + i) `mod` maxLog d) as ->.
    { rewrite Nat.Div0.add_mod_idemp_l, Hm.
      pose proof (Nat.div_mod_eq (length h) (maxLog d)) as Hdm.
      assert (1 ≤ length h `div` maxLog d) by (apply Nat.div_le_lower_bound; lia).
      replace (length h - k + i) with (length h `mod` maxLog d + maxLog d - k + i +
        (length h `div` maxLog d - 1) * maxLog d) by nia.
      by rewrite Nat.Div0.mod_add. }
    apply Hlog; lia.
  - apply bool_decide_eq_false in Hf. rewrite Hm, Nat.mod_small by lia.
    rewrite <- (Hlog (length h - k + i)) by lia. by rewrite Nat.mod_small by lia.
Qed.

(** The ring buffer is faithful: after any number of recorded messages
    recording never panics, and [RecentMessages n] returns, oldest first, the
    last [n] messages recorded, capped to the capacity and to what there is (a
    non-positive [n] asks for everything kept), also after any number of
    wrap-arounds. *)
Theorem RecentMessages_spec cap h n :
  ∃ d, record_all (NewDebugInspector cap) h = Some d ∧
    let kept := min (length h) (maxLog (NewDebugInspector cap)) in
    let k := if (n <=? 0)%Z || (Z.of_nat kept <? n)%Z then kept else Z.to_nat n in
    RecentMessages d n = Some (drop (length h - k) h).
Proof.
  assert (∃ d, record_all (NewDebugInspector cap) h = Some d
    ∧ ring_ok d h ∧ maxLog d = maxLog (NewDebugInspector cap)) as (d & Hd & Hring & Hmax).
  { induction h as [|e h IH] using rev_ind; [eexists; split_and!; [done|apply ring_ok_new|done]|].
    destruct IH as (d & Hd & Hok & Hmax). unfold record_all in *. rewrite foldl_snoc, Hd.
    destruct (ring_ok_record d h e Hok) as (d' & Hr & Hok'). exists d'. split_and!; [done..|].
    revert Hr. unfold RecordMessage. case_bool_decide; [|done].
    intros [= <-]. etransitivity; [|exact Hmax]. by case_bool_decide. }
  exists d. split; [done|]. cbn zeta. rewrite <- Hmax. by apply RecentMessages_ring.
Qed.

Example ring_test :
  let e n := {| ml_Timestamp := n; ml_Direction := "in"; ml_Channel := "#dev"; ml_Nick := "a";
                ml_Action := "STARTED"; ml_Raw := "" |} in
  match record_all (NewDebugInspector 3) (e <$> [1%Z; 2%Z; 3%Z; 4%Z; 5%Z]) with
  | Some d => RecentMessages d 2
  | None => None
  end = Some [e 4%Z; e 5%Z].
Proof. vm_compute. reflexivity. Qed.
