(* ===== verification/Coordinator.v ===== *)
(** * Automatic acknowledgements: [internal/agent/coordinator.go]

    The notifier reads the task store and sends through the client; both are
    arguments of its operation. *)

From S2P Require Import Prelude GoStrings Message Parser Serializer State.
From S2P Require Import Dependencies.

Record UnblockNotifier := { notified : gset string }.

Definition NewUnblockNotifier : UnblockNotifier := {| notified := ∅ |}.

Definition ack_message (name completedTask : string) : Message :=
  literal ActionAcknowledged (list_to_map [("task", name); ("unblocked-by", completedTask)])
    ["auto-unblock"] "".

(** The loop over the unblocked tasks: the notified set and the names that are
    acknowledged, in order. *)
Definition ack_step (acc : gset string * list string) (task : TaskInfo)
    : gset string * list string :=
  if bool_decide (Name task ∈ acc.1) then acc
  else ({[Name task]} ∪ acc.1, acc.2 ++ [Name task]).

Definition ack_tasks (notified : gset string) (tasks : list TaskInfo) : gset string * list string :=
  foldl ack_step (notified, []) tasks.

Section notifier.
Context `{MR : MapRange}.

Definition OnTaskCompleted (n : UnblockNotifier) (s : StateStore) (msg : Message)
    : UnblockNotifier * Outbox :=
  if negb (bool_decide (msg_Action msg = ActionCompleted)) then (n, [])
  else
    let completedTask := Get msg "task" in
    if bool_decide (completedTask = "") then (n, [])
    else match UnblockedTasks s with
         | [] => (n, [])
         | tasks =>
             let '(done, names) := ack_tasks (notified n) tasks in
             ({| notified := done |},
              (λ name, (reply_target msg, Message_String (ack_message name completedTask))) <$> names)
         end.

Definition Reset (n : UnblockNotifier) : UnblockNotifier := {| notified := ∅ |}.

Definition NotifiedTasks (n : UnblockNotifier) : list string :=
  elements (notified n).

Definition FormatUnblockMessage (unblockedTask completedTask : string) : string :=
  "ACKNOWLEDGED task=" +:+ unblockedTask +:+ " unblocked-by=" +:+ completedTask +:+ " #auto-unblock".

Lemma ack_tasks_spec notified tasks :
  let '(done, names) := ack_tasks notified tasks in
  NoDup names ∧ (∀ x, x ∈ names ↔ x ∈ Name <$> tasks ∧ x ∉ notified) ∧
  done = list_to_set names ∪ notified.
Proof.
  unfold ack_tasks. induction tasks as [|t tasks IH] using rev_ind.
  - cbn. split_and!; [constructor|set_solver|set_solver].
  - rewrite foldl_snoc. destruct (foldl ack_step (notified, []) tasks) as [done names].
    destruct IH as (Hnd & Hin & ->). unfold ack_step. cbn [fst snd].
    rewrite fmap_app. case_bool_decide as Hd; cbn [fst snd].
    + split_and!; [done| |done]. intros x. rewrite Hin. cbn. set_solver.
    + split_and!.
      * apply NoDup_app. split_and!; [done| |apply NoDup_singleton]. set_solver.
      * intros x. rewrite elem_of_app, list_elem_of_singleton, Hin. cbn. set_solver.
      * rewrite list_to_set_app_L. set_solver.
Qed.

(** A session: completions arriving one after the other, each with the store
    of that moment. The result also collects what is sent. *)
Definition session (n : UnblockNotifier) (events : list (StateStore * Message))
    : UnblockNotifier * Outbox :=
  foldl (λ acc ev, let '(n, sent) := OnTaskCompleted acc.1 ev.1 ev.2 in (n, acc.2 ++ sent))
    (n, []) events.

(** The task that a sent text acknowledges, as its receivers read it. *)
Definition acked (text : string) : option string :=
  match Parse text with
  | inl m => if bool_decide (msg_Action m = ActionAcknowledged) && HasTag m "auto-unblock"
             then Some (Get m "task") else None
  | inr _ => None
  end.

Lemma fields_ok_ack name completedTask :
  value_ok name = true → value_ok completedTask = true →
  wf_message (ack_message name completedTask) = true.
Proof.
  intros Hn Hc. apply wf_literal; [reflexivity|discriminate| |reflexivity].
  cbn [list_to_map foldr]. apply fields_ok_insert; [reflexivity|exact Hn|].
  apply fields_ok_insert; [reflexivity|exact Hc|apply fields_ok_empty].
Qed.

Lemma acked_ack name completedTask :
  value_ok name = true → value_ok completedTask = true →
  acked (Message_String (ack_message name completedTask)) = Some name.
Proof.
  intros Hn Hc. unfold acked. rewrite Parse_Message_String by by apply fields_ok_ack.
  cbn. unfold HasTag, Get. cbn. by rewrite lookup_insert_eq.
Qed.

(** A completion acknowledges every task it leaves unblocked, on the wire:
    the texts sent go to the channel of the message (or its sender), each
    parses as an [auto-unblock] ACKNOWLEDGED naming one task, the tasks named
    are exactly the unblocked ones that were not acknowledged before, each
    once, and all of them count as acknowledged afterwards. *)
Theorem OnTaskCompleted_spec n s msg
    (Ha : msg_Action msg = ActionCompleted) (Ht : Get msg "task" ≠ "")
    (Hok : value_ok (Get msg "task") = true)
    (Hnames : ∀ t, t ∈ UnblockedTasks s → value_ok (Name t) = true) :
  let '(n', sent) := OnTaskCompleted n s msg in
  ∃ names, acked <$> sent.*2 = Some <$> names ∧
    (∀ target, target ∈ sent.*1 → target = reply_target msg) ∧
    NoDup names ∧
    (∀ x, x ∈ names ↔ x ∈ Name <$> UnblockedTasks s ∧ x ∉ notified n) ∧
    notified n' = list_to_set names ∪ notified n.
Proof.
  unfold OnTaskCompleted. rewrite bool_decide_eq_true_2, bool_decide_eq_false_2 by done. cbn [negb].
  destruct (UnblockedTasks s) as [|t0 ts] eqn:E.
  - exists []. split_and!; [done|set_solver|constructor|set_solver|set_solver].
  - rewrite <- E in *. clear E. pose proof (ack_tasks_spec (notified n) (UnblockedTasks s)) as Hs.
    destruct (ack_tasks (notified n) (UnblockedTasks s)) as [done names].
    destruct Hs as (Hnd & Hin & ->). exists names. split_and!; [| |done..].
    + rewrite <- !list_fmap_compose. apply list_fmap_ext. intros i x Hx. unfold compose. cbn.
      apply acked_ack; [|done]. apply list_elem_of_lookup_2, Hin in Hx as [Hx _].
      apply list_elem_of_fmap in Hx as (t & -> & Ht'). by apply Hnames.
    + intros target. rewrite <- list_fmap_compose, list_elem_of_fmap. by intros (x & -> & _).
Qed.

(** At most one acknowledgement per task: over a whole session, whatever
    the stores and completions, no task is acknowledged twice, so a task that
    blocks and is unblocked a second time is not announced again. *)
Theorem session_acks_once n events
    (Hok : ∀ s msg, (s, msg) ∈ events →
      value_ok (Get msg "task") = true ∧ ∀ t, t ∈ UnblockedTasks s → value_ok (Name t) = true) :
  let '(n', sent) := session n events in
  ∃ names, acked <$> sent.*2 = Some <$> names ∧ NoDup names ∧
    (∀ x, x ∈ names → x ∉ notified n) ∧ notified n' = list_to_set names ∪ notified n.
Proof.
  unfold session. induction events as [|[s msg] events IH] using rev_ind.
  - exists []. split_and!; [done|constructor|set_solver|set_solver].
  - rewrite foldl_snoc.
    destruct (foldl _ (n, []) events) as [n1 sent1] eqn:E1.
    destruct IH as (names1 & Hack1 & Hnd1 & Hnew1 & Hno1); [intros; apply Hok; set_solver|].
    destruct (Hok s msg) as [Hv Hnames]; [set_solver|]. cbn [fst snd].
    destruct (OnTaskCompleted n1 s msg) as [n2 sent2] eqn:E2.
    unfold OnTaskCompleted in E2.
    destruct (negb _); [injection E2 as <- <-; exists names1; by rewrite app_nil_r|].
    case_bool_decide; [injection E2 as <- <-; exists names1; by rewrite app_nil_r|].
    destruct (UnblockedTasks s) as [|t0 ts] eqn:E;
      [injection E2 as <- <-; exists names1; by rewrite app_nil_r|].
    rewrite <- E in *. clear E.
    pose proof (ack_tasks_spec (notified n1) (UnblockedTasks s)) as Hs.
    destruct (ack_tasks (notified n1) (UnblockedTasks s)) as [done names2].
    destruct Hs as (Hnd2 & Hin2 & ->). injection E2 as <- <-.
    exists (names1 ++ names2). split_and!.
    + rewrite !fmap_app, Hack1. f_equal. rewrite <- !list_fmap_compose.
      apply list_fmap_ext. intros i x Hx. unfold compose. cbn.
      apply acked_ack; [|done]. apply list_elem_of_lookup_2, Hin2 in Hx as [Hx _].
      apply list_elem_of_fmap in Hx as (t & -> & Ht'). by apply Hnames.
    + apply NoDup_app. split_and!; [done| |done]. intros x Hx [_ Hx2]%Hin2.
      apply Hx2. rewrite Hno1. set_solver.
    + intros x [Hx|[_ Hx]%Hin2]%elem_of_app; [by apply Hnew1|]. rewrite Hno1 in Hx. set_solver.
    + cbn. rewrite Hno1, list_to_set_app_L. set_solver.
Qed.
End notifier.

(** ** A concrete run *)

Lemma names_ok (l : list TaskInfo) :
  forallb (λ t, value_ok (Name t)) l = true → ∀ t, t ∈ l → value_ok (Name t) = true.
Proof. rewrite forallb_forall. intros H t Ht%list_elem_of_In. by apply H. Qed.

Lemma OnTaskCompleted_spec_witness :
  let '(n', sent) := OnTaskCompleted NewUnblockNotifier completed_store completed_build in
  ∃ names, acked <$> sent.*2 = Some <$> names ∧
    (∀ target, target ∈ sent.*1 → target = "#dev") ∧
    NoDup names ∧
    (∀ x, x ∈ names ↔ x ∈ Name <$> UnblockedTasks completed_store ∧ x ∉ notified NewUnblockNotifier) ∧
    notified n' = list_to_set names ∪ notified NewUnblockNotifier.
Proof.
  apply (OnTaskCompleted_spec NewUnblockNotifier completed_store completed_build).
  - reflexivity.
  - discriminate.
  - reflexivity.
  - apply names_ok. vm_compute. reflexivity.
Defined.

Lemma session_acks_once_witness :
  let events := [(completed_store, completed_build); (completed_store, completed_build)] in
  let '(n', sent) := session NewUnblockNotifier events in
  ∃ names, acked <$> sent.*2 = Some <$> names ∧ NoDup names ∧
    (∀ x, x ∈ names → x ∉ notified NewUnblockNotifier) ∧
    notified n' = list_to_set names ∪ notified NewUnblockNotifier.
Proof.
  apply (session_acks_once NewUnblockNotifier
    [(completed_store, completed_build); (completed_store, completed_build)]).
  intros s msg Hin.
  assert (s = completed_store ∧ msg = completed_build) as [-> ->].
  { rewrite !elem_of_cons, elem_of_nil in Hin. naive_solver. }
  split; [reflexivity|]. apply names_ok. vm_compute. reflexivity.
Defined.

Example session_test :
  (session NewUnblockNotifier
     [(completed_store, completed_build); (completed_store, completed_build)]).2 =
  [("#dev", "ACKNOWLEDGED task=test unblocked-by=build #auto-unblock")].
Proof. vm_compute. reflexivity. Qed.
