(* ===== verification/Metrics.v ===== *)
(** * Activity counters: [internal/agent/metrics.go]

    Atomic 64-bit counters; [Add(1)] wraps around. The OpenTelemetry counters that
    mirror some of them are in [Telemetry]. *)

From S2P Require Import Prelude GoNum Message.

Record MetricsCollector := {
  messagesReceived : Z;
  messagesSent : Z;
  protocolMessagesIn : Z;
  protocolMessagesOut : Z;
  tasksStarted : Z;
  tasksCompleted : Z;
  tasksBlocked : Z;
  dependenciesResolved : Z;
  contextRequests : Z;
  contextShared : Z;
  notificationsSent : Z;
  helpRequested : Z;
  tasksOffered : Z;
  tasksClaimed : Z;
  tasksAssigned : Z;
  tasksDeclined : Z;
  tasksYielded : Z;
  checkpoints_count : Z;
  handoffs_count : Z;
  reviewsRequested : Z;
  reviewsCompleted : Z;
  gatesPassed : Z;
  gatesFailed : Z;
  votesRecorded : Z;
  escalationsRaised : Z
}.

#[export] Instance MetricsCollector_eta : RecordEta MetricsCollector := λ r,
  {| messagesReceived := messagesReceived r; messagesSent := messagesSent r;
     protocolMessagesIn := protocolMessagesIn r; protocolMessagesOut := protocolMessagesOut r;
     tasksStarted := tasksStarted r; tasksCompleted := tasksCompleted r;
     tasksBlocked := tasksBlocked r; dependenciesResolved := dependenciesResolved r;
     contextRequests := contextRequests r; contextShared := contextShared r;
     notificationsSent := notificationsSent r; helpRequested := helpRequested r;
     tasksOffered := tasksOffered r; tasksClaimed := tasksClaimed r;
     tasksAssigned := tasksAssigned r; tasksDeclined := tasksDeclined r;
     tasksYielded := tasksYielded r; checkpoints_count := checkpoints_count r;
     handoffs_count := handoffs_count r; reviewsRequested := reviewsRequested r;
     reviewsCompleted := reviewsCompleted r; gatesPassed := gatesPassed r;
     gatesFailed := gatesFailed r; votesRecorded := votesRecorded r;
     escalationsRaised := escalationsRaised r |}.

Definition NewMetricsCollector : MetricsCollector :=
  {| messagesReceived := 0; messagesSent := 0; protocolMessagesIn := 0; protocolMessagesOut := 0;
     tasksStarted := 0; tasksCompleted := 0; tasksBlocked := 0; dependenciesResolved := 0;
     contextRequests := 0; contextShared := 0; notificationsSent := 0; helpRequested := 0;
     tasksOffered := 0; tasksClaimed := 0; tasksAssigned := 0; tasksDeclined := 0;
     tasksYielded := 0; checkpoints_count := 0; handoffs_count := 0; reviewsRequested := 0;
     reviewsCompleted := 0; gatesPassed := 0; gatesFailed := 0; votesRecorded := 0;
     escalationsRaised := 0 |}%Z.

(** [Add(1)] *)
Definition inc (z : Z) : Z := wrap64 (z + 1).

Definition HandleProtocolMessage (mc : MetricsCollector) (msg : Message) : MetricsCollector :=
  let mc := mc <| protocolMessagesIn := inc (protocolMessagesIn mc) |> in
  match msg_Action msg with
  | ActionStarted => mc <| tasksStarted := inc (tasksStarted mc) |>
  | ActionCompleted => mc <| tasksCompleted := inc (tasksCompleted mc) |>
  | ActionBlocked => mc <| tasksBlocked := inc (tasksBlocked mc) |>
  | ActionAcknowledged => mc <| dependenciesResolved := inc (dependenciesResolved mc) |>
  | ActionRequestContext => mc <| contextRequests := inc (contextRequests mc) |>
  | ActionContext | ActionSharingContext => mc <| contextShared := inc (contextShared mc) |>
  | ActionHelpNeeded => mc <| helpRequested := inc (helpRequested mc) |>
  | ActionOffer => mc <| tasksOffered := inc (tasksOffered mc) |>
  | ActionClaim => mc <| tasksClaimed := inc (tasksClaimed mc) |>
  | ActionAssign => mc <| tasksAssigned := inc (tasksAssigned mc) |>
  | ActionDecline => mc <| tasksDeclined := inc (tasksDeclined mc) |>
  | ActionYield => mc <| tasksYielded := inc (tasksYielded mc) |>
  | ActionCheckpoint => mc <| checkpoints_count := inc (checkpoints_count mc) |>
  | ActionHandoff => mc <| handoffs_count := inc (handoffs_count mc) |>
  | ActionReviewRequest => mc <| reviewsRequested := inc (reviewsRequested mc) |>
  | ActionReviewComplete => mc <| reviewsCompleted := inc (reviewsCompleted mc) |>
  | ActionGateCheck => mc <| gatesPassed := inc (gatesPassed mc) |>
  | ActionVote => mc <| votesRecorded := inc (votesRecorded mc) |>
  | ActionEscalate => mc <| escalationsRaised := inc (escalationsRaised mc) |>
  | _ => mc
  end.

Definition RecordMessageSent (mc : MetricsCollector) : MetricsCollector :=
  mc <| messagesSent := inc (messagesSent mc) |>
     <| protocolMessagesOut := inc (protocolMessagesOut mc) |>.

Definition RecordRawMessageReceived (mc : MetricsCollector) : MetricsCollector :=
  mc <| messagesReceived := inc (messagesReceived mc) |>.

Definition RecordNotificationSent (mc : MetricsCollector) : MetricsCollector :=
  mc <| notificationsSent := inc (notificationsSent mc) |>.

(** [MetricsSnapshot]: the counters at one moment. *)
Record MetricsSnapshot := {
  ms_counters : MetricsCollector;
  ms_CollectedAt : Time
}.

Definition mc_Snapshot (now : Time) (mc : MetricsCollector) : MetricsSnapshot :=
  {| ms_counters := mc; ms_CollectedAt := now |}.

(** The gate counters do not tell results apart: whatever messages are
    handled, every gate check is counted as passed, the ones whose status is
    [failed] too, and the counter of failed gates stays at 0, while the task
    counters count exactly the messages of their action. *)
Theorem gate_metrics_conflate msgs :
  let mc := foldl HandleProtocolMessage NewMetricsCollector msgs in
  let number p := wrap64 (Z.of_nat (count p msgs)) in
  gatesFailed mc = 0%Z ∧
  gatesPassed mc = number (λ m, bool_decide (msg_Action m = ActionGateCheck)) ∧
  protocolMessagesIn mc = number (λ _, true) ∧
  tasksStarted mc = number (λ m, bool_decide (msg_Action m = ActionStarted)) ∧
  tasksCompleted mc = number (λ m, bool_decide (msg_Action m = ActionCompleted)) ∧
  tasksBlocked mc = number (λ m, bool_decide (msg_Action m = ActionBlocked)).
Proof.
  induction msgs as [|m msgs IH] using rev_ind; [done|]. cbn zeta in *. rewrite foldl_snoc.
  assert (∀ p, wrap64 (Z.of_nat (count p (msgs ++ [m]))) =
    if (p m : bool) then inc (wrap64 (Z.of_nat (count p msgs)))
    else wrap64 (Z.of_nat (count p msgs))) as Hc.
  { intros p. unfold inc, count. rewrite wrap64_add_l, List.filter_app, length_app. cbn.
    destruct (p m); cbn; f_equal; lia. }
  rewrite !Hc. revert IH. generalize (foldl HandleProtocolMessage NewMetricsCollector msgs).
  intros mc (H1 & H2 & H3 & H4 & H5 & H6). rewrite <- H2, <- H3, <- H4, <- H5, <- H6.
  unfold HandleProtocolMessage. destruct (msg_Action m); cbn; split_and!; done.
Qed.

Example gate_failed_test :
  let m := literal ActionGateCheck (list_to_map [("gate", "ci"); ("status", "failed")]) [] "" in
  let mc := HandleProtocolMessage NewMetricsCollector m in
  (gatesPassed mc, gatesFailed mc) = (1%Z, 0%Z).
Proof. vm_compute. reflexivity. Qed.
