(* ===== verification/Health.v ===== *)
(** * Health checks: [internal/agent/health.go]

    A check reads the client and the task store at one moment; nothing runs in
    between. What the methods of the client return is a record ([ClientView]);
    [JoinedChannels] is the one of [IrcClient], [Connected] and [Healthy] ask the
    library. *)

From S2P Require Import Prelude GoStrings GoNum GoFloat State Dependencies.

Record TaskStatsInfo := {
  ts_Total : nat;
  ts_Started : nat;
  ts_Completed : nat;
  ts_Blocked : nat
}.

#[export] Instance TaskStatsInfo_eta : RecordEta TaskStatsInfo := λ r,
  {| ts_Total := ts_Total r; ts_Started := ts_Started r; ts_Completed := ts_Completed r;
     ts_Blocked := ts_Blocked r |}.

Record HealthStatus := {
  hs_Connected : bool;
  hs_Healthy : bool;
  hs_Nick : string;
  hs_Channels : list string;
  hs_Uptime : Duration;
  hs_UptimeHuman : string;
  hs_StartedAt : Time;
  hs_TaskStats : TaskStatsInfo;
  hs_DependencyStats : DependencyStatsInfo
}.

(** What the methods of the client return. *)
Record ClientView := {
  cv_Connected : bool;
  cv_Healthy : bool;
  cv_Nick : string;
  cv_JoinedChannels : list string
}.

(** The client and the task store are the agent's; a check gets their current
    values. *)
Record HealthMonitor := { hm_startedAt : Time }.

Definition NewHealthMonitor (now : Time) : HealthMonitor := {| hm_startedAt := now |}.

(** [int(d.Hours())] converts a floating-point number. *)
Definition formatDuration `{FloatOverflow} (d : Duration) : string :=
  let h := int_of_float (Hours d) in
  let m := Z.rem (int_of_float (Minutes d)) 60 in
  let s := Z.rem (int_of_float (Seconds d)) 60 in
  FormatInt h +:+ "h" +:+ FormatInt m +:+ "m" +:+ FormatInt s +:+ "s".

(** One round of the loop over the tasks. *)
Definition count_task (stats : TaskStatsInfo) (t : TaskInfo) : TaskStatsInfo :=
  if bool_decide (Status t = TaskStatusStarted)
  then stats <| ts_Started := S (ts_Started stats) |>
  else if bool_decide (Status t = TaskStatusCompleted)
  then stats <| ts_Completed := S (ts_Completed stats) |>
  else if bool_decide (Status t = TaskStatusBlocked)
  then stats <| ts_Blocked := S (ts_Blocked stats) |>
  else stats.

Definition hm_Check `{MR : MapRange} `{FO : FloatOverflow} (now : Time) (client : ClientView)
    (state : StateStore) (h : HealthMonitor) : HealthStatus :=
  let uptime := Sub now (hm_startedAt h) in
  let tasks := ListTasks state in
  let stats := foldl count_task
    {| ts_Total := length tasks; ts_Started := 0; ts_Completed := 0; ts_Blocked := 0 |} tasks in
  {| hs_Connected := cv_Connected client; hs_Healthy := cv_Healthy client;
     hs_Nick := cv_Nick client; hs_Channels := cv_JoinedChannels client;
     hs_Uptime := uptime; hs_UptimeHuman := formatDuration uptime;
     hs_StartedAt := hm_startedAt h; hs_TaskStats := stats;
     hs_DependencyStats := DependencyStats state |}.

Lemma statuses_differ :
  TaskStatusStarted ≠ TaskStatusCompleted ∧ TaskStatusStarted ≠ TaskStatusBlocked ∧
  TaskStatusCompleted ≠ TaskStatusBlocked.
Proof. done. Qed.

Lemma foldl_count_task ts total a b c :
  foldl count_task {| ts_Total := total; ts_Started := a; ts_Completed := b; ts_Blocked := c |} ts =
  {| ts_Total := total;
     ts_Started := a + count (λ t, bool_decide (Status t = TaskStatusStarted)) ts;
     ts_Completed := b + count (λ t, bool_decide (Status t = TaskStatusCompleted)) ts;
     ts_Blocked := c + count (λ t, bool_decide (Status t = TaskStatusBlocked)) ts |}.
Proof.
  destruct statuses_differ as (? & ? & ?).
  revert a b c. induction ts as [|t ts IH]; intros a b c; [cbn; f_equal; lia|].
  cbn [foldl]. unfold count_task at 2. rewrite !count_cons.
  repeat case_bool_decide; cbn -[count]; try congruence; rewrite IH; f_equal; lia.
Qed.

(** A health report adds up: its numbers of started, completed and blocked
    tasks are those that the store lists under these statuses, they are disjoint
    parts of the total, and the blocked ones cover those that wait for something
    and those that could go on. *)
Theorem Check_adds_up `{MR : MapRange} `{FO : FloatOverflow} now client s h :
  let report := hm_Check now client s h in
  let stats := hs_TaskStats report in
  ts_Total stats = size (tasks s) ∧
  ts_Started stats = length (TasksByStatus s TaskStatusStarted) ∧
  ts_Completed stats = length (TasksByStatus s TaskStatusCompleted) ∧
  ts_Blocked stats = length (TasksByStatus s TaskStatusBlocked) ∧
  ts_Started stats + ts_Completed stats + ts_Blocked stats ≤ ts_Total stats ∧
  BlockedTasks (hs_DependencyStats report) + UnblockedTasks_count (hs_DependencyStats report)
    ≤ ts_Blocked stats.
Proof.
  intros report stats. unfold stats, report, hm_Check. cbn [hs_TaskStats hs_DependencyStats].
  rewrite foldl_count_task. cbn [ts_Total ts_Started ts_Completed ts_Blocked].
  assert (∀ st, count (λ t, bool_decide (Status t = st)) (ListTasks s) =
    length (TasksByStatus s st)) as Hc by done.
  rewrite !Nat.add_0_l, !Hc. split_and!; try done.
  - unfold ListTasks. by rewrite length_fmap, length_range.
  - destruct statuses_differ as (? & ? & ?). rewrite <- !Hc. generalize (ListTasks s) as l. induction l as [|t l IH]; [cbn; lia|].
    rewrite !count_cons. cbn [length]. repeat case_bool_decide; try congruence; lia.
  - by destruct (DependencyStats_spec s) as (_ & _ & _ & _ & Hle).
Qed.

(** The readable uptime is computed from rounded numbers: half a year after the
    start, one nanosecond before the minute is full, the minutes are already one
    too many while the seconds are not. *)
Lemma formatDuration_rounds_up :
  let minutes := (262144 * 60 * 1000000000)%Z in
  formatDuration (minutes + 59999999998) = "4369h4m59s" ∧
  formatDuration (minutes + 59999999999) = "4369h5m59s" ∧
  formatDuration (minutes + 60000000000) = "4369h5m0s".
Proof. split_and!; vm_compute; reflexivity. Qed.
