(* ===== verification/Notifier.v ===== *)
(** * Notifications: [internal/agent/notifier.go]

    [fmt.Sprintf]'s verb [%q] quotes by Unicode's tables of printable runes: it
    is an argument ([q]), of which nothing is assumed. *)

From S2P Require Import Prelude GoStrings Message.

(** [NotificationEvent] is a string type; a rule can name any string. *)
Definition NotifyTaskCompleted : string := "task_completed".
Definition NotifyTaskBlocked : string := "task_blocked".
Definition NotifyTaskStarted : string := "task_started".
Definition NotifyHelpNeeded : string := "help_needed".
Definition NotifyContextUpdate : string := "context_update".
Definition NotifyUnblocked : string := "unblocked".
Definition NotifyTaskOffered : string := "task_offered".
Definition NotifyTaskClaimed : string := "task_claimed".
Definition NotifyTaskAssigned : string := "task_assigned".
Definition NotifyTaskYielded : string := "task_yielded".
Definition NotifyCheckpoint : string := "checkpoint".
Definition NotifyHandoff : string := "handoff".
Definition NotifyReviewRequested : string := "review_requested".
Definition NotifyReviewCompleted : string := "review_completed".
Definition NotifyGatePassed : string := "gate_passed".
Definition NotifyGateFailed : string := "gate_failed".
Definition NotifyVote : string := "vote".
Definition NotifyEscalation : string := "escalation".

Record NotificationRule := {
  nr_Event : string;
  nr_Channel : string;
  nr_Formatter : option (string → Message → string)
}.

Record Notifier := { nt_rules : list NotificationRule }.

Definition NewNotifier : Notifier := {| nt_rules := [] |}.

Definition AddRule (n : Notifier) (rule : NotificationRule) : Notifier :=
  {| nt_rules := nt_rules n ++ [rule] |}.

Definition RemoveRulesForEvent (n : Notifier) (event : string) : Notifier :=
  {| nt_rules := List.filter (λ r, negb (bool_decide (nr_Event r = event))) (nt_rules n) |}.

Definition RemoveRulesForChannel (n : Notifier) (channel : string) : Notifier :=
  {| nt_rules := List.filter (λ r, negb (bool_decide (nr_Channel r = channel))) (nt_rules n) |}.

Definition Rules (n : Notifier) : list NotificationRule := nt_rules n.

Definition actionToEvent (action : Action) : string :=
  match action with
  | ActionCompleted => NotifyTaskCompleted
  | ActionBlocked => NotifyTaskBlocked
  | ActionStarted => NotifyTaskStarted
  | ActionHelpNeeded => NotifyHelpNeeded
  | ActionContext => NotifyContextUpdate
  | ActionAcknowledged => NotifyUnblocked
  | ActionOffer => NotifyTaskOffered
  | ActionClaim => NotifyTaskClaimed
  | ActionAssign => NotifyTaskAssigned
  | ActionYield => NotifyTaskYielded
  | ActionCheckpoint => NotifyCheckpoint
  | ActionHandoff => NotifyHandoff
  | ActionReviewRequest => NotifyReviewRequested
  | ActionReviewComplete => NotifyReviewCompleted
  | ActionGateCheck => NotifyGatePassed
  | ActionVote => NotifyVote
  | ActionEscalate => NotifyEscalation
  | _ => ""
  end.

Section notifier.
Context (q : string → string).

Definition DefaultNotificationFormatter (event : string) (msg : Message) : string :=
  let task := q (Get msg "task") in
  let nick := msg_Nick msg in
  let on e := bool_decide (event = e) in
  if on NotifyTaskCompleted then
    "[COMPLETED] " +:+ nick +:+ " completed task " +:+ task +:+ " in " +:+ msg_Channel msg
  else if on NotifyTaskBlocked then
    let waitFor := Get msg "waiting-for" in
    if negb (bool_decide (waitFor = "")) then
      "[BLOCKED] " +:+ nick +:+ " blocked on task " +:+ task +:+ " waiting for " +:+ waitFor
    else "[BLOCKED] " +:+ nick +:+ " blocked on task " +:+ task
  else if on NotifyTaskStarted then
    "[STARTED] " +:+ nick +:+ " started task " +:+ task +:+ " in " +:+ msg_Channel msg
  else if on NotifyHelpNeeded then
    let expertise := Get msg "expertise" in
    if negb (bool_decide (expertise = "")) then
      "[HELP-NEEDED] " +:+ nick +:+ " needs help with " +:+ task +:+
        " (expertise: " +:+ expertise +:+ ")"
    else "[HELP-NEEDED] " +:+ nick +:+ " needs help with " +:+ task
  else if on NotifyContextUpdate then
    "[CONTEXT] " +:+ nick +:+ " updated context for " +:+ q (Get msg "component")
  else if on NotifyUnblocked then
    let unblockedBy := Get msg "unblocked-by" in
    if negb (bool_decide (unblockedBy = "")) then
      "[UNBLOCKED] task " +:+ task +:+ " unblocked by completion of " +:+ q unblockedBy
    else "[UNBLOCKED] task " +:+ task +:+ " unblocked"
  else if on NotifyTaskOffered then
    "[OFFERED] " +:+ nick +:+ " offered task " +:+ task +:+ " in " +:+ msg_Channel msg
  else if on NotifyTaskClaimed then
    "[CLAIMED] " +:+ nick +:+ " claimed task " +:+ task
  else if on NotifyTaskAssigned then
    "[ASSIGNED] " +:+ nick +:+ " assigned task " +:+ task +:+ " to " +:+ Get msg "to"
  else if on NotifyTaskYielded then
    "[YIELDED] " +:+ nick +:+ " yielded task " +:+ task
  else if on NotifyCheckpoint then
    "[CHECKPOINT] " +:+ nick +:+ " checkpoint on " +:+ task +:+ ": " +:+ Get msg "progress" +:+
      "% - " +:+ Get msg "summary"
  else if on NotifyHandoff then
    "[HANDOFF] " +:+ nick +:+ " handed off " +:+ task +:+ " to " +:+ Get msg "to"
  else if on NotifyReviewRequested then
    "[REVIEW-REQUEST] " +:+ nick +:+ " requested " +:+ Get msg "review-type" +:+
      " review for " +:+ task
  else if on NotifyReviewCompleted then
    "[REVIEW-COMPLETE] " +:+ nick +:+ " reviewed " +:+ task +:+ ": " +:+ Get msg "verdict"
  else if on NotifyGatePassed then
    "[GATE-CHECK] " +:+ nick +:+ " gate " +:+ q (Get msg "gate") +:+ " for " +:+ task +:+
      ": " +:+ Get msg "status"
  else if on NotifyGateFailed then
    "[GATE-FAILED] " +:+ nick +:+ " gate " +:+ q (Get msg "gate") +:+ " for " +:+ task +:+
      " failed: " +:+ Get msg "details"
  else if on NotifyVote then
    "[VOTE] " +:+ nick +:+ " voted " +:+ q (Get msg "choice") +:+ " on topic " +:+ q (Get msg "topic")
  else if on NotifyEscalation then
    "[ESCALATE] " +:+ nick +:+ " escalated " +:+ task +:+ " to " +:+ Get msg "to" +:+ ": " +:+
      Get msg "reason" +:+ " (severity: " +:+ Get msg "severity" +:+ ")"
  else "".

(** The event of a message: [""] for none. *)
Definition message_event (msg : Message) : string :=
  let event := actionToEvent (msg_Action msg) in
  if bool_decide (event = "") then ""
  else
    let event := if bool_decide (msg_Action msg = ActionAcknowledged) && HasTag msg "auto-unblock"
                 then NotifyUnblocked else event in
    if bool_decide (msg_Action msg = ActionGateCheck) && bool_decide (Get msg "status" = "failed")
    then NotifyGateFailed else event.

Definition rule_text (rule : NotificationRule) (event : string) (msg : Message) : string :=
  match nr_Formatter rule with
  | Some f => f event msg
  | None => DefaultNotificationFormatter event msg
  end.

Definition nt_HandleMessage (n : Notifier) (msg : Message) : Outbox :=
  let event := message_event msg in
  if bool_decide (event = "") then []
  else
    List.filter (λ r, bool_decide (nr_Event r = event)) (nt_rules n) ≫= λ rule,
      let text := rule_text rule event msg in
      if negb (bool_decide (text = "")) then [(nr_Channel rule, text)] else [].

Lemma default_format_bracket event msg :
  DefaultNotificationFormatter event msg = "" ∨
  ∃ rest, DefaultNotificationFormatter event msg = "[" +:+ rest.
Proof.
  unfold DefaultNotificationFormatter. cbv zeta.
  repeat case_match; first [by left|right; eexists; reflexivity].
Qed.

Lemma message_event_known msg :
  message_event msg ≠ "" → ∃ rest, DefaultNotificationFormatter (message_event msg) msg = "[" +:+ rest.
Proof.
  intros Hne. destruct (default_format_bracket (message_event msg) msg) as [E|?]; [|done].
  exfalso. revert Hne E. unfold message_event.
  destruct (msg_Action msg); cbn; try done;
    repeat (case_bool_decide; cbn); destruct (HasTag msg "auto-unblock"); cbn; try done;
    unfold DefaultNotificationFormatter; cbn; repeat case_match; done.
Qed.

(** Every matching rule is served: a message with an event sends one text
    per rule for that event, in the order of the rules and to each rule's
    channel; without custom formatters none of them is empty, and none is ever
    taken for a protocol message by the agents that read the channel, so
    notifications do not feed back into the protocol. *)
Theorem notifications_spec n msg
    (Hdefault : forallb (λ r, match nr_Formatter r with Some _ => false | None => true end)
                  (nt_rules n) = true)
    (Hev : message_event msg ≠ "") :
  (nt_HandleMessage n msg).*1 =
    nr_Channel <$> List.filter (λ r, bool_decide (nr_Event r = message_event msg)) (nt_rules n) ∧
  ∀ target text, (target, text) ∈ nt_HandleMessage n msg →
    text ≠ "" ∧ IsProtocolMessage text = false.
Proof.
  destruct (message_event_known msg Hev) as [rest Hrest].
  assert (∀ r, r ∈ nt_rules n → rule_text r (message_event msg) msg = "[" +:+ rest) as Htext.
  { intros r Hr. rewrite forallb_forall in Hdefault.
    apply list_elem_of_In in Hr. specialize (Hdefault r Hr). unfold rule_text.
    by destruct (nr_Formatter r). }
  assert (nt_HandleMessage n msg = (λ r, (nr_Channel r, "[" +:+ rest)) <$>
    List.filter (λ r, bool_decide (nr_Event r = message_event msg)) (nt_rules n)) as ->.
  { unfold nt_HandleMessage. rewrite bool_decide_eq_false_2 by done.
    revert Htext. generalize (nt_rules n). intros l Htext. clear Hdefault.
    induction l as [|r l IH]; [done|]. cbn [List.filter].
    destruct (bool_decide (nr_Event r = message_event msg)); [|apply IH; intros; apply Htext; by right].
    cbn. rewrite (Htext r) by left. cbn. f_equal. apply IH. intros; apply Htext; by right. }
  split.
  - rewrite <- list_fmap_compose. by apply list_fmap_ext.
  - intros target text (r & [= -> ->] & _)%list_elem_of_fmap. split; [done|].
    apply IsProtocolMessage_bracket.
Qed.
End notifier.

(** ** A concrete run *)

Definition sample_notifier : Notifier :=
  AddRule (AddRule NewNotifier {| nr_Event := NotifyGateFailed; nr_Channel := "#alerts"; nr_Formatter := None |})
    {| nr_Event := NotifyVote; nr_Channel := "#votes"; nr_Formatter := None |}.

Definition failed_gate : Message :=
  literal ActionGateCheck (list_to_map [("task", "t"); ("gate", "ci"); ("status", "failed")]) [] "".

Lemma notifications_spec_witness :
  (nt_HandleMessage id sample_notifier failed_gate).*1 =
    nr_Channel <$> List.filter (λ r, bool_decide (nr_Event r = message_event failed_gate))
      (nt_rules sample_notifier) ∧
  ∀ target text, (target, text) ∈ nt_HandleMessage id sample_notifier failed_gate →
    text ≠ "" ∧ IsProtocolMessage text = false.
Proof. apply (notifications_spec id sample_notifier failed_gate); [reflexivity|discriminate]. Defined.

Example failed_gate_test :
  nt_HandleMessage id sample_notifier failed_gate = [("#alerts", "[GATE-FAILED]  gate ci for t failed: ")].
Proof. vm_compute. reflexivity. Qed.
