(* ===== verification/Dispatcher.v ===== *)
(** * The protocol dispatcher: [internal/agent/protocol.go]

    One message in, the stores updated, replies out. A call of [time.Now()] in
    the handler or in a store it calls reads the clock: [clk i] is what the
    [i]-th call site reads ([0] the timestamp, [1] resolving dependencies,
    [2] the agent status, [3] the coordination stores, [4] the context store,
    [5] the discovery store). What leaves the dispatcher is collected in
    [Effects]: the texts sent, the subscription callbacks, the arbitration
    timer that is started, and the registered handlers that are called. *)

From S2P Require Import Prelude GoStrings GoNum Message Parser Serializer State.
From S2P Require Import TaskBoard Handoff Review Consensus Discovery Context ACL.
From S2P Require Import Coordinator Events.

(** Handlers are known by their ids. *)
Record ProtocolDispatcher := {
  pd_state : StateStore;
  pd_context : ContextStore;
  pd_unblockNotifier : UnblockNotifier;
  pd_acl : option ACLEngine;
  pd_discovery : option DiscoveryStore;
  pd_selfCaps : list string;
  pd_taskBoard : option TaskBoard;
  pd_handoff : option HandoffStore;
  pd_review : option ReviewStore;
  pd_consensus : option ConsensusStore;
  pd_handlers : gset nat;
  pd_nextID : nat
}.

#[export] Instance ProtocolDispatcher_eta : RecordEta ProtocolDispatcher := λ r,
  {| pd_state := pd_state r; pd_context := pd_context r;
     pd_unblockNotifier := pd_unblockNotifier r; pd_acl := pd_acl r;
     pd_discovery := pd_discovery r; pd_selfCaps := pd_selfCaps r;
     pd_taskBoard := pd_taskBoard r; pd_handoff := pd_handoff r; pd_review := pd_review r;
     pd_consensus := pd_consensus r; pd_handlers := pd_handlers r; pd_nextID := pd_nextID r |}.

Definition NewProtocolDispatcher (state : StateStore) (context : ContextStore)
    : ProtocolDispatcher :=
  {| pd_state := state; pd_context := context; pd_unblockNotifier := NewUnblockNotifier;
     pd_acl := None; pd_discovery := None; pd_selfCaps := []; pd_taskBoard := None;
     pd_handoff := None; pd_review := None; pd_consensus := None; pd_handlers := ∅;
     pd_nextID := 0 |}.

Definition OnProtocolMessage (pd : ProtocolDispatcher) : ProtocolDispatcher * nat :=
  (pd <| pd_nextID := S (pd_nextID pd) |>
      <| pd_handlers := {[pd_nextID pd]} ∪ pd_handlers pd |>, pd_nextID pd).

Definition RemoveProtocolHandler (pd : ProtocolDispatcher) (id : nat) : ProtocolDispatcher :=
  pd <| pd_handlers := pd_handlers pd ∖ {[id]} |>.

Record Effects := {
  fx_sent : Outbox;
  fx_subscriptions : list (nat * ContextEntry);
  fx_timer : option string;
  fx_handlers : list (nat * Message)
}.

Definition no_effects : Effects :=
  {| fx_sent := []; fx_subscriptions := []; fx_timer := None; fx_handlers := [] |}.

(** The actions that concern the task store. *)
Definition tracked (a : Action) : bool :=
  match a with
  | ActionStarted | ActionCompleted | ActionBlocked | ActionAcknowledged
  | ActionOffer | ActionClaim | ActionAssign | ActionAccept | ActionDecline | ActionYield
  | ActionCheckpoint | ActionHandoff => true
  | _ => false
  end.

(** [n := d; if s != "" { if v, err := strconv.Atoi(s); err == nil { n = v } }] *)
Definition int_field (s : string) : Z :=
  if bool_decide (s = "") then 0%Z
  else match Atoi s with Some v => v | None => 0%Z end.

(** A comma-separated field: the trimmed, non-empty items. *)
Definition list_field (s : string) : list string :=
  if bool_decide (s = "") then []
  else List.filter (λ t, negb (bool_decide (t = ""))) (TrimSpace <$> Split s ",").

Definition taskboard_update (now : Time) (tb : TaskBoard) (msg : Message)
    : TaskBoard * option string :=
  let task := Get msg "task" in
  match msg_Action msg with
  | ActionOffer => (RecordOffer now tb task (msg_Channel msg) (msg_Nick msg)
                      (Get msg "priority") (Get msg "scope"), None)
  | ActionClaim =>
      let '(tb, _, timer) := RecordClaim now tb task (msg_Nick msg) (int_field (Get msg "load")) in
      (tb, timer)
  | ActionAssign => (RecordAssign now tb task (Get msg "to") (msg_Nick msg) (msg_Channel msg), None)
  | ActionDecline => (RecordDecline tb task, None)
  | ActionYield => (RecordYield tb task, None)
  | _ => (tb, None)
  end.

Definition handoff_update (now : Time) (hs : HandoffStore) (msg : Message) : HandoffStore :=
  let task := Get msg "task" in
  match msg_Action msg with
  | ActionCheckpoint => RecordCheckpoint now hs task (msg_Nick msg)
      (int_field (Get msg "progress")) (Get msg "summary") (msg_Channel msg)
  | ActionHandoff => RecordHandoff now hs task (msg_Nick msg) (Get msg "to")
      (Get msg "context-id") (msg_Channel msg)
  | ActionAccept => AcceptHandoff hs task (msg_Nick msg)
  | _ => hs
  end.

Definition review_update (now : Time) (rs : ReviewStore) (msg : Message) : ReviewStore :=
  let task := Get msg "task" in
  match msg_Action msg with
  | ActionReviewRequest => RecordRequest now rs task (Get msg "pr") (Get msg "review-type")
      (msg_Nick msg) (msg_Channel msg)
  | ActionReviewComplete => RecordComplete now rs task (Get msg "pr") (msg_Nick msg)
      (Get msg "verdict") (Get msg "details") (msg_Channel msg)
  | ActionGateCheck => RecordGate now rs task (Get msg "gate") (Get msg "status")
      (Get msg "details") (msg_Nick msg) (msg_Channel msg)
  | _ => rs
  end.

Definition consensus_update (now : Time) (cs : ConsensusStore) (msg : Message) : ConsensusStore :=
  match msg_Action msg with
  | ActionVote => RecordVote now cs (Get msg "topic") (msg_Nick msg) (Get msg "choice")
      (msg_Channel msg)
  | ActionEscalate => RecordEscalation now cs (Get msg "task") (Get msg "to") (Get msg "reason")
      (Get msg "severity") (msg_Nick msg) (msg_Channel msg)
  | _ => cs
  end.

(** A store that is not configured is nil and is skipped. *)
Definition updateCoordinationStores (now : Time) (pd : ProtocolDispatcher) (msg : Message)
    : ProtocolDispatcher * option string :=
  let '(tb, timer) :=
    match pd_taskBoard pd with
    | Some tb => let '(tb, timer) := taskboard_update now tb msg in (Some tb, timer)
    | None => (None, None)
    end in
  (pd <| pd_taskBoard := tb |>
      <| pd_handoff := (λ hs, handoff_update now hs msg) <$> pd_handoff pd |>
      <| pd_review := (λ rs, review_update now rs msg) <$> pd_review pd |>
      <| pd_consensus := (λ cs, consensus_update now cs msg) <$> pd_consensus pd |>, timer).

(** The task store and the agent's status: the first switch of both handlers. *)
Definition update_tasks (clk : nat → Time) (s : StateStore) (msg : Message) : StateStore :=
  if tracked (msg_Action msg) then
    let s := UpdateTask (clk 1) s msg in
    if bool_decide (Get msg "task" = "") then s
    else UpdateAgentStatus (clk 2) s (msg_Nick msg) (msg_Channel msg) (Get msg "task")
  else s.

Section dispatcher.
Context `{MR : MapRange}.
Context (lower : string → string).

Definition updateLocalState (clk : nat → Time) (pd : ProtocolDispatcher) (msg : Message)
    : ProtocolDispatcher * Effects :=
  let pd := pd <| pd_state := update_tasks clk (pd_state pd) msg |> in
  let '(cs, calls) :=
    match msg_Action msg with
    | ActionContext => Store (clk 4) (pd_context pd) msg
    | ActionSharingContext => (StorePayload (pd_context pd) msg, [])
    | _ => (pd_context pd, [])
    end in
  let pd := pd <| pd_context := cs |> in
  let '(pd, timer) := updateCoordinationStores (clk 3) pd msg in
  (pd, {| fx_sent := []; fx_subscriptions := calls; fx_timer := timer; fx_handlers := [] |}).

Definition capability_of (msg : Message) : AgentCapability :=
  {| ac_Nick := msg_Nick msg;
     ac_Expertise := list_field (Get msg "expertise");
     ac_Channels := list_field (Get msg "channels");
     ac_CurrentTask := Get msg "current-task";
     ac_UpdatedAt := msg_Timestamp msg;
     ac_ExpiresAt := zero_time;
     ac_Role := Get msg "role";
     ac_Load := int_field (Get msg "load");
     ac_MaxLoad := int_field (Get msg "max-load");
     ac_ActiveTasks := list_field (Get msg "active-tasks") |}.

Definition handleCapabilities (now : Time) (ds : DiscoveryStore) (msg : Message) : DiscoveryStore :=
  Update now ds (capability_of msg).

Definition handleDiscover (pd : ProtocolDispatcher) (msg : Message) : Outbox :=
  let requested := lower (Get msg "expertise") in
  if bool_decide (requested = "") || bool_decide (pd_selfCaps pd = []) then []
  else if existsb (λ cap, bool_decide (lower cap = requested)) (pd_selfCaps pd) then
    [(reply_target msg, Message_String
        (literal ActionCapabilities {["expertise" := Join (pd_selfCaps pd) ","]} [] ""))]
  else [].

(** What the dispatcher makes of a text: [None] when it drops it. *)
Definition accept_message (clk : nat → Time) (selfNick : string) (pd : ProtocolDispatcher)
    (ev : MessageEvent) : option Message :=
  if negb (IsProtocolMessage (ev_Message ev)) then None
  else if bool_decide (ev_Nick ev = selfNick) then None
  else match Parse (ev_Message ev) with
       | inr _ => None
       | inl msg =>
           let msg := msg <| msg_Channel := ev_Channel ev |> <| msg_Nick := ev_Nick ev |>
             <| msg_Timestamp := if IsZero (ev_Timestamp ev) then clk 0 else ev_Timestamp ev |> in
           match pd_acl pd with
           | Some acl => if negb (Check acl (msg_Nick msg) (msg_Channel msg) (msg_Action msg))
                         then None else Some msg
           | None => Some msg
           end
       end.

(** The rest of the handler, on an accepted message. *)
Definition dispatch (clk : nat → Time) (pd : ProtocolDispatcher) (msg : Message)
    : ProtocolDispatcher * Effects :=
  let pd := pd <| pd_state := update_tasks clk (pd_state pd) msg |> in
  let '(n, acks) :=
    if bool_decide (msg_Action msg = ActionCompleted)
    then OnTaskCompleted (pd_unblockNotifier pd) (pd_state pd) msg
    else (pd_unblockNotifier pd, []) in
  let pd := pd <| pd_unblockNotifier := n |> in
  let '(pd, timer) := updateCoordinationStores (clk 3) pd msg in
  let '(cs, calls, ctx_sent) :=
    match msg_Action msg with
    | ActionContext => let '(cs, calls) := Store (clk 4) (pd_context pd) msg in (cs, calls, [])
    | ActionSharingContext => (StorePayload (pd_context pd) msg, [], [])
    | ActionRequestContext =>
        let cs := TrackRequest (pd_context pd) msg in
        (cs, [], HandleContextRequest cs msg)
    | _ => (pd_context pd, [], [])
    end in
  let pd := pd <| pd_context := cs |> in
  let '(ds, disc_sent) :=
    match pd_discovery pd with
    | None => (None, [])
    | Some ds =>
        match msg_Action msg with
        | ActionCapabilities => (Some (handleCapabilities (clk 5) ds msg), [])
        | ActionDiscover => (Some ds, handleDiscover pd msg)
        | _ => (Some ds, [])
        end
    end in
  let pd := pd <| pd_discovery := ds |> in
  (pd, {| fx_sent := acks ++ ctx_sent ++ disc_sent; fx_subscriptions := calls; fx_timer := timer;
          fx_handlers := (λ id, (id, msg)) <$> elements (pd_handlers pd) |}).

Definition handleMessage (clk : nat → Time) (selfNick : string) (pd : ProtocolDispatcher)
    (ev : MessageEvent) : ProtocolDispatcher * Effects :=
  match accept_message clk selfNick pd ev with
  | None => (pd, no_effects)
  | Some msg => dispatch clk pd msg
  end.
End dispatcher.
