(* ===== verification/DispatcherTheory.v ===== *)
(** * What the dispatcher guarantees: theorems about [Dispatcher.v] *)

From S2P Require Import Prelude GoStrings GoNum Message Parser Serializer State.
From S2P Require Import Dependencies TaskBoard Handoff Review Consensus Discovery.
From S2P Require Import Context ACL Coordinator Events Dispatcher.

(** ** What gets in *)

(** The access rules of the agent, when it has any, let the nick do the action on
    the channel. *)
Definition allowed (pd : ProtocolDispatcher) (nick channel : string) (a : Action) : bool :=
  match pd_acl pd with Some acl => Check acl nick channel a | None => true end.

(** C29. Nothing gets in unchecked: if a message event changes a store or makes
    the dispatcher do anything, then its text is a protocol message that
    parses, it does not come from the agent itself, and the access rules, when
    there are any, allow its sender to do this action on this channel. *)
Theorem handleMessage_guarded `{MR : MapRange} lower clk self pd ev
    (Heff : handleMessage lower clk self pd ev ≠ (pd, no_effects)) :
  IsProtocolMessage (ev_Message ev) = true ∧ ev_Nick ev ≠ self ∧
  ∃ msg, Parse (ev_Message ev) = inl msg ∧
    ∀ acl, pd_acl pd = Some acl →
      Check acl (ev_Nick ev) (ev_Channel ev) (msg_Action msg) = true.
Proof.
  unfold handleMessage, accept_message in Heff.
  destruct (IsProtocolMessage _) eqn:Hp; cbn [negb] in Heff; [|done].
  case_bool_decide as Hself; [done|]. split_and!; [done..|].
  destruct (Parse _) as [msg|]; [|done]. exists msg. split; [done|]. intros acl Ha.
  rewrite Ha in Heff. cbn in Heff. destruct (Check _ _ _ _); [done|]. by destruct Heff.
Qed.

(** ** The invariant of the dispatcher *)

(** The stores are in states that their operations lead to; [armed] are the
    running timers of the task board. *)
Record dispatcher_ok (pd : ProtocolDispatcher) (armed : list string) : Prop := {
  do_state : reachable (pd_state pd);
  do_board : ∀ tb, pd_taskBoard pd = Some tb →
    ∃ jitter, rtc board_step (NewTaskBoard jitter, []) (tb, armed);
  do_review : ∀ rs, pd_review pd = Some rs → ∃ max ops, rs = foldl review_run (NewReviewStore max) ops;
  do_consensus : ∀ cs topic, pd_consensus pd = Some cs →
    map_Forall (λ nick v, vr_Nick v = nick ∧ vr_Topic v = topic) (votes_on cs topic)
}.

Lemma reachable_update_tasks clk s msg : reachable s → reachable (update_tasks clk s msg).
Proof.
  intros Hs. unfold update_tasks. destruct (tracked _); [|done].
  case_bool_decide; repeat constructor; done.
Qed.

Lemma taskboard_update_steps now tb armed msg tb' timer :
  taskboard_update now tb msg = (tb', timer) →
  rtc board_step (tb, armed) (tb', option_list timer ++ armed).
Proof.
  unfold taskboard_update. intros H.
  destruct (msg_Action msg); try (injection H as <- <-; cbn;
    first [apply rtc_refl|apply rtc_once; constructor]).
  destruct (RecordClaim _ _ _ _ _) as [[tb1 r] t] eqn:E. injection H as <- <-.
  apply rtc_once. by eapply step_claim.
Qed.

Lemma review_update_run now rs msg :
  review_update now rs msg = rs ∨ ∃ op, review_update now rs msg = review_run rs op.
Proof.
  unfold review_update. destruct (msg_Action msg); try by left.
  - right. by exists (OpRequest now (Get msg "task") (Get msg "pr") (Get msg "review-type")
      (msg_Nick msg) (msg_Channel msg)).
  - right. by exists (OpComplete now (Get msg "task") (Get msg "pr") (msg_Nick msg)
      (Get msg "verdict") (Get msg "details") (msg_Channel msg)).
  - right. by exists (OpGate now (Get msg "task") (Get msg "gate") (Get msg "status")
      (Get msg "details") (msg_Nick msg) (msg_Channel msg)).
Qed.

Lemma consensus_update_ok now cs msg topic :
  map_Forall (λ nick v, vr_Nick v = nick ∧ vr_Topic v = topic) (votes_on cs topic) →
  map_Forall (λ nick v, vr_Nick v = nick ∧ vr_Topic v = topic)
    (votes_on (consensus_update now cs msg) topic).
Proof.
  intros H. unfold consensus_update. destruct (msg_Action msg); try exact H.
  unfold votes_on, RecordVote. cbn. destruct (decide (topic = Get msg "topic")) as [->|Hne].
  - rewrite lookup_insert_eq. cbn. by apply map_Forall_insert_2.
  - by rewrite lookup_insert_ne.
Qed.

Lemma coordination_ok now pd msg pd' timer armed :
  updateCoordinationStores now pd msg = (pd', timer) →
  dispatcher_ok pd armed → dispatcher_ok pd' (option_list timer ++ armed).
Proof.
  unfold updateCoordinationStores. intros H [Hs Hb Hr Hc].
  assert (∃ tb, pd' = pd <| pd_taskBoard := tb |>
      <| pd_handoff := (λ hs, handoff_update now hs msg) <$> pd_handoff pd |>
      <| pd_review := (λ rs, review_update now rs msg) <$> pd_review pd |>
      <| pd_consensus := (λ cs, consensus_update now cs msg) <$> pd_consensus pd |> ∧
    ∀ tb', tb = Some tb' → ∃ jitter,
      rtc board_step (NewTaskBoard jitter, []) (tb', option_list timer ++ armed)) as (tb & -> & Htb).
  { destruct (pd_taskBoard pd) as [tb|]; [|injection H as <- <-; by eexists].
    destruct (taskboard_update now tb msg) as [tb' t] eqn:E. injection H as <- <-.
    eexists. split; [done|]. intros ? [= <-]. destruct (Hb tb eq_refl) as [jitter Hj].
    exists jitter. etransitivity; [exact Hj|]. by eapply taskboard_update_steps. }
  split; cbn; [done|exact Htb| |].
  - intros rs. rewrite fmap_Some. intros (rs0 & Hrs & ->).
    destruct (Hr rs0 Hrs) as (max & ops & ->).
    destruct (review_update_run now (foldl review_run (NewReviewStore max) ops) msg) as [E|[op E]];
      rewrite E; [by exists max, ops|]. exists max, (ops ++ [op]). by rewrite foldl_snoc.
  - intros cs topic. rewrite fmap_Some. intros (cs0 & Hcs & ->).
    apply consensus_update_ok. by apply Hc.
Qed.

(** C8. The stores stay sound together: whatever arrives on the wire and
    whatever the agent does itself, the task store stays in a reachable state
    (acyclic dependencies, tasks under their names), the task board stays in a
    state where every pending claim has its timer (a timer started by the call
    included), the review counters stay those of a history of reviews, and the
    votes stay filed under their topic and voter. *)
Theorem dispatcher_invariant `{MR : MapRange} lower clk self pd ev armed
    (Hok : dispatcher_ok pd armed) :
  (let '(pd', fx) := handleMessage lower clk self pd ev in
   dispatcher_ok pd' (option_list (fx_timer fx) ++ armed)) ∧
  ∀ msg, let '(pd', fx) := updateLocalState clk pd msg in
    dispatcher_ok pd' (option_list (fx_timer fx) ++ armed).
Proof.
  assert (∀ msg, dispatcher_ok (pd <| pd_state := update_tasks clk (pd_state pd) msg |>) armed) as Hst.
  { intros msg. destruct Hok as [Hs Hb Hr Hc]. split; [by apply reachable_update_tasks|done..]. }
  split.
  - unfold handleMessage. destruct (accept_message _ _ _ _) as [msg|]; [|done].
    unfold dispatch. destruct (if bool_decide _ then _ else _) as [n acks].
    destruct (updateCoordinationStores _ _ _) as [pd' timer] eqn:E.
    apply (coordination_ok _ _ _ _ _ armed) in E;
      [|destruct (Hst msg) as [Hs Hb Hr Hc]; by split].
    destruct E as [Hs Hb Hr Hc].
    destruct (match msg_Action msg with ActionContext => _ | _ => _ end) as [[cs calls] sent].
    destruct (match pd_discovery _ with None => _ | Some _ => _ end) as [ds disc]. by split.
  - intros msg. unfold updateLocalState.
    destruct (match msg_Action msg with ActionContext => _ | _ => _ end) as [cs calls].
    destruct (updateCoordinationStores _ _ _) as [pd' timer] eqn:E.
    apply (coordination_ok _ _ _ _ _ armed) in E;
      [done|destruct (Hst msg) as [Hs Hb Hr Hc]; by split].
Qed.

(** ** Concrete inputs *)


Definition started_event : MessageEvent :=
  {| ev_Channel := "#dev"; ev_Nick := "bob"; ev_User := ""; ev_Host := ""; ev_Message := "STARTED task=build"; ev_Timestamp := 4;
     ev_IsNotice := false |}.

(** An empty dispatcher with a handler. *)
Definition listening : ProtocolDispatcher :=
  (OnProtocolMessage (NewProtocolDispatcher NewStateStore NewContextStore)).1.

Lemma handleMessage_guarded_witness :
  handleMessage ToLower (λ _, 9%Z) "alice" listening started_event ≠ (listening, no_effects) ∧
  ∃ msg, Parse "STARTED task=build" = inl msg.
Proof.
  assert (handleMessage ToLower (λ _, 9%Z) "alice" listening started_event
    ≠ (listening, no_effects)) as H.
  { intros H. apply (f_equal (λ r, length (fx_handlers r.2))) in H. vm_compute in H. discriminate. }
  split; [exact H|].
  destruct (handleMessage_guarded ToLower (λ _, 9%Z) "alice" listening started_event H)
    as (_ & _ & msg & Hp & _).
  exists msg. exact Hp.
Defined.

(** A dispatcher with all its stores, empty. *)
Definition fresh : ProtocolDispatcher :=
  {| pd_state := NewStateStore; pd_context := NewContextStore;
     pd_unblockNotifier := NewUnblockNotifier; pd_acl := None;
     pd_discovery := Some (NewDiscoveryStore 0); pd_selfCaps := [];
     pd_taskBoard := Some (NewTaskBoard 100); pd_handoff := Some NewHandoffStore;
     pd_review := Some (NewReviewStore 3); pd_consensus := Some NewConsensusStore;
     pd_handlers := ∅; pd_nextID := 0 |}.

Lemma dispatcher_invariant_witness :
  let '(pd', fx) := handleMessage ToLower (λ _, 9%Z) "alice" fresh started_event in
  dispatcher_ok pd' (option_list (fx_timer fx) ++ []).
Proof.
  assert (dispatcher_ok fresh []) as H.
  { split.
    - constructor.
    - intros tb [= <-]. exists 100%Z. apply rtc_refl.
    - intros rs [= <-]. exists 3%Z, []. reflexivity.
    - intros cs topic [= <-]. exact (map_Forall_empty _). }
  pose proof (dispatcher_invariant ToLower (λ _, 9%Z) "alice" fresh started_event [] H) as HI.
  destruct HI as [HI _]. exact HI.
Defined.
