(* ===== verification/Replica.v ===== *)
(** * Replicated state: what two agents agree on

    Every agent keeps its own copy of the coordination state and updates it
    from the messages it sends and receives. The copies carry times of
    different clocks, and the agent that sends an automatic acknowledgement does
    not record it itself ([coordinator.go]), so that they also differ in what an
    acknowledgement records: the tags and the last agent of a task and the table
    of the agents' current tasks. Two copies that differ in these only are the same
    replica. The equivalence is equality after they are erased, and every store
    operation respects it. *)

From S2P Require Import Prelude GoStrings GoNum Message State Dependencies TaskBoard.
From S2P Require Import Handoff Review Consensus Coordinator Dispatcher.

Definition untimed (m : Message) : Message := m <| msg_Timestamp := zero_time |>.

(** ** The task store *)

Definition erase_task (i : TaskInfo) : TaskInfo :=
  i <| UpdatedAt := zero_time |> <| Tags := @nil string |> <| LastAgent := "" |>.
Definition erase_edge (e : DependencyEdge) : DependencyEdge := e <| ResolvedAt := zero_time |>.

Definition erase_state (s : StateStore) : StateStore :=
  {| tasks := erase_task <$> tasks s; dependencies := erase_edge <$> dependencies s;
     agents := ∅ |}.

#[export] Instance StateStore_equiv : Equiv StateStore := λ s s', erase_state s = erase_state s'.
#[export] Instance Message_equiv : Equiv Message := λ m m', untimed m = untimed m'.

#[export] Instance StateStore_equivalence : Equivalence (≡@{StateStore}).
Proof. split; [by intros ?|by intros ???|intros ???; unfold equiv, StateStore_equiv; congruence]. Qed.
#[export] Instance Message_equivalence : Equivalence (≡@{Message}).
Proof. split; [by intros ?|by intros ???|intros ???; unfold equiv, Message_equiv; congruence]. Qed.

Lemma message_equiv_fields m m' :
  m ≡ m' →
  msg_Action m = msg_Action m' ∧ msg_Fields m = msg_Fields m' ∧ msg_Tags m = msg_Tags m' ∧
  msg_Payload m = msg_Payload m' ∧ msg_Channel m = msg_Channel m' ∧ msg_Nick m = msg_Nick m'.
Proof. destruct m, m'. unfold equiv, Message_equiv, untimed. cbn. by intros [= -> -> -> -> -> ->]. Qed.

Lemma Get_equiv m m' k : m ≡ m' → Get m k = Get m' k.
Proof. intros (_ & Hf & _)%message_equiv_fields. unfold Get. by rewrite Hf. Qed.

Lemma edge_erase (deps : list DependencyEdge) a b : edge (erase_edge <$> deps) a b ↔ edge deps a b.
Proof.
  unfold edge. setoid_rewrite list_elem_of_fmap. split.
  - intros (e & (e0 & -> & He) & H). by exists e0.
  - intros (e & He & H). exists (erase_edge e). split; [by exists e|done].
Qed.

Lemma hasCycleLocked_equiv s s' a b :
  s ≡ s' → hasCycleLocked s a b = hasCycleLocked s' a b.
Proof.
  intros H. apply eq_true_iff_eq. rewrite !hasCycleLocked_rtc.
  assert (∀ x y, edge (dependencies s) x y ↔ edge (dependencies s') x y) as He.
  { intros x y. rewrite <- (edge_erase (dependencies s)), <- (edge_erase (dependencies s')).
    change (erase_edge <$> dependencies s) with (dependencies (erase_state s)).
    change (erase_edge <$> dependencies s') with (dependencies (erase_state s')). by rewrite H. }
  split; apply rtc_subrel; intros x y; apply He.
Qed.

Lemma existsb_same_edge_erase (deps : list DependencyEdge) e :
  existsb (λ e', same_edge e' e) (erase_edge <$> deps) = existsb (λ e', same_edge e' e) deps.
Proof. induction deps as [|d deps IH]; [done|]. cbn. by rewrite IH. Qed.

#[export] Instance AddDependency_proper : Proper ((≡) ==> (=) ==> (≡)) AddDependency.
Proof.
  intros s s' Hs e e' <-. unfold AddDependency, addDependencyLocked.
  rewrite (hasCycleLocked_equiv s s') by done.
  rewrite <- (existsb_same_edge_erase (dependencies s)), <- (existsb_same_edge_erase (dependencies s')).
  change (erase_edge <$> dependencies s) with (dependencies (erase_state s)).
  change (erase_edge <$> dependencies s') with (dependencies (erase_state s')). rewrite Hs.
  destruct (existsb _ _); [done|]. destruct (hasCycleLocked _ _ _); [done|].
  unfold equiv, StateStore_equiv, erase_state in *. cbn. injection Hs as H1 H2.
  by rewrite H1, !fmap_app, H2.
Qed.

Lemma message_edges_equiv m m' t : m ≡ m' → message_edges m t = message_edges m' t.
Proof.
  intros Hm. unfold message_edges. destruct (message_equiv_fields m m' Hm) as (_ & _ & -> & _).
  by rewrite (Get_equiv m m' _ Hm).
Qed.

#[export] Instance extractDependencies_proper :
  Proper ((≡) ==> (≡) ==> (=) ==> (≡)) extractDependenciesLocked.
Proof.
  intros s s' Hs m m' Hm t t' <-. unfold extractDependenciesLocked.
  rewrite (message_edges_equiv m m') by done. generalize (message_edges m' t). intros es.
  revert s s' Hs. induction es as [|e es IH]; intros s s' Hs; [done|]. cbn. apply IH.
  apply AddDependency_proper; [exact Hs|reflexivity].
Qed.

Lemma resolve_equiv now now' s s' t :
  s ≡ s' → resolveDependenciesLocked now s t ≡ resolveDependenciesLocked now' s' t.
Proof.
  unfold equiv, StateStore_equiv, erase_state, resolveDependenciesLocked. cbn.
  intros [= H1 H2]. rewrite H1. f_equal. clear H1.
  rewrite <- !list_fmap_compose.
  assert (∀ n (l : list DependencyEdge), erase_edge ∘ resolve_edge n t <$> l =
    (λ e, erase_edge (resolve_edge 0 t e)) <$> (erase_edge <$> l)) as Hr.
  { intros n l. rewrite <- list_fmap_compose. apply list_fmap_ext. intros _ e _.
    unfold compose, resolve_edge. cbn. by destruct (_ && _). }
  by rewrite !Hr, H2.
Qed.

Lemma apply_action_equiv m m' i i' :
  m ≡ m' → erase_task i = erase_task i' →
  erase_task (apply_action m i) = erase_task (apply_action m' i').
Proof.
  intros Hm Hi. destruct (message_equiv_fields m m' Hm) as (Ha & _ & _ & _ & _ & Hn).
  pose proof (λ k, Get_equiv m m' k Hm) as Hg. destruct i, i'. unfold erase_task in Hi. cbn in Hi.
  injection Hi as -> -> -> -> -> -> -> ->.
  unfold apply_action. rewrite Ha, Hn, !Hg. clear Hm Ha Hn Hg.
  destruct (msg_Action m'); try reflexivity; cbn.
  - by destruct (bool_decide _).
  - by destruct (bool_decide _).
  - destruct (bool_decide (Get m' "progress" = "")); [by destruct (bool_decide _)|].
    destruct (Atoi _); by destruct (bool_decide _).
Qed.

Lemma touch_equiv m m' i i' :
  erase_task i = erase_task i' → erase_task (touch m i) = erase_task (touch m' i').
Proof.
  destruct i, i'. unfold erase_task. cbn. by intros [= -> -> -> -> -> -> -> ->].
Qed.

(** [UpdateTask] respects the equivalence, whatever its clock reads. *)
Lemma UpdateTask_equiv now now' s s' m m' :
  s ≡ s' → m ≡ m' → UpdateTask now s m ≡ UpdateTask now' s' m'.
Proof.
  intros Hs Hm. destruct (message_equiv_fields m m' Hm) as (Ha & _).
  unfold UpdateTask. rewrite <- (Get_equiv m m' _ Hm). case_bool_decide; [done|].
  unfold apply_action_deps. rewrite <- Ha.
  assert (s <| tasks := <[Get m "task" := apply_action m (touch m (task_or_new s (Get m "task")))]>
      (tasks s) |> ≡
    s' <| tasks := <[Get m "task" := apply_action m' (touch m' (task_or_new s' (Get m "task")))]>
      (tasks s') |>) as Hs'.
  { unfold equiv, StateStore_equiv, erase_state in *. cbn. injection Hs as H1 H2.
    rewrite H2. f_equal. rewrite !fmap_insert, H1. f_equal. apply apply_action_equiv, touch_equiv; [exact Hm|].
    unfold task_or_new. assert (erase_task <$> tasks s !! Get m "task" =
      erase_task <$> tasks s' !! Get m "task") as E by by rewrite <- !lookup_fmap, H1.
    destruct (tasks s !! _), (tasks s' !! _); cbn in *; congruence. }
  destruct (msg_Action m); try exact Hs'.
  - apply resolve_equiv. exact Hs'.
  - apply extractDependencies_proper; [exact Hs'|exact Hm|reflexivity].
Qed.

Lemma update_tasks_equiv clk clk' s s' m m' :
  s ≡ s' → m ≡ m' → update_tasks clk s m ≡ update_tasks clk' s' m'.
Proof.
  intros Hs Hm. destruct (message_equiv_fields m m' Hm) as (Ha & _).
  unfold update_tasks. rewrite <- Ha. destruct (tracked _); [|done]. rewrite <- (Get_equiv m m' _ Hm).
  pose proof (UpdateTask_equiv (clk 1) (clk' 1) s s' m m' Hs Hm) as Hu.
  case_bool_decide; [done|].
  unfold equiv, StateStore_equiv, erase_state, UpdateAgentStatus in *. cbn.
  injection Hu as H1 H2. by rewrite H1, H2.
Qed.

(** ** The coordination stores *)

Definition erase_offer (o : OfferInfo) : OfferInfo := o <| of_OfferedAt := zero_time |>.
Definition erase_claim (c : ClaimEntry) : ClaimEntry :=
  {| ce_Nick := ce_Nick c; ce_Load := ce_Load c; ce_ClaimedAt := zero_time |}.
Definition erase_board (tb : TaskBoard) : TaskBoard :=
  {| claimJitter := claimJitter tb; offers := erase_offer <$> offers tb;
     pendingClaims := fmap (M:=list) erase_claim <$> pendingClaims tb; timers := timers tb |}.

Definition erase_checkpoint (c : CheckpointRecord) : CheckpointRecord :=
  {| cp_Task := cp_Task c; cp_Nick := cp_Nick c; cp_Progress := cp_Progress c;
     cp_Summary := cp_Summary c; cp_Channel := cp_Channel c; cp_Timestamp := zero_time |}.
Definition erase_handoff (h : HandoffRecord) : HandoffRecord := h <| ho_CreatedAt := zero_time |>.
Definition erase_handoffs (hs : HandoffStore) : HandoffStore :=
  {| checkpoints := fmap (M:=list) erase_checkpoint <$> checkpoints hs;
     handoffs := erase_handoff <$> handoffs hs |}.

Definition erase_review (r : ReviewRecord) : ReviewRecord :=
  r <| rr_RequestedAt := zero_time |> <| rr_CompletedAt := zero_time |>.
Definition erase_gate (g : GateRecord) : GateRecord :=
  {| gr_Task := gr_Task g; gr_Gate := gr_Gate g; gr_Status := gr_Status g;
     gr_Details := gr_Details g; gr_CheckedBy := gr_CheckedBy g; gr_Channel := gr_Channel g;
     gr_CheckedAt := zero_time |}.
Definition erase_reviews (rs : ReviewStore) : ReviewStore :=
  {| reviews := fmap (M:=list) erase_review <$> reviews rs; gates := fmap (M:=list) erase_gate <$> gates rs;
     iterations := iterations rs; maxIterations := maxIterations rs |}.

Definition erase_vote (v : VoteRecord) : VoteRecord :=
  {| vr_Topic := vr_Topic v; vr_Nick := vr_Nick v; vr_Choice := vr_Choice v;
     vr_Channel := vr_Channel v; vr_VotedAt := zero_time |}.
Definition erase_escalation (e : EscalationRecord) : EscalationRecord :=
  e <| er_EscalatedAt := zero_time |>.
Definition erase_consensus (cs : ConsensusStore) : ConsensusStore :=
  {| votes := fmap (M:=gmap string) erase_vote <$> votes cs; escalations := erase_escalation <$> escalations cs |}.

(** The parts of a message that the coordination stores read. *)
Lemma taskboard_update_erase now m tb :
  erase_board (taskboard_update now tb m).1 = (taskboard_update 0 (erase_board tb) (untimed m)).1 ∧
  (taskboard_update now tb m).2 = (taskboard_update 0 (erase_board tb) (untimed m)).2.
Proof.
  destruct m as [a f t p ch n ts]. unfold taskboard_update, untimed, Get. cbn.
  assert (∀ task nick, erase_offer <$> alter (λ o, o <| of_ClaimedBy := nick |>) task (offers tb) =
    alter (λ o, o <| of_ClaimedBy := nick |>) task (erase_offer <$> offers tb)) as Halter.
  { intros task nick. apply map_eq. intros k. rewrite lookup_fmap.
    destruct (decide (k = task)) as [->|].
    - rewrite !lookup_alter_eq, lookup_fmap. by destruct (offers tb !! task).
    - by rewrite !lookup_alter_ne, lookup_fmap. }
  destruct a; try done; cbn.
  - unfold erase_board, RecordOffer. cbn. by rewrite fmap_insert.
  - unfold RecordClaim, claims_of. cbn. rewrite lookup_fmap.
    set (task := default "" (f !! "task")).
    assert (default [] (fmap (M:=list) erase_claim <$> pendingClaims tb !! task) =
      erase_claim <$> default [] (pendingClaims tb !! task)) as ->
      by by destruct (pendingClaims tb !! task).
    generalize (default [] (pendingClaims tb !! task)). intros claims.
    assert (erase_claim <$> (claims ++ [{| ce_Nick := n; ce_Load := int_field (default "" (f !! "load"));
        ce_ClaimedAt := now |}]) = (erase_claim <$> claims) ++ [{| ce_Nick := n;
        ce_Load := int_field (default "" (f !! "load")); ce_ClaimedAt := 0 |}]) as E
      by by rewrite fmap_app.
    repeat case_bool_decide; cbn; unfold erase_board, set_claimed; cbn; (split; [|done]).
    + rewrite Halter, fmap_delete, fmap_insert, E. f_equal. f_equal.
      by destruct claims.
    + by rewrite fmap_insert, E.
    + by rewrite fmap_insert, E.
  - unfold RecordAssign. cbn. rewrite lookup_fmap. destruct (offers tb !! _); cbn.
    + unfold erase_board, set_claimed. cbn. by rewrite Halter.
    + unfold erase_board. cbn. by rewrite fmap_insert.
  - unfold erase_board, RecordDecline, set_claimed. cbn. by rewrite Halter.
  - unfold erase_board, RecordYield, set_claimed. cbn. by rewrite Halter.
Qed.

Lemma handoff_update_erase now m hs :
  erase_handoffs (handoff_update now hs m) = handoff_update 0 (erase_handoffs hs) (untimed m).
Proof.
  destruct m as [a f t p ch n ts]. unfold handoff_update, untimed, Get. cbn.
  set (task := default "" (f !! "task")).
  assert (Checkpoints (erase_handoffs hs) task = erase_checkpoint <$> Checkpoints hs task) as Hcp.
  { unfold Checkpoints. cbn. rewrite lookup_fmap. by destruct (checkpoints hs !! task). }
  destruct a; try done; cbn.
  - unfold AcceptHandoff. cbn. rewrite lookup_fmap. destruct (handoffs hs !! task) as [h|]; [cbn|done].
    case_bool_decide; [|done]. unfold erase_handoffs. cbn. by rewrite fmap_insert.
  - unfold RecordCheckpoint. rewrite Hcp. unfold erase_handoffs. cbn.
    by rewrite fmap_insert, fmap_app.
  - unfold RecordHandoff, latest_progress. rewrite Hcp, fmap_last.
    unfold erase_handoffs. cbn. rewrite fmap_insert.
    by destruct (last (Checkpoints hs task)).
Qed.

Lemma review_update_erase now m rs :
  erase_reviews (review_update now rs m) = review_update 0 (erase_reviews rs) (untimed m).
Proof.
  destruct m as [a f t p ch n ts]. unfold review_update, untimed, Get. cbn.
  set (task := default "" (f !! "task")).
  assert (Reviews (erase_reviews rs) task = erase_review <$> Reviews rs task) as Hr.
  { unfold Reviews. cbn. rewrite lookup_fmap. by destruct (reviews rs !! task). }
  assert (Gates (erase_reviews rs) task = erase_gate <$> Gates rs task) as Hg.
  { unfold Gates. cbn. rewrite lookup_fmap. by destruct (gates rs !! task). }
  destruct a; try done; cbn.
  - unfold RecordRequest. rewrite Hr. unfold erase_reviews. cbn. by rewrite fmap_insert, fmap_app.
  - unfold RecordComplete, erase_reviews. cbn. f_equal. apply map_eq. intros k. rewrite lookup_fmap.
    destruct (decide (k = task)) as [->|]; [|by rewrite !lookup_alter_ne, lookup_fmap].
    rewrite !lookup_alter_eq, lookup_fmap. destruct (reviews rs !! task) as [l|]; [cbn|done].
    f_equal. generalize (default "" (f !! "pr")), (default "" (f !! "verdict")),
      (default "" (f !! "details")). intros pr verdict details.
    induction l as [|r l IH]; [done|]. cbn.
    assert (existsb (pending_for task pr) (erase_review <$> l) = existsb (pending_for task pr) l) as ->.
    { clear IH. induction l as [|r' l IH]; [done|]. cbn. by rewrite IH. }
    destruct (existsb _ _); cbn; [by rewrite IH|].
    change (pending_for task pr (erase_review r)) with (pending_for task pr r).
    by destruct (pending_for task pr r).
  - unfold RecordGate. rewrite Hg. unfold erase_reviews. cbn. by rewrite fmap_insert, fmap_app.
Qed.

Lemma consensus_update_erase now m cs :
  erase_consensus (consensus_update now cs m) = consensus_update 0 (erase_consensus cs) (untimed m).
Proof.
  destruct m as [a f t p ch n ts]. unfold consensus_update, untimed, Get. cbn.
  destruct a; try done; cbn.
  - unfold RecordVote, votes_on, erase_consensus. cbn. rewrite lookup_fmap, fmap_insert.
    f_equal. f_equal. by destruct (votes cs !! _); cbn; rewrite fmap_insert.
  - unfold RecordEscalation, erase_consensus. cbn. by rewrite fmap_app.
Qed.
