(* ===== verification/Agent.v ===== *)
(** * The agent: [internal/agent/agent.go]

    The agent owns the dispatcher and the components that listen to it. The
    handlers that [initProtocol] registers are run here one after the other;
    they touch different components. Saving is a counter of [MarkDirty] calls.
    Starting and stopping, the dashboard, federation and telemetry are not part
    of this file. *)

From S2P Require Import Prelude GoStrings GoNum Config Message Parser Serializer Sanitizer.
From S2P Require Import State TaskBoard Handoff Review Consensus Workflow Discovery.
From S2P Require Import Context ACL Coordinator Notifier Role Inspector Metrics.
From S2P Require Import Events Dispatcher.

Record Agent := {
  ag_nick : string;
  ag_protocol : ProtocolDispatcher;
  ag_notifier : Notifier;
  ag_metrics : MetricsCollector;
  ag_inspector : DebugInspector;
  ag_persist : option nat;
  ag_roleEngine : option RoleEngine;
  ag_capabilities : list string;
  ag_workflowEngine : WorkflowEngine
}.

#[export] Instance Agent_eta : RecordEta Agent := λ r,
  {| ag_nick := ag_nick r; ag_protocol := ag_protocol r; ag_notifier := ag_notifier r;
     ag_metrics := ag_metrics r; ag_inspector := ag_inspector r; ag_persist := ag_persist r;
     ag_roleEngine := ag_roleEngine r; ag_capabilities := ag_capabilities r;
     ag_workflowEngine := ag_workflowEngine r |}.

(** [initProtocol]; [loaded] is the store after [persist.Load], which is the
    empty one without a state file. The handlers registered with
    [OnProtocolMessage] get the ids 0, 1, ...: notifier, metrics and inspector,
    then the one that marks the state as dirty when there is a state file, then
    the roles when there are any. *)
Definition initProtocol (cfg : AppConfig) (nick : string) (loaded : StateStore) : Agent :=
  let persistent := negb (bool_decide (cfg_StateFile cfg = "")) in
  let roles := if bool_decide (cfg_Roles cfg = []) then None
               else Some (configured_engine (cfg_Roles cfg)) in
  let caps := cfg_Capabilities cfg ++
              match roles with Some re => ExpertiseTags re | None => [] end in
  let handlers := 3 + (if persistent then 1 else 0) +
                  match roles with Some _ => 1 | None => 0 end in
  {| ag_nick := nick;
     ag_protocol :=
       {| pd_state := loaded; pd_context := NewContextStore;
          pd_unblockNotifier := NewUnblockNotifier;
          pd_acl := if bool_decide (cfg_ACLRules cfg = []) then None
                    else Some (NewACLEngine (cfg_ACLRules cfg));
          pd_discovery := Some (NewDiscoveryStore (cfg_DiscoveryTTL cfg));
          pd_selfCaps := caps;
          pd_taskBoard := Some (NewTaskBoard (cfg_ClaimJitter cfg));
          pd_handoff := Some NewHandoffStore;
          pd_review := Some (NewReviewStore (cfg_MaxReviewIterations cfg));
          pd_consensus := Some NewConsensusStore;
          pd_handlers := list_to_set (seq 0 handlers); pd_nextID := handlers |};
     ag_notifier := NewNotifier; ag_metrics := NewMetricsCollector;
     ag_inspector := NewDebugInspector 1000;
     ag_persist := if persistent then Some 0 else None;
     ag_roleEngine := roles; ag_capabilities := caps;
     ag_workflowEngine := NewWorkflowEngine |}.

(** The result of sending: the agent and what leaves it, an error, or a panic
    of the message log. *)
Inductive SendResult :=
| Sent (ag : Agent) (fx : Effects)
| ErrSanitize (e : ProtocolError)
| ErrACLDenied (action : Action) (target : string)
| SendPanic.

Section agent.
Context `{MR : MapRange}.
Context (lower q : string → string).

(** The actions whose sending marks the state as dirty. *)
Definition dirty_out (a : Action) : bool :=
  match a with
  | ActionStarted | ActionCompleted | ActionBlocked | ActionAcknowledged => true
  | _ => false
  end.

Definition MarkDirty (ag : Agent) : Agent := ag <| ag_persist := S <$> ag_persist ag |>.

(** The message as the agent itself sees it. *)
Definition local_message (clk : nat → Time) (nick target : string) (msg : Message) : Message :=
  msg <| msg_Channel := target |> <| msg_Nick := nick |>
      <| msg_Timestamp := if IsZero (msg_Timestamp msg) then clk 0 else msg_Timestamp msg |>.

Definition log_entry (m : Message) (direction raw : string) : MessageLogEntry :=
  {| ml_Timestamp := msg_Timestamp m; ml_Direction := direction; ml_Channel := msg_Channel m;
     ml_Nick := msg_Nick m; ml_Action := action_string (msg_Action m); ml_Raw := raw |}.

Definition SendProtocolMessage (clk : nat → Time) (ag : Agent) (target : string) (msg : Message)
    : SendResult :=
  match Sanitize msg with
  | Some e => ErrSanitize e
  | None =>
      if match pd_acl (ag_protocol ag) with
         | Some acl => negb (Check acl (ag_nick ag) target (msg_Action msg))
         | None => false
         end
      then ErrACLDenied (msg_Action msg) target
      else
        let localMsg := local_message clk (ag_nick ag) target msg in
        let '(pd, fx) := updateLocalState clk (ag_protocol ag) localMsg in
        let wireMsg := Message_String msg in
        let ag := ag <| ag_protocol := pd |>
                     <| ag_metrics := RecordMessageSent (ag_metrics ag) |> in
        let ag := if dirty_out (msg_Action msg) then MarkDirty ag else ag in
        match RecordMessage (ag_inspector ag) (log_entry localMsg "out" wireMsg) with
        | None => SendPanic
        | Some d =>
            Sent (ag <| ag_inspector := d |>)
              {| fx_sent := [(target, wireMsg)]; fx_subscriptions := fx_subscriptions fx;
                 fx_timer := fx_timer fx; fx_handlers := [] |}
        end
  end.

(** ** The messages of the sending functions *)

(** [if v != "" { msg.Fields[k] = v }] is [opt_field]. *)
Definition msg_AnnounceStarted (task priority : string) (tags : list string) : Message :=
  literal ActionStarted (opt_field "priority" priority {["task" := task]}) tags "".

Definition msg_AnnounceCompleted (task : string) (tags : list string) : Message :=
  literal ActionCompleted {["task" := task]} tags "".

Definition msg_AnnounceBlocked (task waitingFor : string) (tags : list string) : Message :=
  literal ActionBlocked (opt_field "waiting-for" waitingFor {["task" := task]}) tags "".

Definition msg_RequestHelp (task expertise : string) (tags : list string) : Message :=
  literal ActionHelpNeeded (opt_field "expertise" expertise {["task" := task]}) tags "".

Definition msg_ShareContext (component project status : string) : Message :=
  literal ActionContext
    (opt_field "status" status (opt_field "project" project {["component" := component]})) [] "".

Definition msg_RequestContext (component : string) : Message :=
  literal ActionRequestContext {["component" := component]} [] "".

Definition msg_Discover (expertise : string) : Message :=
  literal ActionDiscover {["expertise" := expertise]} [] "".

Definition msg_AnnounceCapabilities (capabilities : list string) : Message :=
  literal ActionCapabilities {["expertise" := Join capabilities ","]} [] "".

Definition msg_OfferTask (task priority scope : string) (tags : list string) : Message :=
  literal ActionOffer
    (opt_field "scope" scope (opt_field "priority" priority {["task" := task]})) tags "".

Definition msg_ClaimTask (task : string) (load : Z) : Message :=
  literal ActionClaim (<["load" := FormatInt load]> {["task" := task]}) [] "".

Definition msg_AssignTask (task to : string) : Message :=
  literal ActionAssign (<["to" := to]> {["task" := task]}) [] "".

Definition msg_AcceptTask (task : string) : Message :=
  literal ActionAccept {["task" := task]} [] "".

Definition msg_DeclineTask (task reason : string) : Message :=
  literal ActionDecline (opt_field "reason" reason {["task" := task]}) [] "".

Definition msg_YieldTask (task reason : string) : Message :=
  literal ActionYield (opt_field "reason" reason {["task" := task]}) [] "".

Definition msg_Checkpoint (task : string) (progress : Z) (summary : string) : Message :=
  literal ActionCheckpoint
    (opt_field "summary" summary (<["progress" := FormatInt progress]> {["task" := task]})) [] "".

Definition msg_Handoff (task to contextID : string) : Message :=
  literal ActionHandoff
    (opt_field "context-id" contextID (<["to" := to]> {["task" := task]})) [] "".

Definition msg_RequestReview (task pr reviewType : string) : Message :=
  literal ActionReviewRequest
    (opt_field "review-type" reviewType (opt_field "pr" pr {["task" := task]})) [] "".

Definition msg_CompleteReview (task pr verdict details : string) : Message :=
  literal ActionReviewComplete
    (opt_field "details" details (opt_field "pr" pr
       (<["verdict" := verdict]> {["task" := task]}))) [] "".

Definition msg_GateCheck (task gate status details : string) : Message :=
  literal ActionGateCheck
    (opt_field "details" details
       (<["status" := status]> (<["gate" := gate]> {["task" := task]}))) [] "".

Definition msg_Vote (topic choice : string) : Message :=
  literal ActionVote (<["choice" := choice]> {["topic" := topic]}) [] "".

Definition msg_Escalate (task to reason severity : string) : Message :=
  literal ActionEscalate
    (<["severity" := severity]> (<["reason" := reason]> (<["to" := to]> {["task" := task]}))) [] "".

Definition AnnounceStarted clk ag channel task priority tags : SendResult :=
  SendProtocolMessage clk ag channel (msg_AnnounceStarted task priority tags).
Definition AnnounceCompleted clk ag channel task tags : SendResult :=
  SendProtocolMessage clk ag channel (msg_AnnounceCompleted task tags).
Definition AnnounceBlocked clk ag channel task waitingFor tags : SendResult :=
  SendProtocolMessage clk ag channel (msg_AnnounceBlocked task waitingFor tags).
Definition RequestHelp clk ag channel task expertise tags : SendResult :=
  SendProtocolMessage clk ag channel (msg_RequestHelp task expertise tags).
Definition ShareContext clk ag channel component project status : SendResult :=
  SendProtocolMessage clk ag channel (msg_ShareContext component project status).
Definition RequestContext clk ag channel component : SendResult :=
  SendProtocolMessage clk ag channel (msg_RequestContext component).
Definition Discover clk ag channel expertise : SendResult :=
  SendProtocolMessage clk ag channel (msg_Discover expertise).
(** Nothing is sent without capabilities. *)
Definition AnnounceCapabilities clk ag channel : SendResult :=
  if bool_decide (ag_capabilities ag = []) then Sent ag no_effects
  else SendProtocolMessage clk ag channel (msg_AnnounceCapabilities (ag_capabilities ag)).
Definition OfferTask clk ag channel task priority scope tags : SendResult :=
  SendProtocolMessage clk ag channel (msg_OfferTask task priority scope tags).
Definition ClaimTask clk ag channel task load : SendResult :=
  SendProtocolMessage clk ag channel (msg_ClaimTask task load).
Definition AssignTask clk ag channel task to : SendResult :=
  SendProtocolMessage clk ag channel (msg_AssignTask task to).
Definition AcceptTask clk ag channel task : SendResult :=
  SendProtocolMessage clk ag channel (msg_AcceptTask task).
Definition DeclineTask clk ag channel task reason : SendResult :=
  SendProtocolMessage clk ag channel (msg_DeclineTask task reason).
Definition YieldTask clk ag channel task reason : SendResult :=
  SendProtocolMessage clk ag channel (msg_YieldTask task reason).
Definition Checkpoint clk ag channel task progress summary : SendResult :=
  SendProtocolMessage clk ag channel (msg_Checkpoint task progress summary).
Definition Handoff clk ag channel task to contextID : SendResult :=
  SendProtocolMessage clk ag channel (msg_Handoff task to contextID).
Definition RequestReview clk ag channel task pr reviewType : SendResult :=
  SendProtocolMessage clk ag channel (msg_RequestReview task pr reviewType).
Definition CompleteReview clk ag channel task pr verdict details : SendResult :=
  SendProtocolMessage clk ag channel (msg_CompleteReview task pr verdict details).
Definition GateCheck clk ag channel task gate status details : SendResult :=
  SendProtocolMessage clk ag channel (msg_GateCheck task gate status details).
Definition Vote clk ag channel topic choice : SendResult :=
  SendProtocolMessage clk ag channel (msg_Vote topic choice).
Definition Escalate clk ag channel task to reason severity : SendResult :=
  SendProtocolMessage clk ag channel (msg_Escalate task to reason severity).

(** ** Receiving *)

(** The handlers that [initProtocol] registers, on a dispatched message. The
    responses of the roles are sent one by one, each at its own clock; errors
    are dropped. [None] is a panic. *)
Definition send_response (clk : nat → nat → Time) (channel : string)
    (acc : option (Agent * Outbox)) (ir : nat * Message) : option (Agent * Outbox) :=
  match acc with
  | None => None
  | Some (ag, sent) =>
      match SendProtocolMessage (clk ir.1) ag channel ir.2 with
      | Sent ag fx => Some (ag, sent ++ fx_sent fx)
      | SendPanic => None
      | _ => Some (ag, sent)
      end
  end.

Definition run_handlers (clk : nat → nat → Time) (ag : Agent) (msg : Message)
    : option (Agent * Outbox) :=
  let notes := nt_HandleMessage q (ag_notifier ag) msg in
  let ag := ag <| ag_metrics := HandleProtocolMessage (ag_metrics ag) msg |> in
  match RecordMessage (ag_inspector ag) (log_entry msg "in" (Message_String msg)) with
  | None => None
  | Some d =>
      let ag := ag <| ag_inspector := d |> in
      let ag := if tracked (msg_Action msg) then MarkDirty ag else ag in
      match ag_roleEngine ag with
      | None => Some (ag, notes)
      | Some re =>
          foldl (send_response clk (msg_Channel msg)) (Some (ag, notes))
            (imap pair (re_HandleMessage re msg))
      end
  end.

(** [client.OnMessage]: the dispatcher, then the counter of raw messages. *)
Definition on_message (clk : nat → nat → Time) (ag : Agent) (ev : MessageEvent)
    : option (Agent * Outbox) :=
  let '(pd, fx) := handleMessage lower (clk 0) (ag_nick ag) (ag_protocol ag) ev in
  let ag := ag <| ag_protocol := pd |> in
  let counted ag := ag <| ag_metrics := RecordRawMessageReceived (ag_metrics ag) |> in
  match fx_handlers fx with
  | [] => Some (counted ag, fx_sent fx)
  | (_, msg) :: _ =>
      match run_handlers (λ i, clk (S i)) ag msg with
      | None => None
      | Some (ag, sent) => Some (counted ag, fx_sent fx ++ sent)
      end
  end.
End agent.
