(* ===== verification/Convergence.v ===== *)
(** * Replicas: what sending and receiving do to them

    A message changes the sender's own stores before it goes out, and the
    stores of the others when they read it back from the wire. Both ways come
    to the same, up to what replicas may differ in ([Replica.v]), and reading an
    automatic answer changes nothing else. [Team.v] has the agents that exchange
    messages and their answers. *)

From S2P Require Import Config.
From S2P Require Import Prelude GoStrings GoNum Message Parser Serializer Codec.
From S2P Require Import Sanitizer State Dependencies TaskBoard Handoff Review.
From S2P Require Import Consensus Discovery Context ACL Coordinator Notifier Role.
From S2P Require Import Inspector Metrics Events Dispatcher DispatcherTheory Replica Agent.

(** Two dispatchers hold the same coordination state. *)
Record same_replica (pd pd' : ProtocolDispatcher) : Prop := {
  sr_state : pd_state pd ≡ pd_state pd';
  sr_board : erase_board <$> pd_taskBoard pd = erase_board <$> pd_taskBoard pd';
  sr_handoff : erase_handoffs <$> pd_handoff pd = erase_handoffs <$> pd_handoff pd';
  sr_review : erase_reviews <$> pd_review pd = erase_reviews <$> pd_review pd';
  sr_consensus : erase_consensus <$> pd_consensus pd = erase_consensus <$> pd_consensus pd'
}.

#[export] Instance same_replica_equivalence : Equivalence same_replica.
Proof.
  split.
  - intros pd. by split.
  - intros pd pd' [H1 H2 H3 H4 H5]. by split.
  - intros p1 p2 p3 [] []. split; etransitivity; eassumption.
Qed.

(** The part of both handlers that concerns the replica. *)
Definition core_update (clk : nat → Time) (pd : ProtocolDispatcher) (msg : Message)
    : ProtocolDispatcher :=
  (updateCoordinationStores (clk 3)
     (pd <| pd_state := update_tasks clk (pd_state pd) msg |>) msg).1.

Lemma fmap_erase_eq {A} (erase : A → A) (f g : A → A) (h : A → A) (x y : option A) :
  (∀ a, erase (f a) = h (erase a)) → (∀ a, erase (g a) = h (erase a)) →
  erase <$> x = erase <$> y → erase <$> (f <$> x) = erase <$> (g <$> y).
Proof.
  intros Hf Hg. destruct x, y; cbn; try done. intros E%(inj Some). by rewrite Hf, Hg, E.
Qed.

Lemma core_update_same clk clk' pd pd' m m' :
  same_replica pd pd' → m ≡ m' → same_replica (core_update clk pd m) (core_update clk' pd' m').
Proof.
  intros [H1 H2 H3 H4 H5] Hm. unfold core_update, updateCoordinationStores. cbn.
  pose proof (update_tasks_equiv clk clk' _ _ _ _ H1 Hm) as Hs.
  assert (untimed m' = untimed m) as Hu by by symmetry.
  destruct (pd_taskBoard pd) as [tb|], (pd_taskBoard pd') as [tb'|]; try done; cbn in H2.
  - apply (inj Some) in H2.
    destruct (taskboard_update_erase (clk 3) m tb) as [Eb _].
    destruct (taskboard_update_erase (clk' 3) m' tb') as [Eb' _]. rewrite Hu, <- H2 in Eb'.
    destruct (taskboard_update (clk 3) tb m) as [tb1 t1], (taskboard_update (clk' 3) tb' m') as [tb2 t2].
    cbn in Eb, Eb'. split; cbn; [done|congruence|..].
    + apply (fmap_erase_eq _ _ _ (λ hs, handoff_update 0 hs (untimed m))); [|rewrite <- Hu|done];
        intros; apply handoff_update_erase.
    + apply (fmap_erase_eq _ _ _ (λ rs, review_update 0 rs (untimed m))); [|rewrite <- Hu|done];
        intros; apply review_update_erase.
    + apply (fmap_erase_eq _ _ _ (λ cs, consensus_update 0 cs (untimed m))); [|rewrite <- Hu|done];
        intros; apply consensus_update_erase.
  - split; cbn; [done..| | |].
    + apply (fmap_erase_eq _ _ _ (λ hs, handoff_update 0 hs (untimed m))); [|rewrite <- Hu|done];
        intros; apply handoff_update_erase.
    + apply (fmap_erase_eq _ _ _ (λ rs, review_update 0 rs (untimed m))); [|rewrite <- Hu|done];
        intros; apply review_update_erase.
    + apply (fmap_erase_eq _ _ _ (λ cs, consensus_update 0 cs (untimed m))); [|rewrite <- Hu|done];
        intros; apply consensus_update_erase.
Qed.

Section agents.
Context `{MR : MapRange}.
Context (lower : string → string).

Lemma coordination_core clk pd pd2 msg :
  pd_state pd2 = update_tasks clk (pd_state pd) msg →
  pd_taskBoard pd2 = pd_taskBoard pd → pd_handoff pd2 = pd_handoff pd →
  pd_review pd2 = pd_review pd → pd_consensus pd2 = pd_consensus pd → pd_acl pd2 = pd_acl pd →
  same_replica (updateCoordinationStores (clk 3) pd2 msg).1 (core_update clk pd msg) ∧
  pd_acl (updateCoordinationStores (clk 3) pd2 msg).1 = pd_acl pd.
Proof.
  intros H1 H2 H3 H4 H5 H6. unfold core_update, updateCoordinationStores. cbn.
  rewrite H2, H3, H4, H5. destruct (pd_taskBoard pd); cbn; [destruct (taskboard_update _ _ _)|];
    cbn; (split; [|done]); split; cbn; congruence.
Qed.

(** The stores after the coordination step of a handler. *)
Ltac coordination_step clk pd msg :=
  match goal with
  | |- context [updateCoordinationStores (clk 3) ?p msg] =>
      let Hs := fresh "Hs" in let Ha := fresh "Ha" in
      destruct (coordination_core clk pd p msg eq_refl eq_refl eq_refl eq_refl eq_refl eq_refl)
        as [Hs Ha];
      destruct (updateCoordinationStores (clk 3) p msg) as [pd' timer]; cbn [fst] in Hs, Ha
  end.

Lemma updateLocalState_core clk pd msg :
  same_replica (updateLocalState clk pd msg).1 (core_update clk pd msg) ∧
  pd_acl (updateLocalState clk pd msg).1 = pd_acl pd.
Proof.
  unfold updateLocalState.
  destruct (match msg_Action msg with ActionContext => _ | _ => _ end) as [cs calls].
  by coordination_step clk pd msg.
Qed.

Lemma dispatch_core clk pd msg :
  same_replica (dispatch lower clk pd msg).1 (core_update clk pd msg) ∧
  pd_acl (dispatch lower clk pd msg).1 = pd_acl pd.
Proof.
  unfold dispatch. destruct (if bool_decide _ then _ else _) as [n acks].
  coordination_step clk pd msg.
  destruct (match msg_Action msg with ActionContext => _ | _ => _ end) as [[cs calls] sent].
  destruct (match pd_discovery _ with None => _ | Some _ => _ end) as [ds disc]. cbn [fst].
  destruct Hs. by repeat split.
Qed.

Lemma sent_one clk ag target msg ag' fx :
  SendProtocolMessage clk ag target msg = Sent ag' fx →
  fx_sent fx = [(target, Message_String msg)].
Proof.
  unfold SendProtocolMessage. destruct (Sanitize msg); [done|].
  destruct (match pd_acl _ with Some _ => _ | None => _ end); [done|].
  destruct (updateLocalState _ _ _).
  destruct (dirty_out _); destruct (RecordMessage _ _); try done; by intros [= _ <-].
Qed.

(** What a receiver makes of a text is what its sender made of the message, when both
    have the same access rules. *)
Lemma send_receive_agree clk clk' ag ag' fx target msg self pd ev :
  same_replica (ag_protocol ag) pd →
  SendProtocolMessage clk ag target msg = Sent ag' fx →
  wf_message msg = true → pd_acl pd = pd_acl (ag_protocol ag) → ag_nick ag ≠ self →
  fx_sent fx = [(ev_Channel ev, ev_Message ev)] → ev_Nick ev = ag_nick ag →
  same_replica (ag_protocol ag') (handleMessage lower clk' self pd ev).1 ∧
  ag_nick ag' = ag_nick ag ∧ pd_acl (ag_protocol ag') = pd_acl (ag_protocol ag) ∧
  pd_acl (handleMessage lower clk' self pd ev).1 = pd_acl pd.
Proof.
  intros Hsame Hsend Hwf Hacl Hself Hev Hnick. unfold SendProtocolMessage in Hsend.
  destruct (Sanitize msg); [done|].
  destruct (match pd_acl (ag_protocol ag) with Some _ => _ | None => _ end) eqn:Hcheck; [done|].
  set (local := local_message clk (ag_nick ag) target msg) in *.
  destruct (updateLocalState_core clk (ag_protocol ag) local) as [Hlocal Ha].
  destruct (updateLocalState clk (ag_protocol ag) local) as [pd1 fx1]. cbn [fst] in Hlocal, Ha.
  assert (ag_protocol ag' = pd1 ∧ ag_nick ag' = ag_nick ag ∧
    fx_sent fx = [(target, Message_String msg)]) as (Hp & Hn & Hfx).
  { destruct (dirty_out _); destruct (RecordMessage _ _); try done; by injection Hsend as <- <-. }
  clear Hsend. rewrite Hfx in Hev. injection Hev as Ht Htext.
  assert (handleMessage lower clk' self pd ev = dispatch lower clk' pd
    (wire_view msg <| msg_Channel := ev_Channel ev |> <| msg_Nick := ev_Nick ev |>
       <| msg_Timestamp := if IsZero (ev_Timestamp ev) then clk' 0 else ev_Timestamp ev |>)) as Hhm.
  { unfold handleMessage, accept_message.
    rewrite <- Htext, IsProtocolMessage_String by done. cbn [negb].
    rewrite bool_decide_eq_false_2 by congruence. rewrite Parse_Message_String, Hacl by done.
    destruct (pd_acl (ag_protocol ag)) as [acl|]; [|done]. cbn.
    rewrite Hnick, <- Ht. by destruct (Check acl _ _ _). }
  rewrite Hhm, Hp.
  match goal with |- context [dispatch lower clk' pd ?r] => set (remote := r) end.
  destruct (dispatch_core clk' pd remote) as [Hremote Ha']. split_and!; [|done|congruence|done].
  etransitivity; [exact Hlocal|]. symmetry. etransitivity; [exact Hremote|].
  apply core_update_same; [by symmetry|].
  unfold equiv, Message_equiv, untimed, remote, local, local_message, wire_view. cbn.
  by rewrite Hnick, Ht.
Qed.

(** ** What an automatic answer does to its reader *)

(** The actions that no store but the context and the discovery store records. *)
Definition quiet (a : Action) : bool :=
  match a with
  | ActionContext | ActionSharingContext | ActionCapabilities => true
  | _ => false
  end.

(** The answer concerns nothing that replicas agree on: it is quiet, or the
    acknowledgement of a task that is known. *)
Definition harmless (known : gset string) (m : Message) : Prop :=
  quiet (msg_Action m) = true ∨
  msg_Action m = ActionAcknowledged ∧ Get m "task" ∈ known.

Lemma acknowledged_equiv clk s msg :
  msg_Action msg = ActionAcknowledged → is_Some (tasks s !! Get msg "task") →
  update_tasks clk s msg ≡ s.
Proof.
  intros Ha [i Hi]. unfold update_tasks. rewrite Ha. cbn [tracked].
  destruct (decide (Get msg "task" = "")) as [E|E].
  { rewrite (bool_decide_eq_true_2 _ E). by rewrite UpdateTask_no_task. }
  rewrite (bool_decide_eq_false_2 _ E). unfold UpdateTask.
  rewrite (bool_decide_eq_false_2 _ E). unfold apply_action_deps, apply_action, task_or_new.
  rewrite Ha, Hi. unfold equiv, StateStore_equiv, erase_state, UpdateAgentStatus. cbn. f_equal.
  rewrite fmap_insert. apply insert_id. rewrite lookup_fmap, Hi. cbn. f_equal.
Qed.

Lemma harmless_core clk pd msg :
  harmless (dom (tasks (pd_state pd))) msg → same_replica (core_update clk pd msg) pd.
Proof.
  intros Hh.
  assert (update_tasks clk (pd_state pd) msg ≡ pd_state pd) as Hs.
  { destruct Hh as [Hq|[Ha Hk]].
    - unfold update_tasks. by destruct (msg_Action msg).
    - apply acknowledged_equiv; [done|]. by apply elem_of_dom. }
  assert ((∀ now tb, taskboard_update now tb msg = (tb, None)) ∧
    (∀ now hs, handoff_update now hs msg = hs) ∧ (∀ now rs, review_update now rs msg = rs) ∧
    ∀ now cs, consensus_update now cs msg = cs) as (H1 & H2 & H3 & H4).
  { unfold taskboard_update, handoff_update, review_update, consensus_update.
    destruct Hh as [Hq|[Ha _]]; [|by rewrite Ha]. by destruct (msg_Action msg). }
  unfold core_update, updateCoordinationStores. cbn.
  assert (∀ {A} (f : A → A) (x : option A), (∀ a, f a = a) → f <$> x = x) as Hid.
  { intros A f [a|] Hf; [|done]. cbn. by rewrite Hf. }
  destruct (pd_taskBoard pd) as [tb|] eqn:Etb.
  - destruct (taskboard_update (clk 3) tb msg) as [tb' t] eqn:Et. rewrite H1 in Et.
    injection Et as <- <-. split; cbn; [exact Hs|by rewrite ?Etb|f_equal; by apply Hid..].
  - split; cbn; [exact Hs|by rewrite ?Etb|f_equal; by apply Hid..].
Qed.
End agents.

(** ** A configuration *)

Definition sample_config : AppConfig :=
  {| cfg_IRC := DefaultConfig; cfg_LogLevel := "info"; cfg_LogFmt := "text";
     cfg_DashboardAddr := ""; cfg_StateFile := "state.json"; cfg_ACLRules := [];
     cfg_Capabilities := ["go"]; cfg_DiscoveryTTL := 0; cfg_FederationServers := [];
     cfg_FederationMappings := []; cfg_OTel := cfg_OTel default_AppConfig; cfg_AgentRole := "";
     cfg_Roles := []; cfg_MaxLoad := 0; cfg_ClaimJitter := 100;
     cfg_MaxReviewIterations := 3 |}.
