(* ===== verification/AgentTheory.v ===== *)
(** * What an agent's own actions do: theorems about [Agent.v] *)

From S2P Require Import Config.
From S2P Require Import Prelude GoStrings GoNum Message Parser Serializer Codec.
From S2P Require Import Sanitizer State Dependencies TaskBoard Handoff Review.
From S2P Require Import Consensus Discovery Context ACL Coordinator Notifier Role.
From S2P Require Import Inspector Metrics Events Dispatcher DispatcherTheory Replica Agent Convergence.

(** ** What a receiver stores *)

Section receive.
Context `{MR : MapRange}.
Context (lower : string → string).

Lemma coordination_stores now pd msg :
  pd_state (updateCoordinationStores now pd msg).1 = pd_state pd ∧
  pd_handoff (updateCoordinationStores now pd msg).1 =
    (λ hs, handoff_update now hs msg) <$> pd_handoff pd.
Proof.
  unfold updateCoordinationStores. destruct (pd_taskBoard pd); [|done].
  by destruct (taskboard_update _ _ _).
Qed.

Lemma dispatch_stores clk pd msg :
  pd_state (dispatch lower clk pd msg).1 = update_tasks clk (pd_state pd) msg ∧
  pd_handoff (dispatch lower clk pd msg).1 =
    (λ hs, handoff_update (clk 3) hs msg) <$> pd_handoff pd.
Proof.
  unfold dispatch. destruct (if bool_decide _ then _ else _) as [n acks].
  match goal with
  | |- context [updateCoordinationStores (clk 3) ?p msg] =>
      destruct (coordination_stores (clk 3) p msg) as [Hs Hh];
      destruct (updateCoordinationStores (clk 3) p msg) as [pd' timer]
  end.
  cbn [fst pd_state pd_handoff] in Hs, Hh.
  destruct (match msg_Action msg with ActionContext => _ | _ => _ end) as [[cs calls] sent].
  destruct (match pd_discovery _ with None => _ | Some _ => _ end) as [ds disc].
  by split.
Qed.

(** The message that a receiver dispatches for a text of the sender. *)
Definition received (clk : nat → Time) (msg : Message) (ev : MessageEvent) : Message :=
  wire_view msg <| msg_Channel := ev_Channel ev |> <| msg_Nick := ev_Nick ev |>
    <| msg_Timestamp := if IsZero (ev_Timestamp ev) then clk 0 else ev_Timestamp ev |>.

Lemma handleMessage_read clk self pd msg ev :
  wf_message msg = true → ev_Nick ev ≠ self → ev_Message ev = Message_String msg →
  handleMessage lower clk self pd ev =
    if allowed pd (ev_Nick ev) (ev_Channel ev) (msg_Action msg)
    then dispatch lower clk pd (received clk msg ev) else (pd, no_effects).
Proof.
  intros Hwf Hself Htext. unfold handleMessage, accept_message, allowed.
  rewrite Htext, IsProtocolMessage_String by done. cbn [negb].
  rewrite bool_decide_eq_false_2 by done. rewrite Parse_Message_String by done.
  destruct (pd_acl pd) as [acl|]; [|done]. cbn. by destruct (Check _ _ _ _).
Qed.

Lemma handleMessage_wire clk self pd msg ev :
  wf_message msg = true → allowed pd (ev_Nick ev) (ev_Channel ev) (msg_Action msg) = true →
  ev_Nick ev ≠ self → ev_Message ev = Message_String msg →
  handleMessage lower clk self pd ev = dispatch lower clk pd (received clk msg ev).
Proof.
  intros Hwf Hacl Hself Htext. rewrite (handleMessage_read clk self pd msg) by done. by rewrite Hacl.
Qed.

(** A checkpoint arrives: whatever 64-bit progress an agent reports and
    whatever well-formed task name and summary it uses, every other agent that
    reads the text and whose access rules let the sender do so ends up with that progress, as a number, both in the task's
    record and as the latest checkpoint that a later handoff will carry. *)
Theorem checkpoint_arrives clk clk' ag ag' fx channel task progress summary self pd ev
    (Hsend : Checkpoint clk ag channel task progress summary = Sent ag' fx)
    (Hint : int64_ok progress) (Htask : task ≠ "")
    (Hok : forallb value_ok [task; summary] = true)
    (Hacl : allowed pd (ev_Nick ev) (ev_Channel ev) ActionCheckpoint = true)
    (Hself : ev_Nick ev ≠ self)
    (Hev : fx_sent fx = [(ev_Channel ev, ev_Message ev)]) :
  let pd' := (handleMessage lower clk' self pd ev).1 in
  Progress <$> GetTask (pd_state pd') task = Some progress ∧
  ∀ hs, pd_handoff pd' = Some hs → latest_progress hs task = progress.
Proof.
  cbn in Hok. rewrite !andb_true_iff in Hok. destruct Hok as (Ht & Hs & _).
  apply sent_one in Hsend. rewrite Hsend in Hev. injection Hev as _ Htext.
  assert (wf_message (msg_Checkpoint task progress summary) = true) as Hwf.
  { apply wf_literal; [reflexivity|discriminate| |reflexivity].
    apply fields_ok_opt; [reflexivity|exact Hs|].
    apply fields_ok_insert; [reflexivity|apply value_ok_FormatInt|].
    apply fields_ok_singleton; [reflexivity|exact Ht]. }
  set (m := received clk' (msg_Checkpoint task progress summary) ev).
  assert (Get m "task" = task) as Gt.
  { unfold Get, m, received, msg_Checkpoint. cbn. rewrite lookup_opt_field_ne by done.
    by rewrite lookup_insert_ne, lookup_singleton_eq. }
  assert (Get m "progress" = FormatInt progress) as Gp.
  { unfold Get, m, received, msg_Checkpoint. cbn. rewrite lookup_opt_field_ne by done.
    by rewrite lookup_insert_eq. }
  assert (FormatInt progress ≠ "") as Hne.
  { intros E. pose proof (Atoi_FormatInt progress Hint) as Ha. by rewrite E in Ha. }
  cbn zeta. rewrite (handleMessage_wire clk' self pd _ ev Hwf Hacl Hself (eq_sym Htext)).
  fold m. destruct (dispatch_stores clk' pd m) as [-> ->]. split.
  - unfold update_tasks. replace (tracked (msg_Action m)) with true by done.
    rewrite Gt, bool_decide_eq_false_2 by done. unfold GetTask. cbn [tasks UpdateAgentStatus].
    rewrite tasks_UpdateTask by by rewrite Gt. rewrite Gt, lookup_insert_eq. cbn [fmap option_fmap option_map].
    generalize (touch m (task_or_new (pd_state pd) task)). intros i.
    unfold apply_action. replace (msg_Action m) with ActionCheckpoint by done.
    rewrite Gp, (bool_decide_eq_false_2 _ Hne), (Atoi_FormatInt _ Hint). by destruct (bool_decide _).
  - intros hs (hs0 & _ & ->)%fmap_Some. unfold handoff_update.
    replace (msg_Action m) with ActionCheckpoint by done.
    rewrite Gt, Gp. unfold int_field. rewrite (bool_decide_eq_false_2 _ Hne), (Atoi_FormatInt _ Hint).
    unfold latest_progress, Checkpoints, RecordCheckpoint. cbn.
    rewrite lookup_insert_eq. cbn. by rewrite last_snoc.
Qed.
End receive.

(** ** Saving *)

(** Unsaved actions: a message marks the state file as dirty at every
    receiver whenever its action concerns the task store, but at its sender
    only for STARTED, COMPLETED, BLOCKED and ACKNOWLEDGED. Offering, claiming,
    assigning, accepting, declining, yielding, checkpointing and handing off
    change the sender's task store and leave it unmarked, so that a restart
    before the next marked action loses what the agent itself did. *)
Theorem own_actions_not_saved `{MR : MapRange} q :
  (∀ clk ag target msg ag' fx, SendProtocolMessage clk ag target msg = Sent ag' fx →
     ag_persist ag' = if dirty_out (msg_Action msg) then S <$> ag_persist ag else ag_persist ag) ∧
  (∀ clk ag msg ag' sent, ag_roleEngine ag = None →
     run_handlers q clk ag msg = Some (ag', sent) →
     ag_persist ag' = if tracked (msg_Action msg) then S <$> ag_persist ag else ag_persist ag) ∧
  (∀ a, tracked a = true ∧ dirty_out a = false ↔
     a ∈ [ActionOffer; ActionClaim; ActionAssign; ActionAccept; ActionDecline; ActionYield;
          ActionCheckpoint; ActionHandoff]).
Proof.
  split_and!.
  - intros clk ag target msg ag' fx. unfold SendProtocolMessage. destruct (Sanitize msg); [done|].
    destruct (match pd_acl _ with Some _ => _ | None => _ end); [done|].
    destruct (updateLocalState _ _ _).
    destruct (dirty_out _); destruct (RecordMessage _ _); try done; by intros [= <- _].
  - intros clk ag msg ag' sent Hre. unfold run_handlers.
    destruct (RecordMessage _ _); [|done].
    destruct (tracked _); cbn; rewrite Hre; by intros [= <- _].
  - intros a. rewrite !elem_of_cons, elem_of_nil. destruct a; cbn; naive_solver.
Qed.

(** ** Automatic acknowledgements and the replica *)

Definition text_event (nick : string) (text : string * string) : MessageEvent :=
  {| ev_Channel := text.1; ev_Nick := nick; ev_User := ""; ev_Host := "";
     ev_Message := text.2; ev_Timestamp := 5;
     ev_IsNotice := false |}.


(** Three agents with the same state: [a] announces the completion of [build];
    [b] reads it and answers with an automatic acknowledgement of [test]; [a]
    reads the answer. *)
Definition ack_start : ProtocolDispatcher := NewProtocolDispatcher run_store NewContextStore.

Definition ack_sender : ProtocolDispatcher :=
  (updateLocalState (λ _, 9%Z) ack_start
     (local_message (λ _, 9%Z) "a" "#dev" (msg_AnnounceCompleted "build" []))).1.

Definition ack_receiver : ProtocolDispatcher * Effects :=
  handleMessage ToLower (λ _, 9%Z) "b" ack_start
    (text_event "a" ("#dev", Message_String (msg_AnnounceCompleted "build" []))).

Definition ack_sender_after : ProtocolDispatcher :=
  foldl (λ pd text, (handleMessage ToLower (λ _, 9%Z) "a" pd (text_event "b" text)).1)
    ack_sender (fx_sent ack_receiver.2).

(** An automatic acknowledgement is not applied by the agent that sends
    it: it bypasses [SendProtocolMessage], and the dispatcher skips the echo.
    After the completion of a task the sender and the receiver agree, on the last
    agent of each task too; after the acknowledgement that the receiver sends they
    still agree on all that makes a replica, but not on the last agent of the
    acknowledged task and on what the acknowledging agent is working on, which only
    the readers record. *)
Theorem auto_ack_splits_replicas :
  fx_sent ack_receiver.2 = [("#dev", "ACKNOWLEDGED task=test unblocked-by=build #auto-unblock")] ∧
  same_replica ack_sender ack_receiver.1 ∧ same_replica ack_sender_after ack_receiver.1 ∧
  LastAgent <$> tasks (pd_state ack_sender) = LastAgent <$> tasks (pd_state ack_receiver.1) ∧
  (LastAgent <$> GetTask (pd_state ack_sender_after) "test" = Some "b" ∧
   LastAgent <$> GetTask (pd_state ack_receiver.1) "test" = Some "alice") ∧
  is_Some (GetAgentStatus (pd_state ack_sender_after) "b") ∧
  GetAgentStatus (pd_state ack_receiver.1) "b" = None.
Proof.
  assert (same_replica ack_sender ack_receiver.1) as Hs.
  { unfold ack_sender, ack_receiver.
    rewrite (handleMessage_wire ToLower _ "b" ack_start
      (msg_AnnounceCompleted "build" [])) by (vm_compute; reflexivity || discriminate).
    etransitivity; [apply updateLocalState_core|]. symmetry.
    etransitivity; [apply dispatch_core|]. by apply core_update_same. }
  split_and!; [vm_compute; reflexivity|exact Hs| |vm_compute; reflexivity..| |vm_compute; reflexivity].
  - etransitivity; [|exact Hs]. split; vm_compute; reflexivity.
  - vm_compute. by eexists.
Qed.

(** ** A concrete checkpoint *)

Definition sent_agent (r : SendResult) (ag : Agent) : Agent * Effects :=
  match r with Sent ag fx => (ag, fx) | _ => (ag, no_effects) end.

Definition checkpoint_agent : Agent := initProtocol sample_config "a" NewStateStore.

Definition checkpoint_send : SendResult :=
  Checkpoint (λ _, 3%Z) checkpoint_agent "#dev" "build" (-7) "half way".

Lemma checkpoint_arrives_witness :
  let pd' := (handleMessage ToLower (λ _, 8%Z) "b" ack_start
    (text_event "a" ("#dev", Message_String (msg_Checkpoint "build" (-7) "half way")))).1 in
  Progress <$> GetTask (pd_state pd') "build" = Some (-7)%Z ∧
  ∀ hs, pd_handoff pd' = Some hs → latest_progress hs "build" = (-7)%Z.
Proof.
  apply (checkpoint_arrives ToLower (λ _, 3%Z) (λ _, 8%Z) checkpoint_agent
    (sent_agent checkpoint_send checkpoint_agent).1 (sent_agent checkpoint_send checkpoint_agent).2
    "#dev" "build" (-7) "half way" "b" ack_start
    (text_event "a" ("#dev", Message_String (msg_Checkpoint "build" (-7) "half way")))).
  - vm_compute. reflexivity.
  - unfold int64_ok, min_int64, max_int64. lia.
  - discriminate.
  - vm_compute. reflexivity.
  - reflexivity.
  - discriminate.
  - vm_compute. reflexivity.
Defined.
