(* ===== verification/Telemetry.v ===== *)
(** * Telemetry: [internal/otel/otel.go], [internal/agent/tracing.go], [metrics.go]

    The providers of OpenTelemetry that an agent sets up, the instruments that mirror
    some of its counters, and the spans of what it handles and sends. The library
    itself is not part of the program: its errors, the instruments of a meter and the
    spans are values here. *)

From S2P Require Import Prelude GoStrings GoNum GoFloat Config Message Parser Serializer.
From S2P Require Import State Coordinator ACL Metrics Events Dispatcher Agent.

(** ** The providers *)

(** A rate that is not in range becomes 1; all comparisons with NaN are false. *)
Definition sample_rate (rate : float64) : float64 :=
  if fleb rate float_zero || fltb (float_of_Z 1) rate then float_of_Z 1 else rate.

(** The settings that [otel.Setup] passes to the exporters; [None] without an endpoint. *)
Definition otel_settings (cfg : OTelConfig) : option OTelConfig :=
  if bool_decide (ot_Endpoint cfg = "") then None
  else Some {| ot_Endpoint := ot_Endpoint cfg;
               ot_ServiceName := if bool_decide (ot_ServiceName cfg = "") then "borg" else ot_ServiceName cfg;
               ot_SampleRate := sample_rate (ot_SampleRate cfg) |}.

(** The errors of the library while the providers are made. *)
Record SetupErrors := {
  se_resource : option string;
  se_trace : option string;
  se_metric : option string
}.

(** The providers of a process: [otel.SetTracerProvider] and [otel.SetMeterProvider]. *)
Record Globals := {
  gl_tracer : option OTelConfig;
  gl_meter : option OTelConfig
}.

(** [Provider]: whether there are the two. *)
Record Provider := { pv_tp : bool; pv_mp : bool }.

(** [None] is a nil provider. *)
Definition TracerProvider (p : option Provider) : bool := from_option pv_tp false p.
Definition MeterProvider (p : option Provider) : bool := from_option pv_mp false p.

Definition otel_Setup (errs : SetupErrors) (cfg : OTelConfig) (g : Globals)
    : Globals * (string + Provider) :=
  match otel_settings cfg with
  | None => (g, inr {| pv_tp := false; pv_mp := false |})
  | Some cfg =>
      match se_resource errs with
      | Some err => (g, inl ("otel resource: " +:+ err))
      | None =>
          match se_trace errs with
          | Some err => (g, inl ("otel trace exporter: " +:+ err))
          | None =>
              let g := {| gl_tracer := Some cfg; gl_meter := gl_meter g |} in
              match se_metric errs with
              | Some err => (g, inl ("otel metric exporter: " +:+ err))
              | None => ({| gl_tracer := gl_tracer g; gl_meter := Some cfg |},
                         inr {| pv_tp := true; pv_mp := true |})
              end
          end
      end
  end.

(** [Provider.Shutdown]: [None] is a nil provider; [tp] and [mp] are the errors of
    shutting down the two. The first one is returned. *)
Definition otel_Shutdown (p : option Provider) (tp mp : option string) : option string :=
  match p with
  | None => None
  | Some p =>
      match (if pv_tp p then tp else None) with
      | Some err => Some err
      | None => if pv_mp p then mp else None
      end
  end.

(** ** Instruments *)

Section instruments.
Context {Instrument : Type}.

(** [None] is nil. *)
Record OTelCounters := {
  otelMessagesIn : option Instrument;
  otelMessagesOut : option Instrument;
  otelTaskStarted : option Instrument;
  otelTaskDone : option Instrument;
  otelTaskBlocked : option Instrument;
  otelDepsResolved : option Instrument
}.

(** Those of [NewMetricsCollector]. *)
Definition no_counters : OTelCounters :=
  {| otelMessagesIn := None; otelMessagesOut := None; otelTaskStarted := None;
     otelTaskDone := None; otelTaskBlocked := None; otelDepsResolved := None |}.

(** A meter gives the instrument of each name; its errors are ignored. *)
Definition RegisterOTelMetrics (meter : option (string → option Instrument)) (o : OTelCounters)
    : OTelCounters :=
  match meter with
  | None => o
  | Some counter =>
      {| otelMessagesIn := counter "agent.messages.in";
         otelMessagesOut := counter "agent.messages.out";
         otelTaskStarted := counter "agent.tasks.started";
         otelTaskDone := counter "agent.tasks.completed";
         otelTaskBlocked := counter "agent.tasks.blocked";
         otelDepsResolved := counter "agent.dependencies.resolved" |}
  end.

(** Those of an agent with this provider ([initProtocol]); [meter] is the provider's
    meter of the name [borg]. *)
Definition agent_instruments (provider : option Provider) (meter : string → option Instrument)
    : OTelCounters :=
  if MeterProvider provider then RegisterOTelMetrics (Some meter) no_counters else no_counters.

(** What is added to which instrument. *)
Definition addOTel (c : option Instrument) (n : Z) : list (Instrument * Z) :=
  match c with Some c => [(c, n)] | None => [] end.

Definition mirror_message (o : OTelCounters) (msg : Message) : list (Instrument * Z) :=
  addOTel (otelMessagesIn o) 1 ++
  match msg_Action msg with
  | ActionStarted => addOTel (otelTaskStarted o) 1
  | ActionCompleted => addOTel (otelTaskDone o) 1
  | ActionBlocked => addOTel (otelTaskBlocked o) 1
  | ActionAcknowledged => addOTel (otelDepsResolved o) 1
  | _ => []
  end.

Definition mirror_sent (o : OTelCounters) : list (Instrument * Z) := addOTel (otelMessagesOut o) 1.

(** What a collector is told. *)
Inductive Activity :=
| ActHandled (msg : Message)
| ActSent
| ActRaw
| ActNotified.

Definition collect (o : OTelCounters) (acc : MetricsCollector * list (Instrument * Z)) (a : Activity)
    : MetricsCollector * list (Instrument * Z) :=
  match a with
  | ActHandled msg => (HandleProtocolMessage acc.1 msg, acc.2 ++ mirror_message o msg)
  | ActSent => (RecordMessageSent acc.1, acc.2 ++ mirror_sent o)
  | ActRaw => (RecordRawMessageReceived acc.1, acc.2)
  | ActNotified => (RecordNotificationSent acc.1, acc.2)
  end.
End instruments.
Arguments OTelCounters : clear implicits.

(** ** Spans *)

Record Span := {
  sp_name : string;
  sp_attrs : list (string * string)
}.

Definition startSpan (name : string) (attrs : list (string * string)) : Span :=
  {| sp_name := name; sp_attrs := attrs |}.

Definition protocolAttrs (action channel nick : string) : list (string * string) :=
  [("protocol.action", action); ("protocol.channel", channel); ("protocol.nick", nick)].

(** The span of [SendProtocolMessage], whatever comes of the sending. *)
Definition send_span (ag : Agent) (target : string) (msg : Message) : Span :=
  startSpan "agent.send" (protocolAttrs (action_string (msg_Action msg)) target (ag_nick ag)).

(** The span of [OnTaskCompleted]. *)
Definition coordinator_spans (msg : Message) : list Span :=
  if bool_decide (msg_Action msg = ActionCompleted) && negb (bool_decide (Get msg "task" = ""))
  then [startSpan "coordinator.resolve_dependencies" [("completed_task", Get msg "task")]]
  else [].

(** The spans of [handleMessage]; the one of the dispatch is there before the access
    control. *)
Definition handle_spans (clk : nat → Time) (selfNick : string) (pd : ProtocolDispatcher)
    (ev : MessageEvent) : list Span :=
  if negb (IsProtocolMessage (ev_Message ev)) then []
  else if bool_decide (ev_Nick ev = selfNick) then []
  else match Parse (ev_Message ev) with
       | inr _ => []
       | inl msg =>
           startSpan "protocol.dispatch"
             (protocolAttrs (action_string (msg_Action msg)) (ev_Channel ev) (ev_Nick ev)) ::
           match accept_message clk selfNick pd ev with
           | Some msg => coordinator_spans msg
           | None => []
           end
       end.

(** ** Theorems *)

(** *** Providers *)

Lemma finite_leb m1 e1 m2 e2 :
  SFltb (S754_finite false m1 e1) (S754_finite false m2 e2) = false →
  SFleb (S754_finite false m2 e2) (S754_finite false m1 e1) = true.
Proof.
  unfold SFltb, SFleb, SFcompare. rewrite (Z.compare_antisym e1 e2).
  change (Pos.compare_cont Eq m1 m2) with (m1 ?= m2)%positive.
  change (Pos.compare_cont Eq m2 m1) with (m2 ?= m1)%positive. rewrite (Pos.compare_antisym m1 m2).
  destruct (e1 ?= e2)%Z; cbn [CompOpp]; try done. by destruct (m1 ?= m2)%positive.
Qed.

Lemma sample_rate_range rate :
  sample_rate rate = S754_nan ∨
  fltb float_zero (sample_rate rate) = true ∧ fleb (sample_rate rate) (float_of_Z 1) = true.
Proof.
  unfold sample_rate.
  destruct (fleb rate float_zero || fltb (float_of_Z 1) rate) eqn:E; [right; split; reflexivity|].
  apply orb_false_iff in E as [E1 E2].
  destruct rate as [[]|[]| |[] m e]; try done; [by left|].
  right. split; [done|]. by apply finite_leb.
Qed.

(** Without an endpoint nothing is set up. With one, the exporters get a name and a
    rate above 0 and at most 1, or the NaN that was configured; a rate of 0 samples
    everything. When one of the steps fails there is no provider that could be shut
    down, although a failure of the last one leaves the tracer installed. *)
Theorem otel_Setup_spec errs cfg g :
  match otel_Setup errs cfg g with
  | (g', inr p) =>
      if bool_decide (ot_Endpoint cfg = "")
      then g' = g ∧ p = {| pv_tp := false; pv_mp := false |} ∧
           ∀ tp mp, otel_Shutdown (Some p) tp mp = None
      else p = {| pv_tp := true; pv_mp := true |} ∧
           ∃ c, g' = {| gl_tracer := Some c; gl_meter := Some c |} ∧
           ot_Endpoint c = ot_Endpoint cfg ∧ ot_ServiceName c ≠ "" ∧
           (ot_SampleRate c = S754_nan ∨
            fltb float_zero (ot_SampleRate c) = true ∧ fleb (ot_SampleRate c) (float_of_Z 1) = true) ∧
           (ot_SampleRate cfg = float_zero → ot_SampleRate c = float_of_Z 1)
  | (g', inl _) =>
      gl_meter g' = gl_meter g ∧
      (g' = g ∨ se_metric errs ≠ None ∧ gl_tracer g' = otel_settings cfg)
  end.
Proof.
  unfold otel_Setup, otel_settings. case_bool_decide as He; [done|].
  destruct (se_resource errs); [split; [done|by left]|].
  destruct (se_trace errs); [split; [done|by left]|].
  destruct (se_metric errs); [split; [done|]; right; by split|].
  split; [done|]. eexists. split; [reflexivity|]. cbn [ot_Endpoint ot_ServiceName ot_SampleRate].
  split; [done|]. split; [by case_bool_decide|]. split; [apply sample_rate_range|]. intros ->. reflexivity.
Qed.

(** *** Instruments *)

(** The counters that have a mirror, and the names of the instruments. *)
Definition mirrored : list (string * (MetricsCollector → Z)) :=
  [("agent.messages.in", protocolMessagesIn); ("agent.messages.out", protocolMessagesOut);
   ("agent.tasks.started", tasksStarted); ("agent.tasks.completed", tasksCompleted);
   ("agent.tasks.blocked", tasksBlocked); ("agent.dependencies.resolved", dependenciesResolved)].

Definition added (c : string) (calls : list (string * Z)) : Z :=
  sumZ (snd <$> List.filter (λ call, String.eqb call.1 c) calls).

Lemma added_app c l1 l2 : added c (l1 ++ l2) = (added c l1 + added c l2)%Z.
Proof. unfold added. by rewrite List.filter_app, fmap_app, sumZ_app. Qed.

(** The instruments mirror their counters: whatever an agent handles, sends and is
    told, its counters are what they would be without telemetry; with a meter, each
    of the mirrored ones is what was added to the instrument of its name, modulo the
    width of the counter; without, nothing is added to any instrument. *)
Theorem instruments_mirror provider activity :
  let collected provider :=
    foldl (collect (agent_instruments provider (λ name, Some name))) (NewMetricsCollector, []) activity in
  (collected provider).1 = (collected None).1 ∧
  if MeterProvider provider
  then Forall (λ '(name, counter),
         counter (collected provider).1 = wrap64 (added name (collected provider).2)) mirrored
  else (collected provider).2 = [].
Proof.
  cbn zeta. set (meter := λ name : string, Some name).
  induction activity as [|a activity IH] using rev_ind.
  { cbn. split; [done|]. destruct (MeterProvider provider); [|done]. by repeat constructor. }
  rewrite !foldl_snoc. destruct (foldl (collect (agent_instruments provider meter)) _ _) as [mc calls],
    (foldl (collect (agent_instruments None meter)) _ _) as [mc' calls'].
  cbn [fst snd] in IH. destruct IH as [-> IH]. split; [by destruct a|].
  unfold agent_instruments in *. destruct (MeterProvider provider); cycle 1.
  { subst calls. destruct a as [msg| | |]; cbn [collect fst snd]; try done.
    unfold mirror_message. by destruct (msg_Action msg). }
  unfold mirrored in *. rewrite !Forall_cons in IH. destruct IH as (H1 & H2 & H3 & H4 & H5 & H6 & _).
  assert (∀ name z more, z = wrap64 (added name calls) → added name more = 0%Z →
    z = wrap64 (added name (calls ++ more))) as Hsame by (intros ??? -> H; by rewrite added_app, H, Z.add_0_r).
  assert (∀ name z more, z = wrap64 (added name calls) → added name more = 1%Z →
    inc z = wrap64 (added name (calls ++ more))) as Hone
    by (intros ??? -> H; unfold inc; by rewrite added_app, H, wrap64_add_l).
  destruct a as [msg| | |]; cbn [collect fst snd].
  - unfold HandleProtocolMessage, mirror_message.
    destruct (msg_Action msg); repeat constructor; (apply Hone || apply Hsame); done.
  - repeat constructor; (apply Hone || apply Hsame); done.
  - by repeat constructor.
  - by repeat constructor.
Qed.

(** *** Spans *)

(** Nothing happens untraced: when a message is accepted, the first span is the one of
    its dispatch, with its action, channel and sender, and there is one more only
    when it completes a task; when there is no span, the agent and what is on its
    way stay as they are. *)
Theorem handled_in_span lower clk selfNick pd ev :
  match accept_message clk selfNick pd ev with
  | Some msg =>
      handle_spans clk selfNick pd ev =
        startSpan "protocol.dispatch"
          (protocolAttrs (action_string (msg_Action msg)) (msg_Channel msg) (msg_Nick msg))
        :: coordinator_spans msg
  | None =>
      handleMessage lower clk selfNick pd ev = (pd, no_effects) ∧
      (length (handle_spans clk selfNick pd ev) ≤ 1)
  end ∧
  (∀ msg, coordinator_spans msg = [] → OnTaskCompleted (pd_unblockNotifier pd) (pd_state pd) msg
     = (pd_unblockNotifier pd, [])).
Proof.
  split.
  - unfold handleMessage, handle_spans. destruct (accept_message clk selfNick pd ev) as [msg|] eqn:Ea.
    + unfold accept_message in Ea. destruct (IsProtocolMessage _); [|done]. cbn [negb] in *.
      case_bool_decide; [done|]. destruct (Parse _) as [m|]; [|done].
      destruct (pd_acl pd) as [acl|]; [destruct (negb _); [done|]|]; by injection Ea as <-.
    + split; [done|]. destruct (negb _); [cbn; lia|]. case_bool_decide; [cbn; lia|].
      destruct (Parse _); cbn; lia.
  - intros msg H. unfold coordinator_spans in H. unfold OnTaskCompleted.
    case_bool_decide; [|done]. cbn [negb andb] in *. cbv zeta. case_bool_decide; done.
Qed.
