(* ===== verification/Federation.v ===== *)
(** * Federation: [internal/agent/federation.go]

    Messages are relayed between the local server and remote ones. A client is
    known by the name of its link; connecting, disconnecting and the lists of
    joined channels are not modelled. *)

From S2P Require Import Prelude GoStrings Config Message Events Dispatcher.

Record FederationLink := {
  fl_Name : string;
  fl_Channels : list string
}.

Record FederationManager := {
  fm_links : gmap string FederationLink;
  fm_mappings : list ChannelMapping
}.

#[export] Instance FederationManager_eta : RecordEta FederationManager := λ r,
  {| fm_links := fm_links r; fm_mappings := fm_mappings r |}.

Definition NewFederationManager : FederationManager := {| fm_links := ∅; fm_mappings := [] |}.

Definition AddLink (fm : FederationManager) (name : string) (channels : list string)
    : FederationManager :=
  fm <| fm_links := <[name := {| fl_Name := name; fl_Channels := channels |}]> (fm_links fm) |>.

Definition AddMapping (fm : FederationManager) (m : ChannelMapping) : FederationManager :=
  fm <| fm_mappings := fm_mappings fm ++ [m] |>.

Definition IsFederatedMessage (msg : string) : bool := HasPrefix msg "[fed:".

Definition relay_text (origin : string) (ev : MessageEvent) : string :=
  "[fed:" +:+ origin +:+ "] <" +:+ ev_Nick ev +:+ "> " +:+ ev_Message ev.

(** What is sent: the link, the channel and the text. *)
Definition relayLocalToRemote (fm : FederationManager) (ev : MessageEvent)
    : list (string * (string * string)) :=
  fm_mappings fm ≫= λ m,
    if negb (bool_decide (cm_LocalChannel m = ev_Channel ev)) then []
    else match fm_links fm !! cm_LinkName m with
         | None => []
         | Some _ => [(cm_LinkName m, (cm_RemoteChannel m, relay_text "local" ev))]
         end.

Definition relayRemoteToLocal (fm : FederationManager) (linkName : string) (ev : MessageEvent)
    : Outbox :=
  fm_mappings fm ≫= λ m,
    if negb (bool_decide (cm_LinkName m = linkName)) ||
       negb (bool_decide (cm_RemoteChannel m = ev_Channel ev)) then []
    else [(cm_LocalChannel m, relay_text linkName ev)].

(** The handlers that [Start] registers on the local client and on the links. *)
Definition on_local (fm : FederationManager) (localNick : string) (ev : MessageEvent)
    : list (string * (string * string)) :=
  if IsFederatedMessage (ev_Message ev) then []
  else if bool_decide (ev_Nick ev = localNick) then []
  else relayLocalToRemote fm ev.

Definition on_remote (fm : FederationManager) (linkName : string) (ev : MessageEvent) : Outbox :=
  if IsFederatedMessage (ev_Message ev) then []
  else relayRemoteToLocal fm linkName ev.

Lemma relay_text_federated origin ev : IsFederatedMessage (relay_text origin ev) = true.
Proof. apply HasPrefix_app. Qed.

Lemma elem_of_on_local fm nick ev link ch text :
  (link, (ch, text)) ∈ on_local fm nick ev ↔
    IsFederatedMessage (ev_Message ev) = false ∧ ev_Nick ev ≠ nick ∧
    text = relay_text "local" ev ∧ is_Some (fm_links fm !! link) ∧
    ∃ m, m ∈ fm_mappings fm ∧ cm_LocalChannel m = ev_Channel ev ∧ cm_LinkName m = link ∧
      cm_RemoteChannel m = ch.
Proof.
  unfold on_local. destruct (IsFederatedMessage _); [set_solver|].
  case_bool_decide; [set_solver|]. unfold relayLocalToRemote. rewrite list_elem_of_bind. split.
  - intros (m & Hm & Hin). case_bool_decide as Hc; cbn in Hm; [|by apply not_elem_of_nil in Hm].
    destruct (fm_links fm !! cm_LinkName m) eqn:El; [|by apply not_elem_of_nil in Hm].
    apply list_elem_of_singleton in Hm as [= -> -> ->].
    split_and!; [done..|by eexists|by exists m].
  - intros (_ & _ & -> & [l Hl] & m & Hin & Hc & <- & <-). exists m. split; [|done].
    rewrite bool_decide_eq_true_2 by done. cbn. rewrite Hl. by apply list_elem_of_singleton.
Qed.

Lemma elem_of_on_remote fm link ev ch text :
  (ch, text) ∈ on_remote fm link ev ↔
    IsFederatedMessage (ev_Message ev) = false ∧ text = relay_text link ev ∧
    ∃ m, m ∈ fm_mappings fm ∧ cm_LinkName m = link ∧ cm_RemoteChannel m = ev_Channel ev ∧
      cm_LocalChannel m = ch.
Proof.
  unfold on_remote. destruct (IsFederatedMessage _); [set_solver|].
  unfold relayRemoteToLocal. rewrite list_elem_of_bind. split.
  - intros (m & Hm & Hin). case_bool_decide as Hl; cbn in Hm; [|by apply not_elem_of_nil in Hm].
    case_bool_decide as Hc; cbn in Hm; [|by apply not_elem_of_nil in Hm].
    apply list_elem_of_singleton in Hm as [= -> ->]. split_and!; [done..|by exists m].
  - intros (_ & -> & m & Hin & Hl & Hc & <-). exists m. split; [|done].
    rewrite !bool_decide_eq_true_2 by done. by apply list_elem_of_singleton.
Qed.

(** The relays are in the order of the mappings, one for each mapping that matches. *)
Lemma on_local_eq fm nick ev :
  IsFederatedMessage (ev_Message ev) = false → ev_Nick ev ≠ nick →
  on_local fm nick ev =
    (λ m, (cm_LinkName m, (cm_RemoteChannel m, relay_text "local" ev))) <$>
      List.filter (λ m, bool_decide (cm_LocalChannel m = ev_Channel ev) &&
        bool_decide (is_Some (fm_links fm !! cm_LinkName m))) (fm_mappings fm).
Proof.
  intros Hf Hn. unfold on_local. rewrite Hf, (bool_decide_eq_false_2 _ Hn). unfold relayLocalToRemote.
  induction (fm_mappings fm) as [|m ms IH]; [done|]. cbn.
  destruct (bool_decide (cm_LocalChannel m = ev_Channel ev)); cbn; [|exact IH].
  destruct (fm_links fm !! cm_LinkName m) eqn:E.
  - rewrite (bool_decide_eq_true_2 (is_Some _)) by by eexists. cbn. by rewrite IH.
  - rewrite (bool_decide_eq_false_2 (is_Some _)) by by intros []. exact IH.
Qed.

Lemma on_remote_eq fm link ev :
  IsFederatedMessage (ev_Message ev) = false →
  on_remote fm link ev =
    (λ m, (cm_LocalChannel m, relay_text link ev)) <$>
      List.filter (λ m, bool_decide (cm_LinkName m = link) &&
        bool_decide (cm_RemoteChannel m = ev_Channel ev)) (fm_mappings fm).
Proof.
  intros Hf. unfold on_remote. rewrite Hf. unfold relayRemoteToLocal.
  induction (fm_mappings fm) as [|m ms IH]; [done|]. cbn.
  destruct (bool_decide (cm_LinkName m = link)); cbn; [|exact IH].
  destruct (bool_decide (cm_RemoteChannel m = ev_Channel ev)); cbn; [|exact IH]. by rewrite IH.
Qed.

(** C34. Along the mappings, without loops, and nothing but text. A message that a
    local channel gets from somebody else than the agent itself, and that no federation
    manager has relayed before, goes to the remote channel of every mapping of this
    local channel whose link is there, once for each such mapping, in their order and
    nowhere else; one that comes in over a link goes to the local channel of every
    mapping of this link and remote channel, likewise. What a manager has relayed, in
    either direction, is relayed by no manager again, so that a message crosses at most
    one link and never comes back; and no agent takes it for a protocol message, so
    the coordination protocol itself does not cross servers. *)
Theorem federation_no_loops fm nick link ev :
  (on_local fm nick ev =
     if IsFederatedMessage (ev_Message ev) || bool_decide (ev_Nick ev = nick) then []
     else (λ m, (cm_LinkName m, (cm_RemoteChannel m,
             "[fed:local] <" +:+ ev_Nick ev +:+ "> " +:+ ev_Message ev))) <$>
       List.filter (λ m, bool_decide (cm_LocalChannel m = ev_Channel ev) &&
         bool_decide (is_Some (fm_links fm !! cm_LinkName m))) (fm_mappings fm)) ∧
  (on_remote fm link ev =
     if IsFederatedMessage (ev_Message ev) then []
     else (λ m, (cm_LocalChannel m,
             "[fed:" +:+ link +:+ "] <" +:+ ev_Nick ev +:+ "> " +:+ ev_Message ev)) <$>
       List.filter (λ m, bool_decide (cm_LinkName m = link) &&
         bool_decide (cm_RemoteChannel m = ev_Channel ev)) (fm_mappings fm)) ∧
  ∀ text, text ∈ (on_local fm nick ev).*2.*2 ++ (on_remote fm link ev).*2 →
    IsProtocolMessage text = false ∧
    ∀ fm' nick' link' ev', ev_Message ev' = text →
      on_local fm' nick' ev' = [] ∧ on_remote fm' link' ev' = [].
Proof.
  split_and!.
  - destruct (IsFederatedMessage (ev_Message ev)) eqn:Hf; cbn [orb]; [unfold on_local; by rewrite Hf|].
    case_bool_decide as Hn; [unfold on_local; by rewrite Hf, (bool_decide_eq_true_2 _ Hn)|].
    by apply on_local_eq.
  - destruct (IsFederatedMessage (ev_Message ev)) eqn:Hf; [unfold on_remote; by rewrite Hf|].
    by apply on_remote_eq.
  - intros text Hin.
    assert (∃ origin, text = relay_text origin ev) as [origin ->].
    { apply elem_of_app in Hin as [((l & t) & -> & (r & -> & Hr)%list_elem_of_fmap)%list_elem_of_fmap
                                  |([c t] & -> & Hr)%list_elem_of_fmap].
      - destruct r as [link' [ch t']]. apply elem_of_on_local in Hr as (_ & _ & Ht & _). by eexists.
      - apply elem_of_on_remote in Hr as (_ & Ht & _). by eexists. }
    split; [unfold relay_text; apply (IsProtocolMessage_bracket ("fed:" +:+ _))|].
    intros fm' nick' link' ev' E. unfold on_local, on_remote. by rewrite E, relay_text_federated.
Qed.

Definition sample_federation : FederationManager :=
  AddMapping (AddLink NewFederationManager "eu" ["#dev-eu"])
    {| cm_LocalChannel := "#dev"; cm_RemoteChannel := "#dev-eu"; cm_LinkName := "eu" |}.

Definition sample_event : MessageEvent :=
  {| ev_Channel := "#dev"; ev_Nick := "alice"; ev_User := ""; ev_Host := ""; ev_Message := "STARTED task=build";
     ev_Timestamp := 1; ev_IsNotice := false |}.

Example relayed :
  on_local sample_federation "bridge" sample_event =
    [("eu", ("#dev-eu", "[fed:local] <alice> STARTED task=build"))] ∧
  on_remote sample_federation "eu" sample_event = [].
Proof. split; reflexivity. Qed.
