(* ===== verification/Persistence.v ===== *)
(** * Saving the state: [internal/agent/persistence.go]

    The file system is a map from paths to contents. A function that works on it
    gives its result, the file system it leaves, and every state that the file
    system goes through on the way ([FS]): a process that dies on the way leaves one
    of these. Which of the calls of the [os] package fail is an argument ([fault]).
    The JSON encoder and decoder are arguments ([marshal], [unmarshal]). *)

From S2P Require Import Prelude GoStrings State Dependencies.

(** The call that fails; a write has written some bytes before. *)
Inductive SaveStep := StepCreateTemp | StepWrite (written : nat) | StepClose | StepRename.

Definition is_step (a b : SaveStep) : bool :=
  match a, b with
  | StepCreateTemp, StepCreateTemp | StepClose, StepClose | StepRename, StepRename => true
  | _, _ => false
  end.

(** Removing the temporary file may fail on top of it. *)
Record SaveFault := { sf_step : SaveStep; sf_remove : bool }.

Inductive PersistError :=
  | ErrRead | ErrParse | ErrMarshal
  | ErrCreateTemp | ErrWriteTemp | ErrCloseTemp | ErrRenameTemp.

Record StatePersistence := {
  sp_path : string;
  sp_debounceDur : Duration;
  sp_debounce : bool
}.

#[export] Instance StatePersistence_eta : RecordEta StatePersistence := λ r,
  {| sp_path := sp_path r; sp_debounceDur := sp_debounceDur r; sp_debounce := sp_debounce r |}.

(** [5 * time.Second] *)
Definition default_debounce : Duration := 5000000000.

Definition NewStatePersistence (path : string) (debounce : Duration) : StatePersistence :=
  {| sp_path := path;
     sp_debounceDur := if (debounce <=? 0)%Z then default_debounce else debounce;
     sp_debounce := false |}.

Abbreviation Files := (gmap string string) (only parsing).

(** ** The calls of the [os] package *)

Definition FS (A : Type) : Type := Files → A * Files * list Files.

#[export] Instance FS_ret : MRet FS := λ A a fs, (a, fs, []).
#[export] Instance FS_bind : MBind FS := λ A B f m fs,
  let '(a, fs1, passed1) := m fs in
  let '(b, fs2, passed2) := f a fs1 in (b, fs2, passed1 ++ passed2).

(** A call that changes the file system at one stroke, or fails. *)
Definition os_call (fails : bool) (f : Files → Files) : FS bool := λ fs,
  if fails then (false, fs, []) else (true, f fs, [f fs]).

Definition os_CreateTemp (fails : bool) (tmp : string) : FS bool := os_call fails <[tmp := ""]>.

(** The bytes arrive one after the other; a write that fails stops after [n] of them. *)
Definition partly_written (tmp data : string) (n : nat) (fs : Files) : Files :=
  <[tmp := String.substring 0 n data]> fs.

Definition write_moments (tmp data : string) (n : nat) (fs : Files) : list Files :=
  (λ k, partly_written tmp data k fs) <$> seq 0 (S n).

Definition os_Write (stops : option nat) (tmp data : string) : FS bool := λ fs,
  let n := default (String.length data) stops in
  (bool_decide (stops = None), partly_written tmp data n fs, write_moments tmp data n fs).

Definition os_Close (fails : bool) : FS bool := os_call fails id.
Definition os_Remove (fails : bool) (tmp : string) : FS bool := os_call fails (delete tmp).

(** Atomic, as POSIX has it. *)
Definition os_Rename (fails : bool) (tmp path : string) : FS bool :=
  os_call fails (λ fs, partial_alter (λ _, fs !! tmp) path (delete tmp fs)).

(** ** The operations *)

Section persistence.
Context `{MR : MapRange}.
Context (marshal : PersistedState → option string) (unmarshal : string → option PersistedState).

(** The result is the store and the error. Any error of the read other than
    "does not exist" is [unreadable]. *)
Definition Load (sp : StatePersistence) (fs : Files) (unreadable : bool) (s : StateStore)
    : StateStore * option PersistError :=
  if bool_decide (sp_path sp = "") then (s, None)
  else if unreadable then (s, Some ErrRead)
  else match fs !! sp_path sp with
       | None => (s, None)
       | Some data =>
           match unmarshal data with
           | None => (s, Some ErrParse)
           | Some ps => (Restore s ps, None)
           end
       end.

(** [Save] with all that it does to the files. [tmp] is the name that
    [os.CreateTemp] gives, a new file beside the state file. *)
Definition Save_run (now : Time) (sp : StatePersistence) (s : StateStore) (tmp : string)
    (fault : option SaveFault) : FS (option PersistError) :=
  let at_step st := from_option (λ f, is_step (sf_step f) st) false fault in
  let stops := match sf_step <$> fault with Some (StepWrite n) => Some n | _ => None end in
  let remove := os_Remove (from_option sf_remove false fault) tmp in
  if bool_decide (sp_path sp = "") then mret None
  else match marshal (Snapshot now s) with
  | None => mret (Some ErrMarshal)
  | Some data =>
      created ← os_CreateTemp (at_step StepCreateTemp) tmp;
      if negb created then mret (Some ErrCreateTemp) else
      wrote ← os_Write stops tmp data;
      if negb wrote then
        _ ← os_Close false; _ ← remove; mret (Some ErrWriteTemp)
      else
        closed ← os_Close (at_step StepClose);
        if negb closed then _ ← remove; mret (Some ErrCloseTemp) else
        renamed ← os_Rename (at_step StepRename) tmp (sp_path sp);
        if negb renamed then _ ← remove; mret (Some ErrRenameTemp)
        else mret None
  end.

(** What is left when it is done, and the error. *)
Definition Save (now : Time) (sp : StatePersistence) (s : StateStore) (fs : Files) (tmp : string)
    (fault : option SaveFault) : Files * option PersistError :=
  let '(err, fs', _) := Save_run now sp s tmp fault fs in (fs', err).

(** What may be left when the process dies on the way. *)
Definition save_moments (now : Time) (sp : StatePersistence) (s : StateStore) (fs : Files)
    (tmp : string) (fault : option SaveFault) : list Files :=
  let '(_, _, passed) := Save_run now sp s tmp fault fs in fs :: passed.

(** [MarkDirty] stops the timer that is running, if any, and starts one. *)
Definition MarkDirty (sp : StatePersistence) : StatePersistence :=
  if bool_decide (sp_path sp = "") then sp else sp <| sp_debounce := true |>.

Definition Close (now : Time) (sp : StatePersistence) (s : StateStore) (fs : Files) (tmp : string)
    (fault : option SaveFault) : StatePersistence * Files * option PersistError :=
  if bool_decide (sp_path sp = "") then (sp, fs, None)
  else
    let sp := sp <| sp_debounce := false |> in
    let '(fs, err) := Save now sp s fs tmp fault in (sp, fs, err).

Lemma substring_all data : String.substring 0 (String.length data) data = data.
Proof. induction data as [|c data IH]; [done|]. cbn. by rewrite IH. Qed.

(** The temporary file aside, nothing has changed. *)
Definition only_temp (tmp : string) (fs fs1 : Files) : Prop := delete tmp fs1 = fs.

Lemma only_temp_insert tmp fs d : fs !! tmp = None → only_temp tmp fs (<[tmp := d]> fs).
Proof. intros Hnew. unfold only_temp. rewrite delete_insert_eq. by apply delete_id. Qed.

Lemma only_temp_refl tmp fs : fs !! tmp = None → only_temp tmp fs fs.
Proof. intros Hnew. by apply delete_id. Qed.

(** How a save can go: it writes the temporary file and moves it, or it fails before
    that; a failed one leaves the temporary file only when it cannot be removed. *)
Lemma Save_run_spec now sp s fs tmp fault data :
  sp_path sp ≠ "" → tmp ≠ sp_path sp → fs !! tmp = None → marshal (Snapshot now s) = Some data →
  let '(err, fs', passed) := Save_run now sp s tmp fault fs in
  (fault = None ∧ err = None ∧ fs' = <[sp_path sp := data]> fs ∧
   ∃ before, passed = before ++ [fs'] ∧ Forall (only_temp tmp fs) before) ∨
  (∃ f, fault = Some f ∧ err ≠ None ∧ only_temp tmp fs fs' ∧
   (sf_remove f = false → fs' = fs) ∧ Forall (only_temp tmp fs) passed).
Proof.
  intros Hpath Htmp Hnew Hm.
  assert (∀ d, only_temp tmp fs (<[tmp := d]> fs)) as Hi by by intros; apply only_temp_insert.
  assert (∀ d, delete tmp (<[tmp := d]> fs) = fs) as Hd by exact Hi.
  assert (∀ d e, <[tmp := e]> (<[tmp := d]> fs) = <[tmp := e]> fs) as Hii by (intros; apply insert_insert_eq).
  unfold Save_run. rewrite (bool_decide_eq_false_2 _ Hpath), Hm.
  assert (∀ n, Forall (only_temp tmp fs) (write_moments tmp data n (<[tmp := ""]> fs))) as Hw.
  { intros n. apply Forall_fmap, Forall_true. intros k. unfold partly_written. cbn. by rewrite Hii. }
  assert (∀ n, partly_written tmp data n (<[tmp := ""]> fs) = <[tmp := String.substring 0 n data]> fs)
    as Hp by (intros; apply insert_insert_eq).
  assert (only_temp tmp fs fs) as Hr by by apply only_temp_refl.
  unfold os_CreateTemp, os_Write, os_Close, os_Rename, os_Remove, os_call, mbind, FS_bind.
  destruct fault as [[[|n| |] [|]]|];
    cbn -[write_moments partly_written]; unfold id; rewrite ?Hp, ?substring_all, ?Hd.
  1-8: right; eexists; split; [done|]; split_and!; [done|first [exact Hr|apply Hi]|done|];
    repeat first [apply Hw|apply Forall_nil_2|apply Forall_app_2|apply Forall_cons_2|apply Hi|exact Hr].
  left. rewrite lookup_insert_eq. split_and!; [done..|].
  eexists (_ :: _ ++ [_]). split; [cbn -[write_moments]; by rewrite <- app_assoc|].
  repeat first [apply Hw|apply Forall_nil_2|apply Forall_app_2|apply Forall_cons_2|apply Hi].
Qed.

(** What a function leaves is the last state that it goes through. *)
Definition lands {A} (m : FS A) : Prop :=
  ∀ fs, let '(_, fs', passed) := m fs in fs' ∈ fs :: passed.

Lemma lands_ret {A} (a : A) : lands (mret a).
Proof. intros fs. left. Qed.
Lemma lands_call fails f : lands (os_call fails f).
Proof. intros fs. unfold os_call. destruct fails; [left|right; left]. Qed.
Lemma lands_write stops tmp data : lands (os_Write stops tmp data).
Proof.
  intros fs. unfold os_Write. right. unfold write_moments.
  apply list_elem_of_fmap. eexists. split; [reflexivity|]. apply elem_of_seq. lia.
Qed.
Lemma lands_bind {A B} (m : FS A) (f : A → FS B) : lands m → (∀ a, lands (f a)) → lands (m ≫= f).
Proof.
  intros Hm Hf fs. unfold mbind, FS_bind. specialize (Hm fs). destruct (m fs) as [[a fs1] passed1].
  specialize (Hf a fs1). destruct (f a fs1) as [[b fs2] passed2].
  rewrite app_comm_cons, elem_of_app. apply elem_of_cons in Hf as [->|Hf]; [by left|by right].
Qed.

Lemma Save_run_lands now sp s tmp fault : lands (Save_run now sp s tmp fault).
Proof.
  unfold Save_run, os_CreateTemp, os_Close, os_Rename, os_Remove. cbv zeta.
  destruct (bool_decide _); [apply lands_ret|]. destruct (marshal _); [|apply lands_ret].
  repeat first [apply lands_ret|apply lands_call|apply lands_write
               |apply lands_bind; [|intros []; cbn [negb]]].
Qed.

(** C33. Saving is atomic. Whatever [Save] does to the files it does in this order of
    calls, any of which may fail, and the process may die between any two of them and
    in the middle of the write. At every such moment the state file holds either what
    it held before or the whole new snapshot, and no other file than the temporary one
    has been touched. [Save] ends without an error exactly when there is a snapshot to
    write and no call fails, and then the state file holds the snapshot and the
    temporary file is gone. An error means that all files are as they were, but for
    the temporary one, which is left only when removing it fails as well. The state
    file has a path, and the temporary name is a new one. *)
Theorem Save_atomic now sp s fs tmp fault
    (Hpath : sp_path sp ≠ "") (Htmp : tmp ≠ sp_path sp) (Hnew : fs !! tmp = None) :
  let '(fs', err) := Save now sp s fs tmp fault in
  (err = None ↔ fault = None ∧ is_Some (marshal (Snapshot now s))) ∧
  (err = None → ∃ data, marshal (Snapshot now s) = Some data ∧ fs' = <[sp_path sp := data]> fs) ∧
  (err ≠ None → (∀ p, p ≠ tmp → fs' !! p = fs !! p) ∧
     (fs' !! tmp ≠ None → ∃ f, fault = Some f ∧ sf_remove f = true)) ∧
  fs' ∈ save_moments now sp s fs tmp fault ∧
  ∀ fs1, fs1 ∈ save_moments now sp s fs tmp fault →
    (fs1 !! sp_path sp = fs !! sp_path sp ∨
     ∃ data, marshal (Snapshot now s) = Some data ∧ fs1 !! sp_path sp = Some data) ∧
    ∀ p, p ≠ tmp → p ≠ sp_path sp → fs1 !! p = fs !! p.
Proof.
  unfold Save, save_moments. destruct (marshal (Snapshot now s)) as [data|] eqn:E; cycle 1.
  { unfold Save_run. rewrite (bool_decide_eq_false_2 _ Hpath), E. cbn.
    split_and!; [split; [done|by intros [_ []]]|done|split; [done|congruence]|by left|].
    intros fs1 ->%list_elem_of_singleton. split; [by left|done]. }
  pose proof (Save_run_spec now sp s fs tmp fault data Hpath Htmp Hnew E) as H.
  pose proof (Save_run_lands now sp s tmp fault fs) as Hend.
  destruct (Save_run now sp s tmp fault fs) as [[err fs'] passed].
  assert (∀ fs1 p, only_temp tmp fs fs1 → p ≠ tmp → fs1 !! p = fs !! p) as Ho.
  { intros fs1 p Hfs Hp. change (delete tmp fs1 = fs) in Hfs. rewrite <- Hfs.
    by rewrite lookup_delete_ne. }
  destruct H as [(-> & -> & -> & before & -> & Hb)|(f & -> & Herr & Hfs & Hrm & Hp)].
  - split_and!; [split; [by split; [|eexists]|done]|by intros _; exists data|done|exact Hend|].
    intros fs1 [->|[Hin| ->%list_elem_of_singleton]%elem_of_app]%elem_of_cons; [by split; [left|]| |].
    + rewrite Forall_forall in Hb. specialize (Hb _ Hin). split; [left|]; auto.
    + split; [right; exists data; by rewrite lookup_insert_eq|]. intros p _ Hp. by rewrite lookup_insert_ne.
  - split_and!; [split; [done|by intros [? _]]|done| | |].
    + intros _. split; [by auto|]. intros Hleft. exists f. split; [done|].
      destruct (sf_remove f) eqn:Ef; [done|]. by rewrite Hrm in Hleft.
    + exact Hend.
    + intros fs1 [->|Hin]%elem_of_cons; [by split; [left|]|].
      rewrite Forall_forall in Hp. specialize (Hp _ Hin). split; [left|]; auto.
Qed.

Lemma Save_ok now sp s fs tmp data :
  sp_path sp ≠ "" → marshal (Snapshot now s) = Some data →
  ∃ fs', Save now sp s fs tmp None = (fs', None) ∧ fs' !! sp_path sp = Some data.
Proof.
  intros Hpath Hm. unfold Save, Save_run. rewrite (bool_decide_eq_false_2 _ Hpath), Hm.
  unfold os_CreateTemp, os_Write, os_Close, os_Rename, os_Remove, os_call, mbind, FS_bind.
  cbn -[write_moments partly_written]. eexists. split; [reflexivity|].
  rewrite lookup_partial_alter_eq. unfold id, partly_written. by rewrite lookup_insert_eq, substring_all.
Qed.

Lemma Save_Load now sp s s0 fs tmp data :
  sp_path sp ≠ "" → marshal (Snapshot now s) = Some data → unmarshal data = Some (Snapshot now s) →
  ∃ fs', Save now sp s fs tmp None = (fs', None) ∧ fs' !! sp_path sp = Some data ∧
    Load sp fs' false s0 = (s, None).
Proof.
  intros Hpath Hm Hu. destruct (Save_ok now sp s fs tmp data Hpath Hm) as (fs' & Hs & Hd).
  exists fs'. split; [done|]. split; [done|]. unfold Load.
  rewrite (bool_decide_eq_false_2 _ Hpath), Hd, Hu.
  unfold Restore, Snapshot. cbn. autorewrite with borg. by destruct s.
Qed.

(** What is saved is what is loaded: if the decoder inverts the encoder on
    the snapshot, a store that was saved is restored exactly by the next start,
    whatever the new process held before and whatever the order of the map
    loops; a missing file leaves the store as it is, without an error, and an
    unreadable or malformed one leaves it as it is, with one. *)
Theorem Load_Save now sp s s0 fs tmp fs'
    (Hpath : sp_path sp ≠ "")
    (Hjson : ∀ data, marshal (Snapshot now s) = Some data → unmarshal data = Some (Snapshot now s))
    (Hsave : Save now sp s fs tmp None = (fs', None)) :
  Load sp fs' false s0 = (s, None) ∧
  (fs !! sp_path sp = None → Load sp fs false s0 = (s0, None)) ∧
  ∀ data, fs !! sp_path sp = Some data → unmarshal data = None →
    Load sp fs false s0 = (s0, Some ErrParse).
Proof.
  split_and!.
  - destruct (marshal (Snapshot now s)) as [data|] eqn:Hm; cycle 1.
    { unfold Save, Save_run in Hsave. by rewrite bool_decide_eq_false_2, Hm in Hsave. }
    destruct (Save_Load now sp s s0 fs tmp data Hpath Hm (Hjson _ eq_refl)) as (fs1 & Hs & _ & Hl).
    rewrite Hsave in Hs. by injection Hs as <-.
  - unfold Load. rewrite bool_decide_eq_false_2 by done. by intros ->.
  - unfold Load. rewrite bool_decide_eq_false_2 by done. intros data -> E. by rewrite E.
Qed.
End persistence.

(** ** A concrete run: a decoder for one snapshot *)

Definition sample_persistence : StatePersistence := NewStatePersistence "state.json" 0.
Definition sample_marshal (_ : PersistedState) : option string := Some "{...}".
Definition sample_unmarshal (data : string) : option PersistedState :=
  if bool_decide (data = "{...}") then Some (Snapshot 4 run_store) else None.

Definition sample_fault : SaveFault := {| sf_step := StepWrite 2; sf_remove := true |}.

(** The disk is full after two bytes, and the temporary file cannot be removed. *)
Example failed_save :
  Save sample_marshal 4 sample_persistence run_store ∅ "t.tmp" (Some sample_fault) =
    (<["t.tmp" := "{."]> ∅, Some ErrWriteTemp).
Proof. vm_compute. reflexivity. Qed.

Lemma Save_atomic_witness :
  let '(fs', err) := Save sample_marshal 4 sample_persistence run_store ∅ "t.tmp" (Some sample_fault) in
  (err ≠ None → ∀ p, p ≠ "t.tmp" → fs' !! p = (∅ : gmap string string) !! p) ∧
  ∀ fs1, fs1 ∈ save_moments sample_marshal 4 sample_persistence run_store ∅ "t.tmp" None →
    fs1 !! "state.json" = None ∨ fs1 !! "state.json" = Some "{...}".
Proof.
  pose proof (Save_atomic sample_marshal 4 sample_persistence run_store ∅ "t.tmp" (Some sample_fault))
    as H.
  pose proof (Save_atomic sample_marshal 4 sample_persistence run_store ∅ "t.tmp" None) as H0.
  destruct (Save sample_marshal 4 sample_persistence run_store ∅ "t.tmp" (Some sample_fault)) as [fs' err].
  destruct (Save sample_marshal 4 sample_persistence run_store ∅ "t.tmp" None) as [fs0 err0].
  destruct H as (_ & _ & H & _); [discriminate|discriminate|reflexivity|].
  destruct H0 as (_ & _ & _ & _ & H0); [discriminate|discriminate|reflexivity|]. split.
  - intros Herr. by destruct (H Herr) as [? _].
  - intros fs1 Hin. destruct (H0 fs1 Hin) as [[Ho|(data & [= <-] & Hd)] _]; [by left|by right].
Defined.

Lemma Load_Save_witness :
  let fs' := (Save sample_marshal 4 sample_persistence run_store ∅ "t.tmp" None).1 in
  Load sample_unmarshal sample_persistence fs' false NewStateStore = (run_store, None) ∧
  ((∅ : gmap string string) !! "state.json" = None →
     Load sample_unmarshal sample_persistence ∅ false NewStateStore = (NewStateStore, None)) ∧
  ∀ data, (∅ : gmap string string) !! "state.json" = Some data → sample_unmarshal data = None →
    Load sample_unmarshal sample_persistence ∅ false NewStateStore = (NewStateStore, Some ErrParse).
Proof.
  apply (Load_Save sample_marshal sample_unmarshal 4 sample_persistence run_store NewStateStore
    ∅ "t.tmp" (Save sample_marshal 4 sample_persistence run_store ∅ "t.tmp" None).1).
  - discriminate.
  - intros data [= <-]. reflexivity.
  - reflexivity.
Defined.
