(* ===== verification/Spawner.v ===== *)
(** * Spawning agents: [internal/spawner/spawner.go]

    The configuration of a spawned agent, its validation and the command line
    it becomes; the command line is read by [Config.Load] in the new process.
    Starting and stopping processes is I/O of the spawners and is not modelled. *)

From S2P Require Import Prelude GoStrings GoFloat GoFlag Config.

Record SpawnConfig := {
  sc_Nick : string;
  sc_Server : string;
  sc_Username : string;
  sc_Password : string;
  sc_Channels : list string;
  sc_Capabilities : list string;
  sc_Roles : list string;
  sc_DashboardAddr : string;
  sc_ExtraFlags : gmap string string;
  sc_BinaryPath : string;
  sc_SSHHost : string;
  sc_SSHUser : string;
  sc_SSHKeyPath : string;
  sc_DockerImage : string;
  sc_DockerNetwork : string
}.

(** The first required field that is missing. *)
Definition sc_Validate (c : SpawnConfig) : option string :=
  if bool_decide (sc_Nick c = "") then Some "nick is required"
  else if bool_decide (sc_Server c = "") then Some "server is required"
  else if bool_decide (sc_Username c = "") then Some "username is required"
  else if bool_decide (sc_Password c = "") then Some "password is required"
  else None.

Definition joinComma (ss : list string) : string :=
  foldl (λ result si, (if bool_decide (0 < si.1) then result +:+ "," else result) +:+ si.2) ""
    (imap pair ss).

(** [if v != "" { args = append(args, flag, v) }] *)
Definition text_arg (flag v : string) : list string :=
  if bool_decide (v = "") then [] else [flag; v].

(** [if len(l) > 0 { args = append(args, flag, joinComma(l)) }] *)
Definition list_arg (flag : string) (l : list string) : list string :=
  match l with [] => [] | _ => [flag; joinComma l] end.

Definition BuildCLIArgs `{MR : MapRange} (cfg : SpawnConfig) : list string :=
  text_arg "--server" (sc_Server cfg) ++
  text_arg "--nick" (sc_Nick cfg) ++
  text_arg "--username" (sc_Username cfg) ++
  text_arg "--password" (sc_Password cfg) ++
  list_arg "--channels" (sc_Channels cfg) ++
  list_arg "--capabilities" (sc_Capabilities cfg) ++
  list_arg "--roles" (sc_Roles cfg) ++
  text_arg "--dashboard-addr" (sc_DashboardAddr cfg) ++
  concat ((λ kv, ["--" +:+ kv.1; kv.2]) <$> range 0 (sc_ExtraFlags cfg)).

(** ** Lists as comma-separated texts *)

Lemma foldl_joinComma ss n acc :
  0 < n →
  foldl (λ result si, (if bool_decide (0 < si.1) then result +:+ "," else result) +:+ si.2) acc
    (imap (λ i s, (n + i, s)) ss) =
  match ss with [] => acc | _ => acc +:+ "," +:+ Join ss "," end.
Proof.
  revert n acc. induction ss as [|s ss IH]; intros n acc Hn; [done|].
  rewrite imap_cons. cbn [foldl fst snd]. rewrite bool_decide_eq_true_2 by lia.
  rewrite (imap_ext _ (λ i s, (S n + i, s))) by (intros; unfold compose; cbn; f_equal; lia).
  rewrite IH by lia. destruct ss; cbn [Join]; by rewrite <- !app_str_assoc.
Qed.

Lemma joinComma_Join ss : joinComma ss = Join ss ",".
Proof.
  unfold joinComma. destruct ss as [|s ss]; [done|]. rewrite imap_cons. cbn [foldl fst snd].
  rewrite bool_decide_eq_false_2 by lia.
  rewrite (imap_ext _ (λ i s, (1 + i, s))) by done.
  rewrite foldl_joinComma by lia. destruct ss; cbn [Join]; by rewrite ?app_str_nil_l.
Qed.

(** An item that a comma-separated list carries unchanged. *)
Definition item_ok (s : string) : Prop := s ≠ "" ∧ in_string "," s = false ∧ TrimSpace s = s.

Lemma splitChannels_Join l : l ≠ [] → Forall item_ok l → splitChannels (Join l ",") = l.
Proof.
  intros Hne Hl. unfold splitChannels. rewrite bool_decide_eq_false_2.
  - rewrite Split_Join; [|done|]; cycle 1.
    { eapply Forall_impl; [exact Hl|]. by intros ? (_ & ? & _). }
    clear Hne. induction Hl as [|s l (Hs & _ & Ht) Hl IH]; [done|].
    cbn. rewrite Ht, bool_decide_eq_false_2 by done. cbn. by f_equal.
  - destruct Hl as [|s l (Hs & _ & _) _]; [done|].
    destruct s as [|c s]; [done|]. destruct l; [done|]. cbn [Join]. by rewrite app_str_cons.
Qed.

(** ** Parsing what [BuildCLIArgs] writes *)
Section parsing.
Context (parse_int : string → option Z) (parse_float : string → option float64).

(** The flags after a text or a list argument. *)
Definition with_text (name v : string) (actual : gmap string FlagValue) : gmap string FlagValue :=
  if bool_decide (v = "") then actual else <[name := VString v]> actual.

Definition with_list (name : string) (l : list string) (actual : gmap string FlagValue)
    : gmap string FlagValue :=
  match l with [] => actual | _ => <[name := VString (Join l ",")]> actual end.

Lemma parse_text_arg name v actual rest :
  flag_token ("--" +:+ name) = Flag name None → formal name = Some StringFlag →
  flag_Parse parse_int parse_float formal actual (text_arg ("--" +:+ name) v ++ rest) =
  flag_Parse parse_int parse_float formal (with_text name v actual) rest.
Proof.
  intros Ht Hf. unfold text_arg, with_text. case_bool_decide; [done|].
  by apply flag_Parse_string.
Qed.

Lemma parse_list_arg name l actual rest :
  flag_token ("--" +:+ name) = Flag name None → formal name = Some StringFlag →
  flag_Parse parse_int parse_float formal actual (list_arg ("--" +:+ name) l ++ rest) =
  flag_Parse parse_int parse_float formal (with_list name l actual) rest.
Proof.
  intros Ht Hf. unfold list_arg, with_list. destruct l; [done|].
  rewrite <- joinComma_Join. by apply flag_Parse_string.
Qed.

(** The flags that a configuration sets, its extra flags apart. *)
Definition spawn_flags (cfg : SpawnConfig) : gmap string FlagValue :=
  with_text "dashboard-addr" (sc_DashboardAddr cfg)
  (with_list "roles" (sc_Roles cfg)
  (with_list "capabilities" (sc_Capabilities cfg)
  (with_list "channels" (sc_Channels cfg)
  (with_text "password" (sc_Password cfg)
  (with_text "username" (sc_Username cfg)
  (with_text "nick" (sc_Nick cfg)
  (with_text "server" (sc_Server cfg) ∅))))))).

Lemma parse_BuildCLIArgs `{MR : MapRange} cfg :
  flag_Parse parse_int parse_float formal ∅ (BuildCLIArgs cfg) =
  flag_Parse parse_int parse_float formal (spawn_flags cfg)
    (concat ((λ kv, ["--" +:+ kv.1; kv.2]) <$> range 0 (sc_ExtraFlags cfg))).
Proof.
  unfold BuildCLIArgs, spawn_flags.
  rewrite (parse_text_arg "server"), (parse_text_arg "nick"), (parse_text_arg "username"),
    (parse_text_arg "password"), (parse_list_arg "channels"), (parse_list_arg "capabilities"),
    (parse_list_arg "roles"), (parse_text_arg "dashboard-addr") by reflexivity.
  reflexivity.
Qed.
End parsing.

Lemma lookup_with_text name v m k :
  with_text name v m !! k =
    if bool_decide (k = name) then
      match nonempty v with Some v => Some (VString v) | None => m !! k end
    else m !! k.
Proof.
  unfold with_text, nonempty. do 2 case_bool_decide; subst; try done.
  - apply lookup_insert_eq.
  - by apply lookup_insert_ne.
Qed.

Lemma lookup_with_list name l m k :
  with_list name l m !! k =
    if bool_decide (k = name) then
      match nonempty_list l with Some l => Some (VString (Join l ",")) | None => m !! k end
    else m !! k.
Proof.
  unfold with_list, nonempty_list. case_bool_decide; subst; destruct l; try done.
  - apply lookup_insert_eq.
  - by apply lookup_insert_ne.
Qed.

(** A chain of flags, at the name of one of them. *)
Ltac lookup_flag :=
  unfold spawn_flags;
  repeat (rewrite lookup_with_text || rewrite lookup_with_list;
          case_bool_decide; [try done|]; try done);
  try (destruct (nonempty _)); try (destruct (nonempty_list _)); reflexivity.

Lemma spawn_flags_lookup cfg :
  spawn_flags cfg !! "server" = VString <$> nonempty (sc_Server cfg) ∧
  spawn_flags cfg !! "nick" = VString <$> nonempty (sc_Nick cfg) ∧
  spawn_flags cfg !! "username" = VString <$> nonempty (sc_Username cfg) ∧
  spawn_flags cfg !! "password" = VString <$> nonempty (sc_Password cfg) ∧
  spawn_flags cfg !! "channels" =
    (λ l, VString (Join l ",")) <$> nonempty_list (sc_Channels cfg) ∧
  spawn_flags cfg !! "capabilities" =
    (λ l, VString (Join l ",")) <$> nonempty_list (sc_Capabilities cfg) ∧
  spawn_flags cfg !! "roles" = (λ l, VString (Join l ",")) <$> nonempty_list (sc_Roles cfg) ∧
  spawn_flags cfg !! "dashboard-addr" = VString <$> nonempty (sc_DashboardAddr cfg) ∧
  spawn_flags cfg !! "config" = None ∧ spawn_flags cfg !! "tls" = None ∧
  spawn_flags cfg !! "sasl" = None.
Proof. split_and!; lookup_flag. Qed.

(** ** The spawned agent *)
Section spawned.
Context (parse_duration : string → option Duration).
Context (parse_int : string → option Z) (parse_float : string → option float64).
Context (env : string → string) (read_file : string → option string).
Context (yaml_Unmarshal : string → option fileConfig).

Lemma sc_Validate_None cfg :
  sc_Validate cfg = None →
  nonempty (sc_Nick cfg) = Some (sc_Nick cfg) ∧ nonempty (sc_Server cfg) = Some (sc_Server cfg) ∧
  nonempty (sc_Username cfg) = Some (sc_Username cfg) ∧
  nonempty (sc_Password cfg) = Some (sc_Password cfg).
Proof. unfold sc_Validate, nonempty. repeat case_bool_decide; done. Qed.

(** A list of the configuration: its flag is only given when it has items. *)
Lemma setting_list l name :
  Forall item_ok l →
  default (default [] (splitChannels <$> nonempty (env name)))
    (splitChannels ∘ flag_string <$> ((λ l, VString (Join l ",")) <$> nonempty_list l)) =
  if bool_decide (l = []) then splitChannels (env name) else l.
Proof.
  intros Hl. destruct l as [|s l]; [|by apply splitChannels_Join].
  cbn. unfold nonempty. by case_bool_decide as E; [rewrite E|].
Qed.

(** C31. A spawned agent runs with the configuration it was spawned with: for
    every validated configuration without extra flags, whose channels,
    capabilities and roles can be written as comma-separated lists, the loader
    accepts the command line in any environment that names no configuration
    file; the server and the account are those of the configuration, and so is each of
    the lists and the dashboard's address that the configuration has: for one that
    is empty no flag is given, and the agent takes what its environment says, if it says
    anything. The IRC client accepts the result (TLS and SASL included). *)
Theorem spawned_agent_config `{MR : MapRange} cfg
    (Hv : sc_Validate cfg = None) (Hx : sc_ExtraFlags cfg = ∅) (Hf : env "BORG_CONFIG" = "")
    (Hl : Forall item_ok (sc_Channels cfg ++ sc_Capabilities cfg ++ sc_Roles cfg)) :
  ∃ app, Load parse_duration parse_int parse_float env read_file yaml_Unmarshal
           (BuildCLIArgs cfg) = inl app ∧
    irc_Server (cfg_IRC app) = sc_Server cfg ∧ irc_Nick (cfg_IRC app) = sc_Nick cfg ∧
    irc_Username (cfg_IRC app) = sc_Username cfg ∧ irc_Password (cfg_IRC app) = sc_Password cfg ∧
    irc_Channels (cfg_IRC app) =
      (if bool_decide (sc_Channels cfg = []) then splitChannels (env "IRC_CHANNELS")
       else sc_Channels cfg) ∧
    cfg_Capabilities app =
      (if bool_decide (sc_Capabilities cfg = []) then splitChannels (env "AGENT_CAPABILITIES")
       else sc_Capabilities cfg) ∧
    cfg_Roles app =
      (if bool_decide (sc_Roles cfg = []) then splitChannels (env "AGENT_ROLES")
       else sc_Roles cfg) ∧
    cfg_DashboardAddr app =
      (if bool_decide (sc_DashboardAddr cfg = "") then env "DASHBOARD_ADDR"
       else sc_DashboardAddr cfg) ∧
    Validate (cfg_IRC app) = [].
Proof.
  apply Forall_app in Hl as [Hch [Hca Hro]%Forall_app].
  apply sc_Validate_None in Hv as (Hn & Hs & Hu & Hp).
  destruct (spawn_flags_lookup cfg) as (Es & En & Eu & Ep & Ech & Eca & Ero & Ed & Ec & Et & Ea).
  unfold Load. rewrite parse_BuildCLIArgs, Hx, range_empty. cbn [fmap list_fmap concat flag_Parse].
  assert (config_path env (spawn_flags cfg) = "") as -> by (unfold config_path; by rewrite Ec, Hf).
  rewrite bool_decide_eq_true_2 by done.
  eexists. split; [done|].
  match goal with |- irc_Server (cfg_IRC ?c) = _ ∧ _ => set (app := c) end.
  assert (precedence parse_duration env (spawn_flags cfg) None app) as Hpr by apply layers_precedence.
  clearbody app.
  pose proof (pr_Server _ _ _ _ _ Hpr) as Ps. rewrite Es, Hs in Ps.
  pose proof (pr_Nick _ _ _ _ _ Hpr) as Pn. rewrite En, Hn in Pn.
  pose proof (pr_Username _ _ _ _ _ Hpr) as Pu. rewrite Eu, Hu in Pu.
  pose proof (pr_Password _ _ _ _ _ Hpr) as Pp. rewrite Ep, Hp in Pp.
  pose proof (pr_TLS _ _ _ _ _ Hpr) as Pt. rewrite Et in Pt.
  pose proof (pr_SASL _ _ _ _ _ Hpr) as Pa. rewrite Ea in Pa.
  pose proof (pr_DashboardAddr _ _ _ _ _ Hpr) as Pd. rewrite Ed in Pd.
  cbn in Ps, Pn, Pu, Pp, Pt, Pa. split_and!; [done..| | | | |].
  - rewrite (pr_Channels _ _ _ _ _ Hpr), Ech. by apply setting_list.
  - rewrite (pr_Capabilities _ _ _ _ _ Hpr), Eca. by apply setting_list.
  - rewrite (pr_Roles _ _ _ _ _ Hpr), Ero. by apply setting_list.
  - rewrite Pd. cbn. unfold nonempty. by repeat case_bool_decide.
  - unfold Validate. rewrite Ps, Pn, Pu, Pp, Pt, Pa. unfold nonempty in Hn, Hs, Hu, Hp.
    repeat case_bool_decide; done.
Qed.

(** An extra flag is passed as two arguments: a boolean one is switched on
    whatever its value, its value stays behind as a stray argument, and nothing
    after it is read (so [tls: false] leaves TLS on). *)
Theorem extra_bool_flag `{MR : MapRange} cfg k v
    (Hx : sc_ExtraFlags cfg = {[k := v]}) (Hk : formal k = Some BoolFlag)
    (Hv : flag_token v = NotAFlag) :
  ∃ actual, flag_Parse parse_int parse_float formal ∅ (BuildCLIArgs cfg) = inl (actual, [v]) ∧
    actual !! k = Some (VBool true).
Proof.
  rewrite parse_BuildCLIArgs, Hx, range_singleton. cbn [fmap list_fmap concat fst snd].
  assert (flag_token ("--" +:+ k) = Flag k None) as Ht.
  { unfold formal in Hk. apply fmap_Some in Hk as ([k' b] & Hin%find_some & Hb).
    destruct Hin as [Hin <-%bool_decide_eq_true]. cbn in Hb. subst b.
    unfold flags in Hin. cbn [List.In] in Hin.
    repeat (destruct Hin as [E|Hin]; [first [discriminate E|injection E as <-; reflexivity]|]).
    by destruct Hin. }
  exists (<[k := VBool true]> (spawn_flags cfg)). split; [|apply lookup_insert_eq].
  cbn [flag_Parse app]. rewrite Ht, Hk. cbn. by rewrite Hv.
Qed.
End spawned.

(** ** Concrete configurations *)
Definition sample_spawn (extra : gmap string string) : SpawnConfig :=
  {| sc_Nick := "worker"; sc_Server := "irc:6697"; sc_Username := "u"; sc_Password := "-p";
     sc_Channels := ["#dev"; "#ops"]; sc_Capabilities := ["go"]; sc_Roles := [];
     sc_DashboardAddr := ""; sc_ExtraFlags := extra; sc_BinaryPath := ""; sc_SSHHost := "";
     sc_SSHUser := ""; sc_SSHKeyPath := ""; sc_DockerImage := ""; sc_DockerNetwork := "" |}.

(** An environment with roles, which the configuration does not have. *)
Definition roles_env (name : string) : string :=
  if bool_decide (name = "AGENT_ROLES") then "reviewer, tester" else "".

Lemma spawned_agent_config_witness :
  ∃ app, Load (λ _, None) (λ _, None) (λ _, None) roles_env (λ _, None) (λ _, None)
           (BuildCLIArgs (sample_spawn ∅)) = inl app ∧
    irc_Password (cfg_IRC app) = "-p" ∧ irc_Channels (cfg_IRC app) = ["#dev"; "#ops"] ∧
    cfg_Roles app = ["reviewer"; "tester"].
Proof.
  destruct (spawned_agent_config (λ _, None) (λ _, None) (λ _, None) roles_env (λ _, None)
    (λ _, None) (sample_spawn ∅)) as (app & HL & _ & _ & _ & Hp & Hc & _ & Hr & _).
  - reflexivity.
  - reflexivity.
  - reflexivity.
  - repeat constructor; vm_compute; (reflexivity || discriminate).
  - exists app. split; [exact HL|]. split; [exact Hp|]. split; [exact Hc|exact Hr].
Defined.

Lemma extra_bool_flag_witness :
  ∃ actual, flag_Parse (λ _, None) (λ _, None) formal ∅
      (BuildCLIArgs (sample_spawn {["tls" := "false"]})) = inl (actual, ["false"]) ∧
    actual !! "tls" = Some (VBool true).
Proof.
  apply (extra_bool_flag (λ _, None) (λ _, None) (sample_spawn {["tls" := "false"]}) "tls" "false").
  - reflexivity.
  - reflexivity.
  - reflexivity.
Defined.

Example extra_tls_test :
  (λ app, irc_TLS (cfg_IRC app)) <$>
    match Load (λ _, None) (λ _, None) (λ _, None) (λ _, "") (λ _, None) (λ _, None)
            (BuildCLIArgs (sample_spawn {["tls" := "false"]})) with
    | inl app => Some app
    | inr _ => None
    end = Some true.
Proof. vm_compute. reflexivity. Qed.
