(* ===== verification/Lifecycle.v ===== *)
(** * The life of an agent: [internal/agent/agent.go]

    How an agent is put together from its configuration, what it starts, the
    heartbeat that announces its capabilities, the federation links, and what
    shutting down does. The connection library, the exporter of telemetry and the
    outcome of connecting are arguments. *)

From S2P Require Import Prelude GoStrings GoNum GoFloat Config Message Parser Serializer Codec.
From S2P Require Import Sanitizer State TaskBoard Discovery Context ACL Coordinator Inspector Metrics.
From S2P Require Import Pacing Events IrcClient Client Dispatcher DispatcherTheory Agent Replica Convergence AgentTheory.
From S2P Require Import Federation Persistence Spawner.

(** ** Construction *)

(** The functions that the agent registers as handlers. *)
Definition h_protocol : nat := 0.
Definition h_raw : nat := 1.
Definition h_join : nat := 2.
Definition h_part : nat := 3.
Definition h_kick : nat := 4.
Definition h_error : nat := 5.
Definition h_connect : nat := 6.
Definition h_disconnect : nat := 7.

(** [a.protocol.Register()], called by [initProtocol]. *)
Definition protocol_Register (c : ircClient) : ircClient := (OnMessage h_protocol c).1.

Definition registerHandlers (c : ircClient) : ircClient :=
  let c := (OnMessage h_raw c).1 in
  let c := (OnJoin h_join c).1 in
  let c := (OnPart h_part c).1 in
  let c := (OnKick h_kick c).1 in
  let c := (OnError h_error c).1 in
  let c := (OnConnect h_connect c).1 in
  (OnDisconnect h_disconnect c).1.

Definition NewWithClient (cfg : AppConfig) (loaded : StateStore) (client : ircClient)
    : Agent * ircClient :=
  (initProtocol cfg (irc_Nick (cl_cfg client)) loaded, registerHandlers (protocol_Register client)).

Inductive NewError := NewClientFailed (e : ClientError) | OTelFailed (err : string).

(** [otel_Setup] is the error of the exporter's setup; [loaded] the store after
    [persist.Load]. *)
Definition New (irc_IRC : string → string → option Connection) (now : Time)
    (otel_Setup : option string) (cfg : AppConfig) (loaded : StateStore)
    : NewError + Agent * ircClient :=
  match NewClient irc_IRC now (cfg_IRC cfg) with
  | inl e => inl (NewClientFailed e)
  | inr client =>
      match (if bool_decide (ot_Endpoint (cfg_OTel cfg) = "") then None else otel_Setup) with
      | Some err => inl (OTelFailed err)
      | None => inr (NewWithClient cfg loaded client)
      end
  end.

(** ** The heartbeat *)

(** The interval of [startDiscoveryHeartbeat]: half of the time to live. *)
Definition heartbeat_interval (ttl : Duration) : Duration :=
  let ttl := if bool_decide (ttl ≤ 0)%Z then (300 * second)%Z else ttl in
  let interval := Z.quot ttl 2 in
  if bool_decide (interval < second)%Z then second else interval.

Section life.
Context `{MR : MapRange}.

(** One iteration over the joined channels; an error is logged. [None] is a
    panic. *)
Definition announce_to (clk : nat → nat → Time) (acc : option (Agent * Outbox)) (ich : nat * string)
    : option (Agent * Outbox) :=
  match acc with
  | None => None
  | Some (ag, sent) =>
      match SendProtocolMessage (clk ich.1) ag ich.2 (msg_AnnounceCapabilities (ag_capabilities ag)) with
      | Sent ag fx => Some (ag, sent ++ fx_sent fx)
      | SendPanic => None
      | _ => Some (ag, sent)
      end
  end.

(** [channels] is [a.client.JoinedChannels()]. *)
Definition announceCapabilities (clk : nat → nat → Time) (ag : Agent) (channels : list string)
    : option (Agent * Outbox) :=
  if bool_decide (ag_capabilities ag = []) then Some (ag, [])
  else foldl (announce_to clk) (Some (ag, [])) (imap pair channels).

Definition prune_agent (now : Time) (ag : Agent) : Agent :=
  let pd := ag_protocol ag in
  ag <| ag_protocol := pd <| pd_discovery := Prune now <$> pd_discovery pd |> |>.

(** One tick of the heartbeat's ticker. *)
Definition heartbeat_tick (clk : nat → nat → Time) (now : Time) (ag : Agent) (channels : list string)
    : option (Agent * Outbox) :=
  '(ag, sent) ← announceCapabilities clk ag channels; Some (prune_agent now ag, sent).

Definition KnownAgents (now : Time) (pd : ProtocolDispatcher) : list AgentCapability :=
  match pd_discovery pd with Some ds => ListActive now ds | None => [] end.

(** ** Federation links *)

Inductive FederationError :=
| LinkClientFailed (name : string) (e : ClientError)
| LinkConnectFailed (name : string) (err : string).

(** The loop over the configured servers. *)
Fixpoint add_links (irc_IRC : string → string → option Connection) (now : Time)
    (servers : list FederationServerConfig) (fm : FederationManager) (clients : gmap string ircClient)
    : FederationError + FederationManager * gmap string ircClient :=
  match servers with
  | [] => inr (fm, clients)
  | srv :: servers =>
      match NewClient irc_IRC now (fs_IRC srv) with
      | inl e => inl (LinkClientFailed (fs_Name srv) e)
      | inr client =>
          add_links irc_IRC now servers (AddLink fm (fs_Name srv) (irc_Channels (fs_IRC srv)))
            (<[fs_Name srv := client]> clients)
      end
  end.

(** [FederationManager.Start]: [connect] is the error of a link's [Connect]. The
    first failure ends it; then every client gets its relay handler, of which
    [h_relay] is the function. *)
Definition h_relay : nat := 8.

Fixpoint connect_links (connect : string → option string) (links : list (string * FederationLink))
    : option FederationError :=
  match links with
  | [] => None
  | (name, _) :: links =>
      match connect name with
      | Some err => Some (LinkConnectFailed name err)
      | None => connect_links connect links
      end
  end.

Definition fm_Start (connect : string → option string) (fm : FederationManager)
    (local : ircClient) (clients : gmap string ircClient)
    : FederationError + ircClient * gmap string ircClient :=
  match connect_links connect (range 0 (fm_links fm)) with
  | Some e => inl e
  | None => inr ((OnMessage h_relay local).1, (λ c, (OnMessage h_relay c).1) <$> clients)
  end.

Definition startFederation (irc_IRC : string → string → option Connection) (now : Time)
    (connect : string → option string) (cfg : AppConfig) (local : ircClient)
    : FederationError + FederationManager * ircClient * gmap string ircClient :=
  match add_links irc_IRC now (cfg_FederationServers cfg) NewFederationManager ∅ with
  | inl e => inl e
  | inr (fm, clients) =>
      let fm := foldl AddMapping fm (cfg_FederationMappings cfg) in
      match fm_Start connect fm local clients with
      | inl e => inl e
      | inr (local, clients) => inr (fm, local, clients)
      end
  end.

(** ** Starting *)

Inductive StartError :=
| DashboardFailed (err : string)
| ConnectFailed (err : string)
| FederationFailed (e : FederationError).

(** What runs after [Start]. *)
Record Running := {
  ru_client : ircClient;
  ru_dashboard : bool;
  ru_federation : option (FederationManager * gmap string ircClient);
  ru_heartbeat : bool
}.

(** [dashboard] is the error of the dashboard's [Start], [connected] that of the
    client's [Connect]. *)
Definition Start (irc_IRC : string → string → option Connection) (now : Time)
    (dashboard connected : option string) (connect : string → option string) (cfg : AppConfig)
    (ag : Agent) (client : ircClient) : StartError + Running :=
  let has_dashboard := negb (bool_decide (cfg_DashboardAddr cfg = "")) in
  match (if has_dashboard then dashboard else None) with
  | Some err => inl (DashboardFailed err)
  | None =>
      match connected with
      | Some err => inl (ConnectFailed err)
      | None =>
          match (if bool_decide (cfg_FederationServers cfg = []) then inr (client, None)
                 else match startFederation irc_IRC now connect cfg client with
                      | inl e => inl (FederationFailed e)
                      | inr (fm, client, links) => inr (client, Some (fm, links))
                      end) with
          | inl e => inl e
          | inr (client, fed) =>
              inr {| ru_client := client; ru_dashboard := has_dashboard; ru_federation := fed;
                     ru_heartbeat := negb (bool_decide (ag_capabilities ag = [])) |}
          end
      end
  end.

(** ** Shutting down *)

(** The names of the links that are disconnected, in the order of the map. *)
Definition fm_Shutdown (fm : FederationManager) : list string := (range 0 (fm_links fm)).*1.

(** What is left after [Shutdown]: the links disconnected, the files, the client and
    what it asked of its connection. *)
Record Stopped := {
  st_unlinked : list string;
  st_persist : option StatePersistence;
  st_files : Files;
  st_client : ircClient;
  st_commands : list Command
}.

(** [marshal], [tmp] and [fault] are those of [Persistence.Save]; the errors of
    closing the dashboard and the exporter are logged. *)
Definition Shutdown (marshal : PersistedState → option string) (now : Time) (tmp : string)
    (fault : option SaveFault) (ru : Running) (sp : option StatePersistence) (s : StateStore)
    (fs : Files) : Stopped :=
  let unlinked := match ru_federation ru with Some (fm, _) => fm_Shutdown fm | None => [] end in
  let '(sp, fs) := match sp with
                   | Some sp => let '(sp, fs, _) := Persistence.Close marshal now sp s fs tmp fault in
                                (Some sp, fs)
                   | None => (None, fs)
                   end in
  let '(client, cmds) := part_all (client_JoinedChannels (ru_client ru)) (ru_client ru) in
  {| st_unlinked := unlinked; st_persist := sp; st_files := fs; st_client := client;
     st_commands := cmds ++ client_Disconnect client |}.

(** ** Theorems *)

(** *** Handlers *)

(** The handlers that an agent has for each kind of event. *)
Definition own_handlers (k : HandlerKind) : list nat :=
  match k with
  | KindMsg => [h_raw; h_protocol] | KindJoin => [h_join] | KindPart => [h_part]
  | KindKick => [h_kick] | KindError => [h_error] | KindConnect => [h_connect]
  | KindDisconnect => [h_disconnect]
  end.

Lemma registered_tables client :
  registerHandlers (protocol_Register client) =
  foldl table_step client
    [OpOn KindMsg h_protocol; OpOn KindMsg h_raw; OpOn KindJoin h_join; OpOn KindPart h_part;
     OpOn KindKick h_kick; OpOn KindError h_error; OpOn KindConnect h_connect;
     OpOn KindDisconnect h_disconnect].
Proof.
  unfold registerHandlers, protocol_Register, OnMessage, OnJoin, OnPart, OnKick, OnError, OnConnect,
    OnDisconnect. cbv zeta. cbn [foldl table_step]. reflexivity.
Qed.

(** A new agent listens: its client has a valid configuration, every message
    goes to the dispatcher and to the counter of raw messages, once each, and every
    other kind of event to its one handler. *)
Theorem New_listens irc_IRC now otel cfg loaded ag client k ev :
  New irc_IRC now otel cfg loaded = inr (ag, client) →
  ag = initProtocol cfg (irc_Nick (cfg_IRC cfg)) loaded ∧ Validate (cfg_IRC cfg) = [] ∧
  call_all (table k client) ev ≡ₚ (λ h, (h, ev)) <$> own_handlers k.
Proof.
  unfold New. destruct (NewClient _ _ _) as [e|c] eqn:Hc; [done|].
  destruct (if bool_decide (ot_Endpoint _ = "") then _ else _); [done|].
  intros [= <- <-]. destruct (NewClient_valid _ _ _ _ Hc) as [Hv Hcfg].
  split; [by rewrite Hcfg|]. split; [exact Hv|]. rewrite registered_tables.
  etransitivity; [apply calls_live; eapply NewClient_run; [exact Hc|]|by destruct k].
  vm_compute. discriminate.
Qed.

(** *** Announcements *)

Lemma channels_table_step c op : cl_channels (table_step c op) = cl_channels c.
Proof.
  destruct op as [k h|id]; cbn [table_step].
  - unfold register. by destruct k.
  - unfold RemoveHandler. destruct (cl_handlerKinds c !! id) as [k|]; [|done]. by destruct k.
Qed.

Lemma channels_welcome self later c : cl_channels (re_client (on_welcome self later c)) = cl_channels c.
Proof. done. Qed.

(** The first announcement reaches nobody: when the welcome of the server has been
    handled, which is what [Connect] waits for, the client has joined no channel yet,
    and the heartbeat's first announcement is sent to none. *)
Theorem first_announcement_is_empty irc_IRC now otel cfg loaded ag client self later clk :
  New irc_IRC now otel cfg loaded = inr (ag, client) →
  announceCapabilities clk ag (JoinedChannels (re_client (on_welcome self later client))) =
    Some (ag, []).
Proof.
  unfold New. destruct (NewClient _ _ _) as [e|c] eqn:Hc; [done|].
  destruct (if bool_decide (ot_Endpoint _ = "") then _ else _); [done|]. intros [= <- <-].
  assert (cl_channels c = ∅) as Hch.
  { unfold NewClient in Hc. destruct (Validate _); [|done]. destruct (irc_IRC _ _); [|done].
    by injection Hc as <-. }
  unfold JoinedChannels. rewrite channels_welcome, registered_tables. cbn [foldl].
  rewrite !channels_table_step, Hch, range_empty.
  unfold announceCapabilities. by case_bool_decide.
Qed.

(** What an agent needs to announce: capabilities, no credential among them, and an
    intact message log. *)
Definition can_announce (ag : Agent) : Prop :=
  ag_capabilities ag ≠ [] ∧ Sanitize (msg_AnnounceCapabilities (ag_capabilities ag)) = None ∧
  ∃ h, ring_ok (ag_inspector ag) h.

Definition announcement (ag : Agent) : string :=
  Message_String (msg_AnnounceCapabilities (ag_capabilities ag)).

(** The access rules let the agent announce in the channel. *)
Definition may_announce (ag : Agent) (channel : string) : bool :=
  allowed (ag_protocol ag) (ag_nick ag) channel ActionCapabilities.

(** What an announcement leaves as it is. *)
Definition same_announcer (ag ag' : Agent) : Prop :=
  ag_capabilities ag' = ag_capabilities ag ∧ ag_nick ag' = ag_nick ag ∧
  pd_acl (ag_protocol ag') = pd_acl (ag_protocol ag).

Lemma announce_one clk ag ch :
  can_announce ag →
  match SendProtocolMessage clk ag ch (msg_AnnounceCapabilities (ag_capabilities ag)) with
  | Sent ag' fx => may_announce ag ch = true ∧ fx_sent fx = [(ch, announcement ag)] ∧
      same_announcer ag ag' ∧ can_announce ag'
  | ErrACLDenied _ _ => may_announce ag ch = false
  | _ => False
  end.
Proof.
  intros (Hne & Hs & h & Hring). unfold SendProtocolMessage. rewrite Hs.
  set (m := msg_AnnounceCapabilities _) in *.
  assert (match pd_acl (ag_protocol ag) with
          | Some acl => negb (Check acl (ag_nick ag) ch (msg_Action m)) | None => false end
          = negb (may_announce ag ch)) as ->.
  { unfold may_announce, allowed. by destruct (pd_acl (ag_protocol ag)). }
  destruct (may_announce ag ch); cbn [negb]; [|done].
  destruct (updateLocalState_core clk (ag_protocol ag) (local_message clk (ag_nick ag) ch m))
    as [_ Hacl].
  destruct (updateLocalState clk (ag_protocol ag) (local_message clk (ag_nick ag) ch m))
    as [pd fx]. cbn [fst] in Hacl.
  destruct (ring_ok_record _ _ (log_entry (local_message clk (ag_nick ag) ch m) "out"
    (Message_String m)) Hring) as (d & Hd & Hring').
  replace (dirty_out (msg_Action m)) with false by done. cbn [ag_inspector]. rewrite Hd.
  split_and!; [done|done|by split_and!|]. split_and!; [done|done|by eexists].
Qed.

Lemma may_announce_same ag ag' ch : same_announcer ag ag' → may_announce ag' ch = may_announce ag ch.
Proof. intros (_ & Hn & Ha). unfold may_announce, allowed. by rewrite Hn, Ha. Qed.

(** The heartbeat announces to every channel that the agent is in and may announce in. *)
Lemma announce_all clk ag channels :
  can_announce ag →
  ∃ ag', announceCapabilities clk ag channels =
      Some (ag', (λ ch, (ch, announcement ag)) <$> List.filter (may_announce ag) channels) ∧
    same_announcer ag ag' ∧ can_announce ag'.
Proof.
  intros Hok. unfold announceCapabilities. rewrite bool_decide_eq_false_2 by apply Hok.
  assert (∀ l ag0 sent, same_announcer ag ag0 → can_announce ag0 →
    ∃ ag', foldl (announce_to clk) (Some (ag0, sent)) l =
        Some (ag', sent ++ ((λ ch, (ch, announcement ag)) <$>
          List.filter (may_announce ag) (l : list (nat * string)).*2)) ∧
      same_announcer ag ag' ∧ can_announce ag') as Hfold.
  { induction l as [|[i ch] l IH]; intros ag0 sent Hc H0.
    - exists ag0. cbn. rewrite app_nil_r. done.
    - cbn [foldl announce_to fst snd fmap list_fmap List.filter].
      pose proof (announce_one (clk i) ag0 ch H0) as H1. rewrite (may_announce_same ag ag0) in H1 by done.
      destruct (SendProtocolMessage _ _ _ _) as [ag1 fx|?|? ?|]; [|done| |done].
      + destruct H1 as (-> & Hfx & Hc1 & H1).
        assert (same_announcer ag ag1) as Hc2.
        { destruct Hc as (? & ? & ?), Hc1 as (? & ? & ?). split_and!; congruence. }
        destruct (IH ag1 (sent ++ fx_sent fx) Hc2 H1) as (ag' & -> & Hc' & H').
        exists ag'. split; [|done]. rewrite Hfx, <- app_assoc. unfold announcement. by rewrite (proj1 Hc).
      + rewrite H1. by apply IH. }
  destruct (Hfold (imap pair channels) ag []) as (ag' & -> & Hc' & H'); [done..|].
  exists ag'. split; [|done]. f_equal. f_equal. rewrite app_nil_l. do 2 f_equal.
  rewrite fmap_imap. unfold compose. cbn. by rewrite (imap_const id), list_fmap_id.
Qed.

(** *** What the peers know *)

Section peers.
Context (lower : string → string).

Lemma list_field_Join l : l ≠ [] → Forall item_ok l → list_field (Join l ",") = l.
Proof. apply splitChannels_Join. Qed.

Lemma coordination_keeps now pd msg :
  pd_context (updateCoordinationStores now pd msg).1 = pd_context pd ∧
  pd_selfCaps (updateCoordinationStores now pd msg).1 = pd_selfCaps pd ∧
  pd_discovery (updateCoordinationStores now pd msg).1 = pd_discovery pd ∧
  pd_handlers (updateCoordinationStores now pd msg).1 = pd_handlers pd.
Proof.
  unfold updateCoordinationStores. destruct (pd_taskBoard pd); [|done].
  by destruct (taskboard_update _ _ _).
Qed.

Lemma dispatch_discovery clk pd msg :
  pd_discovery (dispatch lower clk pd msg).1 =
  (λ ds, if bool_decide (msg_Action msg = ActionCapabilities)
         then handleCapabilities (clk 5) ds msg else ds) <$> pd_discovery pd.
Proof.
  unfold dispatch. destruct (if bool_decide (msg_Action msg = ActionCompleted) then _ else _) as [n acks].
  match goal with
  | |- context [updateCoordinationStores (clk 3) ?p msg] =>
      destruct (coordination_keeps (clk 3) p msg) as (_ & _ & Hd & _);
      destruct (updateCoordinationStores (clk 3) p msg) as [pd' timer]
  end.
  cbn [fst pd_discovery] in Hd.
  destruct (match msg_Action msg with ActionContext => _ | _ => _ end) as [[cs calls] sent].
  cbn [pd_discovery]. rewrite Hd. destruct (pd_discovery pd) as [ds|]; [|done].
  destruct (msg_Action msg); done.
Qed.

(** What else happens to a peer until [t]: messages of other nicks, and pruning. *)
Inductive peer_step (nick : string) (t : Time) : relation ProtocolDispatcher :=
| peer_message clk self ev pd :
    ev_Nick ev ≠ nick → peer_step nick t pd (handleMessage lower clk self pd ev).1
| peer_prune now pd :
    (now ≤ t)%Z → peer_step nick t pd (pd <| pd_discovery := Prune now <$> pd_discovery pd |>).

(** The nick is known at time [t], with these capabilities. *)
Definition listed (nick : string) (t : Time) (caps : list string) (pd : ProtocolDispatcher) : Prop :=
  ∃ ds cap, pd_discovery pd = Some ds ∧ ds_Get t ds nick = Some cap ∧ ac_Nick cap = nick ∧
    ac_Expertise cap = caps.

Lemma ds_agents_Update now ds cap :
  ∃ cap', ds_agents (Update now ds cap) = <[ac_Nick cap := cap']> (ds_agents ds).
Proof. unfold Update. repeat (destruct (IsZero _); cbn); by eexists. Qed.

Lemma listed_step nick t caps pd pd' : peer_step nick t pd pd' → listed nick t caps pd → listed nick t caps pd'.
Proof.
  intros [clk self ev p Hne|now p Hle] (ds & cap & Hds & Hget & Hn & He).
  - unfold handleMessage. destruct (accept_message clk self p ev) as [msg|] eqn:Ea;
      [|by exists ds, cap].
    assert (msg_Nick msg = ev_Nick ev) as Hnick.
    { unfold accept_message in Ea. destruct (negb _); [done|]. case_bool_decide; [done|].
      destruct (Parse _) as [m|]; [|done].
      destruct (pd_acl p) as [acl|]; [destruct (negb _); [done|]|]; by injection Ea as <-. }
    unfold listed. rewrite dispatch_discovery, Hds. cbn. eexists _, cap. split; [done|].
    split; [|done]. case_bool_decide; [|done]. unfold handleCapabilities, ds_Get in *.
    destruct (ds_agents_Update (clk 5) ds (capability_of msg)) as [cap' ->].
    rewrite lookup_insert_ne; [done|]. cbn. congruence.
  - unfold listed. cbn. rewrite Hds. cbn. eexists _, cap. split; [done|]. split; [|done].
    unfold ds_Get in *. rewrite lookup_Prune. unfold ds_Get.
    destruct (ds_agents ds !! nick) as [c|]; [|done].
    destruct (expired t c) eqn:Et; [done|]. injection Hget as ->.
    unfold expired in *. apply Z.ltb_ge in Et.
    assert ((ac_ExpiresAt cap <? now)%Z = false) as -> by (apply Z.ltb_ge; lia).
    by apply Z.ltb_ge in Et as ->.
Qed.

Lemma handleCapabilities_known now ds msg t :
  msg_Timestamp msg ≠ 0%Z → (t ≤ msg_Timestamp msg + ds_ttl ds)%Z →
  ∃ cap, ds_Get t (handleCapabilities now ds msg) (msg_Nick msg) = Some cap ∧
    ac_Nick cap = msg_Nick msg ∧ ac_Expertise cap = list_field (Get msg "expertise").
Proof.
  intros Hts Ht. unfold handleCapabilities, Update, capability_of. cbn [ac_UpdatedAt].
  assert (IsZero (msg_Timestamp msg) = false) as -> by by apply bool_decide_eq_false.
  cbn [ac_ExpiresAt]. change (IsZero zero_time) with true. cbn [ac_UpdatedAt].
  unfold ds_Get. cbn [ds_agents ac_Nick]. rewrite lookup_insert_eq. unfold expired. cbn [ac_ExpiresAt].
  assert ((msg_Timestamp msg + ds_ttl ds <? t)%Z = false) as -> by (apply Z.ltb_ge; lia).
  by eexists.
Qed.

Lemma two_intervals ttl :
  (ttl ≤ 0)%Z ∨ (2 * second ≤ ttl)%Z →
  (0 < heartbeat_interval ttl)%Z ∧ (2 * heartbeat_interval ttl ≤ ds_ttl (NewDiscoveryStore ttl))%Z.
Proof.
  unfold heartbeat_interval, NewDiscoveryStore, default_ttl, second. cbn [ds_ttl]. intros Hor.
  destruct (Z.leb_spec ttl 0).
  - rewrite (bool_decide_eq_true_2 (ttl ≤ 0)%Z) by done. by vm_compute.
  - rewrite (bool_decide_eq_false_2 (ttl ≤ 0)%Z) by lia. destruct Hor as [?|Hor]; [lia|].
    rewrite Z.quot_div_nonneg by lia. pose proof (Z.mul_div_le ttl 2 eq_refl).
    assert (1000000000 ≤ ttl / 2)%Z by (apply Z.div_le_lower_bound; lia).
    rewrite (bool_decide_eq_false_2 (ttl `div` 2 < 1000000000)%Z) by lia.
    destruct (Z.leb_spec ttl 0); lia.
Qed.

(** Whoever reads an announcement of capabilities lists its sender with them. *)
Lemma announcement_listed clk self pd ds ev caps t :
  caps ≠ [] → Forall item_ok caps → value_ok (Join caps ",") = true →
  ev_Message ev = Message_String (msg_AnnounceCapabilities caps) →
  ev_Nick ev ≠ self → ev_Timestamp ev ≠ 0%Z →
  allowed pd (ev_Nick ev) (ev_Channel ev) ActionCapabilities = true → pd_discovery pd = Some ds →
  (t ≤ ev_Timestamp ev + ds_ttl ds)%Z →
  listed (ev_Nick ev) t caps (handleMessage lower clk self pd ev).1.
Proof.
  intros Hne Hitems Hval Htext Hself Hts Hacl Hds Ht.
  assert (wf_message (msg_AnnounceCapabilities caps) = true) as Hwf.
  { apply wf_literal; [reflexivity|discriminate| |reflexivity]. by apply fields_ok_singleton. }
  rewrite (handleMessage_wire lower clk self pd _ ev Hwf Hacl Hself Htext).
  set (m := received clk _ ev).
  assert (msg_Timestamp m = ev_Timestamp ev) as Hm.
  { cbn. unfold IsZero. by rewrite (bool_decide_eq_false_2 _ Hts). }
  destruct (handleCapabilities_known (clk 5) ds m t) as (cap & Hget & Hn & He);
    [by rewrite Hm|by rewrite Hm|].
  assert (msg_Action m = ActionCapabilities) as Hact by reflexivity.
  assert (msg_Nick m = ev_Nick ev) as Hnick by reflexivity.
  exists (handleCapabilities (clk 5) ds m), cap. rewrite <- Hnick.
  rewrite dispatch_discovery, Hds. cbn [fmap option_fmap option_map].
  rewrite (bool_decide_eq_true_2 _ Hact). split; [reflexivity|]. split; [exact Hget|].
  split; [exact Hn|]. rewrite He.
  replace (Get m "expertise") with (Join caps ","); [by apply list_field_Join|].
  unfold Get. cbn. by rewrite lookup_singleton_eq.
Qed.

(** C24. The heartbeat keeps an agent known. The agent has capabilities without commas
    and outer blanks, that hold no credential and can be written as one value. Each
    tick announces them to exactly the channels that the agent is in and that its own
    access rules let it announce in, and leaves the agent able to do so again. Whoever
    reads one of these announcements, at a time that its event carries, with access
    rules that let the agent announce there and a time to live that is not shorter
    than the agent's, lists the agent with exactly these capabilities, whatever other
    agents send and however often it prunes, for at least two intervals, so one
    announcement may get lost. This needs a time to live of at least two seconds (or
    the default one). *)
Theorem heartbeat_keeps_known clk now ag channels ttl :
  can_announce ag → Forall item_ok (ag_capabilities ag) →
  value_ok (Join (ag_capabilities ag) ",") = true → (ttl ≤ 0)%Z ∨ (2 * second ≤ ttl)%Z →
  ∃ ag' sent, heartbeat_tick clk now ag channels = Some (ag', sent) ∧
    sent.*1 = List.filter (may_announce ag) channels ∧
    can_announce ag' ∧ same_announcer ag ag' ∧
    ∀ ev clk' self pd ds pd' t,
      (ev_Channel ev, ev_Message ev) ∈ sent → ev_Nick ev ≠ self → ev_Timestamp ev ≠ 0%Z →
      allowed pd (ev_Nick ev) (ev_Channel ev) ActionCapabilities = true →
      pd_discovery pd = Some ds → (ds_ttl (NewDiscoveryStore ttl) ≤ ds_ttl ds)%Z →
      rtc (peer_step (ev_Nick ev) t) (handleMessage lower clk' self pd ev).1 pd' →
      (t ≤ ev_Timestamp ev + 2 * heartbeat_interval ttl)%Z →
      ∃ cap, cap ∈ KnownAgents t pd' ∧ ac_Nick cap = ev_Nick ev ∧
        ac_Expertise cap = ag_capabilities ag.
Proof.
  intros Hok Hitems Hval Httl. destruct (announce_all clk ag channels Hok) as (ag' & Ha & Hs & Hc).
  unfold heartbeat_tick. rewrite Ha. cbn [mbind option_bind].
  eexists _, _. split; [reflexivity|].
  split; [rewrite <- list_fmap_compose; apply list_fmap_id|].
  split; [exact Hc|]. split; [exact Hs|].
  intros ev clk' self pd ds pd' t Hin Hself Hts Hacl Hds Hdttl Hrtc Ht.
  apply list_elem_of_fmap in Hin as (ch & [= _ Htext] & _).
  assert (listed (ev_Nick ev) t (ag_capabilities ag) (handleMessage lower clk' self pd ev).1) as Hl.
  { apply (announcement_listed clk' self pd ds); try done; [apply Hok|].
    pose proof (two_intervals ttl Httl). lia. }
  assert (listed (ev_Nick ev) t (ag_capabilities ag) pd') as (ds' & cap & Hds' & Hget & Hn & He).
  { clear Ht. induction Hrtc as [|p q r Hpq _ IH]; [done|]. apply IH. by eapply listed_step. }
  exists cap. unfold KnownAgents. rewrite Hds'. split; [|exact (conj Hn He)].
  apply elem_of_ListActive. exists (ev_Nick ev). exact Hget.
Qed.
End peers.

(** A time to live of less than a second is shorter than the interval: between two
    announcements the agent is unknown. *)
Theorem short_ttl_flaps ttl :
  (0 < ttl < second)%Z → (ds_ttl (NewDiscoveryStore ttl) < heartbeat_interval ttl)%Z.
Proof.
  intros Httl. unfold heartbeat_interval, NewDiscoveryStore, second in *. cbn [ds_ttl].
  rewrite (bool_decide_eq_false_2 (ttl ≤ 0)%Z) by lia. rewrite Z.quot_div_nonneg by lia.
  assert (ttl / 2 < 1000000000)%Z by (apply Z.div_lt_upper_bound; lia).
  rewrite (bool_decide_eq_true_2 (ttl `div` 2 < 1000000000)%Z) by done.
  destruct (Z.leb_spec ttl 0); lia.
Qed.

(** *** Federation links *)

Lemma add_links_spec irc_IRC now servers fm clients fm' clients' :
  add_links irc_IRC now servers fm clients = inr (fm', clients') →
  dom (fm_links fm) = dom clients → map_Forall (λ _ c, Validate (cl_cfg c) = []) clients →
  Forall (λ srv, Validate (fs_IRC srv) = []) servers ∧
  fm_mappings fm' = fm_mappings fm ∧ dom (fm_links fm') = dom clients' ∧
  dom (fm_links fm') = dom (fm_links fm) ∪ list_to_set (fs_Name <$> servers) ∧
  map_Forall (λ _ c, Validate (cl_cfg c) = []) clients'.
Proof.
  revert fm clients. induction servers as [|srv servers IH]; intros fm clients.
  - cbn. intros [= <- <-] Hdom Hv. split_and!; [constructor|done..| |done]. set_solver.
  - cbn [add_links]. destruct (NewClient _ _ _) as [e|c] eqn:Hc; [done|]. intros H Hdom Hv.
    destruct (NewClient_valid _ _ _ _ Hc) as [Hvc Hcfg].
    apply IH in H as (Hs & Hm & Hd & Hl & Hv').
    + split_and!; [by constructor|done|done| |done]. rewrite Hl. cbn. rewrite dom_insert_L. set_solver.
    + cbn. rewrite !dom_insert_L. by rewrite Hdom.
    + apply map_Forall_insert_2; [by rewrite Hcfg|done].
Qed.

Lemma connect_links_None connect links :
  connect_links connect links = None ↔ ∀ name l, (name, l) ∈ links → connect name = None.
Proof.
  induction links as [|[name l] links IH]; cbn.
  - split; [|done]. intros _ ?? H. by apply not_elem_of_nil in H.
  - setoid_rewrite elem_of_cons. destruct (connect name) eqn:E; [naive_solver congruence|].
    rewrite IH. naive_solver congruence.
Qed.

Lemma foldl_AddMapping ms fm :
  fm_links (foldl AddMapping fm ms) = fm_links fm ∧
  fm_mappings (foldl AddMapping fm ms) = fm_mappings fm ++ ms.
Proof.
  revert fm. induction ms as [|m ms IH]; intros fm; cbn [foldl]; [by rewrite app_nil_r|].
  destruct (IH (AddMapping fm m)) as [-> ->]. cbn. by rewrite <- app_assoc.
Qed.

(** Federation is all or nothing: when it starts, there is a link for exactly the
    configured servers, each with a valid configuration (TLS and SASL included) and
    connected, the mappings are those of the configuration, and the relay listens on
    the local client and on every link. *)
Theorem startFederation_spec irc_IRC now connect cfg local fm local' links :
  startFederation irc_IRC now connect cfg local = inr (fm, local', links) →
  Forall (λ srv, Validate (fs_IRC srv) = []) (cfg_FederationServers cfg) ∧
  fm_mappings fm = cfg_FederationMappings cfg ∧
  (∀ name, is_Some (fm_links fm !! name) ↔ name ∈ fs_Name <$> cfg_FederationServers cfg) ∧
  (∀ name, is_Some (fm_links fm !! name) ↔ is_Some (links !! name)) ∧
  (∀ name, is_Some (fm_links fm !! name) → connect name = None) ∧
  (∃ id, cl_msgHandlers local' !! id = Some h_relay) ∧
  ∀ name c, links !! name = Some c →
    Validate (cl_cfg c) = [] ∧ ∃ id, cl_msgHandlers c !! id = Some h_relay.
Proof.
  unfold startFederation. destruct (add_links _ _ _ _ _) as [e|[fm0 clients]] eqn:Ha; [done|].
  apply add_links_spec in Ha as (Hs & Hm & Hd & Hl & Hv); [|done|apply map_Forall_empty].
  destruct (foldl_AddMapping (cfg_FederationMappings cfg) fm0) as [El Em].
  unfold fm_Start. rewrite El.
  destruct (connect_links connect (range 0 (fm_links fm0))) eqn:Ec; [done|]. intros [= <- <- <-].
  rewrite El, Em, Hm. split_and!; [done|done| | | | |].
  - intros name. rewrite <- elem_of_dom, Hl. cbn. set_solver.
  - intros name. rewrite lookup_fmap, fmap_is_Some, <- !elem_of_dom. by rewrite Hd.
  - intros name [l Hl']. rewrite connect_links_None in Ec. apply (Ec name l).
    by apply elem_of_range.
  - exists (cl_nextID local). cbn. apply lookup_insert_eq.
  - intros name c. rewrite lookup_fmap. destruct (clients !! name) as [c0|] eqn:E0; [|done].
    intros [= <-]. split; [apply (Hv _ _ E0)|]. exists (cl_nextID c0). apply lookup_insert_eq.
Qed.

(** *** Shutting down *)

(** C25. An orderly shutdown: whatever runs, the agent leaves exactly the channels that
    it is in, each once, and quits after that; every federation link is
    disconnected; no save is left waiting, and when none of the calls fails the state
    file holds the state at that moment. *)
Theorem Shutdown_spec marshal now tmp fault ru sp s fs :
  let st := Shutdown marshal now tmp fault ru sp s fs in
  (∃ channels, st_commands st = (CmdPart <$> channels) ++ [CmdQuit] ∧ NoDup channels ∧
     ∀ ch, ch ∈ channels ↔ is_Some (cl_channels (ru_client ru) !! ch)) ∧
  cl_channels (st_client st) = ∅ ∧
  (∀ name, name ∈ st_unlinked st ↔
     ∃ fm links, ru_federation ru = Some (fm, links) ∧ is_Some (fm_links fm !! name)) ∧
  (∀ sp0, sp = Some sp0 → sp_path sp0 ≠ "" →
     sp_debounce <$> st_persist st = Some false ∧
     ∀ data, marshal (Snapshot now s) = Some data → fault = None →
       st_files st !! sp_path sp0 = Some data).
Proof.
  cbn zeta. unfold Shutdown.
  destruct (match sp with Some _ => _ | None => _ end) as [sp' fs'] eqn:Esp.
  pose proof (leave_all (ru_client ru)) as Hleave.
  destruct (part_all _ _) as [client cmds], Hleave as (Hcmds & Honce & Hnone).
  cbn [fst snd st_commands st_client st_unlinked st_persist st_files] in *.
  split_and!.
  - exists (client_JoinedChannels (ru_client ru)). rewrite Hcmds, disconnect_quits. split_and!; [done|done|].
    intros ch. apply elem_of_range_fst.
  - apply map_empty. intros ch. apply eq_None_not_Some. intros Hch.
    apply (elem_of_range_fst 0) in Hch. change (ch ∈ client_JoinedChannels client) in Hch.
    rewrite Hnone in Hch. by apply not_elem_of_nil in Hch.
  - intros name. destruct (ru_federation ru) as [[fm links]|].
    + unfold fm_Shutdown. rewrite elem_of_range_fst. naive_solver.
    + rewrite elem_of_nil. naive_solver.
  - intros sp0 -> Hpath. unfold Persistence.Close in Esp. rewrite bool_decide_eq_false_2 in Esp by done.
    destruct (Save _ _ _ _ _ _ _) as [fs0 err] eqn:Es. injection Esp as <- <-.
    split; [done|]. intros data Hm ->.
    destruct (Save_ok marshal now (sp0 <| sp_debounce := false |>) s fs tmp data Hpath Hm)
      as (fs1 & Hs & Hd). rewrite Es in Hs. by injection Hs as -> _.
Qed.
End life.

(** ** Concrete runs *)

Definition link_config : IRCConfig := IrcClient.sample_config.

Definition life_config : AppConfig :=
  {| cfg_IRC := link_config; cfg_LogLevel := "info"; cfg_LogFmt := "text";
     cfg_DashboardAddr := ""; cfg_StateFile := "state.json"; cfg_ACLRules := [];
     cfg_Capabilities := ["go"; "rust"]; cfg_DiscoveryTTL := 60 * second;
     cfg_FederationServers := [{| fs_Name := "eu"; fs_IRC := link_config |}];
     cfg_FederationMappings :=
       [{| cm_LocalChannel := "#dev"; cm_RemoteChannel := "#dev-eu"; cm_LinkName := "eu" |}];
     cfg_OTel := cfg_OTel default_AppConfig; cfg_AgentRole := "";
     cfg_Roles := []; cfg_MaxLoad := 0; cfg_ClaimJitter := 100;
     cfg_MaxReviewIterations := 3 |}.

Definition life_agent : Agent := initProtocol life_config "alice" NewStateStore.
Definition life_client : ircClient := registerHandlers (protocol_Register sample_client).

Lemma life_New : New sample_IRC 0 None life_config NewStateStore = inr (life_agent, life_client).
Proof. reflexivity. Qed.

Lemma New_listens_witness :
  ∀ ev, call_all (table KindMsg life_client) ev ≡ₚ [(h_raw, ev); (h_protocol, ev)].
Proof.
  intros ev. apply (New_listens sample_IRC 0 None life_config NewStateStore life_agent life_client
    KindMsg ev). apply life_New.
Defined.

Lemma first_announcement_is_empty_witness :
  announceCapabilities (λ _ _, 5%Z) life_agent
    (JoinedChannels (re_client (on_welcome "alice" 4 life_client))) = Some (life_agent, []).
Proof.
  apply (first_announcement_is_empty sample_IRC 0 None life_config NewStateStore life_agent
    life_client "alice" 4). apply life_New.
Defined.

(** The announcement of an agent in two channels, read by another agent. *)
Definition heard_event : MessageEvent :=
  {| ev_Channel := "#dev"; ev_Nick := "alice"; ev_User := ""; ev_Host := "";
     ev_Message := "CAPABILITIES expertise=go,rust"; ev_Timestamp := 100; ev_IsNotice := false |}.

Definition listener : ProtocolDispatcher := ag_protocol (initProtocol life_config "bob" NewStateStore).

Lemma heartbeat_keeps_known_witness :
  ∃ cap, cap ∈ KnownAgents (60 * second) (handleMessage ToLower (λ _, 100%Z) "bob" listener heard_event).1 ∧
    ac_Nick cap = "alice" ∧ ac_Expertise cap = ["go"; "rust"].
Proof.
  destruct (heartbeat_keeps_known ToLower (λ _ _, 99%Z) 99 life_agent ["#dev"; "#ops"] (60 * second))
    as (ag' & sent & Ha & _ & _ & _ & H).
  - split_and!; [done|by vm_compute|]. exists []. apply ring_ok_new.
  - by repeat constructor.
  - by vm_compute.
  - right. by vm_compute.
  - apply (H heard_event (λ _, 100%Z) "bob" listener (NewDiscoveryStore (60 * second))
      (handleMessage ToLower (λ _, 100%Z) "bob" listener heard_event).1 (60 * second)%Z);
      [|done|done|done|done|done|reflexivity|by vm_compute].
    assert (sent = [("#dev", ev_Message heard_event); ("#ops", ev_Message heard_event)]) as ->;
      [|by left].
    vm_compute in Ha. injection Ha as _ <-. reflexivity.
Defined.

Lemma startFederation_spec_witness :
  ∃ fm local links,
    startFederation sample_IRC 0 (λ _, None) life_config life_client = inr (fm, local, links) ∧
    is_Some (links !! "eu") ∧ fm_mappings fm = cfg_FederationMappings life_config.
Proof.
  destruct (startFederation sample_IRC 0 (λ _, None) life_config life_client) as [e|[[fm local] links]] eqn:E;
    [vm_compute in E; discriminate|].
  exists fm, local, links. split; [done|].
  destruct (startFederation_spec sample_IRC 0 (λ _, None) life_config life_client fm local links E)
    as (_ & Hm & Hn & Hl & _). split; [|exact Hm]. apply Hl, Hn. by left.
Defined.

Lemma Shutdown_spec_witness :
  let ru := {| ru_client := {| cl_cfg := link_config; cl_conn := cl_conn sample_client;
                 cl_channels := {["#dev" := true]}; cl_limiter := None; cl_backoff := None;
                 cl_nextID := 0; cl_msgHandlers := ∅; cl_joinHandlers := ∅; cl_partHandlers := ∅;
                 cl_kickHandlers := ∅; cl_errHandlers := ∅; cl_connHandlers := ∅;
                 cl_discHandlers := ∅; cl_handlerKinds := ∅ |};
               ru_dashboard := false; ru_federation := None; ru_heartbeat := true |} in
  let st := Shutdown (λ _, Some "{}") 7 "tmp" None ru (Some (NewStatePersistence "state.json" 0))
              NewStateStore ∅ in
  st_commands st = [CmdPart "#dev"; CmdQuit] ∧ st_files st !! "state.json" = Some "{}".
Proof.
  intros ru st. split; [reflexivity|].
  destruct (Shutdown_spec (λ _, Some "{}") 7 "tmp" None ru (Some (NewStatePersistence "state.json" 0))
    NewStateStore ∅) as (_ & _ & _ & H).
  by destruct (H _ eq_refl) as [_ Hf]; [done|apply Hf].
Defined.
