(* ===== verification/Conversations.v ===== *)
(** * Conversations between agents: [internal/agent/agent.go], [protocol.go]

    What a program that embeds an agent registers with it, and what comes of a
    question that one agent asks another: where the answers go, what the asker
    knows afterwards and whom a notification reaches. *)

From S2P Require Import Prelude GoStrings GoNum GoFloat Config Message Parser Serializer Codec.
From S2P Require Import Sanitizer State Dependencies TaskBoard Discovery Context ACL Coordinator.
From S2P Require Import Notifier Role Inspector Metrics Pacing Events IrcClient Dispatcher DispatcherTheory Agent.
From S2P Require Import Replica Convergence AgentTheory Persistence Spawner Lifecycle.

(** ** What a program registers *)

(** The handler is known by the id that the dispatcher gives it. *)
Definition agent_OnProtocolMessage (ag : Agent) : Agent * nat :=
  let '(pd, id) := OnProtocolMessage (ag_protocol ag) in (ag <| ag_protocol := pd |>, id).

Definition on_context (f : ContextStore → ContextStore) (ag : Agent) : Agent :=
  ag <| ag_protocol := ag_protocol ag <| pd_context := f (pd_context (ag_protocol ag)) |> |>.

Definition SubscribeContext (component : string) (ag : Agent) : Agent * nat :=
  (on_context (λ cs, (Subscribe cs component).1) ag,
   (Subscribe (pd_context (ag_protocol ag)) component).2).

Definition UnsubscribeContext (id : nat) (ag : Agent) : Agent :=
  on_context (λ cs, Unsubscribe cs id) ag.

Definition PendingContextRequests (ag : Agent) : list ContextRequest :=
  PendingRequests (pd_context (ag_protocol ag)).

Definition AddNotificationRule (rule : NotificationRule) (ag : Agent) : Agent :=
  ag <| ag_notifier := AddRule (ag_notifier ag) rule |>.

Definition notify_rule (event channel : string) : NotificationRule :=
  {| nr_Event := event; nr_Channel := channel; nr_Formatter := None |}.

Definition NotifyCompletionsTo (channel : string) (ag : Agent) : Agent :=
  AddNotificationRule (notify_rule NotifyTaskCompleted channel) ag.

Definition NotifyBlockedTo (channel : string) (ag : Agent) : Agent :=
  AddNotificationRule (notify_rule NotifyTaskBlocked channel) ag.

Definition NotifyHelpTo (channel : string) (ag : Agent) : Agent :=
  AddNotificationRule (notify_rule NotifyHelpNeeded channel) ag.

(** ** Theorems *)

Section conversations.
Context `{MR : MapRange} `{FO : FloatOverflow}.
Context (lower q : string → string).

(** *** What a dispatch sends and fires *)

Lemma dispatch_handlers clk pd msg : pd_handlers (dispatch lower clk pd msg).1 = pd_handlers pd.
Proof.
  unfold dispatch. destruct (if bool_decide _ then _ else _) as [n acks].
  match goal with
  | |- context [updateCoordinationStores (clk 3) ?p msg] =>
      destruct (coordination_keeps (clk 3) p msg) as (_ & _ & _ & Hh);
      destruct (updateCoordinationStores (clk 3) p msg) as [pd' timer]
  end.
  destruct (match msg_Action msg with ActionContext => _ | _ => _ end) as [[cs calls] sent].
  by destruct (match pd_discovery _ with None => _ | Some _ => _ end) as [ds disc].
Qed.

Lemma local_handlers clk pd msg : pd_handlers (updateLocalState clk pd msg).1 = pd_handlers pd.
Proof.
  unfold updateLocalState.
  destruct (match msg_Action msg with ActionContext => _ | _ => _ end) as [cs calls].
  match goal with
  | |- context [updateCoordinationStores (clk 3) ?p msg] =>
      destruct (coordination_keeps (clk 3) p msg) as (_ & _ & _ & Hh);
      by destruct (updateCoordinationStores (clk 3) p msg) as [pd' timer]
  end.
Qed.

Lemma handle_handlers clk self pd ev : pd_handlers (handleMessage lower clk self pd ev).1 = pd_handlers pd.
Proof.
  unfold handleMessage. destruct (accept_message _ _ _ _); [apply dispatch_handlers|done].
Qed.

(** The parts of a dispatch that a conversation is about. *)
Lemma dispatch_parts clk pd msg :
  let r := dispatch lower clk pd msg in
  let cs := pd_context pd in
  pd_context r.1 = match msg_Action msg with
                   | ActionContext => (Store (clk 4) cs msg).1
                   | ActionSharingContext => StorePayload cs msg
                   | ActionRequestContext => TrackRequest cs msg
                   | _ => cs
                   end ∧
  fx_subscriptions r.2 =
    (if bool_decide (msg_Action msg = ActionContext) then (Store (clk 4) cs msg).2 else []) ∧
  fx_handlers r.2 = (λ id, (id, msg)) <$> elements (pd_handlers pd) ∧
  fx_sent r.2 =
    (if bool_decide (msg_Action msg = ActionCompleted)
     then (OnTaskCompleted (pd_unblockNotifier pd) (update_tasks clk (pd_state pd) msg) msg).2 else []) ++
    (if bool_decide (msg_Action msg = ActionRequestContext)
     then HandleContextRequest (TrackRequest cs msg) msg else []) ++
    (if bool_decide (msg_Action msg = ActionDiscover) && bool_decide (is_Some (pd_discovery pd))
     then handleDiscover lower pd msg else []).
Proof.
  cbn zeta. unfold dispatch.
  destruct (if bool_decide (msg_Action msg = ActionCompleted) then _ else _) as [n acks] eqn:Ea.
  match goal with
  | |- context [updateCoordinationStores (clk 3) ?p msg] =>
      destruct (coordination_keeps (clk 3) p msg) as (Hc & Hs & Hd & Hh);
      destruct (updateCoordinationStores (clk 3) p msg) as [pd' timer]
  end.
  cbn [fst pd_context pd_selfCaps pd_discovery pd_handlers] in Hc, Hs, Hd, Hh.
  rewrite Hc.
  assert (acks = if bool_decide (msg_Action msg = ActionCompleted)
     then (OnTaskCompleted (pd_unblockNotifier pd) (update_tasks clk (pd_state pd) msg) msg).2
     else []) as ->.
  { destruct (bool_decide _); [|by injection Ea as _ <-]. cbn in Ea. by rewrite Ea. }
  clear Ea. cbn [pd_discovery pd_context].
  rewrite Hd. unfold handleDiscover.
  destruct (pd_discovery pd) as [ds|].
  - rewrite (bool_decide_eq_true_2 (is_Some _)) by done. rewrite andb_true_r.
    destruct (msg_Action msg) eqn:Ea;
      repeat first [rewrite bool_decide_eq_true_2 by done|rewrite bool_decide_eq_false_2 by done];
      try destruct (Store (clk 4) (pd_context pd) msg);
      cbn [fst snd pd_context pd_selfCaps pd_handlers fx_subscriptions fx_handlers fx_sent]; rewrite ?Hs, ?Hh; done.
  - rewrite (bool_decide_eq_false_2 (is_Some _)) by (by intros []). rewrite andb_false_r.
    destruct (msg_Action msg) eqn:Ea;
      repeat first [rewrite bool_decide_eq_true_2 by done|rewrite bool_decide_eq_false_2 by done];
      try destruct (Store (clk 4) (pd_context pd) msg);
      cbn [fst snd pd_context pd_selfCaps pd_handlers fx_subscriptions fx_handlers fx_sent]; rewrite ?Hs, ?Hh; done.
Qed.

Lemma accepted_source clk self pd ev msg :
  accept_message clk self pd ev = Some msg →
  msg_Channel msg = ev_Channel ev ∧ msg_Nick msg = ev_Nick ev ∧ ev_Nick ev ≠ self.
Proof.
  unfold accept_message. destruct (negb _); [done|]. case_bool_decide; [done|].
  destruct (Parse _) as [m|]; [|done].
  destruct (pd_acl pd) as [acl|]; [destruct (negb _); [done|]|]; by intros [= <-].
Qed.

(** *** Where the answers go *)

Lemma sent_to_target clk pd msg :
  Forall (λ out, out.1 = reply_target msg) (fx_sent (dispatch lower clk pd msg).2).
Proof.
  destruct (dispatch_parts clk pd msg) as (_ & _ & _ & ->).
  rewrite !Forall_app. split_and!.
  - case_bool_decide; [|constructor]. unfold OnTaskCompleted.
    destruct (negb _); [constructor|]. cbv zeta. case_bool_decide; [constructor|].
    destruct (UnblockedTasks _) as [|t ts]; [constructor|].
    destruct (ack_tasks _ _) as [done_ names]. by apply Forall_fmap, Forall_true.
  - case_bool_decide; [|constructor]. unfold HandleContextRequest. cbv zeta.
    case_bool_decide; [constructor|]. destruct (ctx_Get _ _); [|constructor].
    constructor; [done|]. case_bool_decide; by repeat constructor.
  - destruct (_ && _); [|constructor]. unfold handleDiscover. cbv zeta.
    destruct (_ || _); [constructor|]. destruct (existsb _ _); by repeat constructor.
Qed.

(** Answers stay in the conversation: whatever an agent reads, all that its
    dispatcher sends in answer (acknowledgements, contexts, capabilities) goes to
    the channel that the message came from, and to its sender only when there is
    none. *)
Theorem answers_go_back clk self pd ev target text :
  (target, text) ∈ fx_sent (handleMessage lower clk self pd ev).2 →
  target = if bool_decide (ev_Channel ev = "") then ev_Nick ev else ev_Channel ev.
Proof.
  unfold handleMessage. destruct (accept_message clk self pd ev) as [msg|] eqn:Ea;
    [|by intros H%not_elem_of_nil].
  apply accepted_source in Ea as (Hc & Hn & _). intros Hin.
  pose proof (sent_to_target clk pd msg) as Hall. rewrite Forall_forall in Hall.
  specialize (Hall _ Hin). cbn in Hall. rewrite Hall. unfold reply_target. by rewrite Hc, Hn.
Qed.

(** The client gives a private message the receiver's own nick as its channel: the
    answer to a question that was asked in private goes to the agent itself. *)
Theorem private_answers_are_lost now c e re ev clk self pd target text :
  on_PRIVMSG now c e = Some re → head (ie_Arguments e) = Some self → self ≠ "" →
  (h_protocol, OfMessage ev) ∈ re_calls re →
  (target, text) ∈ fx_sent (handleMessage lower clk self pd ev).2 → target = self.
Proof.
  unfold on_PRIVMSG, message_callback. destruct (ie_Arguments e) as [|ch rest]; [done|].
  intros [= <-] [= ->] Hne. cbn [re_calls].
  intros (kv & [= _ ->] & _)%list_elem_of_fmap Hin%answers_go_back.
  cbn [ev_Channel] in Hin. by rewrite bool_decide_eq_false_2 in Hin.
Qed.

(** *** Asking for a context *)

Definition keyed (cs : ContextStore) : Prop := map_Forall (λ k e, cx_Component e = k) (entries cs).

Lemma keyed_Store now cs msg : keyed cs → keyed (Store now cs msg).1.
Proof.
  intros H. unfold Store. cbv zeta. case_bool_decide; [done|].
  unfold keyed. cbn. by apply map_Forall_insert_2.
Qed.

Lemma keyed_StorePayload cs msg : keyed cs → keyed (StorePayload cs msg).
Proof.
  intros H. unfold StorePayload, keyed. destruct (payload_target _ _) as [key|]; cbn.
  - intros k e. rewrite lookup_alter_Some. intros [(-> & e0 & He0 & ->)|[_ He]]; [|by apply H].
    cbn. by apply (H k e0).
  - by apply map_Forall_insert_2.
Qed.

(** Every message keeps the entries under their names. *)
Lemma keyed_dispatch clk pd msg :
  keyed (pd_context pd) → keyed (pd_context (dispatch lower clk pd msg).1).
Proof.
  intros H. destruct (dispatch_parts clk pd msg) as (-> & _).
  destruct (msg_Action msg); try done; [by apply keyed_Store| |by apply keyed_StorePayload].
  unfold TrackRequest. by case_bool_decide.
Qed.

(** Who reads a question for a component that it has an entry of answers with the
    entry, where the question came from. *)
Lemma request_is_answered clk self pd ev component entry :
  ctx_Get (pd_context pd) component = Some entry → component ≠ "" → value_ok component = true →
  allowed pd (ev_Nick ev) (ev_Channel ev) ActionRequestContext = true →
  ev_Nick ev ≠ self → ev_Channel ev ≠ "" →
  ev_Message ev = Message_String (msg_RequestContext component) →
  ∃ more, fx_sent (handleMessage lower clk self pd ev).2 =
    (ev_Channel ev, Message_String (context_reply entry)) :: more.
Proof.
  intros Hget Hne Hok Hacl Hself Hch Hreq.
  assert (wf_message (msg_RequestContext component) = true) as Hwf.
  { apply wf_literal; [reflexivity|discriminate|by apply fields_ok_singleton|reflexivity]. }
  rewrite (handleMessage_wire lower clk self pd _ ev Hwf Hacl Hself Hreq).
  set (m := received clk _ ev).
  assert (Get m "component" = component) as Gc.
  { unfold Get, m, received. cbn. by rewrite lookup_singleton_eq. }
  destruct (dispatch_parts clk pd m) as (_ & _ & _ & ->).
  change (msg_Action m) with ActionRequestContext.
  rewrite (bool_decide_eq_true_2 (ActionRequestContext = ActionRequestContext)),
    !(bool_decide_eq_false_2 (ActionRequestContext = _)) by done.
  cbn [andb app]. rewrite app_nil_r. unfold HandleContextRequest. rewrite Gc. cbv zeta.
  rewrite (bool_decide_eq_false_2 _ Hne).
  assert (ctx_Get (TrackRequest (pd_context pd) m) component = Some entry) as ->
    by (unfold TrackRequest; by case_bool_decide).
  unfold reply_target. change (msg_Channel m) with (ev_Channel ev). rewrite (bool_decide_eq_false_2 _ Hch).
  eexists. reflexivity.
Qed.

(** Who reads the answer knows the component, and tells its subscribers. *)
Lemma reply_is_known clk self pd ev entry :
  cx_Component entry ≠ "" →
  forallb value_ok [cx_Component entry; cx_Project entry; cx_Status entry] = true →
  allowed pd (ev_Nick ev) (ev_Channel ev) ActionContext = true →
  ev_Nick ev ≠ self → ev_Message ev = Message_String (context_reply entry) →
  let r := handleMessage lower clk self pd ev in
  ∃ known, ctx_Get (pd_context r.1) (cx_Component entry) = Some known ∧
    cx_Component known = cx_Component entry ∧ cx_Project known = cx_Project entry ∧
    cx_Status known = cx_Status entry ∧ cx_SharedBy known = ev_Nick ev ∧
    NoDup (fx_subscriptions r.2).*1 ∧
    ∀ id e, (id, e) ∈ fx_subscriptions r.2 ↔
      subscriptions (pd_context pd) !! id = Some (cx_Component entry) ∧ e = known.
Proof.
  intros Hne Hok Hacl Hself Htext. cbn in Hok. rewrite !andb_true_iff in Hok. destruct Hok as (H1 & H2 & H3 & _).
  assert (wf_message (context_reply entry) = true) as Hwf.
  { apply wf_literal; [reflexivity|discriminate| |reflexivity].
    apply fields_ok_opt; [reflexivity|exact H3|]. apply fields_ok_opt; [reflexivity|exact H2|].
    apply fields_ok_singleton; [reflexivity|exact H1]. }
  cbn zeta. rewrite (handleMessage_wire lower clk self pd _ ev Hwf Hacl Hself Htext).
  set (m := received clk _ ev).
  assert (Get m "component" = cx_Component entry ∧ Get m "project" = cx_Project entry ∧
    Get m "status" = cx_Status entry) as (Gc & Gp & Gs).
  { unfold Get, m, received, context_reply. cbn. split_and!.
    - rewrite !lookup_opt_field_ne by done. by rewrite lookup_singleton_eq.
    - rewrite lookup_opt_field_ne by done. apply Get_opt_field. by rewrite lookup_singleton_ne.
    - apply Get_opt_field. rewrite lookup_opt_field_ne by done. by rewrite lookup_singleton_ne. }
  destruct (dispatch_parts clk pd m) as (-> & -> & _).
  change (msg_Action m) with ActionContext. cbn [bool_decide].
  rewrite (bool_decide_eq_true_2 (ActionContext = ActionContext)) by done.
  unfold Store. rewrite Gc, (bool_decide_eq_false_2 _ Hne). cbv zeta. cbn [fst snd].
  match goal with |- context [fireSubscriptions ?cs ?c ?e] =>
    destruct (fireSubscriptions_spec cs c e) as [Hnd Hcalls] end.
  exists (new_entry (cx_Component entry) m). split; [apply lookup_insert_eq|].
  split_and!; [done|exact Gp|exact Gs|done|exact Hnd|exact Hcalls].
Qed.

(** C11. A question and its answer: when an agent asks a channel for a component that
    another one has an entry of, the other one answers, to the same channel and before
    anything else that it sends; whoever reads this answer, the asker or not, then has
    the component with its project and status, as shared by the one who answered, and
    its subscribers of the component are called with it, each once, and nobody else.
    The access rules of the one who answers let the asker ask there, those of the
    reader let the other one share contexts there, and the component, which is not
    empty, the project and the status are values that can be written (as in C3). *)
Theorem context_request_answered clk ag ag' fx channel component self clk1 pd ev entry :
  RequestContext clk ag channel component = Sent ag' fx → fx_sent fx = [(ev_Channel ev, ev_Message ev)] →
  keyed (pd_context pd) → ctx_Get (pd_context pd) component = Some entry → component ≠ "" →
  forallb value_ok [component; cx_Project entry; cx_Status entry] = true →
  allowed pd (ev_Nick ev) channel ActionRequestContext = true →
  ev_Nick ev ≠ self → ev_Channel ev ≠ "" →
  ∃ text more, fx_sent (handleMessage lower clk1 self pd ev).2 = (channel, text) :: more ∧
    ∀ ev2 self2 clk2 pd2,
      ev_Message ev2 = text → ev_Nick ev2 ≠ self2 →
      allowed pd2 (ev_Nick ev2) (ev_Channel ev2) ActionContext = true →
      let r := handleMessage lower clk2 self2 pd2 ev2 in
      ∃ answered, ctx_Get (pd_context r.1) component = Some answered ∧
        cx_Component answered = component ∧ cx_Project answered = cx_Project entry ∧
        cx_Status answered = cx_Status entry ∧ cx_SharedBy answered = ev_Nick ev2 ∧
        NoDup (fx_subscriptions r.2).*1 ∧
        ∀ id e, (id, e) ∈ fx_subscriptions r.2 ↔
          subscriptions (pd_context pd2) !! id = Some component ∧ e = answered.
Proof.
  intros Hsend Hev Hkeyed Hget Hne Hok Hacl Hself Hch.
  apply sent_one in Hsend. rewrite Hsend in Hev. injection Hev as -> Hreq.
  assert (cx_Component entry = component) as <- by by apply (Hkeyed component entry).
  destruct (request_is_answered clk1 self pd ev _ entry Hget Hne) as [more Hmore]; try done.
  { by apply andb_prop in Hok as [? _]. }
  rewrite Hmore. eexists _, _. split; [reflexivity|].
  intros ev2 self2 clk2 pd2 Htext Hself2 Hacl2. by apply reply_is_known.
Qed.

(** An agent that answers a request itself never marks it as fulfilled: the request
    stays among its pending ones, and after a while among those that timed out. *)
Theorem answered_stays_pending clk self pd ev msg entry timeout now :
  accept_message clk self pd ev = Some msg → msg_Action msg = ActionRequestContext →
  ctx_Get (pd_context pd) (Get msg "component") = Some entry → Get msg "component" ≠ "" →
  let r := handleMessage lower clk self pd ev in
  fx_sent r.2 ≠ [] ∧
  ∃ req, cr_RequestedBy req = ev_Nick ev ∧ cr_Component req = Get msg "component" ∧
    req ∈ PendingRequests (pd_context r.1) ∧
    ((msg_Timestamp msg + timeout < now)%Z → req ∈ TimedOutRequests now (pd_context r.1) timeout).
Proof.
  intros Ha Hact Hget Hne. cbn zeta. unfold handleMessage. rewrite Ha.
  apply accepted_source in Ha as (_ & Hn & _).
  destruct (dispatch_parts clk pd msg) as (-> & _ & _ & ->). rewrite Hact.
  rewrite (bool_decide_eq_true_2 (ActionRequestContext = ActionRequestContext)),
    !(bool_decide_eq_false_2 (ActionRequestContext = _)) by done.
  unfold TrackRequest. rewrite (bool_decide_eq_false_2 _ Hne). split.
  - cbn [andb app]. rewrite app_nil_r. unfold HandleContextRequest.
    rewrite (bool_decide_eq_false_2 _ Hne).
    match goal with |- context [ctx_Get ?c _] => change (ctx_Get c (Get msg "component")) with
      (ctx_Get (pd_context pd) (Get msg "component")) end.
    by rewrite Hget.
  - eexists {| cr_Component := _; cr_RequestedBy := _; cr_Channel := _; cr_RequestedAt := _;
               cr_Fulfilled := false; cr_FulfilledAt := _ |}.
    split; [exact Hn|]. split; [reflexivity|]. split.
    + unfold PendingRequests. apply elem_of_filter_bool. split; [|reflexivity].
      cbn [ctx_requests]. apply elem_of_app. right. by apply list_elem_of_singleton.
    + intros Ht. unfold TimedOutRequests. apply elem_of_filter_bool. split.
      * cbn [ctx_requests]. apply elem_of_app. right. by apply list_elem_of_singleton.
      * cbn [cr_Fulfilled cr_RequestedAt negb andb]. apply Z.ltb_lt. lia.
Qed.

(** *** Looking for an expert *)

Definition asked_for (expertise : string) (caps : list string) : Prop :=
  ∃ cap, cap ∈ caps ∧ lower cap = lower expertise.

(** C12. Who looks for an expertise finds those who have it: an agent with a matching
    capability, in whatever case, answers in the channel with all its capabilities,
    and whoever reads the answer lists it with exactly these until the entry
    expires. An agent without a match does not answer. The expertise is one that can
    be written and is not empty; the access rules of the agent let the asker look
    there, and those of the reader let the agent announce its capabilities; the
    capabilities hold no commas and outer blanks and can be written as one value, and
    the answer arrives with a time. *)
Theorem discover_finds clk ag ag' fx channel expertise self clk1 pd ds1 ev :
  Discover clk ag channel expertise = Sent ag' fx → fx_sent fx = [(ev_Channel ev, ev_Message ev)] →
  lower expertise ≠ "" → value_ok expertise = true →
  allowed pd (ev_Nick ev) channel ActionDiscover = true →
  pd_discovery pd = Some ds1 → ev_Nick ev ≠ self → ev_Channel ev ≠ "" →
  let answers := fx_sent (handleMessage lower clk1 self pd ev).2 in
  (¬ asked_for expertise (pd_selfCaps pd) → answers = []) ∧
  (asked_for expertise (pd_selfCaps pd) → Forall item_ok (pd_selfCaps pd) →
   value_ok (Join (pd_selfCaps pd) ",") = true →
   ∃ text, answers = [(channel, text)] ∧
     ∀ ev2 clk2 self2 pd2 ds2 t,
       ev_Message ev2 = text → ev_Nick ev2 ≠ self2 → ev_Timestamp ev2 ≠ 0%Z →
       allowed pd2 (ev_Nick ev2) (ev_Channel ev2) ActionCapabilities = true →
       pd_discovery pd2 = Some ds2 → (t ≤ ev_Timestamp ev2 + ds_ttl ds2)%Z →
       listed (ev_Nick ev2) t (pd_selfCaps pd) (handleMessage lower clk2 self2 pd2 ev2).1).
Proof.
  intros Hsend Hev Hlow Hval Hacl Hds1 Hself Hch.
  apply sent_one in Hsend. rewrite Hsend in Hev. injection Hev as Hchan Hreq.
  assert (wf_message (msg_Discover expertise) = true) as Hwf.
  { apply wf_literal; [reflexivity|discriminate|by apply fields_ok_singleton|reflexivity]. }
  rewrite Hchan in Hacl.
  rewrite (handleMessage_wire lower clk1 self pd _ ev Hwf Hacl Hself (eq_sym Hreq)).
  set (m := received clk1 _ ev).
  assert (Get m "expertise" = expertise) as Ge.
  { unfold Get, m, received. cbn. by rewrite lookup_singleton_eq. }
  assert (reply_target m = channel) as Hrt.
  { unfold reply_target. change (msg_Channel m) with (ev_Channel ev).
    by rewrite (bool_decide_eq_false_2 _ Hch). }
  destruct (dispatch_parts clk1 pd m) as (_ & _ & _ & ->).
  assert (msg_Action m = ActionDiscover) as -> by reflexivity.
  rewrite (bool_decide_eq_true_2 (ActionDiscover = ActionDiscover)),
    !(bool_decide_eq_false_2 (ActionDiscover = _)), Hds1, (bool_decide_eq_true_2 (is_Some _)) by done.
  cbn [andb app]. unfold handleDiscover. rewrite Ge, Hrt, (bool_decide_eq_false_2 _ Hlow). cbn [orb].
  assert (existsb (λ cap, bool_decide (lower cap = lower expertise)) (pd_selfCaps pd) = true
    ↔ asked_for expertise (pd_selfCaps pd)) as Hex.
  { rewrite existsb_exists. setoid_rewrite bool_decide_eq_true. unfold asked_for.
    by setoid_rewrite list_elem_of_In. }
  split.
  - intros Hno. destruct (bool_decide (pd_selfCaps pd = [])); [done|].
    destruct (existsb _ _); [|done]. destruct Hno. by apply Hex.
  - intros Hyes Hitems Hval2.
    assert (pd_selfCaps pd ≠ []) as Hcaps.
    { destruct Hyes as (cap & Hin & _). intros E. rewrite E in Hin. exact (not_elem_of_nil _ Hin). }
    rewrite (bool_decide_eq_false_2 _ Hcaps). apply Hex in Hyes as ->.
    eexists. split; [reflexivity|].
    intros ev2 clk2 self2 pd2 ds2 t Htext Hself2 Hts Hacl2 Hds2 Ht.
    by apply (announcement_listed lower clk2 self2 pd2 ds2 ev2 (pd_selfCaps pd)).
Qed.

(** *** Running on and on *)

(** The log is intact, and the handlers that [initProtocol] registers are there. *)
Definition running (ag : Agent) : Prop :=
  (∃ h, ring_ok (ag_inspector ag) h) ∧ 0 ∈ pd_handlers (ag_protocol ag).

Lemma send_running clk ag target msg :
  running ag →
  match SendProtocolMessage clk ag target msg with
  | Sent ag' _ => running ag'
  | SendPanic => False
  | _ => True
  end.
Proof.
  intros [[h Hring] Hh]. unfold SendProtocolMessage. destruct (Sanitize msg); [done|].
  destruct (match pd_acl _ with Some _ => _ | None => _ end); [done|].
  set (m := local_message clk (ag_nick ag) target msg).
  pose proof (local_handlers clk (ag_protocol ag) m) as Hh'.
  destruct (updateLocalState _ _ _) as [pd fx]. cbn [fst] in Hh'.
  destruct (ring_ok_record _ _ (log_entry m "out" (Message_String msg)) Hring) as (d & Hd & Hok).
  destruct (dirty_out _); unfold Agent.MarkDirty; cbn [ag_inspector]; rewrite Hd;
    (split; [by eexists|cbn; by rewrite Hh']).
Qed.

Lemma send_responses_running clk channel l ag sent :
  running ag →
  ∃ ag' more, foldl (send_response clk channel) (Some (ag, sent)) l = Some (ag', sent ++ more) ∧
    running ag'.
Proof.
  revert ag sent. induction l as [|ir l IH]; intros ag sent Hr.
  { exists ag, []. by rewrite app_nil_r. }
  cbn [foldl]. unfold send_response at 2.
  pose proof (send_running (clk ir.1) ag channel ir.2 Hr) as Hs.
  destruct (SendProtocolMessage (clk ir.1) ag channel ir.2) as [ag1 fx|?|? ?|]; [|by apply IH..|done].
  destruct (IH ag1 (sent ++ fx_sent fx) Hs) as (ag' & more & -> & Hr').
  exists ag', (fx_sent fx ++ more). by rewrite app_assoc.
Qed.

(** The notifier's texts go out first, whatever the roles answer. *)
Lemma run_handlers_running clk ag msg :
  running ag → ∃ ag' more,
    run_handlers q clk ag msg = Some (ag', nt_HandleMessage q (ag_notifier ag) msg ++ more) ∧
    running ag'.
Proof.
  intros [[h Hring] Hh]. unfold run_handlers. cbn [ag_inspector].
  match goal with |- context [RecordMessage _ ?e] =>
    destruct (ring_ok_record _ _ e Hring) as (d & -> & Hok) end.
  assert (∀ ag1, ag_inspector ag1 = d → ag_protocol ag1 = ag_protocol ag → running ag1) as Hr1.
  { intros ag1 <- Ep. unfold running. rewrite Ep. split; [by eexists|exact Hh]. }
  destruct (tracked (msg_Action msg)); unfold Agent.MarkDirty; cbn [ag_roleEngine].
  all: destruct (ag_roleEngine ag) as [re|];
    [by apply send_responses_running, Hr1|
     eexists _, []; rewrite app_nil_r; split; [done|by apply Hr1]].
Qed.

Lemma on_message_running clk ag ev :
  running ag →
  ∃ ag' sent, on_message lower q clk ag ev = Some (ag', sent) ∧ running ag' ∧
    ∀ msg, accept_message (clk 0) (ag_nick ag) (ag_protocol ag) ev = Some msg →
      ∀ out, out ∈ nt_HandleMessage q (ag_notifier ag) msg → out ∈ sent.
Proof.
  intros [[h Hring] Hh]. unfold on_message.
  pose proof (handle_handlers (clk 0) (ag_nick ag) (ag_protocol ag) ev) as Hh'.
  unfold handleMessage in *.
  destruct (accept_message _ _ _ _) as [msg|]; cycle 1.
  { eexists _, _. split; [done|]. split; [|done]. split; [by eexists|exact Hh]. }
  destruct (dispatch_parts (clk 0) (ag_protocol ag) msg) as (_ & _ & Hfx & _).
  destruct (dispatch _ _ _ _) as [pd fx]. cbn [fst snd] in *. rewrite Hfx.
  destruct (elements (pd_handlers (ag_protocol ag))) as [|id ids] eqn:Eids.
  { apply elem_of_elements in Hh. rewrite Eids in Hh. by apply not_elem_of_nil in Hh. }
  cbn [fmap list_fmap].
  destruct (run_handlers_running (λ i, clk (S i)) (ag <| ag_protocol := pd |>) msg) as (ag' & more & -> & Hr').
  { split; [by eexists|]. cbn. by rewrite Hh'. }
  eexists _, _. split; [done|]. split; [exact Hr'|].
  intros m [= <-] out Hin. apply elem_of_app. right. apply elem_of_app. by left.
Qed.

Lemma announce_running clk ag channels :
  running ag → ∃ ag' sent, announceCapabilities clk ag channels = Some (ag', sent) ∧ running ag'.
Proof.
  intros Hr. unfold announceCapabilities. case_bool_decide as H; [by eexists _, _|]. clear H.
  generalize (imap pair channels) as l, (@nil (string * string)) as sent. intros l. revert ag Hr.
  induction l as [|ich l IH]; intros ag Hr sent; [by eexists _, _|].
  cbn [foldl]. unfold announce_to at 2.
  match goal with |- context [SendProtocolMessage ?c ?a ?t ?m] =>
    pose proof (send_running c a t m Hr) as Hs;
    destruct (SendProtocolMessage c a t m) as [ag1 fx|?|? ?|] end; [by apply IH|by apply IH|by apply IH|done].
Qed.

Lemma tick_running clk now ag channels :
  running ag → ∃ ag' sent, heartbeat_tick clk now ag channels = Some (ag', sent) ∧ running ag'.
Proof.
  intros Hr. unfold heartbeat_tick.
  destruct (announce_running clk ag channels Hr) as (ag1 & sent & -> & [Hring Hh]).
  cbn. eexists _, _. split; [reflexivity|]. by split.
Qed.

(** What can happen to an agent: messages of any content, sends, heartbeats,
    registrations. *)
Inductive agent_step : relation Agent :=
| step_message clk ev ag ag' sent :
    on_message lower q clk ag ev = Some (ag', sent) → agent_step ag ag'
| step_send clk target msg ag ag' fx :
    SendProtocolMessage clk ag target msg = Sent ag' fx → agent_step ag ag'
| step_heartbeat clk now ag channels ag' sent :
    heartbeat_tick clk now ag channels = Some (ag', sent) → agent_step ag ag'
| step_rule rule ag : agent_step ag (AddNotificationRule rule ag)
| step_subscribe component ag : agent_step ag (SubscribeContext component ag).1
| step_unsubscribe id ag : agent_step ag (UnsubscribeContext id ag)
| step_handler ag : agent_step ag (agent_OnProtocolMessage ag).1.

Lemma agent_step_running ag ag' : running ag → agent_step ag ag' → running ag'.
Proof.
  intros Hr Hstep. revert Hr.
  destruct Hstep as [clk ev ag0 ag1 sent H|clk target msg ag0 ag1 fx H|
    clk now ag0 channels ag1 sent H|rule ag0|component ag0|id ag0|ag0]; intros Hr.
  - destruct (on_message_running clk ag0 ev Hr) as (ag2 & sent2 & H2 & Hr2 & _).
    rewrite H in H2. by injection H2 as -> _.
  - pose proof (send_running clk ag0 target msg Hr) as Hs. by rewrite H in Hs.
  - destruct (tick_running clk now ag0 channels Hr) as (ag2 & sent2 & H2 & Hr2).
    rewrite H in H2. by injection H2 as -> _.
  - exact Hr.
  - exact Hr.
  - exact Hr.
  - destruct Hr as [Hring Hh]. split; [exact Hring|]. cbn. set_solver.
Qed.

Lemma initProtocol_running cfg nick loaded : running (initProtocol cfg nick loaded).
Proof.
  split; [exists []; apply ring_ok_new|]. unfold initProtocol. cbn [ag_protocol pd_handlers].
  apply elem_of_list_to_set, elem_of_seq. lia.
Qed.

Lemma reachable_running cfg nick loaded ag :
  rtc agent_step (initProtocol cfg nick loaded) ag → running ag.
Proof.
  intros H. eapply (rtc_invariant agent_step running); [apply agent_step_running| |exact H].
  apply initProtocol_running.
Qed.

(** C10. An agent does not panic: in every state that it reaches from any configuration
    and any loaded state, by messages of any content from anyone, sends, heartbeats
    and registrations in any order, the next message, send, heartbeat or look at
    the message log runs to its end. *)
Theorem agent_never_panics cfg nick loaded ag :
  rtc agent_step (initProtocol cfg nick loaded) ag →
  (∀ clk ev, is_Some (on_message lower q clk ag ev)) ∧
  (∀ clk target msg, SendProtocolMessage clk ag target msg ≠ SendPanic) ∧
  (∀ clk now channels, is_Some (heartbeat_tick clk now ag channels)) ∧
  (∀ n, is_Some (RecentMessages (ag_inspector ag) n)).
Proof.
  intros Hr%reachable_running. split_and!.
  - intros clk ev. destruct (on_message_running clk ag ev Hr) as (? & ? & -> & _). by eexists.
  - intros clk target msg E. pose proof (send_running clk ag target msg Hr) as Hs. by rewrite E in Hs.
  - intros clk now channels. destruct (tick_running clk now ag channels Hr) as (? & ? & -> & _). by eexists.
  - intros n. destruct Hr as [[h Hring] _]. rewrite (RecentMessages_ring _ _ n Hring). by eexists.
Qed.

(** A rule brings its notifications: in every state that an agent reaches, a message
    that it accepts is announced in the channel of each rule for the message's event,
    with the text of the rule, unless that is empty. *)
Theorem rules_notify cfg nick loaded ag clk ev msg rule :
  rtc agent_step (initProtocol cfg nick loaded) ag →
  accept_message (clk 0) (ag_nick ag) (ag_protocol ag) ev = Some msg →
  rule ∈ Rules (ag_notifier ag) → nr_Event rule = message_event msg → message_event msg ≠ "" →
  rule_text q rule (message_event msg) msg ≠ "" →
  ∃ ag' sent, on_message lower q clk ag ev = Some (ag', sent) ∧
    (nr_Channel rule, rule_text q rule (message_event msg) msg) ∈ sent.
Proof.
  intros Hr%reachable_running Ha Hrule Hev Hne Htext.
  destruct (on_message_running clk ag ev Hr) as (ag' & sent & -> & _ & Hsent).
  exists ag', sent. split; [done|]. apply (Hsent msg Ha). unfold nt_HandleMessage. cbv zeta.
  rewrite (bool_decide_eq_false_2 _ Hne). apply list_elem_of_bind.
  exists rule. rewrite (bool_decide_eq_false_2 _ Htext). split; [by left|].
  apply elem_of_filter_bool. by rewrite bool_decide_eq_true.
Qed.
End conversations.

(** ** Concrete conversations *)

(** Bob asks #dev for a component that alice has announced. *)
Definition alice_contexts : ContextStore :=
  (Store 5 NewContextStore (context_message "alice" "api" "")).1.

Definition plain_pd (cs : ContextStore) : ProtocolDispatcher := NewProtocolDispatcher NewStateStore cs.

Definition dev_event (nick text : string) : MessageEvent :=
  {| ev_Channel := "#dev"; ev_Nick := nick; ev_User := ""; ev_Host := ""; ev_Message := text;
     ev_Timestamp := 100; ev_IsNotice := false |}.

Definition question : MessageEvent := dev_event "bob" "REQUEST-CONTEXT component=api".
Definition answer : MessageEvent :=
  dev_event "alice" ("CONTEXT component=api status=" +:+ qt +:+ "in review" +:+ qt).

Lemma answers_go_back_witness :
  ∀ out, out ∈ fx_sent (handleMessage ToLower (λ _, 9%Z) "alice" (plain_pd alice_contexts) question).2 →
    out.1 = "#dev".
Proof.
  intros [target text] H.
  exact (answers_go_back ToLower (λ _, 9%Z) "alice" (plain_pd alice_contexts) question target text H).
Defined.

Definition asker : Agent := initProtocol sample_config "bob" NewStateStore.

Definition bob_subscribed : ProtocolDispatcher :=
  ag_protocol (SubscribeContext "api" asker).1.

Lemma context_request_answered_witness :
  let r := handleMessage ToLower (λ _, 9%Z) "bob" bob_subscribed answer in
  ∃ known, ctx_Get (pd_context r.1) "api" = Some known ∧ cx_Status known = "in review" ∧
    (0, known) ∈ fx_subscriptions r.2.
Proof.
  destruct (context_request_answered ToLower (λ _, 9%Z) asker
    (sent_agent (RequestContext (λ _, 9%Z) asker "#dev" "api") asker).1
    (sent_agent (RequestContext (λ _, 9%Z) asker "#dev" "api") asker).2 "#dev" "api" "alice"
    (λ _, 9%Z) (plain_pd alice_contexts) question (new_entry "api" (context_message "alice" "api" "")))
    as (text & more & Hans & H).
  - vm_compute. reflexivity.
  - vm_compute. reflexivity.
  - apply keyed_Store. apply map_Forall_empty.
  - reflexivity.
  - discriminate.
  - reflexivity.
  - reflexivity.
  - discriminate.
  - discriminate.
  - vm_compute in Hans. injection Hans as <- _.
    destruct (H answer "bob" (λ _, 9%Z) bob_subscribed) as (known & Hk & _ & _ & Hs & _ & _ & Hsub);
      [reflexivity|discriminate|reflexivity|].
    exists known. split; [exact Hk|]. split; [exact Hs|].
    apply Hsub. split; reflexivity.
Defined.

Definition expert : ProtocolDispatcher := ag_protocol (initProtocol sample_config "alice" NewStateStore).

Lemma discover_finds_witness :
  listed "alice" 300 ["go"] (handleMessage ToLower (λ _, 9%Z) "bob" (ag_protocol asker)
    (dev_event "alice" "CAPABILITIES expertise=go")).1.
Proof.
  destruct (discover_finds ToLower (λ _, 9%Z) asker
    (sent_agent (Discover (λ _, 9%Z) asker "#dev" "Go") asker).1
    (sent_agent (Discover (λ _, 9%Z) asker "#dev" "Go") asker).2 "#dev" "Go" "alice"
    (λ _, 9%Z) expert (NewDiscoveryStore 0) (dev_event "bob" "DISCOVER expertise=Go"))
    as [_ H]; [vm_compute; reflexivity|vm_compute; reflexivity|discriminate|reflexivity|reflexivity|
      reflexivity|discriminate|discriminate|].
  destruct H as (text & Ht & H).
  - exists "go". split; [by left|reflexivity].
  - by repeat constructor.
  - reflexivity.
  - apply (H (dev_event "alice" "CAPABILITIES expertise=go") (λ _, 9%Z) "bob" (ag_protocol asker)
      (NewDiscoveryStore 0) 300%Z); [|discriminate|discriminate|reflexivity|reflexivity|vm_compute; discriminate].
    vm_compute in Ht. injection Ht as <-. reflexivity.
Defined.

(** Bob has a rule for completions, gets a message, and then the completion. *)
Definition bob_notified : Agent := NotifyCompletionsTo "#news" asker.

Definition completion : MessageEvent := dev_event "alice" "COMPLETED task=build".

Lemma bob_notified_reachable :
  rtc (agent_step ToLower id) (initProtocol sample_config "bob" NewStateStore) bob_notified.
Proof. apply rtc_once, step_rule. Qed.

Lemma agent_never_panics_witness : is_Some (on_message ToLower id (λ _ _, 9%Z) bob_notified completion).
Proof.
  destruct (agent_never_panics ToLower id sample_config "bob" NewStateStore bob_notified
    bob_notified_reachable) as [H _]. exact (H (λ _ _, 9%Z) completion).
Defined.

Lemma rules_notify_witness :
  ∃ ag' sent, on_message ToLower id (λ _ _, 9%Z) bob_notified completion = Some (ag', sent) ∧
    ("#news", "[COMPLETED] alice completed task build in #dev") ∈ sent.
Proof.
  destruct (rules_notify ToLower id sample_config "bob" NewStateStore bob_notified (λ _ _, 9%Z) completion
    {| msg_Action := ActionCompleted; msg_Fields := {["task" := "build"]}; msg_Tags := [];
       msg_Payload := ""; msg_Channel := "#dev"; msg_Nick := "alice"; msg_Timestamp := 100 |}
    (notify_rule NotifyTaskCompleted "#news") bob_notified_reachable) as (ag' & sent & Hm & Hs);
    [vm_compute; reflexivity|by left|reflexivity|discriminate|discriminate|].
  exists ag', sent. split; [exact Hm|exact Hs].
Defined.
