(* ===== verification/Network.v ===== *)
(** * A network of agents

    Agents that are connected to one server: what one of them sends to a channel is
    delivered to the others in it, whose answers are sent and delivered in turn, in
    any order. Who gets a message is an argument; [MockServer] is a server that
    delivers so. [examples/multi-agent/main.go] is such a network with a script. *)

From Stdlib Require Import Wellfounded Relation_Operators.
From S2P Require Import Prelude GoStrings GoNum GoFloat Config Message Parser Serializer Codec.
From S2P Require Import Sanitizer State TaskBoard Discovery Context ACL Coordinator.
From S2P Require Import Notifier Role Inspector Metrics Pacing Events IrcClient Dispatcher Agent.
From S2P Require Import Replica Convergence AgentTheory Persistence Spawner Lifecycle Conversations.

(** A message on its way to one agent. *)
Record Delivery := {
  dl_to : string;
  dl_event : MessageEvent
}.

(** The agents, what is on its way, and all that was sent, by whom, to whom. *)
Record Network := {
  nw_team : gmap string Agent;
  nw_flight : list Delivery;
  nw_said : list (string * (string * string))
}.

Section network.
Context `{MR : MapRange} `{FO : FloatOverflow}.
Context (lower q : string → string).
(** Who gets what a nick sends to a target. *)
Context (members : string → string → list string).

Definition fan_out (now : Time) (from : string) (out : string * string) : list Delivery :=
  (λ to, {| dl_to := to;
            dl_event := {| ev_Channel := out.1; ev_Nick := from; ev_User := ""; ev_Host := "";
                           ev_Message := out.2; ev_Timestamp := now; ev_IsNotice := false |} |})
    <$> members from out.1.

(** One message arrives, whichever of those on their way. *)
Inductive net_step : relation Network :=
| net_deliver clk now i to ev ag ag' sent team flight said :
    flight !! i = Some {| dl_to := to; dl_event := ev |} → team !! to = Some ag →
    on_message lower q clk ag ev = Some (ag', sent) →
    net_step {| nw_team := team; nw_flight := flight; nw_said := said |}
             {| nw_team := <[to := ag']> team;
                nw_flight := delete i flight ++ (sent ≫= fan_out now to);
                nw_said := said ++ (pair to <$> sent) |}
| net_nobody i d team flight said :
    flight !! i = Some d → team !! dl_to d = None →
    net_step {| nw_team := team; nw_flight := flight; nw_said := said |}
             {| nw_team := team; nw_flight := delete i flight; nw_said := said |}.

(** ** How far an answer can lead *)

(** A review request is answered by the completion of the review, that by the start
    of a merge, and that by nothing; the other questions are answered once. *)
Definition action_rank (a : Action) : nat :=
  match a with
  | ActionReviewRequest => 3
  | ActionReviewComplete | ActionCompleted | ActionEscalate | ActionRequestContext
  | ActionDiscover => 2
  | _ => 1
  end.

Definition text_rank (text : string) : nat :=
  if IsProtocolMessage text then
    match Parse text with inl m => action_rank (msg_Action m) | inr _ => 0 end
  else 0.

Lemma text_rank_String m :
  Valid (msg_Action m) = true → text_rank (Message_String m) ≤ action_rank (msg_Action m).
Proof.
  intros Ha. unfold text_rank. rewrite IsProtocolMessage_text by done.
  destruct (IsProtocolMessage_spec (Message_String m)) as [_ H].
  specialize (H _ Ha (first_word_String m Ha)).
  destruct (Parse (Message_String m)) as [m'|]; [by rewrite H|lia].
Qed.

Lemma accepted_rank clk self pd ev msg :
  accept_message clk self pd ev = Some msg → text_rank (ev_Message ev) = action_rank (msg_Action msg).
Proof.
  unfold accept_message, text_rank. destruct (IsProtocolMessage _); [|done]. cbn [negb].
  case_bool_decide; [done|]. destruct (Parse _) as [m|]; [|done].
  destruct (pd_acl pd) as [acl|]; [destruct (negb _); [done|]|]; by intros [= <-].
Qed.

Definition answers (a : Action) (out : string * string) : Prop :=
  text_rank out.2 < action_rank a.

Lemma answers_String a target m :
  Valid (msg_Action m) = true → action_rank (msg_Action m) < action_rank a →
  answers a (target, Message_String m).
Proof. intros Ha Hlt. unfold answers. cbn. pose proof (text_rank_String m Ha). lia. Qed.

Lemma dispatch_answers clk pd msg :
  Forall (answers (msg_Action msg)) (fx_sent (dispatch lower clk pd msg).2).
Proof.
  destruct (dispatch_parts lower clk pd msg) as (_ & _ & _ & ->). rewrite !Forall_app. split_and!.
  - case_bool_decide as Ha; [|constructor]. rewrite Ha. unfold OnTaskCompleted.
    destruct (negb _); [constructor|]. cbv zeta. case_bool_decide; [constructor|].
    destruct (UnblockedTasks _) as [|t ts]; [constructor|].
    destruct (ack_tasks _ _) as [done_ names]. apply Forall_fmap, Forall_true.
    intros name. apply answers_String; [done|cbn; lia].
  - case_bool_decide as Ha; [|constructor]. rewrite Ha. unfold HandleContextRequest. cbv zeta.
    case_bool_decide; [constructor|]. destruct (ctx_Get _ _); [|constructor].
    constructor; [apply answers_String; [done|cbn; lia]|].
    case_bool_decide; [constructor|]. constructor; [|constructor]. apply answers_String; [done|cbn; lia].
  - case_bool_decide as Ha; [|constructor]. destruct (bool_decide _); [|constructor]. cbn [andb].
    rewrite Ha. unfold handleDiscover. cbv zeta.
    destruct (_ || _); [constructor|]. destruct (existsb _ _); [|constructor].
    constructor; [|constructor]. apply answers_String; [done|cbn; lia].
Qed.

(** Notifications are no protocol messages. *)
Definition plain_rules (n : Notifier) : bool :=
  forallb (λ r, match nr_Formatter r with Some _ => false | None => true end) (Rules n).

Lemma notes_answer n msg :
  plain_rules n = true → Forall (answers (msg_Action msg)) (nt_HandleMessage q n msg).
Proof.
  intros Hn. apply Forall_forall. intros [target text] Hin. unfold answers, text_rank. cbn [snd].
  assert (message_event msg ≠ "") as Hne.
  { intros E. unfold nt_HandleMessage in Hin. cbv zeta in Hin.
    rewrite (bool_decide_eq_true_2 _ E) in Hin. by apply not_elem_of_nil in Hin. }
  destruct (notifications_spec q n msg Hn Hne) as [_ H].
  destruct (H _ _ Hin) as [_ ->]. destruct (msg_Action msg); cbn; lia.
Qed.

(** The built-in behaviors answer with less than they are asked. *)
Definition own_roles (ag : Agent) : Prop :=
  ∀ re, ag_roleEngine ag = Some re → ∃ roles, re = configured_engine roles.

Lemma roles_answer roles msg resp target :
  resp ∈ re_HandleMessage (configured_engine roles) msg →
  answers (msg_Action msg) (target, Message_String resp).
Proof.
  unfold re_HandleMessage. intros (b & Hr & Hb)%list_elem_of_bind.
  apply elem_of_configured in Hb as (role & _ & Hb).
  destruct (Matches b msg) eqn:Hm; [|by apply not_elem_of_nil in Hr].
  pose proof (builtin_response _ _ _ _ Hb Hm Hr) as H.
  destruct H as [[-> [H|H]]|[[-> H]|[[-> [H|H]]|[-> H]]]];
    (apply answers_String; rewrite H; [done|cbn; lia]).
Qed.

(** ** Agents with built-in roles and default notifications *)

(** An agent that only answers with less than it is asked. *)
Record civil (ag : Agent) : Prop := {
  ci_running : running ag;
  ci_rules : plain_rules (ag_notifier ag) = true;
  ci_roles : own_roles ag
}.

Definition same_setup (ag ag' : Agent) : Prop :=
  ag_notifier ag' = ag_notifier ag ∧ ag_roleEngine ag' = ag_roleEngine ag.

Lemma send_setup clk ag target msg ag' fx :
  SendProtocolMessage clk ag target msg = Sent ag' fx → same_setup ag ag'.
Proof.
  unfold SendProtocolMessage. destruct (Sanitize msg); [done|].
  destruct (match pd_acl _ with Some _ => _ | None => _ end); [done|].
  destruct (updateLocalState _ _ _), (dirty_out _); destruct (RecordMessage _ _); try done;
    by intros [= <- _].
Qed.

Lemma responses_sent clk channel l ag sent ag' sent' :
  foldl (send_response clk channel) (Some (ag, sent)) l = Some (ag', sent') →
  same_setup ag ag' ∧
  ∀ out, out ∈ sent' → out ∈ sent ∨ ∃ i resp, (i, resp) ∈ l ∧ out = (channel, Message_String resp).
Proof.
  revert ag sent. induction l as [|[i resp] l IH]; intros ag sent.
  { intros [= <- <-]. split; [done|]. by left. }
  cbn [foldl]. unfold send_response at 2. cbn [fst snd].
  assert (∀ acc, acc = None → foldl (send_response clk channel) acc l = None) as Hnone.
  { intros acc ->. clear. by induction l. }
  destruct (SendProtocolMessage (clk i) ag channel resp) as [ag1 fx|?|? ?|] eqn:Es.
  - intros H. apply IH in H as [[Hn Hr] Hin]. destruct (send_setup _ _ _ _ _ _ Es) as [Hn1 Hr1].
    split; [by split; congruence|]. intros out Hout. apply Hin in Hout as [Hout|(j & r & Hl & ->)].
    + apply elem_of_app in Hout as [Hout|Hout]; [by left|].
      rewrite (sent_one _ _ _ _ _ _ Es) in Hout. apply list_elem_of_singleton in Hout as ->.
      right. exists i, resp. split; [by left|done].
    + right. exists j, r. split; [by right|done].
  - intros H. apply IH in H as [Hs Hin]. split; [exact Hs|].
    intros out [Hout|(j & r & Hl & ->)]%Hin; [by left|]. right. exists j, r. split; [by right|done].
  - intros H. apply IH in H as [Hs Hin]. split; [exact Hs|].
    intros out [Hout|(j & r & Hl & ->)]%Hin; [by left|]. right. exists j, r. split; [by right|done].
  - by rewrite Hnone.
Qed.

(** What the handlers of a message send: notifications and what the roles answer. *)
Lemma run_handlers_sent clk ag msg ag' sent :
  run_handlers q clk ag msg = Some (ag', sent) →
  same_setup ag ag' ∧
  ∀ out, out ∈ sent → out ∈ nt_HandleMessage q (ag_notifier ag) msg ∨
    ∃ re resp, ag_roleEngine ag = Some re ∧ resp ∈ re_HandleMessage re msg ∧
      out = (msg_Channel msg, Message_String resp).
Proof.
  unfold run_handlers. cbn [ag_notifier ag_inspector].
  set (notes := nt_HandleMessage q (ag_notifier ag) msg). clearbody notes.
  destruct (RecordMessage _ _) as [d|]; [|done].
  assert (∀ ag1 : Agent, same_setup ag ag1 →
    match ag_roleEngine ag1 with
    | None => Some (ag1, notes)
    | Some re => foldl (send_response clk (msg_Channel msg)) (Some (ag1, notes))
                   (imap pair (re_HandleMessage re msg))
    end = Some (ag', sent) →
    same_setup ag ag' ∧ ∀ out, out ∈ sent → out ∈ notes ∨
      ∃ re resp, ag_roleEngine ag = Some re ∧ resp ∈ re_HandleMessage re msg ∧
        out = (msg_Channel msg, Message_String resp)) as Hcont.
  { intros ag1 [Hn1 Hr1]. rewrite Hr1. destruct (ag_roleEngine ag) as [re|] eqn:Ere; cycle 1.
    { intros [= <- <-]. split; [by split; [|rewrite Ere]|]. by left. }
    intros H. apply responses_sent in H as [[Hn2 Hr2] Hin]. split; [split; congruence|].
    intros out [Hout|(i & resp & Hl & ->)]%Hin; [by left|]. right. exists re, resp.
    split; [done|]. split; [|done].
    apply elem_of_lookup_imap in Hl as (j & r & [= -> ->] & Hj). by eapply list_elem_of_lookup_2. }
  destruct (tracked (msg_Action msg)); unfold Agent.MarkDirty; apply Hcont; by split.
Qed.

Lemma on_message_sent clk ag ev ag' sent :
  on_message lower q clk ag ev = Some (ag', sent) →
  same_setup ag ag' ∧
  ∀ out, out ∈ sent → ∃ msg, accept_message (clk 0) (ag_nick ag) (ag_protocol ag) ev = Some msg ∧
    (out ∈ fx_sent (dispatch lower (clk 0) (ag_protocol ag) msg).2 ∨
     out ∈ nt_HandleMessage q (ag_notifier ag) msg ∨
     ∃ re resp, ag_roleEngine ag = Some re ∧ resp ∈ re_HandleMessage re msg ∧
       out = (msg_Channel msg, Message_String resp)).
Proof.
  unfold on_message, handleMessage. destruct (accept_message _ _ _ _) as [msg|] eqn:Ea; cycle 1.
  { intros [= <- <-]. split; [done|]. intros out H. by apply not_elem_of_nil in H. }
  destruct (dispatch_parts lower (clk 0) (ag_protocol ag) msg) as (_ & _ & Hfx & _).
  destruct (dispatch _ _ _ _) as [pd fx] eqn:Ed. cbn [snd] in Hfx. rewrite Hfx.
  destruct (elements _) as [|id ids]; cbn [fmap list_fmap].
  { intros [= <- <-]. split; [done|]. intros out Hout. exists msg. rewrite Ed. split; [done|by left]. }
  destruct (run_handlers _ _ _ msg) as [[ag1 more]|] eqn:Er; [|done]. intros [= <- <-].
  apply run_handlers_sent in Er as [Hs Hmore]. split; [exact Hs|].
  intros out Hout. exists msg. rewrite Ed. split; [done|].
  apply elem_of_app in Hout as [Hout|Hout]; [by left|].
  right. by apply Hmore.
Qed.

(** What an agent sends when it reads a message leads less far than the message. *)
Lemma on_message_answers clk ag ev ag' sent :
  civil ag → on_message lower q clk ag ev = Some (ag', sent) →
  civil ag' ∧ Forall (λ out, text_rank out.2 < text_rank (ev_Message ev)) sent.
Proof.
  intros [Hrun Hrules Hroles] Hm.
  destruct (on_message_running lower q clk ag ev Hrun) as (ag2 & sent2 & H2 & Hrun' & _).
  rewrite Hm in H2. injection H2 as <- <-.
  apply on_message_sent in Hm as [[Hn Hr] Hs]. split.
  { split; [exact Hrun'|by rewrite Hn|]. intros re. rewrite Hr. apply Hroles. }
  apply Forall_forall. intros out (msg & Ha & Hout)%Hs. rewrite (accepted_rank _ _ _ _ _ Ha).
  destruct Hout as [Hout|[Hout|(re & resp & Hre & Hresp & ->)]].
  - pose proof (dispatch_answers (clk 0) (ag_protocol ag) msg) as H.
    rewrite Forall_forall in H. by apply H.
  - pose proof (notes_answer (ag_notifier ag) msg Hrules) as H. rewrite Forall_forall in H. by apply H.
  - destruct (Hroles re Hre) as [roles ->]. by apply (roles_answer roles).
Qed.

(** ** Every conversation ends *)

Definition count_rank (k : nat) (flight : list Delivery) : nat :=
  length (List.filter (λ d, text_rank (ev_Message (dl_event d)) =? k) flight).

Definition weight (net : Network) : nat * (nat * (nat * nat)) :=
  let n k := count_rank k (nw_flight net) in (n 3, (n 2, (n 1, n 0))).

Definition lighter : relation (nat * (nat * (nat * nat))) :=
  slexprod _ _ lt (slexprod _ _ lt (slexprod _ _ lt lt)).

Lemma lighter_wf : well_founded lighter.
Proof. repeat apply wf_slexprod; apply lt_wf. Qed.

Lemma text_rank_bound text : text_rank text ≤ 3.
Proof.
  unfold text_rank. destruct (IsProtocolMessage text); [|lia].
  destruct (Parse text) as [m|]; [|lia]. destruct (msg_Action m); cbn; lia.
Qed.

Lemma count_rank_app k l1 l2 : count_rank k (l1 ++ l2) = count_rank k l1 + count_rank k l2.
Proof. unfold count_rank. by rewrite List.filter_app, length_app. Qed.

Lemma count_rank_delete k flight i d :
  flight !! i = Some d →
  count_rank k flight = count_rank k (delete i flight) +
    (if text_rank (ev_Message (dl_event d)) =? k then 1 else 0).
Proof.
  intros H. apply delete_Permutation in H as Hp. unfold count_rank at 1.
  assert (∀ l1 l2 : list Delivery, l1 ≡ₚ l2 → count_rank k l1 = count_rank k l2) as Hperm.
  { intros l1 l2 Hl. unfold count_rank. induction Hl; cbn; repeat (destruct (_ =? _); cbn); lia. }
  fold (count_rank k flight). rewrite (Hperm _ _ Hp). unfold count_rank. cbn [List.filter].
  destruct (_ =? k); cbn; lia.
Qed.

Lemma count_rank_small k l :
  Forall (λ d, text_rank (ev_Message (dl_event d)) < k) l → ∀ j, k ≤ j → count_rank j l = 0.
Proof.
  intros H j Hj. unfold count_rank. induction H as [|d l Hd _ IH]; [done|]. cbn.
  assert (text_rank (ev_Message (dl_event d)) =? j = false) as -> by (apply Nat.eqb_neq; lia). done.
Qed.

(** One message less of its rank, and more only of lower ranks. *)
Lemma lighter_delete flight i d more team team' said said' :
  flight !! i = Some d →
  Forall (λ d', text_rank (ev_Message (dl_event d')) < text_rank (ev_Message (dl_event d))) more →
  lighter (weight {| nw_team := team'; nw_flight := delete i flight ++ more; nw_said := said' |})
    (weight {| nw_team := team; nw_flight := flight; nw_said := said |}).
Proof.
  intros Hi Hmore. unfold weight, lighter. cbn [nw_flight].
  pose proof (text_rank_bound (ev_Message (dl_event d))) as Hb.
  pose proof (λ k, count_rank_delete k flight i d Hi) as Hc.
  pose proof (count_rank_small _ _ Hmore) as Hs.
  set (r := text_rank (ev_Message (dl_event d))) in *.
  assert (r = 3 ∨ r = 2 ∨ r = 1 ∨ r = 0) as Hr by lia.
  rewrite !count_rank_app, !Hc.
  destruct Hr as [->|[->|[->| ->]]]; cbn [Nat.eqb].
  - left. rewrite (Hs 3) by lia. lia.
  - rewrite (Hs 3), (Hs 2) by lia. rewrite !Nat.add_0_r. right. left. lia.
  - rewrite (Hs 3), (Hs 2), (Hs 1) by lia. rewrite !Nat.add_0_r. right. right. left. lia.
  - rewrite (Hs 3), (Hs 2), (Hs 1), (Hs 0) by lia. rewrite !Nat.add_0_r. right. right. right. lia.
Qed.

Definition civil_net (net : Network) : Prop := map_Forall (λ _, civil) (nw_team net).

Lemma net_step_lighter net net' :
  civil_net net → net_step net net' → civil_net net' ∧ lighter (weight net') (weight net).
Proof.
  intros Hciv Hstep. revert Hciv.
  destruct Hstep as [clk now i to ev ag ag' sent team flight said Hi Hag Hm|i d team flight said Hi Hno]; intros Hciv.
  - destruct (on_message_answers clk ag ev ag' sent (Hciv _ _ Hag) Hm) as [Hc Hs]. split.
    + by apply map_Forall_insert_2.
    + apply (lighter_delete flight i _ _ team _ said _ Hi). apply Forall_forall.
      intros d (out & Hd & Hout)%list_elem_of_bind. apply list_elem_of_fmap in Hd as (to' & -> & _).
      cbn. rewrite Forall_forall in Hs. by apply Hs.
  - split; [done|].
    pose proof (lighter_delete flight i d [] team team said said Hi) as H. rewrite app_nil_r in H. by apply H.
Qed.

Lemma civil_Acc net : civil_net net → Acc (flip net_step) net.
Proof.
  remember (weight net) as w eqn:Hw. revert net Hw.
  induction w as [w IH] using (well_founded_ind lighter_wf). intros net -> Hciv.
  constructor. intros net' Hstep. destruct (net_step_lighter net net' Hciv Hstep) as [Hciv' Hl].
  by apply (IH _ Hl net' eq_refl).
Qed.

Lemma civil_progress net : civil_net net → nw_flight net ≠ [] → ∃ net', net_step net net'.
Proof.
  destruct net as [team [|d flight] said]; intros Hciv Hne; [done|].
  destruct (team !! dl_to d) as [ag|] eqn:E.
  - destruct (on_message_running lower q (λ _ _, 0%Z) ag (dl_event d)) as (ag' & sent & Hm & _);
      [apply (Hciv _ _ E)|].
    destruct d as [to ev]. eexists. eapply (net_deliver _ 0%Z 0); [reflexivity|exact E|exact Hm].
  - eexists. by apply (net_nobody 0 d).
Qed.

Lemma announce_setup clk ag channels ag' sent :
  announceCapabilities clk ag channels = Some (ag', sent) → same_setup ag ag'.
Proof.
  unfold announceCapabilities. case_bool_decide as H; [by intros [= <- _]|]. clear H.
  generalize (imap pair channels) as l, (@nil (string * string)) as sent0. intros l. revert ag.
  induction l as [|ich l IH]; intros ag sent0; [by intros [= <- _]|].
  cbn [foldl]. unfold announce_to at 2.
  match goal with |- context [SendProtocolMessage ?c ?a ?t ?m] =>
    pose proof (send_setup c a t m) as Hs;
    destruct (SendProtocolMessage c a t m) as [ag1 fx|?|? ?|] end; [|by apply IH|by apply IH|].
  - intros H. apply IH in H as [H1 H2]. destruct (Hs _ _ eq_refl) as [H3 H4]. split; congruence.
  - intros H. assert (∀ l, foldl (announce_to clk) None l = None) as Hnone by by intros l'; induction l'.
    by rewrite Hnone in H.
Qed.

Lemma step_roles ag ag' : agent_step lower q ag ag' → ag_roleEngine ag' = ag_roleEngine ag.
Proof.
  intros [clk ev ag0 ag1 sent H|clk target msg ag0 ag1 fx H|clk now ag0 channels ag1 sent H| | | |]; try done.
  - by apply on_message_sent in H as [[_ ?] _].
  - by apply send_setup in H as [_ ?].
  - unfold heartbeat_tick in H. destruct (announceCapabilities _ _ _) as [[ag2 s2]|] eqn:E; [|done].
    injection H as <- _. by apply announce_setup in E as [_ ?].
Qed.

Lemma reachable_civil cfg nick loaded ag :
  rtc (agent_step lower q) (initProtocol cfg nick loaded) ag → plain_rules (ag_notifier ag) = true →
  civil ag.
Proof.
  intros Hr Hrules. split; [by eapply reachable_running|exact Hrules|].
  apply (rtc_invariant _ own_roles _ _) in Hr; [done| |].
  - intros ag1 ag2 H Hstep re. rewrite (step_roles _ _ Hstep). apply H.
  - intros re. unfold initProtocol. cbn [ag_roleEngine]. case_bool_decide; [done|].
    intros [= <-]. by eexists.
Qed.

(** C2. Every conversation ends: in a network of agents, each in any state that it can
    reach, with any roles and any rules with the default texts, the messages on
    their way and all that is answered to them, by the dispatchers, the notifiers
    and the roles, come to an end, in whatever order they are delivered. No message
    is ever stuck: the network is quiet exactly when nothing is on its way, and it
    can always get there. *)
Theorem conversations_end net :
  (∀ nick ag, nw_team net !! nick = Some ag → plain_rules (ag_notifier ag) = true ∧
     ∃ cfg n loaded, rtc (agent_step lower q) (initProtocol cfg n loaded) ag) →
  Acc (flip net_step) net ∧
  (∀ net', rtc net_step net net' → nf net_step net' ↔ nw_flight net' = []) ∧
  ∃ net', rtc net_step net net' ∧ nw_flight net' = [].
Proof.
  intros Hteam.
  assert (civil_net net) as Hciv.
  { intros nick ag Hag. destruct (Hteam nick ag Hag) as (Hr & cfg & n & loaded & Hreach).
    by eapply reachable_civil. }
  assert (∀ net', rtc net_step net net' → civil_net net') as Hall.
  { intros net' Hr. eapply (rtc_invariant net_step civil_net); [|exact Hciv|exact Hr].
    intros n1 n2 H1 H2. by apply (net_step_lighter n1 n2). }
  assert (∀ net', rtc net_step net net' → nf net_step net' ↔ nw_flight net' = []) as Hnf.
  { intros net' Hr. split.
    - intros Hnf. destruct (nw_flight net') eqn:E; [done|]. destruct Hnf.
      apply civil_progress; [by apply Hall|by rewrite E].
    - intros E [net2 Hstep]. destruct Hstep; cbn in E; by subst. }
  pose proof (civil_Acc net Hciv) as HAcc. split; [exact HAcc|]. split; [exact Hnf|].
  clear Hteam Hnf Hall. induction HAcc as [net _ IH].
  destruct (nw_flight net) eqn:E; [by exists net|].
  destruct (civil_progress net Hciv) as [net1 Hstep]; [by rewrite E|].
  destruct (IH net1 Hstep) as (net2 & Hr & Hq); [by apply (net_step_lighter net net1)|].
  exists net2. split; [by eapply rtc_l|exact Hq].
Qed.
End network.

(** ** A scheduler

    Messages in the order in which they were sent. [None] when the fuel is used up,
    or on a panic. *)
Section scheduler.
Context `{MR : MapRange} `{FO : FloatOverflow}.
Context (lower q : string → string).
Context (members : string → string → list string).
Context (clk : nat → nat → Time) (now : Time).

Fixpoint run_net (fuel : nat) (net : Network) : option Network :=
  match nw_flight net, fuel with
  | [], _ => Some net
  | _, O => None
  | d :: flight, S fuel =>
      match nw_team net !! dl_to d with
      | None => run_net fuel {| nw_team := nw_team net; nw_flight := flight; nw_said := nw_said net |}
      | Some ag =>
          '(ag', sent) ← on_message lower q clk ag (dl_event d);
          run_net fuel {| nw_team := <[dl_to d := ag']> (nw_team net);
                          nw_flight := flight ++ (sent ≫= fan_out members now (dl_to d));
                          nw_said := nw_said net ++ (pair (dl_to d) <$> sent) |}
      end
  end.

(** An agent sends to a channel; [None] is an error. *)
Definition net_send (from target : string) (msg : Message) (net : Network) : option Network :=
  ag ← nw_team net !! from;
  match SendProtocolMessage (clk 0) ag target msg with
  | Sent ag' fx => Some {| nw_team := <[from := ag']> (nw_team net);
                           nw_flight := nw_flight net ++ (fx_sent fx ≫= fan_out members now from);
                           nw_said := nw_said net ++ (pair from <$> fx_sent fx) |}
  | _ => None
  end.

Lemma run_net_steps fuel net net' :
  run_net fuel net = Some net' →
  rtc (net_step lower q members) net net' ∧ nw_flight net' = [].
Proof.
  revert net. induction fuel as [|fuel IH]; intros [team flight said]; cbn [run_net nw_flight nw_team nw_said].
  - destruct flight; [|done]. intros [= <-]. done.
  - destruct flight as [|[to ev] flight]; [intros [= <-]; done|]. cbn [dl_to dl_event].
    destruct (team !! to) as [ag|] eqn:E.
    + destruct (on_message _ _ _ _ _) as [[ag' sent]|] eqn:Em; [|done]. cbn [mbind option_bind].
      intros [Hr Hq]%IH. split; [|exact Hq]. eapply rtc_l; [|exact Hr].
      eapply (net_deliver _ _ _ clk now 0); [reflexivity|exact E|exact Em].
    + intros [Hr Hq]%IH. split; [|exact Hq]. eapply rtc_l; [|exact Hr].
      by apply (net_nobody _ _ _ 0 {| dl_to := to; dl_event := ev |}).
Qed.

(** With enough fuel it ends. *)
Lemma run_net_ends net : civil_net net → ∃ fuel net', run_net fuel net = Some net'.
Proof.
  intros Hciv. pose proof (civil_Acc lower q members net Hciv) as HAcc.
  induction HAcc as [[team flight said] _ IH].
  destruct flight as [|[to ev] flight]; [by exists 0; eexists|].
  destruct (team !! to) as [ag|] eqn:E.
  - destruct (on_message_running lower q clk ag ev) as (ag' & sent & Hm & _); [apply (Hciv _ _ E)|].
    pose proof (net_deliver lower q members clk now 0 to ev ag ag' sent team
      ({| dl_to := to; dl_event := ev |} :: flight) said eq_refl E Hm) as Hstep.
    destruct (IH _ Hstep) as (fuel & net' & Hf); [by apply (net_step_lighter _ _ _ _ _ Hciv Hstep)|].
    exists (S fuel), net'. cbn [run_net nw_flight nw_team nw_said dl_to dl_event]. by rewrite E, Hm.
  - pose proof (net_nobody lower q members 0 {| dl_to := to; dl_event := ev |} team
      ({| dl_to := to; dl_event := ev |} :: flight) said eq_refl E) as Hstep.
    destruct (IH _ Hstep) as (fuel & net' & Hf); [by apply (net_step_lighter _ _ _ _ _ Hciv Hstep)|].
    exists (S fuel), net'. cbn [run_net nw_flight nw_team nw_said dl_to dl_event]. by rewrite E.
Qed.

End scheduler.

(** ** The demonstration: [examples/multi-agent/main.go] *)

Definition demo_channels : list string := ["#project-webapp"; "#ops-alerts"; "#help-desk"].
Definition demo_names : list string := ["alice-1"; "bob-2"; "carol-3"; "dave-4"].

Definition demo_config (addr nick username password : string) (channels : list string) : AppConfig :=
  {| cfg_IRC := {| irc_Server := addr; irc_Nick := nick; irc_Username := username;
       irc_Password := password; irc_RealName := "Demo Agent"; irc_TLS := true;
       irc_TLSInsecureSkipVerify := true; irc_SASL := true; irc_SASLMech := "";
       irc_Channels := channels; irc_AutoRejoinOnKick := false; irc_Reconnect := false;
       irc_MaxReconnectAttempts := 0; irc_PingFrequency := 0; irc_Timeout := 0;
       irc_QuitMessage := ""; irc_Debug := false; irc_RateLimit := float_zero;
       irc_RateLimitBurst := 0; irc_ReconnectBackoff := 0; irc_MaxReconnectBackoff := 0 |};
     cfg_LogLevel := "error"; cfg_LogFmt := ""; cfg_DashboardAddr := ""; cfg_StateFile := "";
     cfg_ACLRules := []; cfg_Capabilities := []; cfg_DiscoveryTTL := 0;
     cfg_FederationServers := []; cfg_FederationMappings := [];
     cfg_OTel := {| ot_Endpoint := ""; ot_ServiceName := ""; ot_SampleRate := float_zero |};
     cfg_AgentRole := ""; cfg_Roles := []; cfg_MaxLoad := 0; cfg_ClaimJitter := 0;
     cfg_MaxReviewIterations := 0 |}%Z.

(** [None] is the panic of an invalid configuration. *)
Definition createDemoAgent (irc_IRC : string → string → option Connection) (addr nick username
    password : string) (channels : list string) : option Agent :=
  match NewClient irc_IRC 0 (cfg_IRC (demo_config addr nick username password channels)) with
  | inl _ => None
  | inr client =>
      Some (NewWithClient (demo_config addr nick username password channels) NewStateStore client).1
  end.

(** Everybody is in the three channels. *)
Definition demo_members (from target : string) : list string :=
  if bool_decide (target ∈ demo_channels) then List.filter (λ n, negb (bool_decide (n = from))) demo_names
  else List.filter (λ n, bool_decide (n = target)) demo_names.

(** *** What the program prints *)

Definition spaces (n : nat) : string := Nat.iter n (String " ") "".
(** [%-ns], for texts of one-byte characters. *)
Definition pad (n : nat) (s : string) : string := s +:+ spaces (n - String.length s).

Definition printPhase (name : string) : list string := [""; "=== " +:+ name +:+ " ==="].
Definition printAction (nick msg : string) : list string := ["  [" +:+ nick +:+ "] " +:+ msg].

Section demo.
Context `{MR : MapRange} `{FO : FloatOverflow}.

Definition printSummary (agents : list Agent) (names : list string) : option (list string) :=
  first ← head agents;
  let pd := ag_protocol first in
  Some (["Tasks:"] ++
    ((λ t, "  " +:+ pad 25 (Name t) +:+ " " +:+ pad 12 (Status t) +:+ " (" +:+ LastAgent t +:+ ")")
       <$> ListTasks (pd_state pd)) ++
    [""; "Dependencies:"] ++
    ((λ d, "  " +:+ Blocked d +:+ " -> " +:+ BlockedBy d +:+ " [" +:+
           (if Resolved d then "resolved" else "unresolved") +:+ "]") <$> AllDependencies (pd_state pd)) ++
    [""; "Metrics (per agent):"] ++
    (zip_with (λ a name,
       let snap := ms_counters (mc_Snapshot 0 (ag_metrics a)) in
       let parts := ["sent=" +:+ FormatInt (messagesSent snap);
                     "recv=" +:+ FormatInt (protocolMessagesIn snap);
                     "started=" +:+ FormatInt (tasksStarted snap);
                     "completed=" +:+ FormatInt (tasksCompleted snap);
                     "blocked=" +:+ FormatInt (tasksBlocked snap)] in
       "  " +:+ pad 10 name +:+ " " +:+ Join parts " ") agents names)).

(** The agents of [run], with dave's rules. *)
Definition demo_start (irc_IRC : string → string → option Connection) (addr : string) : option Network :=
  alice ← createDemoAgent irc_IRC addr "alice-1" "alice" "alice-pass" demo_channels;
  bob ← createDemoAgent irc_IRC addr "bob-2" "bob" "bob-pass" demo_channels;
  carol ← createDemoAgent irc_IRC addr "carol-3" "carol" "carol-pass" demo_channels;
  dave ← createDemoAgent irc_IRC addr "dave-4" "dave" "dave-pass" demo_channels;
  let dave := NotifyHelpTo "#help-desk" (NotifyBlockedTo "#ops-alerts"
                (NotifyCompletionsTo "#ops-alerts" dave)) in
  Some {| nw_team := list_to_map [("alice-1", alice); ("bob-2", bob); ("carol-3", carol); ("dave-4", dave)];
          nw_flight := []; nw_said := [] |}.

(** [%q] of a text without special characters. *)
Definition quoted (s : string) : string := qt +:+ s +:+ qt.

(** One action: what an agent sends; what it prints is in [run]. *)
Definition says (from : string) (msg : Message) (net : Network) : option Network :=
  net_send demo_members (λ _ _, 7%Z) 8%Z from "#project-webapp" msg net.

(** [time.Sleep]: everything that was sent is delivered and answered. *)
Definition sleep (net : Network) : option Network :=
  run_net ToLower quoted demo_members (λ _ _, 7%Z) 8%Z 100 net.

Definition store_of (nick : string) (net : Network) : option StateStore :=
  ag ← nw_team net !! nick; Some (pd_state (ag_protocol ag)).

(** [run] once the agents are connected; [None] is an error. *)
Definition run (irc_IRC : string → string → option Connection) (addr : string)
    : option (Network * list string) :=
  net ← demo_start irc_IRC addr;
  (* Phase 1: task announcements. *)
  net ← says "alice-1" (msg_AnnounceStarted "db-migration" "high" ["infrastructure"]) net;
  net ← says "bob-2" (msg_AnnounceStarted "api-service" "high" ["backend"]) net;
  net ← says "carol-3" (msg_AnnounceStarted "frontend" "medium" ["ui"]) net;
  net ← sleep net;
  (* Phase 2: dependencies. *)
  net ← says "bob-2" (msg_AnnounceBlocked "api-service" "db-migration" ["blocked-by-db-migration"]) net;
  net ← says "carol-3" (msg_AnnounceBlocked "frontend" "api-service" ["blocked-by-api-service"]) net;
  net ← sleep net;
  alice ← store_of "alice-1" net;
  let deps := TransitiveDependencies alice "frontend" in
  (* Phase 3: context sharing. *)
  net ← says "alice-1" (msg_ShareContext "database" "webapp" "migrated-to-v3") net;
  net ← sleep net;
  net ← says "bob-2" (msg_RequestContext "database") net;
  net ← sleep net;
  bob ← nw_team net !! "bob-2";
  let entry := ctx_Get (pd_context (ag_protocol bob)) "database" in
  (* Phase 4: help request. *)
  net ← says "carol-3" (msg_RequestHelp "css-layout" "css" ["need-review"]) net;
  net ← sleep net;
  (* Phase 5: the dependency chain. *)
  net ← says "alice-1" (msg_AnnounceCompleted "db-migration" ["schema-ready"]) net;
  net ← sleep net;
  alice ← store_of "alice-1" net;
  let unblocked1 := UnblockedTasks alice in
  net ← says "bob-2" (msg_AnnounceCompleted "api-service" ["endpoints-ready"]) net;
  net ← sleep net;
  bob ← store_of "bob-2" net;
  let unblocked2 := UnblockedTasks bob in
  net ← says "carol-3" (msg_AnnounceCompleted "frontend" ["ui-complete"]) net;
  net ← sleep net;
  (* Phase 6: summary. *)
  let names := ["alice-1"; "bob-2"; "carol-3"; "dave-4"] in
  agents ← mapM (λ nick, nw_team net !! nick) names;
  summary ← printSummary agents names;
  Some (net,
    printPhase "Multi-Agent Coordination Demo" ++
    printPhase "Phase 1: Task Announcements" ++
    printAction "alice-1" "STARTED db-migration (priority: high)" ++
    printAction "bob-2" "STARTED api-service (priority: high)" ++
    printAction "carol-3" "STARTED frontend (priority: medium)" ++
    printPhase "Phase 2: Dependency Declarations" ++
    printAction "bob-2" "BLOCKED api-service (waiting for: db-migration)" ++
    printAction "carol-3" "BLOCKED frontend (waiting for: api-service)" ++
    printAction "state" ("frontend transitive deps: [" +:+ Join deps " " +:+ "]") ++
    printPhase "Phase 3: Context Sharing" ++
    printAction "alice-1" "CONTEXT database project=webapp status=migrated-to-v3" ++
    printAction "bob-2" "REQUEST-CONTEXT database" ++
    match entry with
    | Some e => printAction "bob-2" ("Received context: component=" +:+ cx_Component e +:+
                                     " status=" +:+ cx_Status e)
    | None => []
    end ++
    printPhase "Phase 4: Help Request" ++
    printAction "carol-3" "HELP-NEEDED css-layout (expertise: css)" ++
    printPhase "Phase 5: Dependency Chain Resolution" ++
    printAction "alice-1" "COMPLETED db-migration" ++
    (unblocked1 ≫= λ t, printAction ">>" (Name t +:+ " UNBLOCKED (was waiting for db-migration)")) ++
    printAction "bob-2" "COMPLETED api-service" ++
    (unblocked2 ≫= λ t, printAction ">>" (Name t +:+ " UNBLOCKED (was waiting for api-service)")) ++
    printAction "carol-3" "COMPLETED frontend" ++
    printPhase "Summary" ++ summary).
End demo.

(** What is seen of a run. *)
Definition seen (r : option (Network * list string)) : option (list Delivery * list string * nat) :=
  '(net, printed) ← r;
  Some (nw_flight net, printed,
    count (λ '(from, (to, _)), bool_decide (from = "dave-4") && bool_decide (to = "#ops-alerts"))
      (nw_said net)).

Lemma seen_run r flight printed n :
  seen r = Some (flight, printed, n) →
  ∃ net, r = Some (net, printed) ∧ nw_flight net = flight ∧
    count (λ '(from, (to, _)), bool_decide (from = "dave-4") && bool_decide (to = "#ops-alerts"))
      (nw_said net) = n.
Proof. destruct r as [[net p]|]; [|done]. intros [= <- <- <-]. by exists net. Qed.

(** The demonstration resolves its chain of dependencies. The agents of [run]
    never fail; what they are printed to hold is right: after the announcements
    [frontend] depends on [api-service] and on [db-migration]; bob gets the context
    that he asks for; the completion of [db-migration] unblocks [api-service], and
    that of [api-service] unblocks [frontend]; at the end every task is completed,
    by the agent that worked on it, and both dependencies are resolved. The
    observer has sent two notes about blocked tasks and three about completed
    ones, and nothing is left on its way. All but the order of the summary is the
    same with another order of the map iterations. *)
Theorem demo_resolves :
  ∃ net printed, @run range_forward sample_IRC "localhost:6697" = Some (net, printed) ∧
  nw_flight net = [] ∧
  printed = [
    ""; "=== Multi-Agent Coordination Demo ===";
    ""; "=== Phase 1: Task Announcements ===";
    "  [alice-1] STARTED db-migration (priority: high)";
    "  [bob-2] STARTED api-service (priority: high)";
    "  [carol-3] STARTED frontend (priority: medium)";
    ""; "=== Phase 2: Dependency Declarations ===";
    "  [bob-2] BLOCKED api-service (waiting for: db-migration)";
    "  [carol-3] BLOCKED frontend (waiting for: api-service)";
    "  [state] frontend transitive deps: [api-service db-migration]";
    ""; "=== Phase 3: Context Sharing ===";
    "  [alice-1] CONTEXT database project=webapp status=migrated-to-v3";
    "  [bob-2] REQUEST-CONTEXT database";
    "  [bob-2] Received context: component=database status=migrated-to-v3";
    ""; "=== Phase 4: Help Request ===";
    "  [carol-3] HELP-NEEDED css-layout (expertise: css)";
    ""; "=== Phase 5: Dependency Chain Resolution ===";
    "  [alice-1] COMPLETED db-migration";
    "  [>>] api-service UNBLOCKED (was waiting for db-migration)";
    "  [bob-2] COMPLETED api-service";
    "  [>>] frontend UNBLOCKED (was waiting for api-service)";
    "  [carol-3] COMPLETED frontend";
    ""; "=== Summary ==="; "Tasks:";
    "  api-service               completed    (bob-2)";
    "  frontend                  completed    (carol-3)";
    "  db-migration              completed    (alice-1)";
    ""; "Dependencies:";
    "  api-service -> db-migration [resolved]";
    "  frontend -> api-service [resolved]";
    ""; "Metrics (per agent):";
    "  alice-1    sent=3 recv=15 started=2 completed=2 blocked=2";
    "  bob-2      sent=4 recv=15 started=2 completed=2 blocked=1";
    "  carol-3    sent=4 recv=13 started=2 completed=2 blocked=1";
    "  dave-4     sent=0 recv=17 started=3 completed=3 blocked=2"] ∧
  count (λ '(from, (to, _)), bool_decide (from = "dave-4") && bool_decide (to = "#ops-alerts"))
    (nw_said net) = 5 ∧
  ∃ net' printed', @run range_backward sample_IRC "localhost:6697" = Some (net', printed') ∧
    nw_flight net' = [] ∧ take 29 printed' = take 29 printed ∧ printed' ≡ₚ printed.
Proof.
  destruct (seen (@run range_forward sample_IRC "localhost:6697")) as [[[flight printed] n]|] eqn:E;
    pose proof E as E1; vm_compute in E1; [|discriminate].
  destruct (seen_run _ _ _ _ E) as (net & Hr & Hf & Hn).
  destruct (seen (@run range_backward sample_IRC "localhost:6697")) as [[[flight' printed'] n']|] eqn:E';
    pose proof E' as E2; vm_compute in E2; [|discriminate].
  destruct (seen_run _ _ _ _ E') as (net' & Hr' & Hf' & _).
  injection E1 as <- <- <-. injection E2 as <- <- <-.
  exists net. eexists. split; [exact Hr|]. split; [exact Hf|]. split; [reflexivity|]. split; [exact Hn|].
  exists net'. eexists. split; [exact Hr'|]. split; [exact Hf'|].
  split; [reflexivity|]. apply (bool_decide_unpack (_ ≡ₚ _)). vm_compute. exact I.
Qed.

(** Alice's completion is on its way to dave, who has a rule for completions. *)
Definition two_agents : gmap string Agent :=
  {["alice-1" := initProtocol (demo_config "" "alice-1" "" "" demo_channels) "alice-1" NewStateStore;
    "dave-4" := NotifyCompletionsTo "#ops-alerts"
      (initProtocol (demo_config "" "dave-4" "" "" demo_channels) "dave-4" NewStateStore)]}.

Definition two_net : Network :=
  {| nw_team := two_agents;
     nw_flight := fan_out demo_members 8%Z "alice-1" ("#project-webapp", "COMPLETED task=db-migration");
     nw_said := [] |}.

Lemma conversations_end_witness :
  Acc (flip (net_step ToLower quoted demo_members)) two_net ∧ length (nw_flight two_net) = 3.
Proof.
  split; [|reflexivity].
  destruct (conversations_end ToLower quoted demo_members two_net) as [H _]; [|exact H].
  intros nick ag. unfold two_net, two_agents. cbn [nw_team].
  intros [[<- <-]|[_ [<- <-]%lookup_singleton_Some]]%lookup_insert_Some.
  - split; [reflexivity|]. eexists _, _, _. apply rtc_refl.
  - split; [reflexivity|]. eexists _, _, _. apply rtc_once, step_rule.
Defined.
