(* ===== verification/Team.v ===== *)
(** * A team of agents that agrees

    Agents that share a channel and send messages to it, one after the other: the
    others read each message, and what their dispatchers and notifiers answer on
    their own (acknowledgements of unblocked tasks, contexts, capabilities,
    notifications) is on its way for as long as it takes and arrives in any order
    ([Network.v]). The timers of an arbitration fire between two messages. *)

From S2P Require Import Config.
From S2P Require Import Prelude GoStrings GoNum Message Parser Serializer Codec.
From S2P Require Import Sanitizer State Dependencies TaskBoard Handoff Review.
From S2P Require Import Consensus Discovery Context ACL Coordinator Notifier Role.
From S2P Require Import Inspector Metrics Events Dispatcher DispatcherTheory Replica Agent.
From S2P Require Import Convergence AgentTheory Conversations Network.

(** The event of a text that an agent sent, at a reader whose clock gives it a time. *)
Definition said_event (from : string) (out : string * string) (stamp : Time) : MessageEvent :=
  {| ev_Channel := out.1; ev_Nick := from; ev_User := ""; ev_Host := "";
     ev_Message := out.2; ev_Timestamp := stamp; ev_IsNotice := false |}.

(** The timer of a task fires at an agent. *)
Definition fire (task : string) (ag : Agent) : Agent :=
  ag <| ag_protocol := ag_protocol ag
       <| pd_taskBoard := (λ tb, resolveArbitration tb task) <$> pd_taskBoard (ag_protocol ag) |> |>.

Section team.
Context `{MR : MapRange}.
Context (lower q : string → string).
Context (members : string → string → list string).

(** Everybody but the sender reads the text, and answers it. Who panics is gone. *)
Definition hear_all (clk : string → nat → nat → Time) (stamp : string → Time) (from : string)
    (out : string * string) (team : gmap string Agent) : gmap string (Agent * Outbox) :=
  map_imap (λ n ag,
    if bool_decide (n = from) then Some (ag, [])
    else on_message lower q (clk n) ag (said_event from out (stamp n))) team.

Definition spread (clk : string → nat → nat → Time) (stamp : string → Time) (now : Time)
    (from : string) (net : Network) (out : string * string) : Network :=
  let heard := hear_all clk stamp from out (nw_team net) in
  {| nw_team := fst <$> heard;
     nw_flight := nw_flight net ++
       (map_to_list heard ≫= λ r, r.2.2 ≫= fan_out members now r.1);
     nw_said := nw_said net ++ (from, out) :: (map_to_list heard ≫= λ r, pair r.1 <$> r.2.2) |}.

(** An agent sends a message; [None] when it is refused. *)
Definition broadcast (clk : string → nat → nat → Time) (stamp : string → Time) (now : Time)
    (from target : string) (msg : Message) (net : Network) : option Network :=
  ag ← nw_team net !! from;
  match SendProtocolMessage (clk from 0) ag target msg with
  | Sent ag' fx =>
      Some (foldl (spread clk stamp now from)
        {| nw_team := <[from := ag']> (nw_team net); nw_flight := nw_flight net;
           nw_said := nw_said net |} (fx_sent fx))
  | _ => None
  end.

Definition arbitrate (task : string) (net : Network) : Network :=
  {| nw_team := fire task <$> nw_team net; nw_flight := nw_flight net; nw_said := nw_said net |}.

Inductive team_step : relation Network :=
| team_says clk stamp now from target msg net net' :
    wf_message msg = true → broadcast clk stamp now from target msg net = Some net' →
    team_step net net'
| team_hears net net' : net_step lower q members net net' → team_step net net'
| team_arbitrates task net : team_step net (arbitrate task net).

(** ** What stays true of every agent *)

(** The tasks are filed under their names, which can be written. *)
Definition named (s : StateStore) : Prop :=
  map_Forall (λ k i, Name i = k ∧ value_ok k = true) (tasks s).

(** An agent known by its nick, in working order, without roles, with default texts
    in its notification rules and the access rules [acl]. *)
Record member (acl : option ACLEngine) (nick : string) (ag : Agent) : Prop := {
  mb_nick : ag_nick ag = nick;
  mb_running : running ag;
  mb_roles : ag_roleEngine ag = None;
  mb_rules : plain_rules (ag_notifier ag) = true;
  mb_acl : pd_acl (ag_protocol ag) = acl;
  mb_named : named (pd_state (ag_protocol ag))
}.

Definition known (ag : Agent) : gset string := dom (tasks (pd_state (ag_protocol ag))).

(** Whoever accepts the text reads a harmless answer. *)
Definition harmless_text (ts : gset string) (text : string) : Prop :=
  ∀ m, IsProtocolMessage text = true → Parse text = inl m → harmless ts m.

Lemma wf_Get m k : wf_message m = true → value_ok (Get m k) = true.
Proof.
  intros [_ H]%andb_prop. unfold Get. destruct (decide _).
  - apply andb_prop in H as [[H _]%andb_prop _]. apply bool_decide_eq_true in H.
    by rewrite H, lookup_empty.
  - apply andb_prop in H as [[_ H]%andb_prop _]. rewrite forallb_forall in H.
    destruct (msg_Fields m !! k) as [v|] eqn:E; [|done]. cbn.
    specialize (H (k, v)). rewrite <- list_elem_of_In, elem_of_map_to_list in H.
    by apply andb_prop in H as [_ ?]; [|exact E].
Qed.

Lemma tasks_update clk s msg :
  tasks (update_tasks clk s msg) =
    if tracked (msg_Action msg) && negb (bool_decide (Get msg "task" = ""))
    then <[Get msg "task" := apply_action msg (touch msg (task_or_new s (Get msg "task")))]> (tasks s)
    else tasks s.
Proof.
  unfold update_tasks. destruct (tracked _); [|done]. cbn [andb].
  case_bool_decide as E; cbn [negb]; [by rewrite UpdateTask_no_task|].
  cbn. by rewrite tasks_UpdateTask.
Qed.

Lemma named_update clk s msg :
  named s → (tracked (msg_Action msg) = true → value_ok (Get msg "task") = true) →
  named (update_tasks clk s msg) ∧ dom (tasks s) ⊆ dom (tasks (update_tasks clk s msg)).
Proof.
  intros Hs Hok. unfold named. rewrite tasks_update.
  destruct (tracked _); [|done]. cbn [andb]. destruct (negb _); [|done]. split; [|set_solver].
  apply map_Forall_insert_2; [|exact Hs]. rewrite Name_apply_action. split; [|by apply Hok].
  cbn. unfold task_or_new. destruct (tasks s !! Get msg "task") as [i|] eqn:E; [|done].
  by destruct (Hs _ _ E).
Qed.

(** ** What an agent answers on its own is harmless *)

Lemma String_action m m' :
  Valid (msg_Action m) = true → Parse (Message_String m) = inl m' → msg_Action m' = msg_Action m.
Proof.
  intros Ha Hp. destruct (IsProtocolMessage_spec (Message_String m)) as [_ H].
  specialize (H _ Ha (first_word_String m Ha)). by rewrite Hp in H.
Qed.

Lemma quiet_text ts m : quiet (msg_Action m) = true → harmless_text ts (Message_String m).
Proof.
  intros Hq m' _ Hp. left. rewrite (String_action m m'); [done| |done]. by destruct (msg_Action m).
Qed.

Lemma ack_text ts name completed :
  value_ok name = true → value_ok completed = true → name ∈ ts →
  harmless_text ts (Message_String (ack_message name completed)).
Proof.
  intros Hn Hc Hin m _ Hp. rewrite Parse_Message_String in Hp by by apply fields_ok_ack.
  injection Hp as <-. right. split; [done|]. cbn. unfold Get. cbn. by rewrite lookup_insert_eq.
Qed.

Lemma dispatch_harmless clk pd msg :
  named (pd_state pd) → (tracked (msg_Action msg) = true → value_ok (Get msg "task") = true) →
  Forall (λ out, harmless_text (dom (tasks (update_tasks clk (pd_state pd) msg))) out.2)
    (fx_sent (dispatch lower clk pd msg).2).
Proof.
  intros Hn Hok. destruct (dispatch_parts lower clk pd msg) as (_ & _ & _ & ->).
  rewrite !Forall_app. split_and!.
  - case_bool_decide as Ha; [|constructor]. rewrite Ha in Hok. specialize (Hok eq_refl).
    destruct (named_update clk (pd_state pd) msg Hn (λ _, Hok)) as [Hn' _].
    unfold OnTaskCompleted. destruct (negb _); [constructor|]. cbv zeta. case_bool_decide; [constructor|].
    destruct (UnblockedTasks _) as [|t ts] eqn:Eu; [constructor|]. rewrite <- Eu.
    pose proof (ack_tasks_spec (notified (pd_unblockNotifier pd))
      (UnblockedTasks (update_tasks clk (pd_state pd) msg))) as Hs.
    destruct (ack_tasks _ _) as [done_ names]. destruct Hs as (_ & Hin & _).
    apply Forall_forall. intros out (name & -> & Hname)%list_elem_of_fmap. cbn [snd].
    apply Hin in Hname as [(i & -> & Hi)%list_elem_of_fmap _].
    unfold UnblockedTasks in Hi. apply elem_of_filter_bool in Hi as [(k & Hk)%elem_of_range_values _].
    destruct (Hn' _ _ Hk) as [-> Hv]. apply ack_text; [done|done|].
    apply elem_of_dom. by eexists.
  - case_bool_decide; [|constructor]. unfold HandleContextRequest. cbv zeta.
    case_bool_decide; [constructor|]. destruct (ctx_Get _ _); [|constructor].
    constructor; [by apply quiet_text|]. case_bool_decide; constructor; [by apply quiet_text|constructor].
  - destruct (_ && _); [|constructor]. unfold handleDiscover. cbv zeta.
    destruct (_ || _); [constructor|]. destruct (existsb _ _); constructor; [by apply quiet_text|constructor].
Qed.

Lemma notes_harmless n msg ts :
  plain_rules n = true → Forall (λ out, harmless_text ts out.2) (nt_HandleMessage q n msg).
Proof.
  intros Hn. apply Forall_forall. intros [target text] Hin m Hp. cbn in Hp.
  assert (message_event msg ≠ "") as Hne.
  { intros E. unfold nt_HandleMessage in Hin. cbv zeta in Hin.
    rewrite (bool_decide_eq_true_2 _ E) in Hin. by apply not_elem_of_nil in Hin. }
  destruct (notifications_spec q n msg Hn Hne) as [_ H].
  destruct (H _ _ Hin) as [_ E]. congruence.
Qed.

Lemma answers_harmless clk pd n msg :
  named (pd_state pd) → (tracked (msg_Action msg) = true → value_ok (Get msg "task") = true) →
  plain_rules n = true →
  ∀ out, out ∈ fx_sent (dispatch lower clk pd msg).2 ∨ out ∈ nt_HandleMessage q n msg →
    harmless_text (dom (tasks (update_tasks clk (pd_state pd) msg))) out.2.
Proof.
  intros Hn Hok Hrules out [H|H].
  - pose proof (dispatch_harmless clk pd msg Hn Hok) as Hall. rewrite Forall_forall in Hall. by apply Hall.
  - pose proof (notes_harmless n msg (dom (tasks (update_tasks clk (pd_state pd) msg))) Hrules) as Hall.
    rewrite Forall_forall in Hall. by apply Hall.
Qed.

(** ** Reading *)

Lemma on_message_protocol clk ag ev ag' sent :
  ag_roleEngine ag = None → on_message lower q clk ag ev = Some (ag', sent) →
  ag_protocol ag' = (handleMessage lower (clk 0) (ag_nick ag) (ag_protocol ag) ev).1 ∧
  ag_nick ag' = ag_nick ag.
Proof.
  intros Hre. unfold on_message. destruct (handleMessage _ _ _ _ _) as [pd fx]. cbn [fst].
  destruct (fx_handlers fx) as [|[id msg] l]; [by intros [= <- <-]|].
  unfold run_handlers. destruct (RecordMessage _ _) as [d|]; [|done].
  destruct (tracked _); unfold Agent.MarkDirty; cbn [ag_roleEngine]; rewrite Hre; by intros [= <- <-].
Qed.

Lemma handleMessage_acl clk self pd ev : pd_acl (handleMessage lower clk self pd ev).1 = pd_acl pd.
Proof.
  unfold handleMessage. destruct (accept_message _ _ _ _) as [msg|]; [|done]. apply dispatch_core.
Qed.

Lemma handleMessage_state clk self pd ev msg :
  accept_message clk self pd ev = Some msg →
  pd_state (handleMessage lower clk self pd ev).1 = update_tasks clk (pd_state pd) msg.
Proof. intros Ha. unfold handleMessage. rewrite Ha. apply dispatch_stores. Qed.

(** A member reads a message: it stays a member, and what it answers is harmless to
    whoever knows its tasks. *)
Lemma member_reads acl nick clk ag ev ag' sent :
  member acl nick ag →
  (∀ msg, accept_message (clk 0) nick (ag_protocol ag) ev = Some msg →
     tracked (msg_Action msg) = true → value_ok (Get msg "task") = true) →
  on_message lower q clk ag ev = Some (ag', sent) →
  member acl nick ag' ∧ known ag ⊆ known ag' ∧
  ag_protocol ag' = (handleMessage lower (clk 0) nick (ag_protocol ag) ev).1 ∧
  Forall (λ out, harmless_text (known ag') out.2) sent.
Proof.
  intros [Hn Hrun Hre Hrules Hacl Hnamed] Hok Hm.
  destruct (on_message_protocol clk ag ev ag' sent Hre Hm) as [Hp Hn']. rewrite Hn in Hp.
  destruct (on_message_running lower q clk ag ev Hrun) as (ag2 & sent2 & Hm2 & Hrun' & _).
  rewrite Hm in Hm2. injection Hm2 as <- <-.
  destruct (on_message_sent lower q clk ag ev ag' sent Hm) as [[Hset1 Hset2] Hsent]. rewrite Hn in Hsent.
  assert (named (pd_state (ag_protocol ag')) ∧ known ag ⊆ known ag' ∧
    Forall (λ out, harmless_text (known ag') out.2) sent) as (H1 & H2 & H3).
  { unfold known. rewrite Hp. destruct (accept_message (clk 0) nick (ag_protocol ag) ev) as [msg|] eqn:Ea.
    - rewrite (handleMessage_state _ _ _ _ _ Ea). specialize (Hok msg eq_refl).
      destruct (named_update (clk 0) _ msg Hnamed Hok) as [Hn1 Hd1]. split_and!; [done|done|].
      apply Forall_forall. intros out (m & [= <-] & Hout)%Hsent.
      apply (answers_harmless (clk 0) (ag_protocol ag) (ag_notifier ag) msg Hnamed Hok Hrules).
      destruct Hout as [?|[?|(re & resp & Hre' & _)]]; [by left|by right|congruence].
    - unfold handleMessage. rewrite Ea. split_and!; [done|done|].
      apply Forall_forall. by intros out (m & ? & _)%Hsent. }
  split_and!; [|done|done|done]. split; [congruence|done|congruence|congruence| |done].
  rewrite Hp. rewrite handleMessage_acl. exact Hacl.
Qed.

Lemma accepted_parse clk self pd ev msg :
  accept_message clk self pd ev = Some msg →
  IsProtocolMessage (ev_Message ev) = true ∧
  ∃ m, Parse (ev_Message ev) = inl m ∧ msg_Action msg = msg_Action m ∧ ∀ k, Get msg k = Get m k.
Proof.
  unfold accept_message. destruct (IsProtocolMessage _); [|done]. cbn [negb].
  case_bool_decide; [done|]. destruct (Parse _) as [m|]; [|done]. intros H'. split; [done|].
  exists m. split; [done|].
  destruct (pd_acl pd) as [acl|]; [destruct (negb _); [done|]|]; by injection H' as <-.
Qed.

(** A harmless answer changes nothing that replicas agree on. *)
Lemma member_hears acl nick clk ag ev ag' sent :
  member acl nick ag → harmless_text (known ag) (ev_Message ev) →
  on_message lower q clk ag ev = Some (ag', sent) →
  member acl nick ag' ∧ same_replica (ag_protocol ag') (ag_protocol ag) ∧
  Forall (λ out, harmless_text (known ag') out.2) sent.
Proof.
  intros Hmem Hh Hm.
  assert (∀ msg, accept_message (clk 0) nick (ag_protocol ag) ev = Some msg → harmless (known ag) msg) as Hacc.
  { intros msg Ha. destruct (accepted_parse _ _ _ _ _ Ha) as (Hip & m & Hp & Hact & Hget).
    destruct (Hh m Hip Hp) as [Hq|[Hack Hk]]; [left|right]; rewrite Hact, ?Hget; done. }
  destruct (member_reads acl nick clk ag ev ag' sent Hmem) as (Hmem' & _ & Hp & Hs); [|exact Hm|].
  { intros msg Ha Ht. destruct (Hacc msg Ha) as [Hq|[_ Hk]]; [by destruct (msg_Action msg)|].
    unfold known in Hk. apply elem_of_dom in Hk as [i Hi]. by destruct (mb_named _ _ _ Hmem _ _ Hi). }
  split_and!; [done| |done]. rewrite Hp. unfold handleMessage.
  destruct (accept_message _ _ _ _) as [msg|]; [|done].
  etransitivity; [apply dispatch_core|]. by apply harmless_core, Hacc.
Qed.

(** ** Agreement *)

(** All agents hold the same replica ([Convergence.same_replica]). *)
Definition agree (net : Network) : Prop :=
  ∀ n1 a1 n2 a2, nw_team net !! n1 = Some a1 → nw_team net !! n2 = Some a2 →
    same_replica (ag_protocol a1) (ag_protocol a2).

Record team_ok (acl : option ACLEngine) (net : Network) : Prop := {
  to_members : map_Forall (member acl) (nw_team net);
  to_agree : agree net;
  to_flight : ∀ d nick ag, d ∈ nw_flight net → nw_team net !! nick = Some ag →
    harmless_text (known ag) (ev_Message (dl_event d))
}.

Lemma same_known a b : same_replica (ag_protocol a) (ag_protocol b) → known a = known b.
Proof.
  intros [Hs _ _ _ _]. unfold equiv, StateStore_equiv, erase_state in Hs.
  apply (f_equal (λ s, dom (tasks s))) in Hs. cbn in Hs. by rewrite !dom_fmap_L in Hs.
Qed.

Lemma harmless_text_mono ts ts' text : ts ⊆ ts' → harmless_text ts text → harmless_text ts' text.
Proof.
  intros Hsub H m Hip Hp. destruct (H m Hip Hp) as [Hq|[Ha Hin]]; [by left|right]. split; [done|].
  by apply Hsub.
Qed.

Lemma local_state clk pd msg :
  pd_state (updateLocalState clk pd msg).1 = update_tasks clk (pd_state pd) msg.
Proof.
  unfold updateLocalState.
  destruct (match msg_Action msg with ActionContext => _ | _ => _ end) as [cs calls].
  match goal with |- context [updateCoordinationStores (clk 3) ?p msg] =>
    destruct (coordination_stores (clk 3) p msg) as [Hs _];
    destruct (updateCoordinationStores (clk 3) p msg) as [pd' timer] end.
  exact Hs.
Qed.

Lemma sent_protocol clk ag target msg ag' fx :
  SendProtocolMessage clk ag target msg = Sent ag' fx →
  ag_protocol ag' = (updateLocalState clk (ag_protocol ag) (local_message clk (ag_nick ag) target msg)).1 ∧
  ag_nick ag' = ag_nick ag.
Proof.
  unfold SendProtocolMessage. destruct (Sanitize msg); [done|].
  destruct (match pd_acl _ with Some _ => _ | None => _ end); [done|].
  destruct (updateLocalState _ _ _) as [pd fx0].
  destruct (dirty_out _); destruct (RecordMessage _ _); try done; by intros [= <- _].
Qed.

Lemma member_says acl nick clk ag target msg ag' fx :
  member acl nick ag → wf_message msg = true → SendProtocolMessage clk ag target msg = Sent ag' fx →
  member acl nick ag' ∧ known ag ⊆ known ag'.
Proof.
  intros [Hn Hrun Hre Hrules Hacl Hnamed] Hwf Hsend.
  destruct (sent_protocol _ _ _ _ _ _ Hsend) as [Hp Hn'].
  destruct (send_setup _ _ _ _ _ _ Hsend) as [Hset1 Hset2].
  pose proof (send_running clk ag target msg Hrun) as Hrun'. rewrite Hsend in Hrun'.
  assert (pd_acl (ag_protocol ag') = acl) as Hacl' by (rewrite Hp; etransitivity;
    [apply updateLocalState_core|exact Hacl]).
  destruct (named_update clk (pd_state (ag_protocol ag)) (local_message clk (ag_nick ag) target msg)
    Hnamed (λ _, wf_Get msg "task" Hwf)) as [H1 H2].
  unfold known. rewrite Hp, local_state. split; [|exact H2].
  split; [congruence|done|congruence|congruence|done|]. rewrite Hp, local_state. exact H1.
Qed.

(** One other agent reads what was said. *)
Lemma member_told acl from clk ag ag' fx target msg n clkn stamp other r :
  member acl from ag → member acl n other → n ≠ from → wf_message msg = true →
  same_replica (ag_protocol ag) (ag_protocol other) →
  SendProtocolMessage clk ag target msg = Sent ag' fx →
  on_message lower q clkn other (said_event from (target, Message_String msg) stamp) = Some r →
  member acl n r.1 ∧ known other ⊆ known r.1 ∧ same_replica (ag_protocol ag') (ag_protocol r.1) ∧
  Forall (λ out, harmless_text (known r.1) out.2) r.2.
Proof.
  intros Hag Hother Hne Hwf Hsame Hsend Hm. destruct r as [other' sent].
  destruct (member_reads acl n clkn other (said_event from (target, Message_String msg) stamp)
    other' sent Hother) as (H1 & H2 & Hp & H3); [|exact Hm|].
  { intros m Ha _. destruct (accepted_parse _ _ _ _ _ Ha) as (_ & m0 & Hparse & _ & ->).
    cbn in Hparse. rewrite Parse_Message_String in Hparse by done. injection Hparse as <-.
    by apply (wf_Get msg). }
  split_and!; [done|done| |done]. cbn [fst]. rewrite Hp.
  apply (send_receive_agree lower clk (clkn 0) ag ag' fx target msg);
    [exact Hsame|exact Hsend|exact Hwf| | | |].
  - by rewrite (mb_acl _ _ _ Hag), (mb_acl _ _ _ Hother).
  - rewrite (mb_nick _ _ _ Hag). congruence.
  - exact (sent_one _ _ _ _ _ _ Hsend).
  - by rewrite (mb_nick _ _ _ Hag).
Qed.

(** What a sender, its readers and their answers make of a team. *)
Lemma spread_ok acl clk stamp now from target msg ag ag' fx net :
  team_ok acl net → nw_team net !! from = Some ag → wf_message msg = true →
  SendProtocolMessage (clk from 0) ag target msg = Sent ag' fx →
  let net' := spread clk stamp now from {| nw_team := <[from := ag']> (nw_team net);
    nw_flight := nw_flight net; nw_said := nw_said net |} (target, Message_String msg) in
  team_ok acl net' ∧ dom (nw_team net') = dom (nw_team net).
Proof.
  intros [Hmem Hag Hfl] Eag Hwf Hsend. cbn zeta.
  destruct (member_says acl from _ ag target msg ag' fx (Hmem _ _ Eag) Hwf Hsend) as [Hs Hsk].
  set (heard := hear_all clk stamp from (target, Message_String msg) (<[from := ag']> (nw_team net))).
  assert (∀ n r, heard !! n = Some r → ∃ old, nw_team net !! n = Some old ∧ member acl n r.1 ∧
    known old ⊆ known r.1 ∧ same_replica (ag_protocol ag') (ag_protocol r.1) ∧
    Forall (λ out, harmless_text (known r.1) out.2) r.2) as Hheard.
  { intros n r. unfold heard, hear_all. rewrite map_lookup_imap. case_bool_decide as Hn.
    - subst n. rewrite lookup_insert_eq. intros [= <-]. exists ag. by split_and!.
    - rewrite lookup_insert_ne by done. destruct (nw_team net !! n) as [other|] eqn:Eo; [|done].
      intros Hm. exists other. split; [done|].
      eapply member_told; [exact (Hmem _ _ Eag)|exact (Hmem _ _ Eo)|done|exact Hwf| |exact Hsend|exact Hm].
      by eapply Hag. }
  assert (dom heard = dom (nw_team net)) as Hdom.
  { apply set_eq. intros n. rewrite !elem_of_dom. split.
    - intros [r Hr]. destruct (Hheard n r Hr) as (old & Hold & _). by eexists.
    - intros [other Eo]. unfold heard, hear_all. rewrite map_lookup_imap.
      case_bool_decide as Hn; [subst n; rewrite lookup_insert_eq; by eexists|].
      rewrite lookup_insert_ne, Eo by done. cbn.
      destruct (on_message_running lower q (clk n) other
        (said_event from (target, Message_String msg) (stamp n))) as (a & sent & Hm & _);
        [apply (mb_running _ _ _ (Hmem _ _ Eo))|]. rewrite Hm. by eexists. }
  assert (∀ n a, (fst <$> heard) !! n = Some a → ∃ r, heard !! n = Some r ∧ a = r.1) as Hfst.
  { intros n a. rewrite lookup_fmap. destruct (heard !! n) as [r|]; [|done]. intros [= <-]. by exists r. }
  unfold spread. cbn [nw_team nw_flight nw_said]. fold heard. split; [|by rewrite dom_fmap_L].
  split; cbn [nw_team nw_flight].
  - intros n a (r & Hr & ->)%Hfst. by destruct (Hheard n r Hr) as (_ & _ & ? & _).
  - intros n1 a1 n2 a2 (r1 & H1 & ->)%Hfst (r2 & H2 & ->)%Hfst.
    destruct (Hheard _ _ H1) as (_ & _ & _ & _ & S1 & _), (Hheard _ _ H2) as (_ & _ & _ & _ & S2 & _).
    etransitivity; [symmetry; exact S1|exact S2].
  - intros d n a Hd (r & Hr & ->)%Hfst. destruct (Hheard n r Hr) as (old & Hold & _ & Hk & S & _).
    apply elem_of_app in Hd as [Hd|Hd]; [by eapply harmless_text_mono, Hfl|].
    apply list_elem_of_bind in Hd as ([n' r'] & Hd & Hin%elem_of_map_to_list).
    apply list_elem_of_bind in Hd as (out & Hd & Hout). apply list_elem_of_fmap in Hd as (to & -> & _).
    destruct (Hheard _ _ Hin) as (_ & _ & _ & _ & S' & Hh). cbn [snd fst dl_event ev_Message] in *.
    rewrite Forall_forall in Hh. rewrite (same_known r.1 r'.1); [by apply Hh|].
    etransitivity; [symmetry; exact S|exact S'].
Qed.

Lemma broadcast_ok acl clk stamp now from target msg net net' :
  team_ok acl net → wf_message msg = true → broadcast clk stamp now from target msg net = Some net' →
  team_ok acl net' ∧ dom (nw_team net') = dom (nw_team net).
Proof.
  intros Hok Hwf. unfold broadcast. destruct (nw_team net !! from) as [ag|] eqn:Eag; [|done]. cbn.
  destruct (SendProtocolMessage _ _ _ _) as [ag' fx|?|? ?|] eqn:Hsend; try done.
  intros [= <-]. rewrite (sent_one _ _ _ _ _ _ Hsend). cbn [foldl]. by eapply spread_ok.
Qed.

Lemma elem_of_list_delete {A} i (l : list A) x : x ∈ delete i l → x ∈ l.
Proof. intros H. eapply elem_of_submseteq; [exact H|apply submseteq_delete]. Qed.

Lemma hears_ok acl net net' :
  team_ok acl net → net_step lower q members net net' →
  team_ok acl net' ∧ dom (nw_team net') = dom (nw_team net).
Proof.
  intros Hok Hstep. revert Hok.
  destruct Hstep as [clk now i to ev ag ag' sent team flight said Hi Hag Hm|i d team flight said Hi Hno];
    intros [Hmem Hagr Hfl]; cbn [nw_team nw_flight] in *.
  - destruct (member_hears acl to clk ag ev ag' sent (Hmem _ _ Hag)) as (H1 & H2 & H3); [|exact Hm|].
    { apply (Hfl {| dl_to := to; dl_event := ev |} to ag); [by eapply list_elem_of_lookup_2|done]. }
    pose proof (same_known _ _ H2) as Hk.
    assert (∀ n a, <[to := ag']> team !! n = Some a → ∃ old, team !! n = Some old ∧
      same_replica (ag_protocol a) (ag_protocol old) ∧ known a = known old) as Hnew.
    { intros n a [[<- <-]|[_ Ha]]%lookup_insert_Some; [by exists ag|by exists a]. }
    split; [|rewrite dom_insert_L; apply elem_of_dom_2 in Hag; set_solver].
    split; cbn [nw_team nw_flight].
    + by apply map_Forall_insert_2.
    + intros n1 a1 n2 a2 (o1 & E1 & S1 & _)%Hnew (o2 & E2 & S2 & _)%Hnew.
      etransitivity; [exact S1|]. symmetry. etransitivity; [exact S2|]. by eapply Hagr.
    + intros d n a Hd (old & Eo & S & Ek)%Hnew. rewrite Ek.
      apply elem_of_app in Hd as [Hd|Hd].
      * apply (Hfl d n old); [by eapply elem_of_list_delete|done].
      * apply list_elem_of_bind in Hd as (out & Hd & Hout). apply list_elem_of_fmap in Hd as (to' & -> & _).
        rewrite Forall_forall in H3. cbn. rewrite <- (same_known ag old), <- Hk; [by apply H3|].
        by eapply Hagr.
  - split; [|done]. split; cbn [nw_team nw_flight]; [done|done|].
    intros d' n a Hd Ha. apply (Hfl d' n a); [by eapply elem_of_list_delete|done].
Qed.

(** The sender of a message after it. *)
Lemma broadcast_sender clk stamp now from target msg net net' :
  broadcast clk stamp now from target msg net = Some net' →
  ∃ ag ag' fx, nw_team net !! from = Some ag ∧
    SendProtocolMessage (clk from 0) ag target msg = Sent ag' fx ∧ nw_team net' !! from = Some ag'.
Proof.
  unfold broadcast. destruct (nw_team net !! from) as [ag|] eqn:Eag; [|done]. cbn.
  destruct (SendProtocolMessage _ _ _ _) as [ag' fx|?|? ?|] eqn:Hsend; try done.
  intros [= <-]. exists ag, ag', fx. split; [done|]. split; [done|].
  rewrite (sent_one _ _ _ _ _ _ Hsend). cbn. unfold hear_all.
  rewrite lookup_fmap, map_lookup_imap, lookup_insert_eq. cbn. by rewrite bool_decide_eq_true_2.
Qed.

(** An answer leaves every agent with the same replica as before. *)
Lemma hears_same acl net net' :
  team_ok acl net → net_step lower q members net net' →
  ∀ n a, nw_team net' !! n = Some a → ∃ old, nw_team net !! n = Some old ∧
    same_replica (ag_protocol a) (ag_protocol old).
Proof.
  intros Hok Hstep. revert Hok.
  destruct Hstep as [clk now i to ev ag ag' sent team flight said Hi Hag Hm|i d team flight said Hi Hno];
    intros [Hmem Hagr Hfl] n a; cbn [nw_team nw_flight] in *; [|by exists a].
  destruct (member_hears acl to clk ag ev ag' sent (Hmem _ _ Hag)) as (_ & H2 & _); [|exact Hm|].
  { apply (Hfl {| dl_to := to; dl_event := ev |} to ag); [by eapply list_elem_of_lookup_2|done]. }
  intros [[<- <-]|[_ Ha]]%lookup_insert_Some; [by exists ag|by exists a].
Qed.

(** ** Arbitration *)

Lemma foldl_lower_load_erase l c :
  erase_claim (foldl lower_load c l) = foldl lower_load (erase_claim c) (erase_claim <$> l).
Proof.
  revert c. induction l as [|d l IH]; intros c; [done|]. cbn [foldl fmap list_fmap]. rewrite IH.
  f_equal. unfold lower_load. cbn. by destruct (_ <? _)%Z.
Qed.

Lemma resolveArbitration_erase tb task :
  erase_board (resolveArbitration tb task) = resolveArbitration (erase_board tb) task.
Proof.
  unfold resolveArbitration, claims_of. cbn [pendingClaims erase_board]. rewrite lookup_fmap.
  destruct (pendingClaims tb !! task) as [[|c l]|]; cbn; try done.
  change (fmap (M:=list) erase_claim l) with (erase_claim <$> l).
  rewrite <- foldl_lower_load_erase. unfold erase_board, set_claimed. cbn. f_equal.
  - apply map_eq. intros k. rewrite lookup_fmap. destruct (decide (k = task)) as [->|].
    + rewrite !lookup_alter_eq, lookup_fmap. by destruct (offers tb !! task).
    + by rewrite !lookup_alter_ne, lookup_fmap.
  - by rewrite fmap_delete.
Qed.

Lemma fire_same task a b :
  same_replica (ag_protocol a) (ag_protocol b) →
  same_replica (ag_protocol (fire task a)) (ag_protocol (fire task b)).
Proof.
  intros [H1 H2 H3 H4 H5]. split; cbn; [done| |done|done|done].
  destruct (pd_taskBoard (ag_protocol a)) as [ta|], (pd_taskBoard (ag_protocol b)) as [tb|]; try done.
  cbn in *. apply (inj Some) in H2. by rewrite !resolveArbitration_erase, H2.
Qed.

Lemma arbitrate_ok acl task net :
  team_ok acl net →
  team_ok acl (arbitrate task net) ∧ dom (nw_team (arbitrate task net)) = dom (nw_team net).
Proof.
  intros [Hmem Hag Hfl]. unfold arbitrate. cbn. split; [|by rewrite dom_fmap_L].
  assert (∀ n a, (fire task <$> nw_team net) !! n = Some a →
    ∃ old, nw_team net !! n = Some old ∧ a = fire task old) as Hf.
  { intros n a. rewrite lookup_fmap. destruct (nw_team net !! n) as [old|]; [|done].
    intros [= <-]. by exists old. }
  split; cbn.
  - intros n a (old & Ho & ->)%Hf. by destruct (Hmem _ _ Ho).
  - intros n1 a1 n2 a2 (o1 & E1 & ->)%Hf (o2 & E2 & ->)%Hf. apply fire_same. by eapply Hag.
  - intros d n a Hd (old & Ho & ->)%Hf. by apply (Hfl d n old).
Qed.

Lemma team_step_ok acl net net' :
  team_ok acl net → team_step net net' →
  team_ok acl net' ∧ dom (nw_team net') = dom (nw_team net).
Proof.
  intros Hok Hstep. revert Hok.
  destruct Hstep as [clk stamp now from target msg net net' Hwf Hb|net net' Hh|task net]; intros Hok.
  - by eapply broadcast_ok.
  - by eapply hears_ok.
  - by apply arbitrate_ok.
Qed.

Lemma team_steps_ok acl net net' :
  team_ok acl net → rtc team_step net net' →
  team_ok acl net' ∧ dom (nw_team net') = dom (nw_team net).
Proof.
  intros Hok Hr. induction Hr as [|n1 n2 n3 H12 _ IH]; [done|].
  destruct (team_step_ok _ _ _ Hok H12) as [Hok2 <-]. by apply IH.
Qed.

Lemma initProtocol_member cfg nick loaded :
  cfg_Roles cfg = [] → named loaded →
  member (if bool_decide (cfg_ACLRules cfg = []) then None else Some (NewACLEngine (cfg_ACLRules cfg)))
    nick (initProtocol cfg nick loaded).
Proof.
  intros Hr Hl. split; [done|apply initProtocol_running| |done|done|exact Hl].
  cbn. by rewrite (bool_decide_eq_true_2 _ Hr).
Qed.

(** C1. Convergence. A team of agents, each in working order, without role behaviors,
    with default texts in its notification rules and with the same access rules,
    starts with the same coordination state, whose task names can be written (C3).
    Its agents send well-formed messages (C3) to a common channel, of any kind, and
    each is read by all the others before the next one is sent; what the others
    answer on their own, acknowledgements of unblocked tasks, contexts, capabilities
    and notifications, arrives at any agent, at any time after that and in any order,
    and so do the answers to it; a timer of an arbitration fires at all agents between
    the same two messages. Then no agent is lost, and at every moment all of them hold
    the same replica: the same tasks with their states, owners, priorities, scopes,
    progress and summaries, the same dependencies, resolved or not, the same offers
    and pending claims, checkpoints and handoffs, reviews and gates, votes and
    escalations, up to the times their clocks show. What a task was last touched by
    and tagged with, and what each agent is working on, is not the same, because an
    agent does not record its own automatic acknowledgements. *)
Theorem team_converges acl net net' :
  map_Forall (member acl) (nw_team net) → agree net → nw_flight net = [] →
  rtc team_step net net' →
  dom (nw_team net') = dom (nw_team net) ∧ agree net'.
Proof.
  intros Hmem Hag Hfl Hr. destruct (team_steps_ok acl net net') as [Hok Hdom]; [|exact Hr|].
  - split; [done|done|]. intros d nick ag Hd. rewrite Hfl in Hd. by apply not_elem_of_nil in Hd.
  - split; [exact Hdom|apply (to_agree _ _ Hok)].
Qed.
End team.

Lemma net_steps_team `{MR : MapRange} lower q members net net' :
  rtc (net_step lower q members) net net' → rtc (team_step lower q members) net net'.
Proof. apply rtc_subrel. intros n1 n2 H. by apply team_hears. Qed.

(** ** A concrete team *)

Definition sample_nicks : list string := ["a"; "b"; "c"].

Definition sample_net : Network :=
  {| nw_team := list_to_map ((λ nick, (nick, initProtocol sample_config nick NewStateStore)) <$> sample_nicks);
     nw_flight := []; nw_said := [] |}.

Definition sample_members (from target : string) : list string :=
  List.filter (λ n, negb (bool_decide (n = from))) sample_nicks.

(** The clocks of the agents differ. *)
Definition sample_says (from : string) (msg : Message) (net : Network) : option Network :=
  if wf_message msg then
    broadcast ToLower id sample_members (λ n _ i, Z.of_nat (String.length n + i))
      (λ n, if bool_decide (n = "b") then 0%Z else 77%Z) 5 from "#dev" msg net
  else None.

(** An offer, two claims and their arbitration; a task that waits for it; its
    completion, which two agents acknowledge; then all answers arrive. *)
Definition sample_run (net : Network) : option Network :=
  net ← sample_says "a" (msg_OfferTask "build" "high" "" ["go"]) net;
  net ← sample_says "b" (msg_ClaimTask "build" 2) net;
  net ← sample_says "c" (msg_ClaimTask "build" 1) net;
  let net := arbitrate "build" net in
  net ← sample_says "c" (msg_AnnounceBlocked "ship" "build" []) net;
  net ← sample_says "c" (msg_Checkpoint "build" 50 "half way") net;
  net ← sample_says "c" (msg_AnnounceCompleted "build" []) net;
  run_net ToLower id sample_members (λ _ _, 9%Z) 9 20 net.

Lemma sample_says_step from msg net net' :
  sample_says from msg net = Some net' → team_step ToLower id sample_members net net'.
Proof.
  unfold sample_says. destruct (wf_message msg) eqn:Hwf; [|done]. by apply team_says.
Qed.

Lemma sample_run_steps net net' :
  sample_run net = Some net' → rtc (team_step ToLower id sample_members) net net'.
Proof.
  unfold sample_run. intros (n1 & H1 & (n2 & H2 & (n3 & H3 & H)%bind_Some)%bind_Some)%bind_Some.
  cbv zeta in H. apply bind_Some in H as (n4 & H4 & (n5 & H5 & (n6 & H6 & H7)%bind_Some)%bind_Some).
  eapply rtc_l; [by eapply sample_says_step|]. eapply rtc_l; [by eapply sample_says_step|].
  eapply rtc_l; [by eapply sample_says_step|]. eapply rtc_l; [apply (team_arbitrates _ _ _ "build")|].
  eapply rtc_l; [by eapply sample_says_step|]. eapply rtc_l; [by eapply sample_says_step|].
  eapply rtc_l; [by eapply sample_says_step|].
  apply net_steps_team. by eapply (run_net_steps _ _ _ _ _ 20).
Qed.

(** What is seen of it: who acknowledged the task, and what is left on its way. *)
Definition seen_acks (r : option Network) : option (list string * list Delivery) :=
  net ← r; Some ((List.filter (λ s, bool_decide (s.2.2 =
    "ACKNOWLEDGED task=ship unblocked-by=build #auto-unblock")) (nw_said net)).*1, nw_flight net).

Lemma sample_net_member nick ag :
  nw_team sample_net !! nick = Some ag → ag = initProtocol sample_config nick NewStateStore.
Proof.
  intros H%elem_of_list_to_map_2. apply list_elem_of_fmap in H as (n & [= -> ->] & _). done.
Qed.

Lemma team_converges_witness :
  ∃ net', sample_run sample_net = Some net' ∧
    seen_acks (Some net') = Some (["a"; "b"], []) ∧
    dom (nw_team net') = dom (nw_team sample_net) ∧ agree net'.
Proof.
  destruct (sample_run sample_net) as [net'|] eqn:E; cycle 1.
  { apply (f_equal seen_acks) in E. vm_compute in E. discriminate. }
  exists net'. split; [done|]. split; [rewrite <- E; vm_compute; reflexivity|].
  apply (team_converges ToLower id sample_members None sample_net net').
  - intros nick ag ->%sample_net_member. apply (initProtocol_member sample_config); [done|].
    apply map_Forall_empty.
  - intros n1 a1 n2 a2 ->%sample_net_member ->%sample_net_member.
    change (ag_protocol (initProtocol sample_config n1 NewStateStore))
      with (ag_protocol (initProtocol sample_config n2 NewStateStore)). done.
  - reflexivity.
  - by apply sample_run_steps.
Defined.
