(* ===== verification/MockServer.v ===== *)
(** * The IRC server of the tests and the demonstration: [test/mock/irc_server.go]

    One process that authenticates clients, keeps the members of the channels and
    passes messages on. A client is its place in the list of clients. One line that a
    client sends is one step; what a step sends is a list of lines and the clients
    they are written to, without the line ends. The connections with their
    certificate are not modelled: a write to one that is closed has no effect, and
    its error is ignored. *)

From S2P Require Import Prelude GoStrings GoEncoding Message Parser Serializer Codec State Events.
From S2P Require Import Dispatcher DispatcherTheory Agent Convergence AgentTheory Network.

(** ** State *)

(** A client, with the variables of its [handleConnection]; [mk_running]: it has not
    returned. *)
Record mockClient := {
  mk_nick : string;
  mk_user : string;
  mk_welcomed : bool;
  mk_joinedCh : gset string;
  mk_saslAuthenticated : bool;
  mk_capNegotiating : bool;
  mk_running : bool
}.

#[export] Instance mockClient_eta : RecordEta mockClient := λ r,
  {| mk_nick := mk_nick r; mk_user := mk_user r; mk_welcomed := mk_welcomed r;
     mk_joinedCh := mk_joinedCh r; mk_saslAuthenticated := mk_saslAuthenticated r;
     mk_capNegotiating := mk_capNegotiating r; mk_running := mk_running r |}.

Record IRCServer := {
  is_clients : list mockClient;
  is_closed : bool;
  is_channels : gmap string (gmap nat unit);
  is_Accounts : gmap string string
}.

#[export] Instance IRCServer_eta : RecordEta IRCServer := λ r,
  {| is_clients := is_clients r; is_closed := is_closed r; is_channels := is_channels r;
     is_Accounts := is_Accounts r |}.

(** What is written, and to whom. *)
Abbreviation Sends := (list (nat * string)).

Definition new_client : mockClient :=
  {| mk_nick := ""; mk_user := ""; mk_welcomed := false; mk_joinedCh := ∅;
     mk_saslAuthenticated := false; mk_capNegotiating := false; mk_running := true |}.

Definition NewIRCServer : IRCServer :=
  {| is_clients := []; is_closed := false; is_channels := ∅;
     is_Accounts := {["testuser" := "testpass"]} |}.

Definition on_client (i : nat) (f : mockClient → mockClient) (s : IRCServer) : IRCServer :=
  s <| is_clients := alter f i (is_clients s) |>.

(** ** Channels *)

Definition joinChannel (channel : string) (i : nat) (s : IRCServer) : IRCServer :=
  let members := default ∅ (is_channels s !! channel) in
  s <| is_channels := <[channel := <[i := tt]> members]> (is_channels s) |>.

(** The members without one; [None] when nobody is left. *)
Definition without (i : nat) (members : gmap nat unit) : option (gmap nat unit) :=
  let members := delete i members in
  if bool_decide (members = ∅) then None else Some members.

Definition partChannel (channel : string) (i : nat) (s : IRCServer) : IRCServer :=
  match is_channels s !! channel with
  | Some members => s <| is_channels := partial_alter (λ _, without i members) channel (is_channels s) |>
  | None => s
  end.

Definition removeClient (i : nat) (s : IRCServer) : IRCServer :=
  s <| is_channels := omap (without i) (is_channels s) |>.

Section server.
Context `{MR : MapRange}.

(** The members of a channel except one, in the order of the map. *)
Definition other_members (channel : string) (sender : nat) (s : IRCServer) : list nat :=
  match is_channels s !! channel with
  | Some members => List.filter (λ i, negb (i =? sender)) (range 0 members).*1
  | None => []
  end.

Definition broadcastToChannel (channel msg : string) (sender : nat) (s : IRCServer) : Sends :=
  (λ i, (i, msg)) <$> other_members channel sender s.

(** The first client of the list that has the nick. *)
Definition sendToNick (nick msg : string) (s : IRCServer) : Sends :=
  match list_find (λ c, mk_nick c = nick) (is_clients s) with
  | Some (i, _) => [(i, msg)]
  | None => []
  end.

(** ** Authentication *)

Definition validateSASL (s : IRCServer) (encoded : string) : bool :=
  match base64_decode encoded with
  | None => false
  | Some decoded =>
      match SplitN3 "000" decoded with
      | [_; username; password] => bool_decide (is_Accounts s !! username = Some password)
      | _ => false
      end
  end.

Definition welcome_texts (nick : string) : list string :=
  [":server 001 " +:+ nick +:+ " :Welcome to the Mock IRC Network " +:+ nick;
   ":server 002 " +:+ nick +:+ " :Your host is server, running mock-ircd";
   ":server 003 " +:+ nick +:+ " :This server was created now";
   ":server 004 " +:+ nick +:+ " server mock-ircd o o";
   ":server 376 " +:+ nick +:+ " :End of /MOTD command."].

Definition sendWelcome (i : nat) (c : mockClient) : mockClient * Sends :=
  if mk_welcomed c then (c, [])
  else (c <| mk_welcomed := true |>, pair i <$> welcome_texts (mk_nick c)).

(** ** One line *)

Definition source (c : mockClient) : string := ":" +:+ mk_nick c +:+ "!" +:+ mk_user c +:+ "@localhost ".

(** The commands that only concern the client itself; [args] is [parts[1:]]. *)
Definition own_command (s : IRCServer) (i : nat) (c : mockClient) (cmd : string) (args : list string)
    : mockClient * Sends :=
  let named := String.eqb cmd in
  match args with
  | [] => if named "PING" then (c, [(i, "PONG server ")]) else (c, [])
  | arg :: _ =>
      if named "CAP" then
        let sub := String.eqb (ToUpper arg) in
        if sub "LS" then (c <| mk_capNegotiating := true |>, [(i, ":server CAP * LS :sasl")])
        else if sub "REQ" then (c, [(i, ":server CAP * ACK :sasl")])
        else if sub "END" then
          let c := c <| mk_capNegotiating := false |> in
          if negb (String.eqb (mk_nick c) "") && negb (String.eqb (mk_user c) "") && mk_saslAuthenticated c
          then sendWelcome i c else (c, [])
        else (c, [])
      else if named "AUTHENTICATE" then
        if String.eqb arg "PLAIN" then (c, [(i, "AUTHENTICATE +")])
        else if validateSASL s arg
        then (c <| mk_saslAuthenticated := true |>, [(i, ":server 903 * :SASL authentication successful")])
        else (c, [(i, ":server 904 * :SASL authentication failed")])
      else if named "NICK" then
        let c := c <| mk_nick := arg |> in
        if negb (mk_capNegotiating c) && negb (String.eqb (mk_user c) "") && mk_saslAuthenticated c
        then sendWelcome i c else (c, [])
      else if named "USER" then
        let c := c <| mk_user := arg |> in
        if negb (mk_capNegotiating c) && negb (String.eqb (mk_nick c) "") && mk_saslAuthenticated c
        then sendWelcome i c else (c, [])
      else if named "PING" then (c, [(i, "PONG server " +:+ arg)])
      else (c, [])
  end.

Definition handle_JOIN (i : nat) (c : mockClient) (channel : string) (s : IRCServer) : IRCServer * Sends :=
  let s := joinChannel channel i s in
  let s := on_client i (λ c, c <| mk_joinedCh := {[channel]} ∪ mk_joinedCh c |>) s in
  let joinMsg := source c +:+ "JOIN " +:+ channel in
  (s, [(i, joinMsg)] ++ broadcastToChannel channel joinMsg i s ++
      [(i, ":server 353 " +:+ mk_nick c +:+ " = " +:+ channel +:+ " :" +:+ mk_nick c);
       (i, ":server 366 " +:+ mk_nick c +:+ " " +:+ channel +:+ " :End of /NAMES list")]).

Definition handle_PART (i : nat) (c : mockClient) (channel : string) (s : IRCServer) : IRCServer * Sends :=
  let partMsg := source c +:+ "PART " +:+ channel in
  let sends := (i, partMsg) :: broadcastToChannel channel partMsg i s in
  let s := partChannel channel i s in
  (on_client i (λ c, c <| mk_joinedCh := mk_joinedCh c ∖ {[channel]} |>) s, sends).

Definition handle_PRIVMSG (i : nat) (c : mockClient) (target : string) (rest : list string) (s : IRCServer)
    : Sends :=
  let msg := TrimPrefix (Join rest " ") ":" in
  let fullMsg := source c +:+ "PRIVMSG " +:+ target +:+ " :" +:+ msg in
  if HasPrefix target "#" then (i, fullMsg) :: broadcastToChannel target fullMsg i s
  else sendToNick target fullMsg s.

(** The deferred function of [handleConnection]. *)
Definition hang_up (i : nat) (s : IRCServer) : IRCServer :=
  on_client i (λ c, c <| mk_running := false |>) (removeClient i s).

(** The body of the loop of [handleConnection]; after QUIT it returns. *)
Definition handle_line (i : nat) (line : string) (s : IRCServer) : IRCServer * Sends :=
  match is_clients s !! i with
  | None => (s, [])
  | Some c =>
      match Fields line with
      | [] => (s, [])
      | word :: args =>
          let cmd := ToUpper word in
          let named := String.eqb cmd in
          match args with
          | channel :: rest =>
              if named "JOIN" then handle_JOIN i c channel s
              else if named "PART" then handle_PART i c channel s
              else if named "PRIVMSG" then
                (s, match rest with [] => [] | _ :: _ => handle_PRIVMSG i c channel rest s end)
              else if named "QUIT" then (hang_up i s, [(i, "ERROR :Closing link: " +:+ mk_nick c)])
              else let '(c, sends) := own_command s i c cmd args in (on_client i (λ _, c) s, sends)
          | [] =>
              if named "QUIT" then (hang_up i s, [(i, "ERROR :Closing link: " +:+ mk_nick c)])
              else (s, (own_command s i c cmd args).2)
          end
      end
  end.

(** ** The server over time *)

(** [acceptLoop] appends a client. *)
Definition accept (s : IRCServer) : IRCServer := s <| is_clients := is_clients s ++ [new_client] |>.

Definition Close (s : IRCServer) : IRCServer := s <| is_closed := true |>.

(** A test adds an account, or a connection is accepted (also one that was waiting
    when the server was closed), a client sends a line, its connection ends, or the
    server is closed, which ends the connections one after the other. *)
Inductive mock_step : relation IRCServer :=
| mock_account user password s :
    mock_step s (s <| is_Accounts := <[user := password]> (is_Accounts s) |>)
| mock_accept s : mock_step s (accept s)
| mock_line i c line s :
    is_clients s !! i = Some c → mk_running c = true → mock_step s (handle_line i line s).1
| mock_hang_up i s : mock_step s (hang_up i s)
| mock_close s : mock_step s (Close s).
End server.

(** ** Theorems *)

Section theorems.
Context `{MR : MapRange}.

(** *** Channels *)

Definition in_channel (s : IRCServer) (channel : string) (i : nat) : Prop :=
  ∃ members, is_channels s !! channel = Some members ∧ is_Some (members !! i).

Definition no_empty_channel (s : IRCServer) : Prop :=
  ∀ channel members, is_channels s !! channel = Some members → members ≠ ∅.

Lemma in_join channel i s channel' j :
  in_channel (joinChannel channel i s) channel' j ↔
  in_channel s channel' j ∨ (channel' = channel ∧ j = i).
Proof.
  unfold in_channel, joinChannel. cbn [is_channels]. destruct (decide (channel' = channel)) as [->|Hc].
  - rewrite lookup_insert_eq. split.
    + intros (m & [= <-] & Hj). destruct (decide (j = i)) as [->|Hi]; [by right|].
      rewrite lookup_insert_ne in Hj by done. left.
      destruct (is_channels s !! channel) as [m|]; [by exists m|]. by destruct Hj.
    + intros [(m & -> & Hj)|[_ ->]]; (eexists; split; [reflexivity|]); cbn.
      * destruct (decide (j = i)) as [->|Hi]; [by rewrite lookup_insert_eq|by rewrite lookup_insert_ne].
      * by rewrite lookup_insert_eq.
  - rewrite lookup_insert_ne by done. naive_solver.
Qed.

Lemma without_Some i members m j :
  without i members = Some m → is_Some (m !! j) ↔ is_Some (members !! j) ∧ j ≠ i.
Proof.
  unfold without. case_bool_decide; [done|]. intros [= <-]. rewrite lookup_delete_is_Some. naive_solver.
Qed.

Lemma without_None i members j : without i members = None → is_Some (members !! j) → j = i.
Proof.
  unfold without. case_bool_decide as H; [|done]. intros _ [[] Hj].
  destruct (decide (j = i)) as [->|Hi]; [done|].
  assert (delete i members !! j = Some tt) as Hd by by rewrite lookup_delete_ne.
  by rewrite H, lookup_empty in Hd.
Qed.

Lemma in_without s s' channel i j :
  is_channels s' !! channel = is_channels s !! channel ≫= without i →
  in_channel s' channel j ↔ in_channel s channel j ∧ j ≠ i.
Proof.
  intros H. unfold in_channel. rewrite H.
  destruct (is_channels s !! channel) as [members|]; cbn [mbind option_bind]; [|naive_solver].
  destruct (without i members) as [m|] eqn:E.
  - pose proof (without_Some _ _ _ j E). naive_solver.
  - pose proof (without_None _ _ j E). naive_solver.
Qed.

Lemma in_part channel i s channel' j :
  in_channel (partChannel channel i s) channel' j ↔
  in_channel s channel' j ∧ ¬ (channel' = channel ∧ j = i).
Proof.
  unfold partChannel. destruct (decide (channel' = channel)) as [->|Hc].
  - destruct (is_channels s !! channel) as [members|] eqn:E.
    + rewrite (in_without s) with (i := i); [naive_solver|]. cbn [is_channels].
      by rewrite lookup_partial_alter_eq, E.
    + unfold in_channel. rewrite E. naive_solver.
  - destruct (is_channels s !! channel) as [members|] eqn:E; [|naive_solver].
    unfold in_channel. cbn [is_channels]. rewrite lookup_partial_alter_ne by done. naive_solver.
Qed.

Lemma in_remove i s channel j :
  in_channel (removeClient i s) channel j ↔ in_channel s channel j ∧ j ≠ i.
Proof. apply in_without. unfold removeClient. cbn [is_channels]. by rewrite lookup_omap. Qed.

Lemma in_on_client i f s channel j : in_channel (on_client i f s) channel j ↔ in_channel s channel j.
Proof. done. Qed.

Lemma without_nonempty i members m : without i members = Some m → m ≠ ∅.
Proof. unfold without. case_bool_decide; [done|]. by intros [= <-]. Qed.

Lemma nonempty_join channel i s : no_empty_channel s → no_empty_channel (joinChannel channel i s).
Proof.
  intros H channel' m. unfold joinChannel. cbn [is_channels].
  destruct (decide (channel' = channel)) as [->|Hc];
    [rewrite lookup_insert_eq; intros [= <-]; apply insert_non_empty|rewrite lookup_insert_ne by done; apply H].
Qed.

Lemma nonempty_part channel i s : no_empty_channel s → no_empty_channel (partChannel channel i s).
Proof.
  intros H channel' m. unfold partChannel. destruct (is_channels s !! channel); [|apply H]. cbn [is_channels].
  destruct (decide (channel' = channel)) as [->|Hc];
    [rewrite lookup_partial_alter_eq; apply without_nonempty|rewrite lookup_partial_alter_ne by done; apply H].
Qed.

Lemma nonempty_remove i s : no_empty_channel (removeClient i s).
Proof.
  intros channel m. unfold removeClient. cbn [is_channels]. rewrite lookup_omap.
  destruct (is_channels s !! channel); [|done]. apply without_nonempty.
Qed.

(** *** The invariant *)

Definition welcome_ok (c : mockClient) : Prop :=
  mk_welcomed c = true → mk_nick c ≠ "" ∧ mk_user c ≠ "" ∧ mk_saslAuthenticated c = true.

Record mock_ok (s : IRCServer) : Prop := {
  mo_members : ∀ channel i, in_channel s channel i ↔
    ∃ c, is_clients s !! i = Some c ∧ mk_running c = true ∧ channel ∈ mk_joinedCh c;
  mo_nonempty : no_empty_channel s;
  mo_welcome : ∀ i c, is_clients s !! i = Some c → welcome_ok c
}.

Lemma lookup_on_client i f s j :
  is_clients (on_client i f s) !! j =
  if decide (j = i) then f <$> is_clients s !! j else is_clients s !! j.
Proof.
  unfold on_client. cbn [is_clients]. case_decide as H; [subst; apply list_lookup_alter_eq|].
  by apply list_lookup_alter_ne.
Qed.

Lemma Fields_nonempty s : Forall (λ w, w ≠ "") (Fields s).
Proof.
  assert (∀ cur, Forall (λ w, w ≠ "") (flush cur)) as Hf.
  { intros cur. unfold flush. destruct (String.eqb_spec cur ""); by repeat constructor. }
  assert (∀ cur skip, Forall (λ w, w ≠ "") (fields_from cur skip s)) as H; [|apply H].
  induction s as [|c s IH]; intros cur skip; cbn [fields_from]; [apply Hf|].
  destruct skip; [|apply IH]. destruct (strip_any _ _); [|apply IH]. apply Forall_app. split; [apply Hf|apply IH].
Qed.

(** A step of a client on its own. *)
Definition evolves (i : nat) (c c' : mockClient) (sends : Sends) : Prop :=
  mk_running c' = mk_running c ∧ mk_joinedCh c' = mk_joinedCh c ∧
  (welcome_ok c → welcome_ok c') ∧
  (mk_welcomed c' = mk_welcomed c ∧ length sends ≤ 1 ∨
   mk_welcomed c = false ∧ mk_welcomed c' = true ∧ sends = pair i <$> welcome_texts (mk_nick c')).

Lemma evolves_welcome i c c1 c' sends :
  mk_running c1 = mk_running c → mk_joinedCh c1 = mk_joinedCh c → mk_welcomed c1 = mk_welcomed c →
  (mk_nick c1 ≠ "" ∧ mk_user c1 ≠ "" ∧ mk_saslAuthenticated c1 = true) →
  sendWelcome i c1 = (c', sends) → evolves i c c' sends.
Proof.
  intros Hr Hj Hw (Hn & Hu & Ha). unfold sendWelcome, evolves, welcome_ok. destruct (mk_welcomed c1) eqn:E;
    intros [= <- <-]; cbn; split_and!; try done; try (by left); [left; split; [congruence|lia]|by right].
Qed.

Lemma evolves_own i c c' sends :
  mk_running c' = mk_running c → mk_joinedCh c' = mk_joinedCh c → mk_welcomed c' = mk_welcomed c →
  (mk_nick c' = mk_nick c ∨ mk_nick c' ≠ "") → (mk_user c' = mk_user c ∨ mk_user c' ≠ "") →
  (mk_saslAuthenticated c' = mk_saslAuthenticated c ∨ mk_saslAuthenticated c' = true) →
  length sends ≤ 1 → evolves i c c' sends.
Proof.
  intros Hr Hj Hw Hn Hu Ha Hl. unfold evolves, welcome_ok. split_and!; [done|done| |by left].
  rewrite Hw. intros H (H1 & H2 & H3)%H. split_and!; [destruct Hn; congruence|destruct Hu; congruence|].
  destruct Ha as [->| ->]; done.
Qed.

(** What the client's own commands do. *)
Lemma own_command_spec s i c cmd args c' sends :
  Forall (λ w, w ≠ "") args → own_command s i c cmd args = (c', sends) → evolves i c c' sends.
Proof.
  assert (∀ sends, length sends ≤ 1 → evolves i c c sends) as Hsame.
  { intros more Hm. apply evolves_own; auto. }
  intros Hargs. unfold own_command. destruct args as [|arg args].
  { destruct (String.eqb _ _); intros [= <- <-]; apply Hsame; cbn; lia. }
  apply Forall_cons in Hargs as [Harg _].
  destruct (String.eqb cmd "CAP").
  { cbv zeta. repeat (destruct (String.eqb (ToUpper arg) _);
      [try (intros [= <- <-]; apply evolves_own; cbn; auto; lia)|]);
      [|intros [= <- <-]; apply Hsame; cbn; lia]. cbn.
    destruct (String.eqb_spec (mk_nick c) ""), (String.eqb_spec (mk_user c) ""), (mk_saslAuthenticated c) eqn:Ea;
      cbn; try (intros [= <- <-]; apply evolves_own; cbn; auto; lia).
    apply evolves_welcome; cbn; auto. }
  destruct (String.eqb cmd "AUTHENTICATE").
  { destruct (String.eqb arg "PLAIN"); [intros [= <- <-]; apply Hsame; cbn; lia|].
    destruct (validateSASL s arg) eqn:Ev; intros [= <- <-]; [|apply Hsame; cbn; lia].
    apply evolves_own; cbn; eauto. }
  destruct (String.eqb cmd "NICK").
  { cbn. destruct (mk_capNegotiating c), (String.eqb_spec (mk_user c) ""), (mk_saslAuthenticated c) eqn:Ea;
      cbn; try (intros [= <- <-]; apply evolves_own; cbn; auto; lia).
    apply evolves_welcome; cbn; auto. }
  destruct (String.eqb cmd "USER").
  { cbn. destruct (mk_capNegotiating c), (String.eqb_spec (mk_nick c) ""), (mk_saslAuthenticated c) eqn:Ea;
      cbn; try (intros [= <- <-]; apply evolves_own; cbn; auto; lia).
    apply evolves_welcome; cbn; auto. }
  destruct (String.eqb cmd "PING"); intros [= <- <-]; apply Hsame; cbn; lia.
Qed.

(** A client becomes authenticated only by a line of its own with valid credentials. *)
Lemma own_command_auth s i c cmd args c' sends :
  own_command s i c cmd args = (c', sends) →
  mk_saslAuthenticated c' = mk_saslAuthenticated c ∨
  cmd = "AUTHENTICATE" ∧ ∃ encoded rest, args = encoded :: rest ∧ validateSASL s encoded = true.
Proof.
  assert (∀ c1 c2 more, mk_saslAuthenticated c1 = mk_saslAuthenticated c → sendWelcome i c1 = (c2, more) →
    mk_saslAuthenticated c2 = mk_saslAuthenticated c) as Hwel.
  { intros c1 c2 more Hc. unfold sendWelcome. destruct (mk_welcomed c1); intros [= <- _]; exact Hc. }
  unfold own_command. destruct args as [|arg args].
  { destruct (String.eqb _ _); intros [= <- _]; by left. }
  destruct (String.eqb cmd "CAP").
  { cbv zeta. repeat (destruct (String.eqb (ToUpper arg) _); [try (intros [= <- _]; by left)|]);
      [|intros [= <- _]; by left].
    destruct (_ && _); [intros H; left; by eapply Hwel; [|exact H]|intros [= <- _]; by left]. }
  destruct (String.eqb_spec cmd "AUTHENTICATE") as [->|_].
  { destruct (String.eqb arg "PLAIN"); [intros [= <- _]; by left|].
    destruct (validateSASL s arg) eqn:Ev; intros [= <- _]; [|by left].
    right. split; [done|]. by exists arg, args. }
  destruct (String.eqb cmd "NICK").
  { destruct (_ && _); [intros H; left; by eapply Hwel; [|exact H]|intros [= <- _]; by left]. }
  destruct (String.eqb cmd "USER").
  { destruct (_ && _); [intros H; left; by eapply Hwel; [|exact H]|intros [= <- _]; by left]. }
  destruct (String.eqb cmd "PING"); intros [= <- _]; by left.
Qed.

Lemma mock_ok_own i c f s sends :
  mock_ok s → is_clients s !! i = Some c → evolves i c (f c) sends → mock_ok (on_client i f s).
Proof.
  intros [Hm Hn Hw] Hi (Hr & Hj & Hwc & _). split; [|exact Hn|].
  - intros channel j. rewrite in_on_client, Hm. setoid_rewrite lookup_on_client. case_decide; [subst j|done].
    rewrite Hi. cbn. split; intros (c2 & [= <-] & H1 & H2); (eexists; split; [reflexivity|]);
      rewrite Hr, Hj in *; done.
  - intros j c2. rewrite lookup_on_client. case_decide as Hd; [|apply Hw]. subst j. rewrite Hi.
    intros [= <-]. by apply Hwc, (Hw i).
Qed.

Lemma mock_ok_join i c channel s :
  mock_ok s → is_clients s !! i = Some c → mk_running c = true → mock_ok (handle_JOIN i c channel s).1.
Proof.
  intros [Hm Hn Hw] Hi Hrun. unfold handle_JOIN. cbn [fst]. split.
  - intros ch j. rewrite in_on_client, in_join, Hm. setoid_rewrite lookup_on_client.
    change (is_clients (joinChannel channel i s)) with (is_clients s). case_decide as Hd; [subst j|naive_solver].
    rewrite Hi. cbn. split.
    + intros [(c2 & [= <-] & H1 & H2)|[-> _]]; (eexists; split; [reflexivity|]); cbn; set_solver.
    + intros (c2 & [= <-] & H1 & H2). cbn in *. apply elem_of_union in H2 as [->%elem_of_singleton|H2]; [by right|].
      left. by exists c.
  - by apply nonempty_join.
  - intros j c2. rewrite lookup_on_client. change (is_clients (joinChannel channel i s)) with (is_clients s).
    case_decide as Hd; [|apply Hw]. subst j. rewrite Hi. intros [= <-]. apply (Hw i c Hi).
Qed.

Lemma clients_part channel i s : is_clients (partChannel channel i s) = is_clients s.
Proof. unfold partChannel. by destruct (is_channels s !! channel). Qed.

Lemma mock_ok_part i c channel s :
  mock_ok s → is_clients s !! i = Some c → mock_ok (handle_PART i c channel s).1.
Proof.
  intros [Hm Hn Hw] Hi. unfold handle_PART. cbn [fst]. split.
  - intros ch j. rewrite in_on_client, in_part, Hm. setoid_rewrite lookup_on_client. rewrite clients_part.
    case_decide as Hd; [subst j|naive_solver]. rewrite Hi. cbn. split.
    + intros ((c2 & [= <-] & H1 & H2) & H3). eexists. split; [reflexivity|]. cbn. set_solver.
    + intros (c2 & [= <-] & H1 & H2). cbn in *. set_solver.
  - by apply nonempty_part.
  - intros j c2. rewrite lookup_on_client, clients_part. case_decide as Hd; [|apply Hw]. subst j. rewrite Hi.
    intros [= <-]. apply (Hw i c Hi).
Qed.

Lemma mock_ok_hang_up i s : mock_ok s → mock_ok (hang_up i s).
Proof.
  intros [Hm Hn Hw]. unfold hang_up. split.
  - intros ch j. rewrite in_on_client, in_remove, Hm. setoid_rewrite lookup_on_client.
    change (is_clients (removeClient i s)) with (is_clients s). case_decide as Hd; [subst j|naive_solver].
    destruct (is_clients s !! i) as [c|]; cbn; [|naive_solver]. split; [naive_solver|].
    by intros (c2 & [= <-] & H1 & _).
  - apply nonempty_remove.
  - intros j c2. rewrite lookup_on_client. change (is_clients (removeClient i s)) with (is_clients s).
    case_decide as Hd; [|apply Hw]. subst j. destruct (is_clients s !! i) as [c|] eqn:E; [|done].
    intros [= <-]. apply (Hw i c E).
Qed.

Definition authenticated (s : IRCServer) (i : nat) : Prop :=
  ∃ c, is_clients s !! i = Some c ∧ mk_saslAuthenticated c = true.

(** The connected client sends an AUTHENTICATE line with valid credentials. *)
Definition shows (s : IRCServer) (i : nat) (line : string) : Prop :=
  (∃ c, is_clients s !! i = Some c ∧ mk_running c = true) ∧
  ∃ cmd encoded rest, Fields line = cmd :: encoded :: rest ∧ ToUpper cmd = "AUTHENTICATE" ∧
    validateSASL s encoded = true.

Lemma authenticated_on_client i f s j :
  (∀ c, is_clients s !! i = Some c → mk_saslAuthenticated (f c) = mk_saslAuthenticated c) →
  authenticated (on_client i f s) j → authenticated s j.
Proof.
  intros Hf (c & Hc & Ha). rewrite lookup_on_client in Hc. case_decide as Hd; [subst j|by exists c].
  destruct (is_clients s !! i) as [c0|] eqn:E; [|done]. injection Hc as <-. rewrite (Hf c0) in Ha by done.
  by exists c0.
Qed.

(** A line keeps the invariant, and authenticates nobody but the client that sends it
    with valid credentials. *)
Lemma line_ok s i c line :
  mock_ok s → is_clients s !! i = Some c → mk_running c = true →
  mock_ok (handle_line i line s).1 ∧
  ∀ j, authenticated (handle_line i line s).1 j → authenticated s j ∨ j = i ∧ shows s i line.
Proof.
  intros Hok Hi Hrun. unfold handle_line. rewrite Hi. pose proof (Fields_nonempty line) as Hne.
  assert (mock_ok (hang_up i s) ∧
    ∀ j, authenticated (hang_up i s) j → authenticated s j ∨ j = i ∧ shows s i line) as Hquit.
  { split; [by apply mock_ok_hang_up|]. intros j H. left. by apply authenticated_on_client in H. }
  destruct (Fields line) as [|w args] eqn:El; [by split; [|left]|]. apply Forall_cons in Hne as [_ Hargs].
  destruct args as [|channel rest]; [by destruct (String.eqb _ _); [|split; [|left]]|].
  destruct (String.eqb (ToUpper w) "JOIN").
  { split; [by apply (mock_ok_join i c)|]. intros j H. left. by apply authenticated_on_client in H. }
  destruct (String.eqb (ToUpper w) "PART").
  { split; [by apply (mock_ok_part i c)|]. intros j H. left. apply authenticated_on_client in H; [|done].
    destruct H as (c1 & H1 & H2). rewrite clients_part in H1. by exists c1. }
  destruct (String.eqb (ToUpper w) "PRIVMSG"); [by split; [|left]|].
  destruct (String.eqb (ToUpper w) "QUIT"); [exact Hquit|].
  destruct (own_command s i c (ToUpper w) (channel :: rest)) as [c' sends] eqn:Eo.
  apply own_command_spec in Eo as Hev; [|done]. cbn [fst]. split; [by apply (mock_ok_own i c _ s sends)|].
  intros j (c1 & H1 & H2). rewrite lookup_on_client in H1. case_decide as Hd; [|left; by exists c1].
  subst j. rewrite Hi in H1. injection H1 as <-.
  destruct (own_command_auth _ _ _ _ _ _ _ Eo) as [Ha|(Hcmd & encoded & r & [= -> ->] & Hv)].
  - left. exists c. split; congruence.
  - right. split; [done|]. split; [by exists c|]. by exists w, encoded, r.
Qed.

Lemma new_mock_ok : mock_ok NewIRCServer.
Proof.
  split; [|done|done]. intros channel i. split; [by intros (? & ? & _)|by intros (? & ? & _)].
Qed.

Lemma lookup_accept s j c :
  is_clients (accept s) !! j = Some c → is_clients s !! j = Some c ∨ c = new_client.
Proof.
  unfold accept. cbn [is_clients]. intros [H|[_ H]]%lookup_app_Some; [by left|].
  apply list_lookup_singleton_Some in H as [_ <-]. by right.
Qed.

Lemma step_ok s s' :
  mock_ok s → mock_step s s' →
  mock_ok s' ∧
  ∀ j, authenticated s' j → authenticated s j ∨ ∃ line, s' = (handle_line j line s).1 ∧ shows s j line.
Proof.
  intros Hok Hstep. revert Hok. destruct Hstep as [u p s0|s0|i c line s0 Hi Hrun|i s0|s0]; intros Hok.
  - split; [by destruct Hok|]. intros j H. left. exact H.
  - split.
    + destruct Hok as [Hm Hn Hw]. split; [|exact Hn|].
      * intros channel i. rewrite (Hm channel i). split.
        -- intros (c & H1 & H2). exists c. split; [by apply lookup_app_l_Some|done].
        -- intros (c & [H1| ->]%lookup_accept & H2 & H3); [by exists c|]. by apply not_elem_of_empty in H3.
      * intros i c [H| ->]%lookup_accept; [by apply (Hw i)|by intros ?].
    + intros j (c & [H1| ->]%lookup_accept & H2); [|done]. left. by exists c.
  - destruct (line_ok s0 i c line Hok Hi Hrun) as [H1 H2]. split; [exact H1|].
    intros j [H|[-> H]]%H2; [by left|right; by exists line].
  - split; [by apply mock_ok_hang_up|]. intros j H. left. by apply authenticated_on_client in H.
  - split; [by destruct Hok|]. intros j H. left. exact H.
Qed.

Lemma reachable_mock_ok s : rtc mock_step NewIRCServer s → mock_ok s.
Proof. apply rtc_invariant; [|apply new_mock_ok]. intros s1 s2 H1 H2. by apply (step_ok s1 s2). Qed.

Lemma accepted_account s encoded :
  validateSASL s encoded = true →
  ∃ authzid username password, base64_decode encoded = Some (authzid +:+ String "000" (username +:+ String "000" password)) ∧
    is_Accounts s !! username = Some password.
Proof.
  unfold validateSASL, SplitN3. destruct (base64_decode encoded) as [d|]; [|done].
  destruct (cut "000" d) as [[a rest]|] eqn:E1; [|done].
  destruct (cut "000" rest) as [[u p]|] eqn:E2; [|done].
  intros H%bool_decide_eq_true. apply cut_Some in E1 as ->. apply cut_Some in E2 as ->. by exists a, u, p.
Qed.

(** C39. The server's tables agree, whatever the clients do: a client is a member of a
    channel exactly while it is connected and has joined it, a channel without
    members is forgotten, and a client that was welcomed has a nick and a user name
    and has itself sent, on its connection and before, an AUTHENTICATE line with the
    name and the password of an account that the server had then. *)
Theorem mock_invariant s :
  rtc mock_step NewIRCServer s →
  (∀ channel i, in_channel s channel i ↔
     ∃ c, is_clients s !! i = Some c ∧ mk_running c = true ∧ channel ∈ mk_joinedCh c) ∧
  (∀ channel, is_Some (is_channels s !! channel) ↔ ∃ i, in_channel s channel i) ∧
  ∀ i c, is_clients s !! i = Some c → mk_welcomed c = true →
    mk_nick c ≠ "" ∧ mk_user c ≠ "" ∧
    ∃ before c0 line cmd encoded rest authzid username password,
      rtc mock_step NewIRCServer before ∧
      is_clients before !! i = Some c0 ∧ mk_running c0 = true ∧
      Fields line = cmd :: encoded :: rest ∧ ToUpper cmd = "AUTHENTICATE" ∧
      base64_decode encoded = Some (authzid +:+ String "000" (username +:+ String "000" password)) ∧
      is_Accounts before !! username = Some password ∧
      rtc mock_step (handle_line i line before).1 s.
Proof.
  intros Hr. pose proof (reachable_mock_ok s Hr) as [Hm Hn Hw]. split_and!; [exact Hm| |].
  - intros channel. split; [|intros (i & m & H & _); by exists m].
    intros [m H]. apply Hn in H as Hne. apply map_choose in Hne as (i & [] & Hi). exists i, m. by split.
  - intros i c Hi Hwel. destruct (Hw i c Hi Hwel) as (H1 & H2 & H3). split_and!; [done|done|].
    assert (∀ j, authenticated s j → ∃ before line, rtc mock_step NewIRCServer before ∧ shows before j line ∧
      rtc mock_step (handle_line j line before).1 s) as Hauth.
    { revert s Hr Hm Hn Hw Hi Hwel. clear H1 H2 H3. intros s Hr _ _ _ _ _.
      apply (rtc_ind_r (R := mock_step) (λ s, ∀ j, authenticated s j → ∃ before line,
        rtc mock_step NewIRCServer before ∧ shows before j line ∧
        rtc mock_step (handle_line j line before).1 s) NewIRCServer); [by intros j (? & ? & _)| |exact Hr].
      intros s1 s2 Hr1 Hstep IH j [H|(line & -> & H)]%(proj2 (step_ok s1 s2 (reachable_mock_ok s1 Hr1) Hstep)).
      - destruct (IH j H) as (b & line & Hb1 & Hb2 & Hb3). exists b, line. split_and!; [done|done|by eapply rtc_r].
      - by exists s1, line. }
    destruct (Hauth i) as (before & line & Hb1 & ((c0 & Hc0 & Hrun) & cmd & encoded & rest & Hf & Hcmd & He) & Hb2);
      [by exists c|].
    apply accepted_account in He as (a & u & p & Hd & Ha).
    by exists before, c0, line, cmd, encoded, rest, a, u, p.
Qed.

(** *** Authentication *)

(** What a client encodes is what the server checks: the credentials of SASL PLAIN
    are accepted exactly when they are those of an account. *)
Theorem sasl_roundtrip s authzid username password :
  in_string "000" authzid = false → in_string "000" username = false →
  validateSASL s (base64_encode (authzid +:+ String "000" (username +:+ String "000" password))) =
    bool_decide (is_Accounts s !! username = Some password).
Proof.
  intros Ha Hu. unfold validateSASL, SplitN3. rewrite base64_roundtrip, cut_app, cut_app by done. done.
Qed.

(** *** Messages *)

Definition nick_of (s : IRCServer) (i : nat) : string := from_option mk_nick "" (is_clients s !! i).

(** Who gets what a nick sends to a channel, as [Network] has it. *)
Definition nick_members (s : IRCServer) (from target : string) : list string :=
  match list_find (λ c, mk_nick c = from ∧ mk_running c = true) (is_clients s) with
  | Some (i, _) => nick_of s <$> other_members target i s
  | None => []
  end.

Lemma elem_of_other_members s channel i j :
  j ∈ other_members channel i s ↔ j ≠ i ∧ in_channel s channel j.
Proof.
  unfold other_members, in_channel. destruct (is_channels s !! channel) as [m|].
  - rewrite elem_of_filter_bool, negb_true_iff, Nat.eqb_neq, elem_of_range_fst. naive_solver.
  - rewrite elem_of_nil. naive_solver.
Qed.

Lemma NoDup_other_members s channel i : NoDup (other_members channel i s).
Proof.
  unfold other_members. destruct (is_channels s !! channel) as [m|]; [|constructor].
  apply NoDup_ListNoDup, List.NoDup_filter, NoDup_ListNoDup, NoDup_fst_range.
Qed.

(** The parts of a line to a channel. *)
Lemma privmsg_parts target words :
  word target = true → Forall (λ w, word w = true) words →
  ∃ rest, rest ≠ [] ∧ Fields ("PRIVMSG " +:+ target +:+ " :" +:+ Join words " ") = "PRIVMSG" :: target :: rest ∧
    TrimPrefix (Join rest " ") ":" = Join words " ".
Proof.
  intros Ht Hw. exists (match words with [] => [":"] | w :: ws => (":" +:+ w) :: ws end).
  set (rest := match words with [] => _ | _ => _ end).
  assert (Forall (λ w, word w = true) rest ∧ Join rest " " = ":" +:+ Join words " ") as [Hr Hj].
  { unfold rest. destruct Hw as [|w ws Hw Hws]; [by repeat constructor|]. split.
    - constructor; [|done]. unfold word in *. apply andb_prop in Hw as [_ Hw].
      rewrite app_str_cons, app_str_nil_l. cbn [all_bytes]. rewrite Hw. reflexivity.
    - destruct ws; [done|]. by rewrite !app_str_cons, !app_str_nil_l. }
  split; [unfold rest; by destruct words|]. split; [|by rewrite Hj, TrimPrefix_app].
  assert ("PRIVMSG " +:+ target +:+ " :" +:+ Join words " " = Join ("PRIVMSG" :: target :: rest) " ") as ->.
  { assert (∃ r rs, rest = r :: rs) as (r & rs & Er) by (unfold rest; destruct words; eauto).
    rewrite Er in *. change (Join ("PRIVMSG" :: target :: r :: rs) " ")
      with ("PRIVMSG" +:+ " " +:+ (target +:+ " " +:+ Join (r :: rs) " ")). by rewrite Hj. }
  apply Fields_Join. repeat constructor; done.
Qed.

(** A channel message goes to the members, once each, as it was written: what a client
    sends to a channel, in words that single blanks separate, is echoed to itself and
    written to every other client that is connected and in the channel, with the
    sender's nick and the same text, and to nobody else. *)
Lemma channel_message s i c target words now :
  rtc mock_step NewIRCServer s → is_clients s !! i = Some c → mk_running c = true →
  (∀ j c', is_clients s !! j = Some c' → mk_running c' = true → mk_nick c' = mk_nick c → i ≤ j) →
  word target = true → HasPrefix target "#" = true → Forall (λ w, word w = true) words →
  let text := Join words " " in
  let full := ":" +:+ mk_nick c +:+ "!" +:+ mk_user c +:+ "@localhost PRIVMSG " +:+ target +:+ " :" +:+ text in
  let deliveries := fan_out (nick_members s) now (mk_nick c) (target, text) in
  ∃ others,
    handle_line i ("PRIVMSG " +:+ target +:+ " :" +:+ text) s = (s, (i, full) :: ((λ j, (j, full)) <$> others)) ∧
    NoDup others ∧
    (∀ j, j ∈ others ↔ j ≠ i ∧
       ∃ c', is_clients s !! j = Some c' ∧ mk_running c' = true ∧ target ∈ mk_joinedCh c') ∧
    (dl_to <$> deliveries) = nick_of s <$> others ∧
    Forall (λ d, ev_Message (dl_event d) = text ∧ ev_Channel (dl_event d) = target ∧
                 ev_Nick (dl_event d) = mk_nick c ∧ ev_Timestamp (dl_event d) = now) deliveries.
Proof.
  intros Hr Hi Hrun Hfirst Ht Hp Hw. cbn zeta. pose proof (reachable_mock_ok s Hr) as [Hm _ _].
  exists (other_members target i s). split_and!.
  - destruct (privmsg_parts target words Ht Hw) as (rest & Hne & Hf & Hj). unfold handle_line. rewrite Hi, Hf.
    destruct rest as [|r rest]; [done|].
    cbn [String.eqb Ascii.eqb Bool.eqb ToUpper decide]. change (ToUpper "PRIVMSG") with "PRIVMSG".
    cbn [String.eqb Ascii.eqb Bool.eqb]. unfold handle_PRIVMSG. rewrite Hj, Hp. unfold source, broadcastToChannel.
    by rewrite <- !app_str_assoc.
  - apply NoDup_other_members.
  - intros j. by rewrite elem_of_other_members, Hm.
  - unfold fan_out. rewrite <- list_fmap_compose. unfold nick_members.
    assert (list_find (λ c', mk_nick c' = mk_nick c ∧ mk_running c' = true) (is_clients s) = Some (i, c)) as ->.
    { apply list_find_Some. split_and!; [done..|]. intros j c' Hj Hlt [Hn Hr']. specialize (Hfirst j c' Hj Hr' Hn). lia. }
    cbn [fst]. induction (nick_of s <$> other_members target i s) as [|n l IH]; [done|]. cbn. by f_equal.
  - unfold fan_out. apply Forall_fmap, Forall_true. done.
Qed.

(** Words that single blanks separate. *)
Definition single_spaced (text : string) : bool :=
  forallb word (Fields text) && String.eqb (Join (Fields text) " ") text.

(** C40. What an agent says on a channel is what the others hear: when an agent that is a
    client of the server, the first of those with its nick that are connected, sends a
    well-formed message (C3) to a channel, its line, in which single blanks separate
    the words, is echoed to itself and written to every other client that is connected
    and in the channel, once each, and to nobody else, while the server's state stays
    as it is. These are the deliveries that [Network] assumes, and each receiver whose
    access rules let the sender do this there dispatches the very message that was
    sent, with the sender's nick and the channel; one whose rules do not let it does
    nothing, and the sender drops the echo. *)
Theorem messages_served lower s i c clk ag target msg ag' fx now :
  rtc mock_step NewIRCServer s → is_clients s !! i = Some c → mk_running c = true →
  (∀ j c', is_clients s !! j = Some c' → mk_running c' = true → mk_nick c' = mk_nick c → i ≤ j) →
  mk_nick c = ag_nick ag → SendProtocolMessage clk ag target msg = Sent ag' fx →
  wf_message msg = true → single_spaced (Message_String msg) = true →
  word target = true → HasPrefix target "#" = true →
  ∃ text others, fx_sent fx = [(target, text)] ∧
    let full := ":" +:+ ag_nick ag +:+ "!" +:+ mk_user c +:+ "@localhost PRIVMSG " +:+ target +:+ " :" +:+ text in
    let deliveries := fan_out (nick_members s) now (ag_nick ag) (target, text) in
    handle_line i ("PRIVMSG " +:+ target +:+ " :" +:+ text) s = (s, (i, full) :: ((λ j, (j, full)) <$> others)) ∧
    NoDup others ∧
    (∀ j, j ∈ others ↔ j ≠ i ∧
       ∃ c', is_clients s !! j = Some c' ∧ mk_running c' = true ∧ target ∈ mk_joinedCh c') ∧
    (dl_to <$> deliveries) = nick_of s <$> others ∧
    ∀ d, d ∈ deliveries → ∀ clk2 self pd,
      handleMessage lower clk2 self pd (dl_event d) =
        if String.eqb self (ag_nick ag) || negb (allowed pd (ag_nick ag) target (msg_Action msg))
        then (pd, no_effects)
        else dispatch lower clk2 pd (msg <| msg_Channel := target |> <| msg_Nick := ag_nick ag |>
               <| msg_Timestamp := if IsZero now then clk2 0 else now |>).
Proof.
  intros Hr Hi Hrun Hfirst Hnick Hsend Hwf [Hw He%String.eqb_eq]%andb_prop Ht Hp.
  apply sent_one in Hsend. exists (Message_String msg).
  destruct (channel_message s i c target (Fields (Message_String msg)) now Hr Hi Hrun Hfirst Ht Hp)
    as (others & H1 & H2 & H3 & H4 & H5).
  { apply Forall_forall. intros w Hin. rewrite forallb_forall in Hw. by apply Hw, list_elem_of_In. }
  rewrite He, Hnick in *. exists others. split; [done|]. cbn zeta. split_and!; [done..|].
  intros d Hd clk2 self pd. rewrite Forall_forall in H5. destruct (H5 d Hd) as (Hm & Hc & Hn & Hts).
  destruct (String.eqb_spec self (ag_nick ag)) as [->|Hne].
  - unfold handleMessage, accept_message. destruct (negb _); [done|].
    by rewrite bool_decide_eq_true_2.
  - rewrite (handleMessage_read lower clk2 self pd msg) by congruence.
    unfold received. rewrite Hc, Hn, Hts. cbn [orb]. by destruct (allowed _ _ _ _).
Qed.

(** Lines that the clients send, one after the other; [None] when one of them is not
    connected. *)
Fixpoint feed (events : list (nat * string)) (s : IRCServer) : option IRCServer :=
  match events with
  | [] => Some s
  | (i, line) :: events =>
      c ← is_clients s !! i;
      if mk_running c then feed events (handle_line i line s).1 else None
  end.

Lemma feed_steps events s s' : feed events s = Some s' → rtc mock_step s s'.
Proof.
  revert s. induction events as [|[i line] events IH]; intros s; cbn [feed]; [by intros [= <-]|].
  destruct (is_clients s !! i) as [c|] eqn:Hi; [|done]. cbn [mbind option_bind].
  destruct (mk_running c) eqn:Hr; [|done]. intros H. eapply rtc_l; [|by apply IH]. by eapply mock_line.
Qed.
End theorems.

(** ** The server of the demonstration *)

(** What a client sends until it is in the channels. *)
Definition connects (i : nat) (nick user password : string) (channels : list string) : list (nat * string) :=
  pair i <$>
  (["CAP LS 302"; "NICK " +:+ nick; "USER " +:+ user +:+ " 0 * :Demo Agent"; "CAP REQ :sasl";
    "AUTHENTICATE PLAIN";
    "AUTHENTICATE " +:+ base64_encode (String "000" (user +:+ String "000" password)); "CAP END"] ++
   ((λ channel, "JOIN " +:+ channel) <$> channels)).

(** [run] of [examples/multi-agent/main.go] adds the accounts. *)
Definition demo_accounts : IRCServer :=
  NewIRCServer <| is_Accounts := <["dave" := "dave-pass"]> (<["carol" := "carol-pass"]>
    (<["bob" := "bob-pass"]> (<["alice" := "alice-pass"]> (is_Accounts NewIRCServer)))) |>.

Definition demo_lines : list (nat * string) :=
  connects 0 "alice-1" "alice" "alice-pass" demo_channels ++ connects 1 "bob-2" "bob" "bob-pass" demo_channels ++
  connects 2 "carol-3" "carol" "carol-pass" demo_channels ++ connects 3 "dave-4" "dave" "dave-pass" demo_channels.

Definition demo_server : option IRCServer := feed demo_lines (accept (accept (accept (accept demo_accounts)))).

Lemma demo_accounts_steps : rtc mock_step NewIRCServer demo_accounts.
Proof.
  eapply rtc_l; [apply (mock_account "alice" "alice-pass")|].
  eapply rtc_l; [apply (mock_account "bob" "bob-pass")|].
  eapply rtc_l; [apply (mock_account "carol" "carol-pass")|].
  apply rtc_once, (mock_account "dave" "dave-pass").
Qed.

Lemma demo_server_reachable s : demo_server = Some s → rtc mock_step NewIRCServer s.
Proof.
  intros H%feed_steps. etrans; [apply demo_accounts_steps|].
  do 4 (eapply rtc_l; [apply mock_accept|]). exact H.
Qed.

(** Whether everybody of the demonstration is welcome, and whether the server delivers
    to whom [demo_members] says. *)
Definition demo_delivers (s : IRCServer) : bool :=
  forallb mk_welcomed (is_clients s) &&
  forallb (λ from, forallb (λ target,
    bool_decide (nick_members s from target ≡ₚ demo_members from target)) demo_channels) demo_names.

(** The demonstration's network is that of its server: when the four agents have
    connected, all are welcome, and what one of them sends to a channel goes to the
    other three. *)
Theorem demo_members_served :
  ∃ s, demo_server = Some s ∧ rtc mock_step NewIRCServer s ∧ demo_delivers s = true.
Proof.
  assert (demo_delivers <$> demo_server = Some true) as H by (vm_compute; reflexivity).
  destruct demo_server as [s|] eqn:E; [|done]. exists s. split; [done|].
  split; [by apply demo_server_reachable|]. by injection H.
Qed.

(** Blanks are not kept: a text with two blanks in a row arrives with one. *)
Example blanks_squeezed :
  snd <$> (demo_server ≫= λ s, last (handle_line 0 "PRIVMSG #help-desk :a  b" s).2) =
    Some ":alice-1!alice@localhost PRIVMSG #help-desk :a b".
Proof. vm_compute. reflexivity. Qed.

(** A client that comes back is not found by its nick: a private message goes to the
    connection that is gone. *)
Example private_to_the_gone :
  (s ← demo_server;
   s ← feed ([(0, "QUIT :bye")] ++ connects 4 "alice-1" "alice" "alice-pass" demo_channels) (accept s);
   c ← is_clients s !! 0;
   Some (mk_running c, (handle_line 1 "PRIVMSG alice-1 :hello" s).2)) =
  Some (false, [(0, ":bob-2!bob@localhost PRIVMSG alice-1 :hello")]).
Proof. vm_compute. reflexivity. Qed.

Lemma mock_invariant_witness :
  ∃ s, demo_server = Some s ∧ ∀ i c, is_clients s !! i = Some c → mk_welcomed c = true → mk_nick c ≠ "".
Proof.
  assert (is_Some demo_server) as [s Hs] by (vm_compute; by eexists).
  exists s. split; [exact Hs|]. intros i c Hi Hw.
  destruct (mock_invariant s (demo_server_reachable s Hs)) as (_ & _ & H). by apply (H i c Hi Hw).
Defined.

Lemma sasl_roundtrip_witness :
  validateSASL NewIRCServer (base64_encode ("" +:+ String "000" ("testuser" +:+ String "000" "testpass"))) = true.
Proof. rewrite sasl_roundtrip by reflexivity. reflexivity. Defined.

(** Alice says on the server of the demonstration that she has started. *)
Definition served_agent : Agent := initProtocol Convergence.sample_config "alice-1" NewStateStore.

Definition served_message : Message := msg_AnnounceStarted "db-migration" "high" ["infrastructure"].

Lemma messages_served_witness :
  ∃ s text others full, demo_server = Some s ∧
    handle_line 0 ("PRIVMSG #help-desk :" +:+ text) s = (s, (0, full) :: ((λ j, (j, full)) <$> others)) ∧
    NoDup others.
Proof.
  assert (mk_nick <$> (demo_server ≫= λ s, is_clients s !! 0) = Some "alice-1") as Hn by (vm_compute; reflexivity).
  assert (mk_running <$> (demo_server ≫= λ s, is_clients s !! 0) = Some true) as Hr by (vm_compute; reflexivity).
  destruct demo_server as [s|] eqn:Es; [|discriminate]. cbn [mbind option_bind] in *.
  destruct (is_clients s !! 0) as [c|] eqn:Ec; [|discriminate].
  destruct (SendProtocolMessage (λ _, 7%Z) served_agent "#help-desk" served_message) as [ag' fx|?|? ?|] eqn:Esend;
    [|exfalso; clear -Esend; vm_compute in Esend; discriminate..].
  destruct (messages_served ToLower s 0 c (λ _, 7%Z) served_agent "#help-desk" served_message ag' fx 8%Z)
    as (text & others & _ & H & Hd & _).
  - by apply demo_server_reachable.
  - exact Ec.
  - by injection Hr.
  - intros; lia.
  - by injection Hn.
  - exact Esend.
  - vm_compute. reflexivity.
  - vm_compute. reflexivity.
  - reflexivity.
  - reflexivity.
  - exists s, text, others. eexists. split; [reflexivity|]. split; [exact H|exact Hd].
Defined.
