(* ===== verification/Instances.v ===== *)
(** * Running agents: [internal/spawner/local.go], [ssh.go], [docker.go]

    The interface [Spawner] and its three implementations. What a spawner asks of
    the outside (starting a process, running [ssh] or [docker], signals, health
    polls) is a record of functions per implementation, its [World]; a result of
    an external command is the error, if any, and the output. The methods that
    change the instance they are given by pointer return it. *)

From S2P Require Import Prelude GoStrings GoNum GoFloat GoFlag Config Spawner.

(** ** [InstanceStatus] *)
Definition StatusPending : string := "pending".
Definition StatusStarting : string := "starting".
Definition StatusRunning : string := "running".
Definition StatusStopping : string := "stopping".
Definition StatusStopped : string := "stopped".
Definition StatusFailed : string := "failed".

Record AgentInstance := {
  in_ID : string;
  in_Nick : string;
  in_SpawnerType : string;
  in_Host : string;
  in_ContainerID : string;
  in_DashboardURL : string;
  in_Error : string;
  in_Config : SpawnConfig;
  in_Status : string;
  in_PID : Z;
  in_StartedAt : Time;
  in_StoppedAt : Time
}.

#[export] Instance AgentInstance_eta : RecordEta AgentInstance := λ r,
  {| in_ID := in_ID r; in_Nick := in_Nick r; in_SpawnerType := in_SpawnerType r;
     in_Host := in_Host r; in_ContainerID := in_ContainerID r;
     in_DashboardURL := in_DashboardURL r; in_Error := in_Error r; in_Config := in_Config r;
     in_Status := in_Status r; in_PID := in_PID r; in_StartedAt := in_StartedAt r;
     in_StoppedAt := in_StoppedAt r |}.

(** The error of a step of the lifecycle: the text added by the spawner and the
    error it wraps, if any. *)
Record SpawnError := { se_text : string; se_cause : option string }.

Abbreviation error := (option SpawnError) (only parsing).

Definition failed (text : string) : error := Some {| se_text := text; se_cause := None |}.
Definition wrapped (text cause : string) : error := Some {| se_text := text; se_cause := Some cause |}.

(** ** The interface *)
Record Spawner := {
  sp_Type : string;
  sp_PreSpawn : SpawnConfig → error;
  sp_Spawn : SpawnConfig → SpawnError + AgentInstance;
  sp_PostSpawn : AgentInstance → AgentInstance * error;
  sp_PreStop : AgentInstance → AgentInstance * error;
  sp_Stop : AgentInstance → AgentInstance * error;
  sp_PostStop : AgentInstance → AgentInstance * error;
  sp_Status : AgentInstance → string
}.

(** [inst.Status = StatusStopped; inst.StoppedAt = time.Now()] *)
Definition stopped (now : Time) (inst : AgentInstance) : AgentInstance :=
  inst <| in_Status := StatusStopped |> <| in_StoppedAt := now |>.

(** ** Local processes *)

(** One round of the health polls: the context is done, or the answer (or lack of
    one) of the agent's dashboard. *)
Inductive Poll := PollCancelled (err : string) | PollAnswer (ok : bool).

(** One round of the wait for the process to end. *)
Inductive WaitRound := ProcessGone | WaitCancelled (err : string) | StillThere.

Record LocalWorld := {
  lw_stat : string → option string;
  lw_start : string → list string → string + Z;
  lw_now : Time;
  lw_polls : string → list Poll;
  lw_FindProcess : Z → bool;
  lw_terminate : Z → option string;
  lw_wait : Z → list WaitRound;
  lw_processAlive : Z → bool
}.

Section local.
Context `{MR : MapRange} (w : LocalWorld).

Definition local_PreSpawn (cfg : SpawnConfig) : error :=
  match sc_Validate cfg with
  | Some err => wrapped "local" err
  | None =>
      if bool_decide (sc_BinaryPath cfg = "") then failed "local: binary_path is required"
      else
        match lw_stat w (sc_BinaryPath cfg) with
        | Some err => wrapped "local: binary not found" err
        | None => None
        end
  end.

Definition local_Spawn (cfg : SpawnConfig) : SpawnError + AgentInstance :=
  let args := BuildCLIArgs cfg in
  match lw_start w (sc_BinaryPath cfg) args with
  | inl err => inl {| se_text := "local: start"; se_cause := Some err |}
  | inr pid =>
      inr {| in_ID := "local-" +:+ sc_Nick cfg +:+ "-" +:+ FormatInt pid;
             in_Nick := sc_Nick cfg; in_SpawnerType := "local"; in_Host := "localhost";
             in_ContainerID := "";
             in_DashboardURL := if bool_decide (sc_DashboardAddr cfg = "") then ""
                                else "http://localhost" +:+ sc_DashboardAddr cfg;
             in_Error := ""; in_Config := cfg; in_Status := StatusStarting; in_PID := pid;
             in_StartedAt := lw_now w; in_StoppedAt := zero_time |}
  end.

(** The polls until the deadline. *)
Fixpoint poll_health (polls : list Poll) (inst : AgentInstance) : AgentInstance * error :=
  match polls with
  | [] => (inst <| in_Status := StatusRunning |>, None)
  | PollCancelled err :: _ => (inst, failed err)
  | PollAnswer true :: _ => (inst <| in_Status := StatusRunning |>, None)
  | PollAnswer false :: polls => poll_health polls inst
  end.

Definition local_PostSpawn (inst : AgentInstance) : AgentInstance * error :=
  if bool_decide (in_DashboardURL inst = "") then (inst <| in_Status := StatusRunning |>, None)
  else poll_health (lw_polls w (in_DashboardURL inst +:+ "/health")) inst.

Definition local_PreStop (inst : AgentInstance) : AgentInstance * error :=
  if bool_decide (in_PID inst ≤ 0)%Z then (inst, failed ("local: no PID for " +:+ in_Nick inst))
  else
    let inst := inst <| in_Status := StatusStopping |> in
    if negb (lw_FindProcess w (in_PID inst)) then (inst, None)
    else (inst, match lw_terminate w (in_PID inst) with Some err => failed err | None => None end).

(** The rounds until the deadline; after it the process is killed. *)
Fixpoint wait_stopped (rounds : list WaitRound) (inst : AgentInstance) : AgentInstance * error :=
  match rounds with
  | [] => (stopped (lw_now w) inst, None)
  | ProcessGone :: _ => (stopped (lw_now w) inst, None)
  | WaitCancelled err :: _ => (stopped (lw_now w) inst, failed err)
  | StillThere :: rounds => wait_stopped rounds inst
  end.

Definition local_Stop (inst : AgentInstance) : AgentInstance * error :=
  if bool_decide (in_PID inst ≤ 0)%Z then (stopped (lw_now w) inst, None)
  else wait_stopped (lw_wait w (in_PID inst)) inst.

(** The signals of [PreStop] and [Stop]: the wait of [Stop] ran out of time with
    the process still there, so it is killed. *)
Fixpoint out_of_time (rounds : list WaitRound) : bool :=
  match rounds with
  | [] => true
  | StillThere :: rounds => out_of_time rounds
  | _ => false
  end.

Definition local_kills (inst : AgentInstance) : list string :=
  if bool_decide (in_PID inst ≤ 0)%Z || negb (lw_FindProcess w (in_PID inst)) then []
  else "SIGTERM" :: if out_of_time (lw_wait w (in_PID inst)) then ["SIGKILL"] else [].

Definition local_Status (inst : AgentInstance) : string :=
  if bool_decide (in_PID inst ≤ 0)%Z then StatusStopped
  else if lw_processAlive w (in_PID inst) then StatusRunning
  else StatusStopped.

Definition LocalSpawner : Spawner :=
  {| sp_Type := "local"; sp_PreSpawn := local_PreSpawn; sp_Spawn := local_Spawn;
     sp_PostSpawn := local_PostSpawn; sp_PreStop := local_PreStop; sp_Stop := local_Stop;
     sp_PostStop := λ inst, (inst, None); sp_Status := local_Status |}.
End local.

(** ** SSH *)

(** [ssh_run args] runs [ssh] with the arguments: the error and the output. *)
Record SSHWorld := {
  sw_run : list string → option string * string;
  sw_now : Time
}.

Definition buildSSHArgs (cfg : SpawnConfig) (remoteCmd : string) : list string :=
  ["-o"; "StrictHostKeyChecking=no"; "-o"; "BatchMode=yes"] ++
  (if bool_decide (sc_SSHKeyPath cfg = "") then [] else ["-i"; sc_SSHKeyPath cfg]) ++
  [if bool_decide (sc_SSHUser cfg = "") then sc_SSHHost cfg
   else sc_SSHUser cfg +:+ "@" +:+ sc_SSHHost cfg; remoteCmd].

Definition BuildSSHCommand (cfg : SpawnConfig) (remoteCmd : string) : list string :=
  "ssh" :: buildSSHArgs cfg remoteCmd.

(** The text that the remote shell gets. *)
Definition ssh_remote_command `{MapRange} (cfg : SpawnConfig) : string :=
  let agentArgs := BuildCLIArgs cfg in
  let remoteCmd := sc_BinaryPath cfg +:+ " " +:+ Join agentArgs " " in
  "nohup " +:+ remoteCmd +:+ " > /dev/null 2>&1 & echo $!".

Section ssh.
Context `{MR : MapRange} (w : SSHWorld).

Definition ssh_PreSpawn (cfg : SpawnConfig) : error :=
  match sc_Validate cfg with
  | Some err => wrapped "ssh" err
  | None =>
      if bool_decide (sc_SSHHost cfg = "") then failed "ssh: ssh_host is required"
      else if bool_decide (sc_SSHUser cfg = "") then failed "ssh: ssh_user is required"
      else if bool_decide (sc_BinaryPath cfg = "")
      then failed "ssh: binary_path is required (remote path)"
      else None
  end.

(** [pid, _ := strconv.Atoi(pidStr)]: the error is dropped. *)
Definition ssh_Spawn (cfg : SpawnConfig) : SpawnError + AgentInstance :=
  let sshArgs := buildSSHArgs cfg (ssh_remote_command cfg) in
  let '(err, out) := sw_run w sshArgs in
  match err with
  | Some err => inl {| se_text := "ssh spawn"; se_cause := Some (err +:+ ": " +:+ out) |}
  | None =>
      let pid := (ParseInt (TrimSpace out)).1 in
      inr {| in_ID := "ssh-" +:+ sc_SSHHost cfg +:+ "-" +:+ sc_Nick cfg +:+ "-" +:+ FormatInt pid;
             in_Nick := sc_Nick cfg; in_SpawnerType := "ssh"; in_Host := sc_SSHHost cfg;
             in_ContainerID := "";
             in_DashboardURL := if bool_decide (sc_DashboardAddr cfg = "") then ""
                                else "http://" +:+ sc_SSHHost cfg +:+ sc_DashboardAddr cfg;
             in_Error := ""; in_Config := cfg; in_Status := StatusStarting; in_PID := pid;
             in_StartedAt := sw_now w; in_StoppedAt := zero_time |}
  end.

Definition ssh_PostSpawn (inst : AgentInstance) : AgentInstance * error :=
  (inst <| in_Status := StatusRunning |>, None).

(** The result of [kill] is dropped, so running it changes nothing here. *)
Definition ssh_PreStop (inst : AgentInstance) : AgentInstance * error :=
  if bool_decide (in_PID inst ≤ 0)%Z then (inst, None)
  else (inst <| in_Status := StatusStopping |>, None).

Definition ssh_Status (inst : AgentInstance) : string :=
  if bool_decide (in_PID inst ≤ 0)%Z then StatusStopped
  else
    let remoteCmd := "kill -0 " +:+ FormatInt (in_PID inst) +:+
                     " 2>/dev/null && echo alive || echo dead" in
    let out := (sw_run w (buildSSHArgs (in_Config inst) remoteCmd)).2 in
    if bool_decide (TrimSpace out = "alive") then StatusRunning else StatusStopped.

(** The remote commands of [PreStop] and [Stop]. *)
Definition ssh_kills (inst : AgentInstance) : list string :=
  if bool_decide (in_PID inst ≤ 0)%Z then []
  else ("kill -TERM " +:+ FormatInt (in_PID inst)) ::
       if bool_decide (ssh_Status inst = StatusRunning)
       then ["kill -KILL " +:+ FormatInt (in_PID inst)] else [].

Definition ssh_Stop (inst : AgentInstance) : AgentInstance * error :=
  (stopped (sw_now w) inst, None).

Definition SSHSpawner : Spawner :=
  {| sp_Type := "ssh"; sp_PreSpawn := ssh_PreSpawn; sp_Spawn := ssh_Spawn;
     sp_PostSpawn := ssh_PostSpawn; sp_PreStop := ssh_PreStop; sp_Stop := ssh_Stop;
     sp_PostStop := λ inst, (inst, None); sp_Status := ssh_Status |}.
End ssh.

(** ** Docker *)

(** [docker_run args]: the error, the output and the error output. *)
Record DockerWorld := {
  dw_run : list string → option string * string * string;
  dw_now : Time
}.

Definition buildDockerRunArgs `{MapRange} (cfg : SpawnConfig) : list string :=
  ["run"; "-d"; "--name"; sc_Nick cfg] ++
  (if bool_decide (sc_DockerNetwork cfg = "") then [] else ["--network"; sc_DockerNetwork cfg]) ++
  [sc_DockerImage cfg] ++ BuildCLIArgs cfg.

Definition BuildDockerRunCommand `{MapRange} (cfg : SpawnConfig) : list string :=
  "docker" :: buildDockerRunArgs cfg.

Section docker.
Context `{MR : MapRange} (w : DockerWorld).

Definition docker_PreSpawn (cfg : SpawnConfig) : error :=
  match sc_Validate cfg with
  | Some err => wrapped "docker" err
  | None =>
      if bool_decide (sc_DockerImage cfg = "") then failed "docker: docker_image is required"
      else None
  end.

Definition docker_Spawn (cfg : SpawnConfig) : SpawnError + AgentInstance :=
  let '(err, out, errOut) := dw_run w (buildDockerRunArgs cfg) in
  match err with
  | Some err => inl {| se_text := "docker spawn"; se_cause := Some (err +:+ ": " +:+ errOut) |}
  | None =>
      let containerID := String.substring 0 12 (TrimSpace out) in
      inr {| in_ID := "docker-" +:+ sc_Nick cfg +:+ "-" +:+ containerID;
             in_Nick := sc_Nick cfg; in_SpawnerType := "docker"; in_Host := "";
             in_ContainerID := containerID;
             in_DashboardURL := if bool_decide (sc_DashboardAddr cfg = "") then ""
                                else "http://" +:+ containerID +:+ sc_DashboardAddr cfg;
             in_Error := ""; in_Config := cfg; in_Status := StatusStarting; in_PID := 0;
             in_StartedAt := dw_now w; in_StoppedAt := zero_time |}
  end.

Definition docker_PostSpawn (inst : AgentInstance) : AgentInstance * error :=
  (inst <| in_Status := StatusRunning |>, None).

Definition docker_PreStop (inst : AgentInstance) : AgentInstance * error :=
  (inst <| in_Status := StatusStopping |>, None).

(** The commands that [Stop] runs, whose results it drops. *)
Definition docker_stops (inst : AgentInstance) : list (list string) :=
  if bool_decide (in_ContainerID inst = "") then []
  else [["stop"; in_ContainerID inst]; ["rm"; in_ContainerID inst]].

Definition docker_Stop (inst : AgentInstance) : AgentInstance * error :=
  (stopped (dw_now w) inst, None).

Definition docker_Status (inst : AgentInstance) : string :=
  if bool_decide (in_ContainerID inst = "") then StatusStopped
  else
    let '(err, out, _) := dw_run w ["inspect"; "--format={{.State.Running}}"; in_ContainerID inst] in
    match err with
    | Some _ => StatusStopped
    | None => if bool_decide (TrimSpace out = "true") then StatusRunning else StatusStopped
    end.

Definition DockerSpawner : Spawner :=
  {| sp_Type := "docker"; sp_PreSpawn := docker_PreSpawn; sp_Spawn := docker_Spawn;
     sp_PostSpawn := docker_PostSpawn; sp_PreStop := docker_PreStop; sp_Stop := docker_Stop;
     sp_PostStop := λ inst, (inst, None); sp_Status := docker_Status |}.
End docker.

(** ** The contract of a spawner *)

(** The same agent: all that identifies it is unchanged. *)
Definition same_agent (a b : AgentInstance) : Prop :=
  in_ID a = in_ID b ∧ in_Nick a = in_Nick b ∧ in_SpawnerType a = in_SpawnerType b ∧
  in_Host a = in_Host b ∧ in_ContainerID a = in_ContainerID b ∧
  in_DashboardURL a = in_DashboardURL b ∧ in_Config a = in_Config b ∧ in_PID a = in_PID b ∧
  in_StartedAt a = in_StartedAt b.

#[export] Instance same_agent_po : PreOrder same_agent.
Proof. split; unfold same_agent; [done|]. intros a b c Hab Hbc. naive_solver congruence. Qed.

Class LawfulSpawner (sp : Spawner) : Prop := {
  PreSpawn_valid cfg : sp_PreSpawn sp cfg = None → sc_Validate cfg = None;
  Spawn_new cfg inst : sp_Spawn sp cfg = inr inst →
    in_Nick inst = sc_Nick cfg ∧ in_Config inst = cfg ∧ in_SpawnerType inst = sp_Type sp ∧
    in_Status inst = StatusStarting;
  PostSpawn_running inst : let '(inst', err) := sp_PostSpawn sp inst in
    same_agent inst inst' ∧ (err = None → in_Status inst' = StatusRunning) ∧
    (err ≠ None → inst' = inst);
  PreStop_keeps inst : same_agent inst (sp_PreStop sp inst).1;
  Stop_stopped inst :
    same_agent inst (sp_Stop sp inst).1 ∧ in_Status (sp_Stop sp inst).1 = StatusStopped;
  PostStop_nothing inst : sp_PostStop sp inst = (inst, None)
}.

Section laws.
Context `{MR : MapRange}.

#[export] Instance LocalSpawner_lawful w : LawfulSpawner (LocalSpawner w).
Proof.
  split; cbn -[local_PostSpawn local_Stop].
  - intros cfg. unfold local_PreSpawn. by destruct (sc_Validate cfg).
  - intros cfg inst. unfold local_Spawn. destruct (lw_start _ _ _); [done|]. by intros [= <-].
  - intros inst. unfold local_PostSpawn. case_bool_decide; [done|].
    induction (lw_polls w _) as [|[err|[]] polls IH]; cbn; done.
  - intros inst. unfold local_PreStop. case_bool_decide; [done|].
    by destruct (lw_FindProcess w _).
  - intros inst. unfold local_Stop. case_bool_decide; [done|].
    induction (lw_wait w _) as [|[|err|] rounds IH]; cbn; done.
  - done.
Qed.

#[export] Instance SSHSpawner_lawful w : LawfulSpawner (SSHSpawner w).
Proof.
  split; cbn; [| |done| |done|done].
  - intros cfg. unfold ssh_PreSpawn. by destruct (sc_Validate cfg).
  - intros cfg inst. unfold ssh_Spawn. destruct (sw_run _ _) as [[err|] out]; [done|].
    by intros [= <-].
  - intros inst. unfold ssh_PreStop. by case_bool_decide.
Qed.

#[export] Instance DockerSpawner_lawful w : LawfulSpawner (DockerSpawner w).
Proof.
  split; cbn; [| |done|done|done|done].
  - intros cfg. unfold docker_PreSpawn. by destruct (sc_Validate cfg).
  - intros cfg inst. unfold docker_Spawn. destruct (dw_run _ _) as [[[err|] out] errOut]; [done|].
    by intros [= <-].
Qed.
End laws.

(** ** What a remote shell makes of the command

    In the command language of POSIX a word that begins with [#], outside of
    quotes, starts a comment. *)
Fixpoint before_comment (s : string) : string :=
  match s with
  | String c s' =>
      if bool_decide (c = " "%char) && HasPrefix s' "#" then "" else String c (before_comment s')
  | "" => ""
  end.

Lemma before_comment_app a b :
  in_string "#" a = false → before_comment (a +:+ " #" +:+ b) = a.
Proof.
  induction a as [|c a IH]; [done|]. cbn [in_string]. intros [Hc Ha]%orb_false_iff.
  rewrite app_str_cons. cbn [before_comment]. rewrite IH by done.
  destruct (HasPrefix (a +:+ " #" +:+ b) "#") eqn:E; [|by rewrite andb_false_r].
  exfalso. apply HasPrefix_spec in E as [rest E]. destruct a as [|c' a]; [done|].
  rewrite app_str_cons in E. injection E as -> _. cbn in Ha. done.
Qed.

Lemma Join_snoc_cons l x y l' sep :
  Join (l ++ x :: y :: l') sep = Join (l ++ [x]) sep +:+ sep +:+ Join (y :: l') sep.
Proof.
  induction l as [|z l IH]; [done|]. rewrite <- !app_comm_cons.
  destruct l as [|z' l]; cbn [app Join] in *.
  - by rewrite !app_str_assoc.
  - rewrite IH. by rewrite !app_str_assoc.
Qed.

Lemma Join_no_byte c l sep :
  in_string c sep = false → Forall (λ s, in_string c s = false) l → in_string c (Join l sep) = false.
Proof.
  intros Hsep. induction 1 as [|s l Hs Hl IH]; [done|]. destruct l as [|s' l]; [done|].
  cbn [Join] in *. by rewrite !in_string_app, Hs, Hsep, IH.
Qed.

Lemma text_arg_no_byte c flag v :
  in_string c flag = false → in_string c v = false →
  Forall (λ s, in_string c s = false) (text_arg flag v).
Proof. intros Hf Hv. unfold text_arg. case_bool_decide; repeat constructor; done. Qed.

Lemma joinComma_head ch chs : ∃ rest, joinComma (ch :: chs) = ch +:+ rest.
Proof.
  rewrite joinComma_Join. destruct chs as [|ch' chs]; [by exists ""; rewrite app_str_nil_r|].
  cbn [Join]. by eexists.
Qed.

Lemma Join_head s l sep : ∃ rest, Join (s :: l) sep = s +:+ rest.
Proof.
  destruct l as [|s' l]; [by exists ""; rewrite app_str_nil_r|]. cbn [Join]. by eexists.
Qed.

(** What [BuildCLIArgs] writes before the channels. *)
Definition account_args (cfg : SpawnConfig) : list string :=
  text_arg "--server" (sc_Server cfg) ++ text_arg "--nick" (sc_Nick cfg) ++
  text_arg "--username" (sc_Username cfg) ++ text_arg "--password" (sc_Password cfg).

(** An agent with channels does not start over SSH: the arguments are put
    into the remote command without quotes, and the names of IRC channels begin
    with [#], so the shell drops the channels and everything after them as a
    comment: the later flags, the redirection, the [&] that puts the agent in the
    background and the [echo $!] that tells its process id. *)
Theorem ssh_channels_are_a_comment `{MR : MapRange} cfg ch chs :
  sc_Channels cfg = ch :: chs → HasPrefix ch "#" = true →
  Forall (λ s, in_string "#" s = false)
    [sc_BinaryPath cfg; sc_Server cfg; sc_Nick cfg; sc_Username cfg; sc_Password cfg] →
  before_comment (ssh_remote_command cfg) =
    "nohup " +:+ sc_BinaryPath cfg +:+ " " +:+ Join (account_args cfg ++ ["--channels"]) " ".
Proof.
  intros Hch [rest0 ->]%HasPrefix_spec Hno. rewrite !Forall_cons in Hno.
  destruct Hno as (Hb & Hs & Hn & Hu & Hp & _).
  assert (∃ rest, BuildCLIArgs cfg = account_args cfg ++ "--channels" :: joinComma (sc_Channels cfg) :: rest)
    as [rest Hargs].
  { unfold BuildCLIArgs, account_args, list_arg at 1. rewrite Hch. cbn [app].
    eexists. rewrite <- !app_assoc. cbn [app]. done. }
  assert (∃ tail, Join (joinComma (sc_Channels cfg) :: rest) " " = "#" +:+ tail) as [tail Htail].
  { rewrite Hch. destruct (joinComma_head ("#" +:+ rest0) chs) as [r1 ->].
    destruct (Join_head (("#" +:+ rest0) +:+ r1) rest " ") as [r2 ->].
    eexists. by rewrite <- !app_str_assoc. }
  unfold ssh_remote_command. rewrite Hargs, Join_snoc_cons, Htail.
  set (pre := Join (account_args cfg ++ ["--channels"]) " ").
  assert (in_string "#" pre = false) as Hpre.
  { apply Join_no_byte; [done|]. unfold account_args.
    rewrite !Forall_app. repeat split; (by apply text_arg_no_byte) || by repeat constructor. }
  transitivity (before_comment (("nohup " +:+ sc_BinaryPath cfg +:+ " " +:+ pre) +:+ " #" +:+
    (tail +:+ " > /dev/null 2>&1 & echo $!"))).
  - f_equal. rewrite <- !app_str_assoc. done.
  - rewrite before_comment_app; [done|]. by rewrite !in_string_app, Hb, Hpre.
Qed.

Definition ssh_sample : SpawnConfig :=
  {| sc_Nick := "alice"; sc_Server := "irc:6697"; sc_Username := "alice"; sc_Password := "pw";
     sc_Channels := ["#agents"; "#dev"]; sc_Capabilities := ["go"]; sc_Roles := [];
     sc_DashboardAddr := ":8080"; sc_ExtraFlags := ∅; sc_BinaryPath := "/opt/agent";
     sc_SSHHost := "build1"; sc_SSHUser := "ci"; sc_SSHKeyPath := ""; sc_DockerImage := "";
     sc_DockerNetwork := "" |}.

Lemma ssh_channels_are_a_comment_witness :
  ssh_PreSpawn ssh_sample = None ∧
  before_comment (ssh_remote_command ssh_sample) =
    "nohup /opt/agent --server irc:6697 --nick alice --username alice --password pw --channels".
Proof.
  split; [done|]. rewrite (ssh_channels_are_a_comment ssh_sample "#agents" ["#dev"]);
    [done|done|done|by repeat constructor].
Defined.

(** The life of an agent, whatever spawner it has: if the configuration
    passes the check and the process starts, the instance carries the
    configuration's nick and the spawner's type; it is running after [PostSpawn]
    unless that failed; it stays the same agent; and after [PreStop], [Stop] and
    [PostStop] it is stopped, whether they failed or not. *)
Theorem lifecycle (sp : Spawner) `{LawfulSpawner sp} cfg inst :
  sp_PreSpawn sp cfg = None → sp_Spawn sp cfg = inr inst →
  let '(running, err) := sp_PostSpawn sp inst in
  let ended := (sp_PostStop sp (sp_Stop sp (sp_PreStop sp running).1).1).1 in
  sc_Validate cfg = None ∧
  in_Nick running = sc_Nick cfg ∧ in_Config running = cfg ∧ in_SpawnerType running = sp_Type sp ∧
  in_Status running = match err with None => StatusRunning | Some _ => StatusStarting end ∧
  same_agent inst ended ∧ in_Status ended = StatusStopped.
Proof.
  intros Hpre Hspawn. pose proof (PreSpawn_valid _ Hpre) as Hv.
  destruct (Spawn_new _ _ Hspawn) as (Hn & Hc & Ht & Hst).
  pose proof (PostSpawn_running inst) as Hp. destruct (sp_PostSpawn sp inst) as [running err].
  destruct Hp as (Hsame & Hok & Herr).
  rewrite PostStop_nothing. cbn [fst].
  destruct (Stop_stopped (sp_PreStop sp running).1) as [Hstop Hstatus].
  pose proof (PreStop_keeps running) as Hpre'.
  assert (same_agent inst (sp_Stop sp (sp_PreStop sp running).1).1) as Hend.
  { etrans; [exact Hsame|]. etrans; [exact Hpre'|exact Hstop]. }
  destruct Hsame as (_ & <- & <- & _ & _ & _ & <- & _ & _).
  split_and!; try done. destruct err as [e|]; [|by apply Hok]. by rewrite Herr.
Qed.

(** A process that never ends and a dashboard that never answers. *)
Definition busy_world : LocalWorld :=
  {| lw_stat _ := None; lw_start _ _ := inr 4711%Z; lw_now := 9%Z;
     lw_polls _ := [PollAnswer false; PollCancelled "context canceled"];
     lw_FindProcess _ := true; lw_terminate _ := Some "operation not permitted";
     lw_wait _ := [StillThere; StillThere]; lw_processAlive _ := true |}.

Lemma lifecycle_witness :
  match local_Spawn busy_world ssh_sample with
  | inr inst =>
      in_ID inst = "local-alice-4711" ∧
      in_Status (local_PostSpawn busy_world inst).1 = StatusStarting ∧
      in_Status (local_Stop busy_world (local_PreStop busy_world
        (local_PostSpawn busy_world inst).1).1).1 = StatusStopped
  | inl _ => False
  end.
Proof.
  destruct (local_Spawn busy_world ssh_sample) as [e|inst] eqn:E; [by vm_compute in E|].
  pose proof (lifecycle (LocalSpawner busy_world) ssh_sample inst eq_refl E) as H.
  cbn [LocalSpawner sp_PostSpawn sp_PreStop sp_Stop sp_PostStop fst] in H.
  assert ((local_PostSpawn busy_world inst).2 ≠ None) as Herr.
  { unfold local_Spawn in E. injection E as <-. done. }
  destruct (local_PostSpawn busy_world inst) as [running err]. cbn [fst snd] in *.
  destruct H as (_ & _ & _ & _ & Hst & _ & Hend).
  split; [by injection E as <-|]. split; [by destruct err|exact Hend].
Defined.
