(* ===== verification/Cost.v ===== *)
(** * Cost tracking: [internal/cost/store.go] and [internal/cost/adapter.go]

    Usage is reported by COST-REPORT messages and summed by the manager. Token
    counts are 64-bit integers, costs are floats. [strconv.ParseFloat] is an
    argument; its error is ignored, so it is a function to the value that it
    returns in any case. *)

From S2P Require Import Prelude GoStrings GoNum GoFloat Message Parser Serializer Codec.
From S2P Require Import Sanitizer.

Record CostEntry := {
  co_Agent : string;
  co_Task : string;
  co_Model : string;
  co_Provider : string;
  co_Channel : string;
  co_InputTokens : Z;
  co_OutputTokens : Z;
  co_TotalTokens : Z;
  co_CostUSD : float64;
  co_Timestamp : Time
}.

#[export] Instance CostEntry_eta : RecordEta CostEntry := λ r,
  {| co_Agent := co_Agent r; co_Task := co_Task r; co_Model := co_Model r;
     co_Provider := co_Provider r; co_Channel := co_Channel r;
     co_InputTokens := co_InputTokens r; co_OutputTokens := co_OutputTokens r;
     co_TotalTokens := co_TotalTokens r; co_CostUSD := co_CostUSD r;
     co_Timestamp := co_Timestamp r |}.

Record CostSummary := {
  cs_TotalCostUSD : float64;
  cs_TotalTokens : Z;
  cs_InputTokens : Z;
  cs_OutputTokens : Z;
  cs_EntryCount : Z
}.

Record CostStore := { co_entries : list CostEntry }.

Definition NewCostStore : CostStore := {| co_entries := [] |}.

(** ** The store *)

(** [v, _ := strconv.ParseInt(s, 10, 64)], guarded by [s != ""]. An error
    leaves the value that comes with it: 0, or the nearest bound. *)
Definition int_or_bound (s : string) : Z :=
  if bool_decide (s = "") then 0%Z else (ParseInt s).1.

Definition cs_Record (now : Time) (cs : CostStore) (entry : CostEntry) : CostStore :=
  {| co_entries := co_entries cs ++
       [if IsZero (co_Timestamp entry) then entry <| co_Timestamp := now |> else entry] |}.

(** The loop body of [summarize]. *)
Definition add_entry (s : CostSummary) (e : CostEntry) : CostSummary :=
  {| cs_TotalCostUSD := fadd (cs_TotalCostUSD s) (co_CostUSD e);
     cs_TotalTokens := wrap64 (cs_TotalTokens s + co_TotalTokens e);
     cs_InputTokens := wrap64 (cs_InputTokens s + co_InputTokens e);
     cs_OutputTokens := wrap64 (cs_OutputTokens s + co_OutputTokens e);
     cs_EntryCount := cs_EntryCount s |}.

Definition summarize_costs (entries : list CostEntry) : CostSummary :=
  foldl add_entry
    {| cs_TotalCostUSD := float_zero; cs_TotalTokens := 0; cs_InputTokens := 0;
       cs_OutputTokens := 0; cs_EntryCount := Z.of_nat (length entries) |} entries.

(** The loop that collects the groups. *)
Definition groups_of (entries : list CostEntry) (keyFn : CostEntry → string)
    : gmap string (list CostEntry) :=
  foldl (λ groups e, <[keyFn e := default [] (groups !! keyFn e) ++ [e]]> groups) ∅ entries.

Definition groupBy `{MR : MapRange} (entries : list CostEntry) (keyFn : CostEntry → string)
    : gmap string CostSummary :=
  foldl (λ result kv, <[kv.1 := summarize_costs kv.2]> result) ∅ (range 0 (groups_of entries keyFn)).

Definition TotalSummary (cs : CostStore) : CostSummary := summarize_costs (co_entries cs).
Definition ByAgent `{MR : MapRange} (cs : CostStore) := groupBy (co_entries cs) co_Agent.
Definition ByTask `{MR : MapRange} (cs : CostStore) := groupBy (co_entries cs) co_Task.
Definition ByModel `{MR : MapRange} (cs : CostStore) := groupBy (co_entries cs) co_Model.

(** The bound of [Entries] and [EntriesForAgent]: the last [n] of a list. *)
Definition last_entries (l : list CostEntry) (n : Z) : list CostEntry :=
  let n := if (n <=? 0)%Z || (Z.of_nat (length l) <? n)%Z then length l else Z.to_nat n in
  drop (length l - n) l.

Definition Entries (cs : CostStore) (n : Z) : list CostEntry := last_entries (co_entries cs) n.

Definition EntriesForAgent (cs : CostStore) (nick : string) (n : Z) : list CostEntry :=
  last_entries (List.filter (λ e, bool_decide (co_Agent e = nick)) (co_entries cs)) n.

(** ** The adapters *)

Record UsageReport := {
  us_Task : string;
  us_Model : string;
  us_InputTokens : Z;
  us_OutputTokens : Z;
  us_TotalTokens : Z;
  us_CostUSD : float64
}.

Definition buildCostMessage (provider : string) (usage : UsageReport) : Message :=
  literal ActionCostReport
    (<["task" := us_Task usage]> (<["model" := us_Model usage]> (<["provider" := provider]>
    (<["input-tokens" := FormatInt (us_InputTokens usage)]>
    (<["output-tokens" := FormatInt (us_OutputTokens usage)]>
    (<["total-tokens" := FormatInt (us_TotalTokens usage)]>
    {["cost-usd" := FormatFloat6 (us_CostUSD usage)]})))))) [] "".

(** [(float64(in)/1_000_000)*inputPer1M + (float64(out)/1_000_000)*outputPer1M] *)
Definition price (per1M : float64 * float64) (inputTokens outputTokens : Z) : float64 :=
  let million := float_of_Z 1000000 in
  fadd (fmul (fdiv (float_of_Z inputTokens) million) per1M.1)
       (fmul (fdiv (float_of_Z outputTokens) million) per1M.2).

Definition anthropic_rates (model : string) : float64 * float64 :=
  if bool_decide (model ∈ ["claude-opus-4-6"; "claude-opus-4-0-20250514"])
  then (float_of_Z 15, float_of_Z 75)
  else if bool_decide (model ∈ ["claude-sonnet-4-5-20250929"; "claude-sonnet-4-0-20250514"])
  then (float_of_Z 3, float_of_Z 15)
  else if bool_decide (model = "claude-haiku-4-5-20251001")
  then (float_const 7205759403792794 (-53), float_of_Z 4)
  else (float_of_Z 3, float_of_Z 15).

Definition anthropicCost (model : string) (inputTokens outputTokens : Z) : float64 :=
  price (anthropic_rates model) inputTokens outputTokens.

Definition openai_rates (model : string) : float64 * float64 :=
  if bool_decide (model = "gpt-4o") then (float_const 5629499534213120 (-51), float_of_Z 10)
  else if bool_decide (model = "gpt-4o-mini")
  then (float_const 5404319552844595 (-55), float_const 5404319552844595 (-53))
  else if bool_decide (model = "o1") then (float_of_Z 15, float_of_Z 60)
  else (float_const 5629499534213120 (-51), float_of_Z 10).

Definition openaiCost (model : string) (inputTokens outputTokens : Z) : float64 :=
  price (openai_rates model) inputTokens outputTokens.

(** The defaults that the two priced adapters fill in. *)
Definition fill_usage (cost : string → Z → Z → float64) (u : UsageReport) : UsageReport :=
  {| us_Task := us_Task u; us_Model := us_Model u; us_InputTokens := us_InputTokens u;
     us_OutputTokens := us_OutputTokens u;
     us_TotalTokens := if bool_decide (us_TotalTokens u = 0%Z)
       then wrap64 (us_InputTokens u + us_OutputTokens u) else us_TotalTokens u;
     us_CostUSD := if SFeqb (us_CostUSD u) float_zero
       then cost (us_Model u) (us_InputTokens u) (us_OutputTokens u) else us_CostUSD u |}.

Inductive LLMAdapter :=
| GenericAdapter (provider : string)
| AnthropicAdapter
| OpenAIAdapter.

Definition Provider (a : LLMAdapter) : string :=
  match a with
  | GenericAdapter provider => provider
  | AnthropicAdapter => "anthropic"
  | OpenAIAdapter => "openai"
  end.

(** What an adapter reports for a usage. *)
Definition reported_usage (a : LLMAdapter) (usage : UsageReport) : UsageReport :=
  match a with
  | GenericAdapter _ => usage
  | AnthropicAdapter => fill_usage anthropicCost usage
  | OpenAIAdapter => fill_usage openaiCost usage
  end.

(** What is sent, or the error of the sanitizer. *)
Definition ReportUsage `{MR : MapRange} (a : LLMAdapter) (channel : string) (usage : UsageReport)
    : (string * string) + ProtocolError :=
  let msg := buildCostMessage (Provider a) (reported_usage a usage) in
  match Sanitize msg with
  | Some e => inr e
  | None => inl (channel, Message_String msg)
  end.

Section record.
Context (ParseFloat : string → float64).

Definition RecordCost (now : Time) (cs : CostStore) (msg : Message) : CostStore :=
  if negb (bool_decide (msg_Action msg = ActionCostReport)) then cs
  else
    {| co_entries := co_entries cs ++
      [{| co_Agent := msg_Nick msg; co_Task := Get msg "task"; co_Model := Get msg "model";
          co_Provider := Get msg "provider"; co_Channel := msg_Channel msg;
          co_InputTokens := int_or_bound (Get msg "input-tokens");
          co_OutputTokens := int_or_bound (Get msg "output-tokens");
          co_TotalTokens := int_or_bound (Get msg "total-tokens");
          co_CostUSD := if bool_decide (Get msg "cost-usd" = "") then float_zero
                        else ParseFloat (Get msg "cost-usd");
          co_Timestamp := if IsZero (msg_Timestamp msg) then now else msg_Timestamp msg |}] |}.
End record.

Example anthropicCost_ex :
  FormatFloat6 (anthropicCost "claude-opus-4-6" 1000000 1000000) = "90.000000" ∧
  FormatFloat6 (anthropicCost "claude-haiku-4-5-20251001" 1500 200) = "0.002000" ∧
  FormatFloat6 (openaiCost "gpt-4o-mini" 1000000 10) = "0.150006".
Proof. vm_compute. done. Qed.

(** ** Sums *)

Lemma cs_tokens_foldl es s :
  cs_TotalTokens (foldl add_entry s es) = foldl add64 (cs_TotalTokens s) (co_TotalTokens <$> es) ∧
  cs_InputTokens (foldl add_entry s es) = foldl add64 (cs_InputTokens s) (co_InputTokens <$> es) ∧
  cs_OutputTokens (foldl add_entry s es) =
    foldl add64 (cs_OutputTokens s) (co_OutputTokens <$> es) ∧
  cs_EntryCount (foldl add_entry s es) = cs_EntryCount s.
Proof. revert s. induction es as [|e es IH]; intros s; [done|]. cbn. apply (IH (add_entry s e)). Qed.

(** The totals of a summary are the sums of the entries, modulo 2^64. *)
Lemma summarize_costs_sums es :
  cs_TotalTokens (summarize_costs es) = wrap64 (sumZ (co_TotalTokens <$> es)) ∧
  cs_InputTokens (summarize_costs es) = wrap64 (sumZ (co_InputTokens <$> es)) ∧
  cs_OutputTokens (summarize_costs es) = wrap64 (sumZ (co_OutputTokens <$> es)) ∧
  cs_EntryCount (summarize_costs es) = Z.of_nat (length es).
Proof.
  unfold summarize_costs. destruct (cs_tokens_foldl es
    {| cs_TotalCostUSD := float_zero; cs_TotalTokens := 0; cs_InputTokens := 0;
       cs_OutputTokens := 0; cs_EntryCount := Z.of_nat (length es) |}) as (-> & -> & -> & ->).
  by rewrite !foldl_add64.
Qed.

(** ** Groups *)

Definition in_group (keyFn : CostEntry → string) (k : string) (es : list CostEntry)
    : list CostEntry := List.filter (λ e, bool_decide (keyFn e = k)) es.

Lemma groups_of_lookup es keyFn k :
  groups_of es keyFn !! k = nonempty_list (in_group keyFn k es).
Proof.
  induction es as [|e es IH] using rev_ind; [done|].
  unfold groups_of, in_group in *. rewrite foldl_snoc, List.filter_app. cbn.
  case_bool_decide as Hk.
  - subst k. rewrite lookup_insert_eq, IH. by destruct (List.filter _ es).
  - rewrite lookup_insert_ne, IH, app_nil_r by done. done.
Qed.

Lemma in_group_elem keyFn k es e : e ∈ in_group keyFn k es ↔ e ∈ es ∧ keyFn e = k.
Proof. unfold in_group. by rewrite elem_of_filter_bool, bool_decide_eq_true. Qed.

Lemma groupBy_eq `{MR : MapRange} es keyFn :
  groupBy es keyFn = summarize_costs <$> groups_of es keyFn.
Proof. apply (foldl_insert_range summarize_costs). Qed.

(** A sum over all the groups. *)
Lemma sumZ_groups keyFn es (h : list CostEntry → Z) (f : CostEntry → Z) :
  (∀ es, h es = sumZ (f <$> es)) →
  sumZ (h <$> (map_to_list (groups_of es keyFn)).*2) = sumZ (f <$> es).
Proof.
  intros Hh. set (ks := (map_to_list (groups_of es keyFn)).*1).
  rewrite <- (sumZ_partition keyFn f ks es).
  - f_equal. unfold ks. rewrite <- !list_fmap_compose. apply list_fmap_ext.
    intros i [k g] Hi%list_elem_of_lookup_2%elem_of_map_to_list. unfold compose. cbn.
    rewrite groups_of_lookup in Hi. rewrite Hh. f_equal. f_equal.
    change (List.filter (λ x, bool_decide (keyFn x = k)) es) with (in_group keyFn k es).
    destruct (in_group keyFn k es); [done|]. by injection Hi.
  - apply NoDup_fst_map_to_list.
  - intros e He. unfold ks. apply list_elem_of_fmap.
    destruct (groups_of es keyFn !! keyFn e) as [g|] eqn:E.
    + exists (keyFn e, g). split; [done|]. by apply elem_of_map_to_list.
    + rewrite groups_of_lookup in E.
      assert (e ∈ in_group keyFn (keyFn e) es) as Hin by by apply in_group_elem.
      destruct (in_group keyFn (keyFn e) es); [by apply not_elem_of_nil in Hin|done].
Qed.

(** The groups add up: for any grouping of the entries (by agent, task or
    model), a key has a summary exactly when it has entries, the summary is
    that of its entries in the order in which they were recorded, and the
    entry counts and the token counts of all the groups sum to those of the
    total summary (tokens modulo 2^64, like the 64-bit counters themselves). *)
Theorem groups_add_up `{MR : MapRange} es keyFn :
  let groups := groupBy es keyFn in
  let all := (map_to_list groups).*2 in
  let total := summarize_costs es in
  (∀ k, groups !! k = summarize_costs <$> nonempty_list (in_group keyFn k es)) ∧
  sumZ (cs_EntryCount <$> all) = cs_EntryCount total ∧
  wrap64 (sumZ (cs_TotalTokens <$> all)) = cs_TotalTokens total ∧
  wrap64 (sumZ (cs_InputTokens <$> all)) = cs_InputTokens total ∧
  wrap64 (sumZ (cs_OutputTokens <$> all)) = cs_OutputTokens total.
Proof.
  cbv zeta. rewrite groupBy_eq. split.
  { intros k. by rewrite lookup_fmap, groups_of_lookup. }
  destruct (summarize_costs_sums es) as (-> & -> & -> & ->).
  assert (∀ (P : CostSummary → Z) (h : list CostEntry → Z),
    (∀ es, P (summarize_costs es) = h es) →
    P <$> (map_to_list (summarize_costs <$> groups_of es keyFn)).*2 =
    h <$> (map_to_list (groups_of es keyFn)).*2) as Hall.
  { intros P h Hh. rewrite map_to_list_fmap, <- !list_fmap_compose.
    apply list_fmap_ext. intros i [k g] _. apply Hh. }
  split_and!.
  - rewrite (Hall _ (λ es, Z.of_nat (length es))) by apply summarize_costs_sums.
    rewrite <- sumZ_length. apply sumZ_groups. intros es'. by rewrite sumZ_length.
  - rewrite (Hall _ (λ es, wrap64 (sumZ (co_TotalTokens <$> es)))) by apply summarize_costs_sums.
    rewrite wrap64_sumZ. f_equal. by apply sumZ_groups.
  - rewrite (Hall _ (λ es, wrap64 (sumZ (co_InputTokens <$> es)))) by apply summarize_costs_sums.
    rewrite wrap64_sumZ. f_equal. by apply sumZ_groups.
  - rewrite (Hall _ (λ es, wrap64 (sumZ (co_OutputTokens <$> es)))) by apply summarize_costs_sums.
    rewrite wrap64_sumZ. f_equal. by apply sumZ_groups.
Qed.

(** ** Reports on the wire *)

Definition float_byte (c : ascii) : bool := number_byte c || bool_decide (c = "."%char).

Lemma float_byte_spec c :
  float_byte c = true → is_blank c = false ∧ space_byte c = false ∧ c ≠ quote.
Proof. by destruct c as [[] [] [] [] [] [] [] []]; vm_compute; repeat constructor || intros. Qed.

Lemma float_bytes_FormatUint n : (0 <= n)%Z → all_bytes float_byte (FormatUint n) = true.
Proof.
  intros Hn. eapply all_bytes_impl; [|by apply FormatUint_bytes].
  intros c Hc. unfold float_byte. by rewrite Hc.
Qed.

Lemma float_bytes_fixed6 n : (0 <= n)%Z → all_bytes float_byte (fixed6 n) = true.
Proof.
  intros Hn. unfold fixed6. rewrite !all_bytes_app, float_bytes_FormatUint by (apply Z.div_pos; lia).
  cbn [andb all_bytes]. change (float_byte ".") with true. cbn [andb]. unfold six_digits.
  pose proof (Z.mod_pos_bound n 1000000 ltac:(lia)) as Hm.
  pose proof (float_bytes_FormatUint (1000000 + n mod 1000000) ltac:(lia)) as Hb.
  destruct (FormatUint _); [done|]. cbn in Hb. by apply andb_prop in Hb as [_ ?].
Qed.

Lemma millionths_nonneg m e : (0 <= millionths m e)%Z.
Proof.
  unfold millionths. destruct (Z.leb_spec 0 e).
  - apply Z.mul_nonneg_nonneg; [lia|]. apply Z.pow_nonneg. lia.
  - assert (0 <= Zpos m * 1000000 / 2 ^ (- e))%Z as Hq.
    { apply Z.div_pos; [lia|]. apply Z.pow_pos_nonneg; lia. }
    destruct (_ <? _)%Z; [done|]. destruct (_ <? _)%Z; [lia|]. destruct (Z.even _); lia.
Qed.

Lemma value_ok_FormatFloat6 f : value_ok (FormatFloat6 f) = true ∧ FormatFloat6 f ≠ "".
Proof.
  assert (∀ (s : bool) n, (0 <= n)%Z →
    value_ok ((if s then "-" else "") +:+ fixed6 n) = true ∧
    (if s then "-" else "") +:+ fixed6 n ≠ "") as Hfix.
  { intros s n Hn. split.
    - apply (value_ok_bytes float_byte); [exact float_byte_spec|].
      rewrite all_bytes_app, float_bytes_fixed6 by done. by destruct s.
    - unfold fixed6. intros E. apply (f_equal String.length) in E.
      rewrite !length_app_str in E. cbn in E. lia. }
  destruct f as [s|s| |s m e]; cbn [FormatFloat6].
  - by apply Hfix.
  - by destruct s.
  - done.
  - apply Hfix, millionths_nonneg.
Qed.

Lemma wf_cost_message provider u :
  value_ok provider = true → value_ok (us_Task u) = true → value_ok (us_Model u) = true →
  wf_message (buildCostMessage provider u) = true.
Proof.
  intros Hp Ht Hm. apply wf_literal; [reflexivity|discriminate| |reflexivity].
  repeat (apply fields_ok_insert; [reflexivity|first [assumption|apply value_ok_FormatInt]|]).
  apply fields_ok_singleton; [reflexivity|exact (proj1 (value_ok_FormatFloat6 _))].
Qed.

Lemma Get_cost_message provider u :
  let m := buildCostMessage provider u in
  Get m "task" = us_Task u ∧ Get m "model" = us_Model u ∧ Get m "provider" = provider ∧
  Get m "input-tokens" = FormatInt (us_InputTokens u) ∧
  Get m "output-tokens" = FormatInt (us_OutputTokens u) ∧
  Get m "total-tokens" = FormatInt (us_TotalTokens u) ∧
  Get m "cost-usd" = FormatFloat6 (us_CostUSD u).
Proof.
  cbv zeta. unfold Get, buildCostMessage, literal. cbn [msg_Fields].
  split_and!; repeat first [rewrite lookup_insert_eq | rewrite lookup_singleton_eq
    | rewrite lookup_insert_ne by discriminate]; reflexivity.
Qed.

Lemma int_or_bound_FormatInt n : int64_ok n → int_or_bound (FormatInt n) = n.
Proof.
  intros Hn. unfold int_or_bound. pose proof (ParseInt_FormatInt n Hn) as H.
  case_bool_decide as E; [|by rewrite H]. rewrite E in H. by injection H as <-.
Qed.

(** The message as a receiver completes it. *)
Definition received_from (nick channel : string) (timestamp : Time) (msg : Message) : Message :=
  {| msg_Action := msg_Action msg; msg_Fields := msg_Fields msg; msg_Tags := msg_Tags msg;
     msg_Payload := msg_Payload msg; msg_Channel := channel; msg_Nick := nick;
     msg_Timestamp := timestamp |}.

(** C36. A cost report arrives: when the task, the model and the provider of a usage
    are values that can be written ([value_ok], as in C3; a blank together with a quote
    cannot), what an adapter sends for it is one text on the channel asked for, a
    protocol message; a receiver that parses and records it, as received at a time that is
    not zero, appends one entry with exactly the reported token counts (any
    64-bit ones), task, model and provider, and the cost that its decimal text
    with six digits reads as. *)
Theorem cost_report_arrives `{MR : MapRange} ParseFloat a channel usage target text now cs nick timestamp
    (Hsent : ReportUsage a channel usage = inl (target, text))
    (Hp : value_ok (Provider a) = true) (Ht : value_ok (us_Task usage) = true)
    (Hm : value_ok (us_Model usage) = true)
    (Hin : int64_ok (us_InputTokens usage)) (Hout : int64_ok (us_OutputTokens usage))
    (Htot : int64_ok (us_TotalTokens usage)) (Hts : timestamp ≠ zero_time) :
  target = channel ∧ IsProtocolMessage text = true ∧
  ∃ msg, Parse text = inl msg ∧
    RecordCost ParseFloat now cs (received_from nick channel timestamp msg) =
      let u := reported_usage a usage in
      {| co_entries := co_entries cs ++
           [{| co_Agent := nick; co_Task := us_Task usage; co_Model := us_Model usage;
               co_Provider := Provider a; co_Channel := channel;
               co_InputTokens := us_InputTokens usage; co_OutputTokens := us_OutputTokens usage;
               co_TotalTokens := us_TotalTokens u;
               co_CostUSD := ParseFloat (FormatFloat6 (us_CostUSD u));
               co_Timestamp := timestamp |}] |}.
Proof.
  unfold ReportUsage in Hsent. destruct (Sanitize _); [done|]. injection Hsent as <- <-.
  set (u := reported_usage a usage).
  assert (us_Task u = us_Task usage ∧ us_Model u = us_Model usage ∧
    us_InputTokens u = us_InputTokens usage ∧ us_OutputTokens u = us_OutputTokens usage ∧
    int64_ok (us_TotalTokens u)) as (Et & Em & Ei & Eo & Hu).
  { unfold u. destruct a; cbn; split_and!; try done; case_bool_decide; try done; apply wrap64_ok. }
  assert (wf_message (buildCostMessage (Provider a) u) = true) as Hwf.
  { clearbody u. apply wf_cost_message; [exact Hp|rewrite Et; exact Ht|rewrite Em; exact Hm]. }
  cbv zeta. fold u. clearbody u. split; [reflexivity|]. split.
  - apply IsProtocolMessage_String. exact Hwf.
  - exists (wire_view (buildCostMessage (Provider a) u)).
    split; [apply Parse_Message_String; exact Hwf|].
    destruct (Get_cost_message (Provider a) u) as (G1 & G2 & G3 & G4 & G5 & G6 & G7).
    unfold Get in *. unfold RecordCost, Get.
    cbn [received_from wire_view msg_Action msg_Fields msg_Nick msg_Channel msg_Timestamp].
    rewrite G1, G2, G3, G4, G5, G6, G7, !int_or_bound_FormatInt by congruence.
    rewrite (bool_decide_eq_false_2 (FormatFloat6 _ = "")) by apply value_ok_FormatFloat6.
    unfold IsZero. rewrite (bool_decide_eq_false_2 (timestamp = 0%Z)) by done.
    by rewrite Et, Em, Ei, Eo.
Qed.

Definition sample_usage : UsageReport :=
  {| us_Task := "db migration"; us_Model := "claude-opus-4-6"; us_InputTokens := 1000;
     us_OutputTokens := -5; us_TotalTokens := 0; us_CostUSD := float_zero |}.

Definition sample_report : string :=
  match ReportUsage AnthropicAdapter "#cost" sample_usage with
  | inl (_, text) => text
  | inr _ => ""
  end.

Lemma cost_report_arrives_witness :
  ReportUsage AnthropicAdapter "#cost" sample_usage = inl ("#cost", sample_report) ∧
  ∃ msg, Parse sample_report = inl msg ∧
    co_TotalTokens <$> co_entries (RecordCost (λ _, float_zero) 7 NewCostStore
      (received_from "a" "#cost" 5 msg)) = [995%Z].
Proof.
  assert (ReportUsage AnthropicAdapter "#cost" sample_usage = inl ("#cost", sample_report)) as H.
  { vm_compute. reflexivity. }
  split; [exact H|].
  destruct (cost_report_arrives (λ _, float_zero) AnthropicAdapter "#cost" sample_usage "#cost"
    sample_report 7 NewCostStore "a" 5 H) as (_ & _ & msg & Hp & Hr).
  - reflexivity.
  - vm_compute. reflexivity.
  - reflexivity.
  - unfold int64_ok, min_int64, max_int64. cbn. lia.
  - unfold int64_ok, min_int64, max_int64. cbn. lia.
  - unfold int64_ok, min_int64, max_int64. cbn. lia.
  - discriminate.
  - exists msg. split; [exact Hp|]. rewrite Hr. reflexivity.
Defined.
