(* ===== verification/ManagerConfig.v ===== *)
(** * The manager's configuration: [internal/manager/config.go]

    [LoadConfig] reads its settings in the same layers as the agent's [Load]:
    defaults, file, environment, flags; the conditional assignments and the
    lemmas on them are those of [Config]. The YAML decoder, the file system, the
    environment and [time.ParseDuration] are arguments. *)

From S2P Require Import Prelude GoStrings GoNum GoFloat GoFlag Config.

Record SSHDefaults := { sd_User : string; sd_KeyPath : string }.

Record DockerDefaults := { dd_Image : string; dd_Network : string }.

Record ManagerConfig := {
  mc_IRC : IRCConfig;
  mc_ListenAddr : string;
  mc_LogLevel : string;
  mc_LogFmt : string;
  mc_AgentBinary : string;
  mc_PollInterval : Duration;
  mc_SSHDefaults : SSHDefaults;
  mc_DockerDefaults : DockerDefaults
}.

#[export] Instance ManagerConfig_eta : RecordEta ManagerConfig := λ r,
  {| mc_IRC := mc_IRC r; mc_ListenAddr := mc_ListenAddr r; mc_LogLevel := mc_LogLevel r;
     mc_LogFmt := mc_LogFmt r; mc_AgentBinary := mc_AgentBinary r;
     mc_PollInterval := mc_PollInterval r; mc_SSHDefaults := mc_SSHDefaults r;
     mc_DockerDefaults := mc_DockerDefaults r |}.

(** The [IRC] part of [fileConfig], and [fileConfig] itself. *)
Record FileIRC := {
  fi_Server : string;
  fi_Nick : string;
  fi_Username : string;
  fi_Password : string;
  fi_RealName : string;
  fi_TLS : option bool;
  fi_TLSInsecureSkipVerify : bool;
  fi_SASL : option bool;
  fi_SASLMech : string;
  fi_Channels : list string;
  fi_Debug : bool
}.

Record fileConfig := {
  fc_IRC : FileIRC;
  fc_ListenAddr : string;
  fc_LogLevel : string;
  fc_LogFmt : string;
  fc_AgentBinary : string;
  fc_PollInterval : string;
  fc_SSHDefaults : SSHDefaults;
  fc_DockerDefaults : DockerDefaults
}.

Definition default_ManagerConfig : ManagerConfig :=
  {| mc_IRC := DefaultConfig; mc_ListenAddr := ":9090"; mc_LogLevel := "info";
     mc_LogFmt := "text"; mc_AgentBinary := ""; mc_PollInterval := (10 * second)%Z;
     mc_SSHDefaults := {| sd_User := ""; sd_KeyPath := "" |};
     mc_DockerDefaults := {| dd_Image := ""; dd_Network := "" |} |}.

(** ** Comma-separated lists *)

(** The two loops of [trimSpace]: blanks and tabs only. *)
Definition trimSpace (s : string) : string :=
  let s := (span is_blank s).2 in
  String.rev (span is_blank (String.rev s)).2.

(** The loop of [splitBy]: [cur] is the text since [start]. *)
Fixpoint split_from (cur : string) (s : string) (sep : ascii) : list string :=
  match s with
  | "" => [trimSpace cur]
  | String c s =>
      if bool_decide (c = sep) then trimSpace cur :: split_from "" s sep
      else split_from (cur +:+ String c "") s sep
  end.

Definition splitBy (s : string) (sep : ascii) : list string := split_from "" s sep.

Definition splitComma (s : string) : list string :=
  if bool_decide (s = "") then []
  else List.filter (λ p, negb (bool_decide (p = ""))) (splitBy s ",").

(** ** The layers *)

Definition on_IRC (f : IRCConfig → IRCConfig) (cfg : ManagerConfig) : ManagerConfig :=
  cfg <| mc_IRC := f (mc_IRC cfg) |>.

Section config.
Context (parse_duration : string → option Duration).

(** The part of [loadFromFile] after decoding. The defaults for SSH and Docker
    and the switches without a pointer are taken from the file in any case. *)
Definition apply_file (fc : fileConfig) (cfg : ManagerConfig) : ManagerConfig :=
  let fi := fc_IRC fc in
  let cfg := when_set (fi_Server fi) (λ v, on_IRC (λ i, i <| irc_Server := v |>)) cfg in
  let cfg := when_set (fi_Nick fi) (λ v, on_IRC (λ i, i <| irc_Nick := v |>)) cfg in
  let cfg := when_set (fi_Username fi) (λ v, on_IRC (λ i, i <| irc_Username := v |>)) cfg in
  let cfg := when_set (fi_Password fi) (λ v, on_IRC (λ i, i <| irc_Password := v |>)) cfg in
  let cfg := when_set (fi_RealName fi) (λ v, on_IRC (λ i, i <| irc_RealName := v |>)) cfg in
  let cfg := when_some (fi_TLS fi) (λ v, on_IRC (λ i, i <| irc_TLS := v |>)) cfg in
  let cfg := on_IRC (λ i, i <| irc_TLSInsecureSkipVerify := fi_TLSInsecureSkipVerify fi |>) cfg in
  let cfg := when_some (fi_SASL fi) (λ v, on_IRC (λ i, i <| irc_SASL := v |>)) cfg in
  let cfg := when_set (fi_SASLMech fi) (λ v, on_IRC (λ i, i <| irc_SASLMech := v |>)) cfg in
  let cfg := when_any (fi_Channels fi) (λ v, on_IRC (λ i, i <| irc_Channels := v |>)) cfg in
  let cfg := on_IRC (λ i, i <| irc_Debug := fi_Debug fi |>) cfg in
  let cfg := when_set (fc_ListenAddr fc) (λ v c, c <| mc_ListenAddr := v |>) cfg in
  let cfg := when_set (fc_LogLevel fc) (λ v c, c <| mc_LogLevel := v |>) cfg in
  let cfg := when_set (fc_LogFmt fc) (λ v c, c <| mc_LogFmt := v |>) cfg in
  let cfg := when_set (fc_AgentBinary fc) (λ v c, c <| mc_AgentBinary := v |>) cfg in
  let cfg := when_set (fc_PollInterval fc) (λ s, when_some (parse_duration s)
               (λ d c, c <| mc_PollInterval := d |>)) cfg in
  let cfg := cfg <| mc_SSHDefaults := fc_SSHDefaults fc |> in
  cfg <| mc_DockerDefaults := fc_DockerDefaults fc |>.

Definition applyEnv (env : string → string) (cfg : ManagerConfig) : ManagerConfig :=
  let cfg := when_set (env "IRC_SERVER") (λ v, on_IRC (λ i, i <| irc_Server := v |>)) cfg in
  let cfg := when_set (env "IRC_NICK") (λ v, on_IRC (λ i, i <| irc_Nick := v |>)) cfg in
  let cfg := when_set (env "IRC_USERNAME") (λ v, on_IRC (λ i, i <| irc_Username := v |>)) cfg in
  let cfg := when_set (env "IRC_PASSWORD") (λ v, on_IRC (λ i, i <| irc_Password := v |>)) cfg in
  let cfg := when_set (env "IRC_CHANNELS")
               (λ v, on_IRC (λ i, i <| irc_Channels := splitComma v |>)) cfg in
  let cfg := when_set (env "MANAGER_LISTEN_ADDR") (λ v c, c <| mc_ListenAddr := v |>) cfg in
  let cfg := when_set (env "MANAGER_AGENT_BINARY") (λ v c, c <| mc_AgentBinary := v |>) cfg in
  let cfg := when_set (env "LOG_LEVEL") (λ v c, c <| mc_LogLevel := v |>) cfg in
  when_set (env "LOG_FORMAT") (λ v c, c <| mc_LogFmt := v |>) cfg.

(** The flags that [LoadConfig] declares. *)
Definition flags : list (string * FlagKind) :=
  [("server", StringFlag); ("nick", StringFlag); ("username", StringFlag);
   ("password", StringFlag); ("channels", StringFlag); ("tls", BoolFlag);
   ("tls-insecure", BoolFlag); ("sasl", BoolFlag); ("listen-addr", StringFlag);
   ("log-level", StringFlag); ("log-format", StringFlag); ("agent-binary", StringFlag);
   ("poll-interval", StringFlag); ("config", StringFlag); ("debug", BoolFlag)].

Definition formal (name : string) : option FlagKind :=
  snd <$> find (λ f : string * FlagKind, bool_decide (f.1 = name)) flags.

(** The switch in the callback of [fs.Visit]. *)
Definition apply_flag (cfg : ManagerConfig) (f : string * FlagValue) : ManagerConfig :=
  let '(name, v) := f in
  let named s := bool_decide (name = s) in
  if named "server" then on_IRC (λ i, i <| irc_Server := flag_string v |>) cfg
  else if named "nick" then on_IRC (λ i, i <| irc_Nick := flag_string v |>) cfg
  else if named "username" then on_IRC (λ i, i <| irc_Username := flag_string v |>) cfg
  else if named "password" then on_IRC (λ i, i <| irc_Password := flag_string v |>) cfg
  else if named "channels" then
    on_IRC (λ i, i <| irc_Channels := splitComma (flag_string v) |>) cfg
  else if named "tls" then on_IRC (λ i, i <| irc_TLS := flag_bool v |>) cfg
  else if named "tls-insecure" then
    on_IRC (λ i, i <| irc_TLSInsecureSkipVerify := flag_bool v |>) cfg
  else if named "sasl" then on_IRC (λ i, i <| irc_SASL := flag_bool v |>) cfg
  else if named "listen-addr" then cfg <| mc_ListenAddr := flag_string v |>
  else if named "log-level" then cfg <| mc_LogLevel := flag_string v |>
  else if named "log-format" then cfg <| mc_LogFmt := flag_string v |>
  else if named "agent-binary" then cfg <| mc_AgentBinary := flag_string v |>
  else if named "poll-interval" then
    when_some (parse_duration (flag_string v)) (λ d c, c <| mc_PollInterval := d |>) cfg
  else if named "debug" then on_IRC (λ i, i <| irc_Debug := flag_bool v |>) cfg
  else cfg.

(** ** [LoadConfig] *)

Context (parse_int : string → option Z) (parse_float : string → option float64).
Context (env : string → string) (read_file : string → option string).
Context (yaml_Unmarshal : string → option fileConfig).

Definition loadFromFile (cfg : ManagerConfig) (path : string) : ManagerConfig + LoadError :=
  match read_file path with
  | None => inr (ErrReadFile path)
  | Some data =>
      match yaml_Unmarshal data with
      | None => inr (ErrYAML path)
      | Some fc => inl (apply_file fc cfg)
      end
  end.

Definition config_path (actual : gmap string FlagValue) : string :=
  let configPath := match actual !! "config" with Some v => flag_string v | None => "" end in
  if bool_decide (configPath = "") then env "QUEEN_CONFIG" else configPath.

Definition LoadConfig (args : list string) : ManagerConfig + LoadError :=
  match flag_Parse parse_int parse_float formal ∅ args with
  | inr e => inr (ErrFlags e)
  | inl (actual, _) =>
      let layer2 :=
        if bool_decide (config_path actual = "") then inl default_ManagerConfig
        else loadFromFile default_ManagerConfig (config_path actual) in
      match layer2 with
      | inr e => inr e
      | inl cfg => inl (foldl apply_flag (applyEnv env cfg) (visit actual))
      end
  end.
End config.

(** ** Priority *)

Lemma skip_manager {T} (P : ManagerConfig → T) (f : ManagerConfig → ManagerConfig) x r :
  (∀ c, P (f c) = P c) → P x = r → P (f x) = r.
Proof. by intros Hf <-. Qed.

Ltac manager_layer P :=
  repeat first
    [ progress through_layer P
    | match goal with |- P (on_IRC ?f _) = _ =>
        apply (skip_manager P (on_IRC f)); [solve [other_setting P]|] end ].

Ltac manager_flag P :=
  intros ? k ?; try intros Hk; unfold apply_flag; cbv zeta;
  repeat (case_bool_decide;
    [subst; solve [done | reflexivity | apply (skip_some P); reflexivity]|]); reflexivity.

Ltac manager_setting P :=
  cbn [setting];
  first [ apply (flag_decides _ P); [solve [manager_flag P]|reflexivity|]
        | apply (flag_decides_parsed _ P);
            [solve [manager_flag P]
            |intros; cbn; unfold when_some; by destruct (_ : option Duration)|]
        | apply (no_flag _ P); [solve [manager_flag P]|] ];
  unfold applyEnv; manager_layer P;
  match goal with |- context [match ?file with Some _ => _ | None => _ end] => destruct file end;
  [unfold apply_file; cbn; manager_layer P|reflexivity].

Section load.
Context (parse_duration : string → option Duration).
Context (parse_int : string → option Z) (parse_float : string → option float64).
Context (env : string → string) (read_file : string → option string).
Context (yaml_Unmarshal : string → option fileConfig).

(** Where the settings of a loaded configuration come from. *)
Record precedence (actual : gmap string FlagValue) (file : option fileConfig) (cfg : ManagerConfig)
    : Prop := {
  pr_Server : irc_Server (mc_IRC cfg) = setting [flag_string <$> actual !! "server";
    id <$> nonempty (env "IRC_SERVER"); id <$> (file ≫= λ fc, nonempty (fi_Server (fc_IRC fc)))] "";
  pr_Nick : irc_Nick (mc_IRC cfg) = setting [flag_string <$> actual !! "nick";
    id <$> nonempty (env "IRC_NICK"); id <$> (file ≫= λ fc, nonempty (fi_Nick (fc_IRC fc)))] "";
  pr_Password : irc_Password (mc_IRC cfg) = setting [flag_string <$> actual !! "password";
    id <$> nonempty (env "IRC_PASSWORD");
    id <$> (file ≫= λ fc, nonempty (fi_Password (fc_IRC fc)))] "";
  pr_Channels : irc_Channels (mc_IRC cfg) =
    setting [splitComma ∘ flag_string <$> actual !! "channels";
      splitComma <$> nonempty (env "IRC_CHANNELS");
      id <$> (file ≫= λ fc, nonempty_list (fi_Channels (fc_IRC fc)))] [];
  pr_TLS : irc_TLS (mc_IRC cfg) = setting [flag_bool <$> actual !! "tls";
    id <$> (file ≫= λ fc, fi_TLS (fc_IRC fc))] true;
  pr_SASL : irc_SASL (mc_IRC cfg) = setting [flag_bool <$> actual !! "sasl";
    id <$> (file ≫= λ fc, fi_SASL (fc_IRC fc))] true;
  pr_ListenAddr : mc_ListenAddr cfg = setting [flag_string <$> actual !! "listen-addr";
    id <$> nonempty (env "MANAGER_LISTEN_ADDR");
    id <$> (file ≫= λ fc, nonempty (fc_ListenAddr fc))] ":9090";
  pr_LogLevel : mc_LogLevel cfg = setting [flag_string <$> actual !! "log-level";
    id <$> nonempty (env "LOG_LEVEL"); id <$> (file ≫= λ fc, nonempty (fc_LogLevel fc))] "info";
  pr_AgentBinary : mc_AgentBinary cfg = setting [flag_string <$> actual !! "agent-binary";
    id <$> nonempty (env "MANAGER_AGENT_BINARY");
    id <$> (file ≫= λ fc, nonempty (fc_AgentBinary fc))] "";
  pr_PollInterval : mc_PollInterval cfg =
    setting [id <$> (actual !! "poll-interval" ≫= λ v, parse_duration (flag_string v));
      id <$> (file ≫= λ fc, nonempty (fc_PollInterval fc) ≫= parse_duration)] (10 * second)%Z
}.

Lemma manager_layers actual file :
  precedence actual file
    (foldl (apply_flag parse_duration)
       (applyEnv env
          (match file with
           | Some fc => apply_file parse_duration fc default_ManagerConfig
           | None => default_ManagerConfig
           end)) (visit actual)).
Proof.
  split.
  - manager_setting (λ c, irc_Server (mc_IRC c)).
  - manager_setting (λ c, irc_Nick (mc_IRC c)).
  - manager_setting (λ c, irc_Password (mc_IRC c)).
  - manager_setting (λ c, irc_Channels (mc_IRC c)).
  - manager_setting (λ c, irc_TLS (mc_IRC c)).
  - manager_setting (λ c, irc_SASL (mc_IRC c)).
  - manager_setting (λ c, mc_ListenAddr c).
  - manager_setting (λ c, mc_LogLevel c).
  - manager_setting (λ c, mc_AgentBinary c).
  - manager_setting (λ c, mc_PollInterval c).
Qed.

(** The manager's settings have the same priorities as an agent's: flag,
    environment, file, default. *)
Theorem LoadConfig_precedence args cfg
    (HL : LoadConfig parse_duration parse_int parse_float env read_file yaml_Unmarshal args = inl cfg) :
  ∃ actual rest file,
    flag_Parse parse_int parse_float formal ∅ args = inl (actual, rest) ∧
    (if bool_decide (config_path env actual = "") then file = None
     else file = read_file (config_path env actual) ≫= yaml_Unmarshal ∧ is_Some file) ∧
    precedence actual file cfg.
Proof.
  unfold LoadConfig in HL. destruct (flag_Parse _ _ _ _ _) as [[actual rest]|]; [|done].
  case_bool_decide as Hp.
  - injection HL as <-. exists actual, rest, None. split_and!; [done| |].
    + by rewrite bool_decide_eq_true_2.
    + apply (manager_layers actual None).
  - unfold loadFromFile in HL. destruct (read_file _) as [data|] eqn:Hr; [|done].
    destruct (yaml_Unmarshal data) as [fc|] eqn:Hy; [|done]. injection HL as <-.
    exists actual, rest, (Some fc). split_and!; [done| |].
    + rewrite bool_decide_eq_false_2 by done. rewrite Hr. cbn. by rewrite Hy.
    + apply (manager_layers actual (Some fc)).
Qed.
End load.

(** ** Channel lists *)

Lemma split_from_Split cur s sep :
  in_string sep cur = false → split_from cur s sep = trimSpace <$> Split (cur +:+ s) sep.
Proof.
  revert cur. induction s as [|c s IH]; intros cur Hcur; cbn [split_from].
  - rewrite app_str_nil_r. by rewrite Split_no_sep.
  - case_bool_decide as Hc.
    + subst c. rewrite Split_app, fmap_cons by done. f_equal. by apply (IH "").
    + rewrite IH; [by rewrite <- app_str_assoc|]. rewrite in_string_app, Hcur. cbn.
      by rewrite bool_decide_eq_false_2.
Qed.

(** Trimming a text whose only spaces are blanks: a loop over one of the two
    lists of spaces does what [trimSpace]'s loops do. *)
Lemma trim_loop_blank ps (Hne : Forall (λ p, p ≠ "") ps) s :
  (∀ c t, is_blank c = true → strip_any ps (String c t) = Some t) →
  (∀ c, space_byte c = false → forallb (λ p, negb (in_string c p)) ps = true) →
  (strip_any ps "" = None) →
  all_bytes plain s = true →
  loop (trim_step_decreasing ps Hne) s = (span is_blank s).2.
Proof.
  intros Hblank Hother Hempty.
  induction s as [|c s IH]; intros Hs; rewrite loop_unfold.
  - assert (trim_step ps "" = inr "") as -> by (unfold trim_step; by rewrite Hempty). done.
  - cbn [all_bytes] in Hs. apply andb_prop in Hs as [Hc Hs]. cbn [span].
    destruct (is_blank c) eqn:Eb.
    + assert (trim_step ps (String c s) = inl s) as -> by (unfold trim_step; by rewrite Hblank).
      rewrite IH by done. by destruct (span is_blank s).
    + assert (space_byte c = false) as Hsb.
      { unfold plain in Hc. rewrite Eb, orb_false_r in Hc. by apply negb_true_iff. }
      assert (trim_step ps (String c s) = inr (String c s)) as ->; [|done].
      unfold trim_step.
      rewrite <- (app_str_nil_l (String c s)), strip_any_stop; [done|by apply Hother|done].
Qed.

Lemma all_bytes_span_rest p q s : all_bytes p s = true → all_bytes p (span q s).2 = true.
Proof.
  induction s as [|c s IH]; [done|]. cbn. intros [Hc Hs]%andb_prop.
  destruct (q c); [|cbn; by rewrite Hc, Hs]. destruct (span q s) as [a b]. by apply IH.
Qed.

Lemma strip_blank c t :
  is_blank c = true →
  strip_any spaces (String c t) = Some t ∧ strip_any rev_spaces (String c t) = Some t.
Proof.
  unfold is_blank. intros [H|H]%orb_prop; apply bool_decide_eq_true in H as ->;
    split; cbn; reflexivity.
Qed.

Lemma trimSpace_TrimSpace s : all_bytes plain s = true → trimSpace s = TrimSpace s.
Proof.
  intros Hs. unfold trimSpace, TrimSpace, TrimRight, TrimLeft.
  pose proof (trim_loop_blank spaces spaces_nonempty s (λ c t H, proj1 (strip_blank c t H))
    space_byte_spaces eq_refl Hs) as Hl.
  rewrite Hl. set (r := String.rev (span is_blank s).2).
  assert (all_bytes plain r = true) as Hr.
  { unfold r. rewrite all_bytes_rev. by apply all_bytes_span_rest. }
  pose proof (trim_loop_blank rev_spaces rev_spaces_nonempty r (λ c t H, proj2 (strip_blank c t H))
    space_byte_rev_spaces eq_refl Hr) as Hl'.
  by rewrite Hl'.
Qed.

Lemma Split_all_bytes p s sep :
  all_bytes p s = true → Forall (λ t, all_bytes p t = true) (Split s sep).
Proof.
  induction s as [|c s IH]; [by repeat constructor|]. cbn. intros [Hc Hs]%andb_prop.
  specialize (IH Hs). case_decide; [by constructor|].
  destruct (Split s sep) as [|t ts]; [by repeat constructor; cbn; rewrite ?Hc|].
  apply Forall_cons in IH as [Ht Hts]. constructor; [cbn; by rewrite Hc|done].
Qed.

(** The manager and the agents read a list of channels the same way, as long
    as blanks and tabs are the only white space in it. *)
Theorem splitComma_splitChannels s :
  all_bytes plain s = true → splitComma s = splitChannels s.
Proof.
  intros Hs. unfold splitComma, splitChannels, splitBy. case_bool_decide; [done|].
  rewrite split_from_Split by done. rewrite app_str_nil_l. f_equal.
  apply list_fmap_ext. intros i t Ht. apply trimSpace_TrimSpace.
  pose proof (Split_all_bytes plain s "," Hs) as Hall. rewrite Forall_lookup in Hall. by eapply Hall.
Qed.

Lemma splitComma_splitChannels_witness :
  splitComma "#a, #b,,	#c " = splitChannels "#a, #b,,	#c " ∧
  splitComma "#a, #b,,	#c " = ["#a"; "#b"; "#c"].
Proof. split; [by apply splitComma_splitChannels|]. vm_compute. reflexivity. Defined.

(** On other white space they differ: a list that ends in a newline names a
    channel of its own to the manager. *)
Example splitComma_newline :
  splitComma ("#a" +:+ newline) = ["#a" +:+ newline] ∧ splitChannels ("#a" +:+ newline) = ["#a"].
Proof. split; vm_compute; reflexivity. Qed.

(** A poll interval of 0 is accepted; [time.NewTicker] panics on it. *)
Example poll_interval_zero :
  let parse_duration s := if bool_decide (s = "0s") then Some 0%Z else None in
  match LoadConfig parse_duration (λ _, None) (λ _, None) (λ _, "") (λ _, None) (λ _, None)
          ["--poll-interval"; "0s"] with
  | inl cfg => mc_PollInterval cfg = 0%Z
  | inr _ => False
  end.
Proof. vm_compute. reflexivity. Qed.
