(* ===== verification/Hub.v ===== *)
(** * The event hub: [internal/manager/hub.go] and [serveWS] of [server.go]

    Every browser that follows the events has a connection with a buffered
    channel of 256 messages. A broadcast must never block the manager, so a
    message for a full channel is dropped; a channel is closed when its
    connection leaves, and sending on a closed channel, like closing it twice,
    would panic and end the manager. *)

From S2P Require Import Prelude.

(** A channel: its buffered messages and whether it is closed. *)
Record wsConn := {
  ws_send : list string;
  ws_closed : bool
}.

#[export] Instance wsConn_eta : RecordEta wsConn := λ r,
  {| ws_send := ws_send r; ws_closed := ws_closed r |}.

(** [make(chan []byte, 256)] *)
Definition send_capacity : nat := 256.
Definition new_wsConn : wsConn := {| ws_send := []; ws_closed := false |}.

(** The clients are pointers to connections: the connections that exist, and the
    set of those that are registered. *)
Record Hub := {
  hub_conns : gmap nat wsConn;
  hub_clients : gmap nat ()
}.

#[export] Instance Hub_eta : RecordEta Hub := λ r,
  {| hub_conns := hub_conns r; hub_clients := hub_clients r |}.

Definition NewHub : Hub := {| hub_conns := ∅; hub_clients := ∅ |}.

Definition Register (c : nat) (h : Hub) : Hub :=
  h <| hub_clients := <[c := ()]> (hub_clients h) |>.

(** [close(c.send)] panics ([None]) on a closed channel. *)
Definition close_send (c : nat) (h : Hub) : option Hub :=
  match hub_conns h !! c with
  | Some conn =>
      if ws_closed conn then None
      else Some (h <| hub_conns := <[c := conn <| ws_closed := true |>]> (hub_conns h) |>)
  | None => None
  end.

Definition Unregister (c : nat) (h : Hub) : option Hub :=
  match hub_clients h !! c with
  | Some _ => (λ h, h <| hub_clients := delete c (hub_clients h) |>) <$> close_send c h
  | None => Some h
  end.

(** [select { case c.send <- data: default: }]: panics on a closed channel, drops
    the message when the buffer is full. *)
Definition try_send (data : string) (conns : gmap nat wsConn) (c : nat)
    : option (gmap nat wsConn) :=
  match conns !! c with
  | Some conn =>
      if ws_closed conn then None
      else if bool_decide (length (ws_send conn) < send_capacity)
      then Some (<[c := conn <| ws_send := ws_send conn ++ [data] |>]> conns)
      else Some conns
  | None => None
  end.

(** [json.Marshal(msg)] is an argument: [None] when it fails. *)
Definition Broadcast `{MapRange} (data : option string) (h : Hub) : option Hub :=
  match data with
  | None => Some h
  | Some data =>
      (λ conns, h <| hub_conns := conns |>) <$>
        foldl (λ conns kv, conns ← conns; try_send data conns kv.1) (Some (hub_conns h))
          (range 0 (hub_clients h))
  end.

Definition ClientCount (h : Hub) : nat := size (hub_clients h).

(** ** [serveWS]

    A request makes a connection of its own and registers it; the loop receives
    one message at a time; when the request ends, the deferred call unregisters
    the connection. *)
Definition serve_start (c : nat) (h : Hub) : Hub :=
  Register c (h <| hub_conns := <[c := new_wsConn]> (hub_conns h) |>).

(** What the loop receives: the next message; [None] on an empty channel. *)
Definition serve_receive (c : nat) (h : Hub) : Hub * option string :=
  match hub_conns h !! c with
  | Some {| ws_send := data :: rest; ws_closed := closed |} =>
      (h <| hub_conns := <[c := {| ws_send := rest; ws_closed := closed |}]> (hub_conns h) |>, Some data)
  | _ => (h, None)
  end.

(** The steps of the manager that involve the hub. A connection is new when its
    request starts, and its request ends once. *)
Inductive hub_step `{MapRange} : relation Hub :=
| hub_start c h : hub_conns h !! c = None → hub_step h (serve_start c h)
| hub_receive c h : hub_step h (serve_receive c h).1
| hub_end c h h' : is_Some (hub_conns h !! c) → Unregister c h = Some h' → hub_step h h'
| hub_broadcast data h h' : Broadcast data h = Some h' → hub_step h h'.

(** ** Theorems *)

(** Exactly the registered connections are open, and no buffer overflows. *)
Definition hub_ok (h : Hub) : Prop :=
  (∀ c conn, hub_conns h !! c = Some conn →
     (ws_closed conn = false ↔ is_Some (hub_clients h !! c)) ∧
     length (ws_send conn) ≤ send_capacity) ∧
  ∀ c, is_Some (hub_clients h !! c) → is_Some (hub_conns h !! c).

Section hub.
Context `{MR : MapRange}.

(** What a broadcast does to one connection. *)
Definition received (data : string) (conn : wsConn) : wsConn :=
  if bool_decide (length (ws_send conn) < send_capacity)
  then conn <| ws_send := ws_send conn ++ [data] |> else conn.

Lemma broadcast_fold data l conns :
  NoDup l.*1 →
  (∀ c : nat, c ∈ l.*1 → ∃ conn, conns !! c = Some conn ∧ ws_closed conn = false) →
  ∃ conns', foldl (λ conns (kv : nat * ()), conns ← conns; try_send data conns kv.1) (Some conns) l
      = Some conns' ∧
    ∀ c, conns' !! c = if bool_decide (c ∈ l.*1) then received data <$> conns !! c else conns !! c.
Proof.
  revert conns. induction l as [|[c []] l IH]; intros conns Hnd Hopen.
  { exists conns. split; [done|]. intros c. by rewrite bool_decide_eq_false_2 by apply not_elem_of_nil. }
  cbn [foldl fmap list_fmap fst] in *. apply NoDup_cons in Hnd as [Hc Hnd].
  destruct (Hopen c) as (conn & Hconn & Hcl); [by left|].
  assert (∃ conns1, (Some conns ≫= λ conns, try_send data conns c) = Some conns1 ∧
    ∀ c', conns1 !! c' = if bool_decide (c' = c) then Some (received data conn) else conns !! c')
    as (conns1 & -> & H1).
  { cbn. unfold try_send. rewrite Hconn, Hcl. unfold received. case_bool_decide.
    - eexists. split; [done|]. intros c'. rewrite lookup_insert. destruct (decide (c = c')) as [->|Hne].
      + by rewrite (bool_decide_eq_true_2 (c' = c')), Hcl.
      + by rewrite (bool_decide_eq_false_2 (c' = c)).
    - eexists. split; [done|]. intros c'. case_bool_decide; by subst. }
  destruct (IH conns1) as (conns' & -> & H2); [done| |].
  - intros c' Hc'. destruct (Hopen c') as (conn' & Hconn' & Hcl'); [by right|].
    exists conn'. split; [|done]. rewrite H1, bool_decide_eq_false_2; [done|]. by intros ->.
  - exists conns'. split; [done|]. intros c'. rewrite H2, H1.
    destruct (decide (c' = c)) as [->|Hne].
    + rewrite (bool_decide_eq_false_2 _ Hc), !bool_decide_eq_true_2 by (done || by left).
      by rewrite Hconn.
    + rewrite (bool_decide_eq_false_2 (c' = c)) by done.
      rewrite (bool_decide_ext (c' ∈ l.*1) (c' ∈ c :: l.*1)); [done|]. rewrite elem_of_cons. tauto.
Qed.

Lemma Broadcast_total data h :
  hub_ok h →
  ∃ h', Broadcast data h = Some h' ∧ hub_clients h' = hub_clients h ∧
    ∀ c, hub_conns h' !! c =
      match data with
      | Some data => if bool_decide (is_Some (hub_clients h !! c))
                     then received data <$> hub_conns h !! c else hub_conns h !! c
      | None => hub_conns h !! c
      end.
Proof.
  intros [Hok Hcl]. destruct data as [data|]; [|by exists h]. unfold Broadcast.
  destruct (broadcast_fold data (range 0 (hub_clients h)) (hub_conns h)) as (conns' & -> & H).
  - apply NoDup_fst_range.
  - intros c Hc. apply elem_of_range_fst in Hc. destruct (Hcl c Hc) as [conn Hconn].
    exists conn. split; [done|]. by apply (Hok c conn Hconn).
  - eexists. split; [done|]. split; [done|]. intros c. cbn [hub_conns]. rewrite H.
    by rewrite (bool_decide_ext _ _ (elem_of_range_fst 0 (hub_clients h) c)).
Qed.

Lemma Unregister_total c h :
  hub_ok h →
  ∃ h', Unregister c h = Some h' ∧ hub_clients h' = delete c (hub_clients h) ∧
    ∀ c', hub_conns h' !! c' =
      if bool_decide (c' = c ∧ is_Some (hub_clients h !! c))
      then (λ conn, conn <| ws_closed := true |>) <$> hub_conns h !! c' else hub_conns h !! c'.
Proof.
  intros [Hok Hcl]. unfold Unregister. destruct (hub_clients h !! c) as [[]|] eqn:E.
  - destruct (Hcl c) as [conn Hconn]; [by eexists|]. unfold close_send. rewrite Hconn.
    assert (ws_closed conn = false) as -> by (apply (Hok c conn Hconn); by eexists).
    eexists. split; [done|]. split; [done|]. intros c'. cbn [hub_conns]. rewrite lookup_insert.
    case_decide as Ec.
    + subst c'. rewrite bool_decide_eq_true_2 by (split; [done|by eexists]). by rewrite Hconn.
    + rewrite bool_decide_eq_false_2; [done|]. by intros [-> _].
  - exists h. split; [done|]. split; [by rewrite delete_id|]. intros c'.
    rewrite bool_decide_eq_false_2; [done|]. by intros [_ []].
Qed.

Lemma received_ok data conn :
  length (ws_send conn) ≤ send_capacity →
  length (ws_send (received data conn)) ≤ send_capacity ∧
  ws_closed (received data conn) = ws_closed conn.
Proof.
  intros Hl. unfold received. case_bool_decide as Hlt; (split; [|done]); [|done].
  cbn [ws_send]. rewrite length_app. cbn [length]. lia.
Qed.

Lemma hub_step_ok h h' : hub_ok h → hub_step h h' → hub_ok h'.
Proof.
  intros Hh Hstep. pose proof Hh as [Hok Hcl].
  destruct Hstep as [c h Hnew|c h|c h h' Hc Hun|data h h' Hb].
  - split; cbn.
    + intros c' conn. rewrite !lookup_insert. case_decide.
      * intros [= <-]. cbn. split; [|lia]. split; [|done]. by eexists.
      * apply Hok.
    + intros c'. rewrite !lookup_insert. case_decide; [by eexists|]. apply Hcl.
  - unfold serve_receive. destruct (hub_conns h !! c) as [[[|data rest] closed]|] eqn:E; [done| |done].
    split; cbn.
    + intros c' conn. rewrite lookup_insert. case_decide; [|apply Hok]. subst c'.
      intros [= <-]. destruct (Hok c _ E) as [Hiff Hlen]. cbn in *. split; [done|lia].
    + intros c'. rewrite lookup_insert. case_decide; [by eexists|]. apply Hcl.
  - destruct (Unregister_total c h Hh) as (h2 & Hun' & Hcs & Hconns).
    rewrite Hun' in Hun. injection Hun as ->. split.
    + intros c' conn. rewrite Hconns, Hcs, lookup_delete. case_bool_decide as Ec.
      * destruct Ec as [-> Hreg]. destruct (hub_conns h !! c) as [conn0|] eqn:E; [|done].
        intros [= <-]. cbn. rewrite decide_True by done. split; [|by apply (Hok c)].
        split; [done|by intros []].
      * intros Hconn. destruct (Hok _ _ Hconn) as [Hiff Hlen]. split; [|done]. case_decide; [|done].
        subst c'. rewrite Hiff. split; [|by intros []]. intros Hreg. by destruct Ec.
    + intros c'. rewrite Hcs, lookup_delete, Hconns. case_decide; [by intros []|].
      intros Hreg. rewrite bool_decide_eq_false_2; [by apply Hcl|]. by intros [-> _].
  - destruct (Broadcast_total data h Hh) as (h2 & Hb' & Hcs & Hconns).
    rewrite Hb' in Hb. injection Hb as ->. split.
    + intros c conn. rewrite Hconns, Hcs. destruct data as [data|]; [|apply Hok].
      case_bool_decide; [|apply Hok].
      destruct (hub_conns h !! c) as [conn0|] eqn:E; [|done]. intros [= <-].
      destruct (Hok _ _ E) as [Hiff Hlen]. destruct (received_ok data conn0 Hlen) as [Hl ->]. done.
    + intros c. rewrite Hcs, Hconns. intros Hreg. pose proof (Hcl c Hreg) as Hin.
      destruct data as [data|]; [|done]. case_bool_decide; [|done]. by rewrite fmap_is_Some.
Qed.

(** C20. The hub cannot panic: in every state that requests and broadcasts lead
    to, a broadcast finds every registered channel open, a request that ends
    closes its channel for the first time, and no buffer exceeds its capacity. *)
Theorem hub_never_panics h :
  rtc hub_step NewHub h →
  (∀ data, is_Some (Broadcast data h)) ∧ (∀ c, is_Some (Unregister c h)) ∧
  (∀ c conn, hub_conns h !! c = Some conn → length (ws_send conn) ≤ send_capacity).
Proof.
  intros Hreach. assert (hub_ok h) as Hh.
  { eapply (rtc_invariant hub_step hub_ok); [apply hub_step_ok| |exact Hreach].
    split; cbn; intros c; rewrite lookup_empty; [done|by intros []]. }
  split_and!.
  - intros data. destruct (Broadcast_total data h Hh) as (h' & -> & _). by eexists.
  - intros c. destruct (Unregister_total c h Hh) as (h' & -> & _). by eexists.
  - intros c conn Hc. by apply (proj1 Hh c conn Hc).
Qed.

(** Broadcasts in a row. *)
Definition broadcast_all (datas : list string) (h : Hub) : option Hub :=
  foldl (λ h data, h ← h; Broadcast (Some data) h) (Some h) datas.

(** Delivery: a registered client gets the broadcasts in their order for as
    long as its channel has room, and misses the later ones; whatever happens to
    the other clients, and nobody waits. *)
Theorem broadcasts_delivered datas h c conn :
  rtc hub_step NewHub h → hub_conns h !! c = Some conn → is_Some (hub_clients h !! c) →
  ∃ h' conn', broadcast_all datas h = Some h' ∧ hub_conns h' !! c = Some conn' ∧
    ws_send conn' = ws_send conn ++ take (send_capacity - length (ws_send conn)) datas.
Proof.
  intros Hreach. assert (hub_ok h) as Hh.
  { eapply (rtc_invariant hub_step hub_ok); [apply hub_step_ok| |exact Hreach].
    split; cbn; intros c'; rewrite lookup_empty; [done|by intros []]. }
  clear Hreach. unfold broadcast_all. revert h conn Hh.
  induction datas as [|data datas IH]; intros h conn Hh Hconn Hreg.
  { exists h, conn. by rewrite take_nil, app_nil_r. }
  destruct (Broadcast_total (Some data) h Hh) as (h1 & Hb & Hcs & Hconns).
  assert (hub_ok h1) as Hh1 by (eapply hub_step_ok; [exact Hh|by eapply hub_broadcast]).
  destruct (IH h1 (received data conn)) as (h' & conn' & Hall & Hc' & Hsend); [done| |by rewrite Hcs|].
  { by rewrite Hconns, bool_decide_eq_true_2, Hconn. }
  exists h', conn'. split; [|split; [done|]].
  { cbn [foldl]. change (Some h ≫= λ h, Broadcast (Some data) h) with (Broadcast (Some data) h).
    by rewrite Hb. }
  rewrite Hsend. unfold received. case_bool_decide as Hlt; cbn [ws_send].
  - rewrite length_app. cbn [length].
    replace (send_capacity - length (ws_send conn))
      with (S (send_capacity - (length (ws_send conn) + 1))) by lia.
    by rewrite firstn_cons, <- app_assoc.
  - replace (send_capacity - length (ws_send conn)) with 0 by lia. done.
Qed.
End hub.

(** A browser connects and another one leaves. *)
Definition sample_hub : Hub := serve_start 2 (serve_start 1 NewHub).

Lemma sample_hub_reachable : rtc hub_step NewHub sample_hub.
Proof.
  eapply rtc_l; [by apply (hub_start 1)|]. eapply rtc_l; [by apply (hub_start 2)|]. apply rtc_refl.
Qed.

Lemma hub_never_panics_witness : is_Some (Broadcast (Some "x") sample_hub).
Proof. apply (hub_never_panics sample_hub sample_hub_reachable). Defined.

Lemma broadcasts_delivered_witness :
  ∃ h' conn', broadcast_all ["a"; "b"] sample_hub = Some h' ∧ hub_conns h' !! 1 = Some conn' ∧
    ws_send conn' = ["a"; "b"].
Proof.
  apply (broadcasts_delivered ["a"; "b"] sample_hub 1 new_wsConn);
    [exact sample_hub_reachable|reflexivity|by eexists].
Defined.
