(* ===== verification/Registry.v ===== *)
(** * The agent registry: [internal/manager/registry.go]

    What the manager knows about each agent, by nick. A record's [Instance] is a
    pointer that the registry shares with the manager: it is the number of an
    instance in the manager's store ([Manager]). The records themselves are
    returned as copies and changed in place. *)

From S2P Require Import Prelude GoStrings GoNum State Discovery Health Metrics Cost.

Record AgentRecord := {
  ar_Nick : string;
  ar_Host : string;
  ar_Status : string;
  ar_SpawnerType : string;
  ar_DashboardURL : string;
  ar_CurrentTask : string;
  ar_Source : string;
  ar_Instance : option nat;
  ar_Channels : list string;
  ar_Capabilities : list string;
  ar_Metrics : option MetricsSnapshot;
  ar_Health : option HealthStatus;
  ar_CostSummary : option CostSummary;
  ar_LastSeen : Time;
  ar_RegisteredAt : Time
}.

#[export] Instance AgentRecord_eta : RecordEta AgentRecord := λ r,
  {| ar_Nick := ar_Nick r; ar_Host := ar_Host r; ar_Status := ar_Status r;
     ar_SpawnerType := ar_SpawnerType r; ar_DashboardURL := ar_DashboardURL r;
     ar_CurrentTask := ar_CurrentTask r; ar_Source := ar_Source r; ar_Instance := ar_Instance r;
     ar_Channels := ar_Channels r; ar_Capabilities := ar_Capabilities r;
     ar_Metrics := ar_Metrics r; ar_Health := ar_Health r; ar_CostSummary := ar_CostSummary r;
     ar_LastSeen := ar_LastSeen r; ar_RegisteredAt := ar_RegisteredAt r |}.

Abbreviation AgentRegistry := (gmap string AgentRecord) (only parsing).

Definition NewAgentRegistry : AgentRegistry := ∅.

(** The record that [Register] leaves behind its argument. *)
Definition stamped (now : Time) (rec : AgentRecord) : AgentRecord :=
  let rec := if IsZero (ar_RegisteredAt rec) then rec <| ar_RegisteredAt := now |> else rec in
  if IsZero (ar_LastSeen rec) then rec <| ar_LastSeen := now |> else rec.

Definition reg_Register (now : Time) (rec : AgentRecord) (r : AgentRegistry) : AgentRegistry :=
  <[ar_Nick rec := stamped now rec]> r.

Definition reg_Get (nick : string) (r : AgentRegistry) : option AgentRecord := r !! nick.

Definition reg_List `{MapRange} (r : AgentRegistry) : list AgentRecord := (range 0 r).*2.

Definition discovered (now : Time) (cap : AgentCapability) : AgentRecord :=
  {| ar_Nick := ac_Nick cap; ar_Host := ""; ar_Status := "online"; ar_SpawnerType := "";
     ar_DashboardURL := ""; ar_CurrentTask := ""; ar_Source := "discovered"; ar_Instance := None;
     ar_Channels := []; ar_Capabilities := []; ar_Metrics := None; ar_Health := None;
     ar_CostSummary := None; ar_LastSeen := zero_time; ar_RegisteredAt := now |}.

Definition UpdateFromDiscovery (now : Time) (cap : AgentCapability) (r : AgentRegistry)
    : AgentRegistry :=
  let rec := default (discovered now cap) (r !! ac_Nick cap) in
  let status := if bool_decide (ar_Status rec = "stopping") then ar_Status rec else "online" in
  <[ac_Nick cap :=
      {| ar_Nick := ar_Nick rec; ar_Host := ar_Host rec; ar_Status := status;
         ar_SpawnerType := ar_SpawnerType rec; ar_DashboardURL := ar_DashboardURL rec;
         ar_CurrentTask := ac_CurrentTask cap; ar_Source := ar_Source rec;
         ar_Instance := ar_Instance rec; ar_Channels := ac_Channels cap;
         ar_Capabilities := ac_Expertise cap; ar_Metrics := ar_Metrics rec;
         ar_Health := ar_Health rec; ar_CostSummary := ar_CostSummary rec;
         ar_LastSeen := ac_UpdatedAt cap; ar_RegisteredAt := ar_RegisteredAt rec |}]> r.

(** [rec, ok := r.agents[nick]; if !ok { return }] and the changes to [rec] *)
Definition update_record (nick : string) (f : AgentRecord → AgentRecord) (r : AgentRegistry)
    : AgentRegistry := alter f nick r.

Definition UpdateHealth (now : Time) (nick : string) (health : HealthStatus) (r : AgentRegistry)
    : AgentRegistry :=
  update_record nick (λ rec,
    let rec := rec <| ar_Health := Some health |> in
    let rec := rec <| ar_LastSeen := now |> in
    if hs_Healthy health then rec <| ar_Status := "online" |> else rec) r.

Definition UpdateMetrics (nick : string) (metrics : MetricsSnapshot) (r : AgentRegistry)
    : AgentRegistry :=
  update_record nick (λ rec, rec <| ar_Metrics := Some metrics |>) r.

Definition UpdateCostSummary (nick : string) (summary : CostSummary) (r : AgentRegistry)
    : AgentRegistry :=
  update_record nick (λ rec, rec <| ar_CostSummary := Some summary |>) r.

Definition UpdateStatus (nick status : string) (r : AgentRegistry) : AgentRegistry :=
  update_record nick (λ rec, rec <| ar_Status := status |>) r.

Definition Remove (nick : string) (r : AgentRegistry) : AgentRegistry := delete nick r.

Definition Count (r : AgentRegistry) : nat := size r.

(** ** Theorems *)

(** An operation on the registry. *)
Inductive RegistryOp :=
| OpRegister (now : Time) (rec : AgentRecord)
| OpDiscovered (now : Time) (cap : AgentCapability)
| OpHealth (now : Time) (nick : string) (health : HealthStatus)
| OpMetrics (nick : string) (metrics : MetricsSnapshot)
| OpCost (nick : string) (summary : CostSummary)
| OpStatus (nick status : string)
| OpRemove (nick : string).

Definition registry_step (r : AgentRegistry) (op : RegistryOp) : AgentRegistry :=
  match op with
  | OpRegister now rec => reg_Register now rec r
  | OpDiscovered now cap => UpdateFromDiscovery now cap r
  | OpHealth now nick health => UpdateHealth now nick health r
  | OpMetrics nick metrics => UpdateMetrics nick metrics r
  | OpCost nick summary => UpdateCostSummary nick summary r
  | OpStatus nick status => UpdateStatus nick status r
  | OpRemove nick => Remove nick r
  end.

(** Every record is filed under its own nick. *)
Definition filed (r : AgentRegistry) : Prop := map_Forall (λ nick rec, ar_Nick rec = nick) r.

Lemma alter_filed nick f r :
  (∀ rec, ar_Nick (f rec) = ar_Nick rec) → filed r → filed (alter f nick r).
Proof.
  intros Hf Hr nick' rec. rewrite lookup_alter. case_decide as E; [|apply Hr]. subst nick'.
  intros (rec' & Hrec' & ->)%fmap_Some. rewrite Hf. by apply Hr.
Qed.

Lemma registry_step_filed r op : filed r → filed (registry_step r op).
Proof.
  intros Hr. destruct op; cbn [registry_step].
  - intros nick rec'. unfold reg_Register. rewrite lookup_insert. case_decide as E; [|apply Hr].
    intros [= <-]. subst nick. unfold stamped. by repeat case_match.
  - intros nick rec'. unfold UpdateFromDiscovery. rewrite lookup_insert.
    case_decide as E; [|apply Hr]. intros [= <-]. cbn. subst nick.
    destruct (r !! ac_Nick cap) as [rec|] eqn:Er; [|done]. by apply Hr.
  - apply alter_filed; [|done]. intros rec. by destruct (hs_Healthy health).
  - by apply alter_filed.
  - by apply alter_filed.
  - by apply alter_filed.
  - by apply map_Forall_delete.
Qed.

Lemma registry_filed r ops : filed r → filed (foldl registry_step r ops).
Proof.
  revert r. induction ops as [|op ops IH]; intros r Hr; [done|]. by apply IH, registry_step_filed.
Qed.

(** Whether an operation makes a record for a nick, ends it or leaves it. *)
Definition presence (nick : string) (known : bool) (op : RegistryOp) : bool :=
  match op with
  | OpRegister _ rec => bool_decide (ar_Nick rec = nick) || known
  | OpDiscovered _ cap => bool_decide (ac_Nick cap = nick) || known
  | OpRemove nick' => negb (bool_decide (nick' = nick)) && known
  | _ => known
  end.

Lemma registry_step_presence r op nick :
  bool_decide (is_Some (registry_step r op !! nick)) =
    presence nick (bool_decide (is_Some (r !! nick))) op.
Proof.
  assert (∀ f nick', is_Some (alter f nick' r !! nick) ↔ is_Some (r !! nick)) as Halter.
  { intros f nick'. rewrite lookup_alter. case_decide; [|done]. subst. by rewrite fmap_is_Some. }
  destruct op; cbn [registry_step presence]; try (apply bool_decide_ext, Halter).
  - unfold reg_Register. rewrite lookup_insert. case_decide as E.
    + by rewrite (bool_decide_eq_true_2 (ar_Nick rec = nick)), bool_decide_eq_true_2 by done.
    + by rewrite (bool_decide_eq_false_2 (ar_Nick rec = nick)).
  - unfold UpdateFromDiscovery. rewrite lookup_insert. case_decide as E.
    + by rewrite (bool_decide_eq_true_2 (ac_Nick cap = nick)), bool_decide_eq_true_2 by done.
    + by rewrite (bool_decide_eq_false_2 (ac_Nick cap = nick)).
  - unfold Remove. rewrite lookup_delete. case_decide as E.
    + rewrite (bool_decide_eq_true_2 (nick0 = nick)) by done. apply bool_decide_eq_false_2. by intros [].
    + by rewrite (bool_decide_eq_false_2 (nick0 = nick)).
Qed.

Lemma registry_presence r ops nick :
  bool_decide (is_Some (foldl registry_step r ops !! nick)) =
    foldl (presence nick) (bool_decide (is_Some (r !! nick))) ops.
Proof.
  revert r. induction ops as [|op ops IH]; intros r; [done|]. cbn [foldl].
  by rewrite IH, registry_step_presence.
Qed.

(** The registry: after any operations it knows exactly the nicks that were
    registered or discovered and not removed since, every record is filed under
    its own nick, and [List] gives each record once; reports about a nick that is
    not known (its health, metrics, costs or status) change nothing. *)
Theorem registry_spec `{MR : MapRange} ops nick :
  let r := foldl registry_step NewAgentRegistry ops in
  (is_Some (reg_Get nick r) ↔ foldl (presence nick) false ops = true) ∧
  (∀ rec, reg_Get nick r = Some rec → ar_Nick rec = nick) ∧
  (ar_Nick <$> reg_List r) ≡ₚ (range 0 r).*1 ∧ length (reg_List r) = Count r ∧
  (reg_Get nick r = None → ∀ now health metrics summary status,
     UpdateHealth now nick health r = r ∧ UpdateMetrics nick metrics r = r ∧
     UpdateCostSummary nick summary r = r ∧ UpdateStatus nick status r = r).
Proof.
  intros r.
  assert (filed r) as Hr by apply registry_filed, map_Forall_empty.
  unfold reg_Get. split; [|split; [apply Hr|split; [|split]]].
  - unfold r. rewrite <- (registry_presence NewAgentRegistry), bool_decide_eq_true. done.
  - unfold reg_List. rewrite <- list_fmap_compose. apply Permutation_refl'. apply list_fmap_ext.
    intros i [k rec] Hi. apply list_elem_of_lookup_2, elem_of_range in Hi. cbn. by apply Hr.
  - unfold reg_List. by rewrite length_fmap, length_range.
  - intros Hnone now health metrics summary status. unfold UpdateHealth, UpdateMetrics,
      UpdateCostSummary, UpdateStatus, update_record. by rewrite !alter_id by congruence.
Qed.

(** The status of an agent that is being stopped: its own CAPABILITIES
    messages do not put it back online, as long as it is [stopping]; a health poll
    that finds it healthy does, and once it is [stopped] a late CAPABILITIES
    message does, too. *)
Theorem stopping_is_overridden now nick rec cap health r :
  r !! nick = Some rec → ac_Nick cap = nick → hs_Healthy health = true →
  let after op := ar_Status <$> registry_step r op !! nick in
  (ar_Status rec = "stopping" → after (OpDiscovered now cap) = Some "stopping") ∧
  (ar_Status rec = "stopping" → after (OpHealth now nick health) = Some "online") ∧
  (ar_Status rec = "stopped" → after (OpDiscovered now cap) = Some "online").
Proof.
  intros Hr Hcap Hh after. unfold after. cbn [registry_step].
  unfold UpdateFromDiscovery, UpdateHealth, update_record.
  rewrite Hcap, Hr, lookup_insert_eq, lookup_alter_eq, Hr. cbn. rewrite Hh.
  split_and!; intros E; rewrite ?E; done.
Qed.

Definition sample_record (status : string) : AgentRecord :=
  discovered 3 {| ac_Nick := "alice"; ac_Expertise := []; ac_Channels := []; ac_CurrentTask := "";
    ac_UpdatedAt := 3; ac_ExpiresAt := 0; ac_Role := ""; ac_Load := 0; ac_MaxLoad := 0;
    ac_ActiveTasks := [] |} <| ar_Status := status |>.

Definition sample_health : HealthStatus :=
  {| hs_Connected := true; hs_Healthy := true; hs_Nick := "alice"; hs_Channels := [];
     hs_Uptime := 0; hs_UptimeHuman := "0h0m0s"; hs_StartedAt := 0;
     hs_TaskStats := {| ts_Total := 0; ts_Started := 0; ts_Completed := 0; ts_Blocked := 0 |};
     hs_DependencyStats := {| TotalEdges := 0; ResolvedEdges := 0; UnresolvedEdges := 0;
       BlockedTasks := 0; UnblockedTasks_count := 0 |} |}.

Lemma stopping_is_overridden_witness :
  ar_Status <$> UpdateHealth 9 "alice" sample_health {["alice" := sample_record "stopping"]} !! "alice" =
    Some "online".
Proof.
  destruct (stopping_is_overridden 9 "alice" (sample_record "stopping")
    {| ac_Nick := "alice"; ac_Expertise := []; ac_Channels := []; ac_CurrentTask := "";
       ac_UpdatedAt := 3; ac_ExpiresAt := 0; ac_Role := ""; ac_Load := 0; ac_MaxLoad := 0;
       ac_ActiveTasks := [] |} sample_health {["alice" := sample_record "stopping"]})
    as (_ & H & _); [reflexivity|reflexivity|reflexivity|]. by apply H.
Defined.
