(* ===== verification/Manager.v ===== *)
(** * The manager: [internal/manager/manager.go], [server.go]

    The manager sits on the agents' channels, keeps stores of its own from what
    it reads, starts and stops agents and tells browsers what happens. Instances
    of agents are shared by pointer between a record and its users: a record
    holds the number of an instance in [m_instances].

    An operation returns [None] where the code would panic (an index out of
    range, a send on a closed channel). [clk i] is what the [i]-th call site of
    [time.Now()] reads: 0 to 5 as in [Dispatcher], 6 the cost store, 7 the
    registry. The encoding to JSON and, for starting and stopping agents, the
    spawners with their worlds are arguments. The routes and the pages of the
    server, and how the manager itself is started and stopped, are in [Server]. *)

From S2P Require Import Prelude GoStrings GoNum GoFloat GoFlag Config Message Parser Serializer.
From S2P Require Import State TaskBoard Discovery Context Inspector Metrics Health Events IrcClient.
From S2P Require Import Dispatcher Spawner Instances Cost ManagerConfig Hub Registry.

Record Manager := {
  m_cfg : ManagerConfig;
  m_registry : gmap string AgentRecord;
  m_costStore : CostStore;
  m_spawners : gmap string Spawner;
  m_hub : Hub;
  m_state : StateStore;
  m_discovery : DiscoveryStore;
  m_ctxStore : ContextStore;
  m_taskBoard : TaskBoard;
  m_inspector : DebugInspector;
  m_instances : list AgentInstance
}.

#[export] Instance Manager_eta : RecordEta Manager := λ r,
  {| m_cfg := m_cfg r; m_registry := m_registry r; m_costStore := m_costStore r;
     m_spawners := m_spawners r; m_hub := m_hub r; m_state := m_state r;
     m_discovery := m_discovery r; m_ctxStore := m_ctxStore r; m_taskBoard := m_taskBoard r;
     m_inspector := m_inspector r; m_instances := m_instances r |}.

(** ** Construction *)

(** The three spawners are arguments, since they talk to the outside. *)
Definition NewWithClient (localSp sshSp dockerSp : Spawner) (cfg : ManagerConfig) : Manager :=
  {| m_cfg := cfg; m_registry := NewAgentRegistry; m_costStore := NewCostStore;
     m_spawners := <["docker" := dockerSp]> (<["ssh" := sshSp]> {["local" := localSp]});
     m_hub := NewHub; m_state := NewStateStore;
     m_discovery := NewDiscoveryStore 300000000000; m_ctxStore := NewContextStore;
     m_taskBoard := NewTaskBoard 0; m_inspector := NewDebugInspector 5000; m_instances := [] |}.

Definition New (irc_IRC : string → string → option Connection) (now : Time)
    (localSp sshSp dockerSp : Spawner) (cfg : ManagerConfig)
    : ClientError + Manager * ircClient :=
  match NewClient irc_IRC now (mc_IRC cfg) with
  | inl err => inl err
  | inr client => inr (NewWithClient localSp sshSp dockerSp cfg, client)
  end.

(** ** Events for the browsers *)

(** The payloads of the events. *)
Inductive Payload :=
| PayMessage (nick channel action raw : string)
| PayCost (agent task cost : string)
| PayAgent (rec : option AgentRecord)
| PayNil.

Section manager.
Context `{MR : MapRange}.
Context (json_payload : Payload → option string) (json_event : string → string → option string).
Context (ParseFloat : string → float64).

Definition broadcastEvent (m : Manager) (eventType : string) (payload : Payload)
    : option Manager :=
  match json_payload payload with
  | None => Some m
  | Some data => (λ h, m <| m_hub := h |>) <$> Broadcast (json_event eventType data) (m_hub m)
  end.

(** ** Messages from IRC *)

Definition capability_of_message (msg : Message) : AgentCapability :=
  {| ac_Nick := msg_Nick msg; ac_Expertise := list_field (Get msg "expertise");
     ac_Channels := list_field (Get msg "channels"); ac_CurrentTask := Get msg "current-task";
     ac_UpdatedAt := msg_Timestamp msg; ac_ExpiresAt := zero_time; ac_Role := ""; ac_Load := 0;
     ac_MaxLoad := 0; ac_ActiveTasks := [] |}.

Definition mgr_handleCapabilities (clk : nat → Time) (m : Manager) (msg : Message)
    : option Manager :=
  let cap := capability_of_message msg in
  let m := m <| m_discovery := Update (clk 5) (m_discovery m) cap |> in
  let m := m <| m_registry := UpdateFromDiscovery (clk 7) cap (m_registry m) |> in
  broadcastEvent m "agent_update" (PayAgent (reg_Get (msg_Nick msg) (m_registry m))).

(** The first switch of [dispatchToStores]. Nobody subscribes to the manager's
    context store, so there are no calls to make. *)
Definition dispatch_stores (clk : nat → Time) (m : Manager) (msg : Message) : option Manager :=
  match msg_Action msg with
  | ActionStarted | ActionCompleted | ActionBlocked | ActionAcknowledged | ActionOffer
  | ActionClaim | ActionAssign | ActionAccept | ActionDecline | ActionYield
  | ActionCheckpoint | ActionHandoff =>
      let s := UpdateTask (clk 1) (m_state m) msg in
      let taskName := Get msg "task" in
      let s := if bool_decide (taskName = "") then s
               else UpdateAgentStatus (clk 2) s (msg_Nick msg) (msg_Channel msg) taskName in
      Some (m <| m_state := s |>)
  | ActionContext => Some (m <| m_ctxStore := (Store (clk 4) (m_ctxStore m) msg).1 |>)
  | ActionSharingContext => Some (m <| m_ctxStore := StorePayload (m_ctxStore m) msg |>)
  | ActionRequestContext => Some (m <| m_ctxStore := TrackRequest (m_ctxStore m) msg |>)
  | ActionCapabilities => mgr_handleCapabilities clk m msg
  | ActionCostReport =>
      let m := m <| m_costStore := RecordCost ParseFloat (clk 6) (m_costStore m) msg |> in
      broadcastEvent m "cost" (PayCost (msg_Nick msg) (Get msg "task") (Get msg "cost-usd"))
  | _ => Some m
  end.

(** [load := 0; if l != "" { fmt.Sscanf(l, "%d", &load) }] *)
Definition scanned_load (l : string) : Z :=
  if bool_decide (l = "") then 0%Z else default 0%Z (Sscanf_int l).

(** The second switch. The board's jitter is 0, so no claim starts a timer. *)
Definition dispatch_board (clk : nat → Time) (m : Manager) (msg : Message) : option Manager :=
  let task := Get msg "task" in
  match msg_Action msg with
  | ActionOffer =>
      let tb := RecordOffer (clk 3) (m_taskBoard m) task (msg_Channel msg) (msg_Nick msg)
                  (Get msg "priority") (Get msg "scope") in
      broadcastEvent (m <| m_taskBoard := tb |>) "task_update" PayNil
  | ActionClaim =>
      let '(tb, _, _) := RecordClaim (clk 3) (m_taskBoard m) task (msg_Nick msg)
                           (scanned_load (Get msg "load")) in
      Some (m <| m_taskBoard := tb |>)
  | ActionAssign =>
      let tb := RecordAssign (clk 3) (m_taskBoard m) task (Get msg "to") (msg_Nick msg)
                  (msg_Channel msg) in
      Some (m <| m_taskBoard := tb |>)
  | ActionDecline => Some (m <| m_taskBoard := RecordDecline (m_taskBoard m) task |>)
  | ActionYield => Some (m <| m_taskBoard := RecordYield (m_taskBoard m) task |>)
  | _ => Some m
  end.

Definition dispatchToStores (clk : nat → Time) (m : Manager) (msg : Message) : option Manager :=
  m ← dispatch_stores clk m msg; dispatch_board clk m msg.

(** What the manager makes of a text: [None] when it drops it. *)
Definition read_message (clk : nat → Time) (ev : MessageEvent) : option Message :=
  if negb (IsProtocolMessage (ev_Message ev)) then None
  else match Parse (ev_Message ev) with
       | inr _ => None
       | inl msg =>
           let msg := msg <| msg_Channel := ev_Channel ev |> <| msg_Nick := ev_Nick ev |> in
           Some (msg <| msg_Timestamp := if IsZero (ev_Timestamp ev) then clk 0
                                         else ev_Timestamp ev |>)
       end.

Definition handleIRCMessage (clk : nat → Time) (m : Manager) (ev : MessageEvent)
    : option Manager :=
  match read_message clk ev with
  | None => Some m
  | Some msg =>
      let raw := Message_String msg in
      let entry := {| ml_Timestamp := msg_Timestamp msg; ml_Direction := "in";
                      ml_Channel := msg_Channel msg; ml_Nick := msg_Nick msg;
                      ml_Action := action_string (msg_Action msg); ml_Raw := raw |} in
      inspector ← RecordMessage (m_inspector m) entry;
      m ← dispatchToStores clk (m <| m_inspector := inspector |>) msg;
      broadcastEvent m "message"
        (PayMessage (msg_Nick msg) (msg_Channel msg) (action_string (msg_Action msg)) raw)
  end.

(** ** Starting and stopping agents *)

Inductive SpawnFailure :=
| UnknownSpawner (spawnerType : string)
| PreSpawnFailed (e : SpawnError)
| SpawnFailed (e : SpawnError).

(** The configuration with the default binary of local agents. *)
Definition with_binary (m : Manager) (spawnerType : string) (cfg : SpawnConfig) : SpawnConfig :=
  if bool_decide (spawnerType = "local") && bool_decide (sc_BinaryPath cfg = "")
  then {| sc_Nick := sc_Nick cfg; sc_Server := sc_Server cfg; sc_Username := sc_Username cfg;
          sc_Password := sc_Password cfg; sc_Channels := sc_Channels cfg;
          sc_Capabilities := sc_Capabilities cfg; sc_Roles := sc_Roles cfg;
          sc_DashboardAddr := sc_DashboardAddr cfg; sc_ExtraFlags := sc_ExtraFlags cfg;
          sc_BinaryPath := mc_AgentBinary (m_cfg m); sc_SSHHost := sc_SSHHost cfg;
          sc_SSHUser := sc_SSHUser cfg; sc_SSHKeyPath := sc_SSHKeyPath cfg;
          sc_DockerImage := sc_DockerImage cfg; sc_DockerNetwork := sc_DockerNetwork cfg |}
  else cfg.

(** The record of a spawned agent; [inst] is the instance with number [ref]. *)
Definition spawned_record (spawnerType : string) (cfg : SpawnConfig) (inst : AgentInstance)
    (ref : nat) : AgentRecord :=
  {| ar_Nick := sc_Nick cfg; ar_Host := in_Host inst; ar_Status := in_Status inst;
     ar_SpawnerType := spawnerType; ar_DashboardURL := in_DashboardURL inst; ar_CurrentTask := "";
     ar_Source := "spawned"; ar_Instance := Some ref; ar_Channels := sc_Channels cfg;
     ar_Capabilities := sc_Capabilities cfg; ar_Metrics := None; ar_Health := None;
     ar_CostSummary := None; ar_LastSeen := zero_time; ar_RegisteredAt := zero_time |}.

(** The error of [PostSpawn] is only logged. *)
Definition SpawnAgent (now : Time) (m : Manager) (spawnerType : string) (cfg : SpawnConfig)
    : option (SpawnFailure + Manager * AgentRecord) :=
  match m_spawners m !! spawnerType with
  | None => Some (inl (UnknownSpawner spawnerType))
  | Some sp =>
      let cfg := with_binary m spawnerType cfg in
      match sp_PreSpawn sp cfg with
      | Some e => Some (inl (PreSpawnFailed e))
      | None =>
          match sp_Spawn sp cfg with
          | inl e => Some (inl (SpawnFailed e))
          | inr inst =>
              let inst := (sp_PostSpawn sp inst).1 in
              let ref := length (m_instances m) in
              let rec := stamped now (spawned_record spawnerType cfg inst ref) in
              let m := m <| m_instances := m_instances m ++ [inst] |> in
              let m := m <| m_registry := reg_Register now rec (m_registry m) |> in
              m ← broadcastEvent m "agent_update" (PayAgent (Some rec));
              Some (inr (m, rec))
          end
      end
  end.

Inductive StopFailure :=
| AgentNotFound (nick : string)
| NotSpawned (nick : string)
| NoSpawner (spawnerType : string)
| StopFailed (e : SpawnError).

(** The errors of [PreStop] and [PostStop] are only logged. *)
Definition StopAgent (m : Manager) (nick : string) : option (Manager * option StopFailure) :=
  match reg_Get nick (m_registry m) with
  | None => Some (m, Some (AgentNotFound nick))
  | Some rec =>
      match ar_Instance rec with
      | None => Some (m, Some (NotSpawned nick))
      | Some ref =>
          match m_spawners m !! ar_SpawnerType rec with
          | None => Some (m, Some (NoSpawner (ar_SpawnerType rec)))
          | Some sp =>
              let m := m <| m_registry := UpdateStatus nick "stopping" (m_registry m) |> in
              inst ← m_instances m !! ref;
              let inst := (sp_PreStop sp inst).1 in
              let '(inst, err) := sp_Stop sp inst in
              match err with
              | Some e => Some (m <| m_instances := <[ref := inst]> (m_instances m) |>,
                                Some (StopFailed e))
              | None =>
                  let inst := (sp_PostStop sp inst).1 in
                  let m := m <| m_instances := <[ref := inst]> (m_instances m) |> in
                  let m := m <| m_registry := UpdateStatus nick "stopped" (m_registry m) |> in
                  m ← broadcastEvent m "agent_update" (PayAgent (reg_Get nick (m_registry m)));
                  Some (m, None)
              end
          end
      end
  end.

(** ** Polling the dashboards *)

(** The agents that are polled. *)
Definition pollAgentDashboards (m : Manager) : list (string * string) :=
  (λ rec, (ar_Nick rec, ar_DashboardURL rec)) <$>
    List.filter (λ rec, negb (bool_decide (ar_DashboardURL rec = ""))) (reg_List (m_registry m)).

(** The answers to the two requests: [None] when the request fails, [Some None]
    when the body does not decode. *)
Definition pollSingleAgent (now : Time) (m : Manager) (nick : string)
    (health : option (option HealthStatus)) (metrics : option (option MetricsSnapshot)) : Manager :=
  match health with
  | None => m
  | Some health =>
      let m := match health with
               | Some h => m <| m_registry := UpdateHealth now nick h (m_registry m) |>
               | None => m
               end in
      match metrics with
      | Some (Some ms) => m <| m_registry := UpdateMetrics nick ms (m_registry m) |>
      | _ => m
      end
  end.

(** ** The API of the server *)

(** An error status, or a status with the value of the body. *)
Inductive Reply (A : Type) :=
| HttpError (code : Z)
| HttpBody (code : Z) (body : A).
Arguments HttpError {A} code.
Arguments HttpBody {A} code body.

Record spawnConfigRequest := {
  rq_Nick : string;
  rq_Server : string;
  rq_Username : string;
  rq_Password : string;
  rq_Channels : list string;
  rq_Capabilities : list string;
  rq_Roles : list string;
  rq_DashboardAddr : string;
  rq_ExtraFlags : gmap string string;
  rq_BinaryPath : string;
  rq_SSHHost : string;
  rq_SSHUser : string;
  rq_SSHKeyPath : string;
  rq_DockerImage : string;
  rq_DockerNetwork : string
}.

Definition toSpawnConfig (r : spawnConfigRequest) : SpawnConfig :=
  {| sc_Nick := rq_Nick r; sc_Server := rq_Server r; sc_Username := rq_Username r;
     sc_Password := rq_Password r; sc_Channels := rq_Channels r;
     sc_Capabilities := rq_Capabilities r; sc_Roles := rq_Roles r;
     sc_DashboardAddr := rq_DashboardAddr r; sc_ExtraFlags := rq_ExtraFlags r;
     sc_BinaryPath := rq_BinaryPath r; sc_SSHHost := rq_SSHHost r; sc_SSHUser := rq_SSHUser r;
     sc_SSHKeyPath := rq_SSHKeyPath r; sc_DockerImage := rq_DockerImage r;
     sc_DockerNetwork := rq_DockerNetwork r |}.

(** The decoded request, or [None]. *)
Definition handleAPISpawn (now : Time) (m : Manager) (req : option (string * spawnConfigRequest))
    : option (Manager * Reply AgentRecord) :=
  match req with
  | None => Some (m, HttpError 400)
  | Some (spawnerType, config) =>
      r ← SpawnAgent now m spawnerType (toSpawnConfig config);
      match r with
      | inl _ => Some (m, HttpError 500)
      | inr (m, rec) => Some (m, HttpBody 201 rec)
      end
  end.

Definition handleAPIStop (m : Manager) (nick : string)
    : option (Manager * Reply (string * string)) :=
  '(m, err) ← StopAgent m nick;
  match err with
  | Some _ => Some (m, HttpError 500)
  | None => Some (m, HttpBody 200 ("stopped", nick))
  end.

Definition handleAPIAgents (m : Manager) : Reply (list AgentRecord) :=
  HttpBody 200 (reg_List (m_registry m)).

Definition handleAPIAgentDetail (m : Manager) (nick : string) : Reply AgentRecord :=
  match reg_Get nick (m_registry m) with
  | None => HttpError 404
  | Some rec => HttpBody 200 rec
  end.

Definition handleAPITasks (m : Manager) : Reply (list TaskInfo) :=
  HttpBody 200 (ListTasks (m_state m)).

Definition handleAPICosts (m : Manager) : Reply CostSummary :=
  HttpBody 200 (TotalSummary (m_costStore m)).

Definition handleAPICostsByAgent (m : Manager) : Reply (gmap string CostSummary) :=
  HttpBody 200 (ByAgent (m_costStore m)).

Definition handleAPICostsByTask (m : Manager) : Reply (gmap string CostSummary) :=
  HttpBody 200 (ByTask (m_costStore m)).

Definition handleAPICostsByModel (m : Manager) : Reply (gmap string CostSummary) :=
  HttpBody 200 (ByModel (m_costStore m)).

Definition handleAPIMessages (m : Manager) : option (Reply (list MessageLogEntry)) :=
  HttpBody 200 <$> RecentMessages (m_inspector m) 100.

Definition handleAPIDiscovery (now : Time) (m : Manager) : Reply (list AgentCapability) :=
  HttpBody 200 (ListActive now (m_discovery m)).
End manager.
