(* ===== verification/ManagerTheory.v ===== *)
(** * The manager: theorems

    The manager never panics, its view of the tasks is the agents' own, and
    starting and stopping agents do what they say, whatever spawner is used. *)

From S2P Require Import Prelude GoStrings GoNum GoFloat GoFlag Config Message Parser Serializer Codec Sanitizer.
From S2P Require Import State Dependencies TaskBoard Handoff Review Consensus Discovery Context ACL.
From S2P Require Import Coordinator Notifier Role Inspector Metrics Health Events Dispatcher Replica.
From S2P Require Import Agent Convergence AgentTheory Network Team Spawner Instances Cost ManagerConfig Hub Registry Manager.

(** ** The invariant *)

(** The hub and the log are in order, the records are filed under their nicks, and
    every instance that a record points to exists. *)
Record manager_ok (m : Manager) : Prop := {
  ok_hub : hub_ok (m_hub m);
  ok_log : ∃ h, ring_ok (m_inspector m) h;
  ok_filed : filed (m_registry m);
  ok_instances nick rec ref : m_registry m !! nick = Some rec → ar_Instance rec = Some ref →
    ref < length (m_instances m)
}.

Section manager.
Context `{MR : MapRange}.
Context (json_payload : Payload → option string) (json_event : string → string → option string).
Context (ParseFloat : string → float64).

Abbreviation handle := (handleIRCMessage json_payload json_event ParseFloat) (only parsing).

Lemma manager_ok_hub m h : manager_ok m → hub_ok h → manager_ok (m <| m_hub := h |>).
Proof. intros [_ Hl Hf Hi] Hh. by split. Qed.

Lemma broadcastEvent_total m eventType payload :
  manager_ok m →
  ∃ h, broadcastEvent json_payload json_event m eventType payload = Some (m <| m_hub := h |>) ∧
    manager_ok (m <| m_hub := h |>).
Proof.
  intros Hm. unfold broadcastEvent. destruct (json_payload payload) as [data|]; cycle 1.
  { exists (m_hub m). split; [by destruct m|]. apply manager_ok_hub; [done|apply Hm]. }
  destruct (Broadcast_total (json_event eventType data) (m_hub m)) as (h & Hb & _); [apply Hm|].
  exists h. rewrite Hb. split; [done|]. apply manager_ok_hub; [done|].
  eapply hub_step_ok; [apply Hm|by eapply hub_broadcast].
Qed.

(** A change of the registry that keeps the records where they are and what they
    point to. *)
Lemma manager_ok_registry m r :
  manager_ok m → filed r →
  (∀ nick rec ref, r !! nick = Some rec → ar_Instance rec = Some ref →
     ∃ nick' rec', m_registry m !! nick' = Some rec' ∧ ar_Instance rec' = Some ref) →
  manager_ok (m <| m_registry := r |>).
Proof.
  intros [Hh Hl Hf Hi] Hr Hinst. split; [done|done|done|]. cbn.
  intros nick rec ref H1 H2. destruct (Hinst _ _ _ H1 H2) as (nick' & rec' & H3 & H4). by eapply Hi.
Qed.

Lemma alter_instances nick f (r : gmap string AgentRecord) nick' rec ref :
  (∀ rec, ar_Instance (f rec) = ar_Instance rec) →
  alter f nick r !! nick' = Some rec → ar_Instance rec = Some ref →
  ∃ nick0 rec0, r !! nick0 = Some rec0 ∧ ar_Instance rec0 = Some ref.
Proof.
  intros Hf. rewrite lookup_alter. case_decide as E; [|by eauto].
  intros (rec0 & Hrec0 & ->)%fmap_Some Href. rewrite Hf in Href. by eauto.
Qed.

Lemma discovery_instances now cap (r : gmap string AgentRecord) nick rec ref :
  UpdateFromDiscovery now cap r !! nick = Some rec → ar_Instance rec = Some ref →
  ∃ nick0 rec0, r !! nick0 = Some rec0 ∧ ar_Instance rec0 = Some ref.
Proof.
  unfold UpdateFromDiscovery. rewrite lookup_insert. case_decide as E; [|by eauto].
  intros [= <-]. cbn. destruct (r !! ac_Nick cap) as [rec0|] eqn:E0; [|done]. by eauto.
Qed.

(** The stores other than the task store are free to change. *)
Definition same_control (m m' : Manager) : Prop :=
  m_registry m' = m_registry m ∧ m_instances m' = m_instances m ∧ m_hub m' = m_hub m ∧
  m_inspector m' = m_inspector m.

Lemma same_control_ok m m' : same_control m m' → manager_ok m → manager_ok m'.
Proof. intros (Hr & Hi & Hh & Hl) [H1 H2 H3 H4]. split; rewrite ?Hr, ?Hi, ?Hh, ?Hl; done. Qed.

(** A goal about the manager that a broadcast makes: what is left is that the
    manager before it is in order, and the rest about the one after it. *)
Ltac broadcast_total :=
  match goal with
  | |- ∃ m', broadcastEvent json_payload json_event ?x ?t ?p = Some m' ∧ _ =>
      let Hx := fresh "Hx" in let h := fresh "h" in let Hok := fresh "Hok" in
      assert (manager_ok x) as Hx;
      [|destruct (broadcastEvent_total x t p Hx) as (h & -> & Hok);
        eexists; split; [reflexivity|]; split; [exact Hok|]]
  end.

Lemma dispatch_stores_total clk m msg :
  manager_ok m →
  ∃ m', dispatch_stores json_payload json_event ParseFloat clk m msg = Some m' ∧
    manager_ok m' ∧ m_state m' = update_tasks clk (m_state m) msg ∧ m_inspector m' = m_inspector m.
Proof.
  intros Hm. unfold dispatch_stores, update_tasks, tracked.
  destruct (msg_Action msg);
    try (eexists; split; [reflexivity|]; split; [by apply (same_control_ok m)|by split]).
  - (* CAPABILITIES *)
    unfold mgr_handleCapabilities. broadcast_total; [|by split].
    apply (manager_ok_registry (m <| m_discovery := Update (clk 5) (m_discovery m)
      (capability_of_message msg) |>)); [by apply (same_control_ok m)| |apply discovery_instances].
    apply (registry_step_filed _ (OpDiscovered _ _)), Hm.
  - (* COST *)
    broadcast_total; [by apply (same_control_ok m)|by split].
Qed.

Lemma dispatch_board_total clk m msg :
  manager_ok m →
  ∃ m', dispatch_board json_payload json_event clk m msg = Some m' ∧
    manager_ok m' ∧ m_state m' = m_state m ∧ m_inspector m' = m_inspector m.
Proof.
  intros Hm. unfold dispatch_board.
  destruct (msg_Action msg);
    try (eexists; split; [reflexivity|]; split; [by apply (same_control_ok m)|by split]).
  - broadcast_total; [by apply (same_control_ok m)|by split].
  - destruct (RecordClaim _ _ _ _ _) as [[tb w] t].
    eexists. split; [reflexivity|]. split; [by apply (same_control_ok m)|by split].
Qed.

Lemma handleIRCMessage_total clk m ev :
  manager_ok m →
  ∃ m', handle clk m ev = Some m' ∧ manager_ok m' ∧
    m_state m' = match read_message clk ev with
                 | Some msg => update_tasks clk (m_state m) msg
                 | None => m_state m
                 end.
Proof.
  intros Hm. unfold handleIRCMessage. destruct (read_message clk ev) as [msg|]; [|by exists m].
  destruct (ok_log m Hm) as [h Hring].
  match goal with |- context [RecordMessage _ ?e] => set (entry := e) end.
  destruct (ring_ok_record _ _ entry Hring) as (ins & -> & Hring'). cbn [mbind option_bind].
  set (m1 := m <| m_inspector := ins |>).
  assert (manager_ok m1) as Hm1.
  { destruct Hm as [H1 _ H3 H4]. split; [done| |done|done]. by eexists. }
  unfold dispatchToStores.
  destruct (dispatch_stores_total clk m1 msg Hm1) as (m2 & -> & Hm2 & Hs2 & _).
  cbn [mbind option_bind].
  destruct (dispatch_board_total clk m2 msg Hm2) as (m3 & -> & Hm3 & Hs3 & _).
  cbn [mbind option_bind].
  broadcast_total; [done|]. cbn. by rewrite Hs3, Hs2.
Qed.
End manager.

(** ** Starting and stopping *)
Section control.
Context `{MR : MapRange}.
Context (json_payload : Payload → option string) (json_event : string → string → option string).
Context (ParseFloat : string → float64).

Lemma spawned_ok m rec inst :
  manager_ok m → ar_Instance rec = Some (length (m_instances m)) →
  ∀ now, manager_ok (m <| m_instances := m_instances m ++ [inst] |>
                       <| m_registry := reg_Register now rec (m_registry m) |>).
Proof.
  intros [Hh Hl Hf Hi] Hrec now. split; [done|done| |].
  - apply (registry_step_filed _ (OpRegister now rec)), Hf.
  - cbn. intros nick rec' ref. unfold reg_Register. rewrite lookup_insert, length_app. cbn.
    case_decide as E.
    + intros [= <-] Href. assert (ar_Instance (stamped now rec) = ar_Instance rec) as E'.
      { unfold stamped. by repeat case_match. }
      rewrite E', Hrec in Href. injection Href as <-. lia.
    + intros H1 H2. specialize (Hi _ _ _ H1 H2). lia.
Qed.

(** What [SpawnAgent] does when it succeeds. *)
Lemma SpawnAgent_run now m spawnerType cfg sp inst :
  manager_ok m → m_spawners m !! spawnerType = Some sp →
  let cfg' := with_binary m spawnerType cfg in
  sp_PreSpawn sp cfg' = None → sp_Spawn sp cfg' = inr inst →
  let inst' := (sp_PostSpawn sp inst).1 in
  let rec := stamped now (spawned_record spawnerType cfg' inst' (length (m_instances m))) in
  ∃ h, SpawnAgent json_payload json_event now m spawnerType cfg = Some (inr
    (m <| m_instances := m_instances m ++ [inst'] |>
       <| m_registry := reg_Register now rec (m_registry m) |> <| m_hub := h |>, rec)) ∧
    manager_ok (m <| m_instances := m_instances m ++ [inst'] |>
       <| m_registry := reg_Register now rec (m_registry m) |> <| m_hub := h |>).
Proof.
  intros Hm Hsp cfg' Hpre Hspawn inst' rec. unfold SpawnAgent. rewrite Hsp. cbv zeta.
  fold cfg'. rewrite Hpre, Hspawn. fold inst' rec.
  assert (ar_Instance rec = Some (length (m_instances m))) as Href.
  { unfold rec, stamped. by repeat case_match. }
  pose proof (spawned_ok m rec inst' Hm Href now) as Hok.
  match goal with |- context [broadcastEvent _ _ ?x ?t ?p] =>
    assert (manager_ok x) as Hx by exact Hok;
    destruct (broadcastEvent_total json_payload json_event x t p Hx) as (h & -> & Hok') end.
  exists h. by split.
Qed.

Lemma SpawnAgent_total now m spawnerType cfg :
  manager_ok m →
  ∃ r, SpawnAgent json_payload json_event now m spawnerType cfg = Some r ∧
    match r with inl _ => True | inr (m', _) => manager_ok m' end.
Proof.
  intros Hm. destruct (m_spawners m !! spawnerType) as [sp|] eqn:Hsp; cycle 1.
  { unfold SpawnAgent. rewrite Hsp. by eexists. }
  destruct (sp_PreSpawn sp (with_binary m spawnerType cfg)) as [e|] eqn:Hpre.
  { unfold SpawnAgent. rewrite Hsp. cbv zeta. rewrite Hpre. by eexists. }
  destruct (sp_Spawn sp (with_binary m spawnerType cfg)) as [e|inst] eqn:Hspawn.
  { unfold SpawnAgent. rewrite Hsp. cbv zeta. rewrite Hpre, Hspawn. by eexists. }
  destruct (SpawnAgent_run now m spawnerType cfg sp inst Hm Hsp Hpre Hspawn) as (h & -> & Hok).
  eexists. by split.
Qed.

Lemma UpdateStatus_ok m nick status :
  manager_ok m → manager_ok (m <| m_registry := UpdateStatus nick status (m_registry m) |>).
Proof.
  intros Hm. apply manager_ok_registry; [done| |].
  - apply (registry_step_filed _ (OpStatus nick status)), Hm.
  - intros nick' rec ref. by apply alter_instances.
Qed.

Lemma instances_ok m ref inst :
  manager_ok m → manager_ok (m <| m_instances := <[ref := inst]> (m_instances m) |>).
Proof.
  intros [Hh Hl Hf Hi]. split; [done|done|done|]. cbn. intros nick rec ref' H1 H2.
  rewrite length_insert. by eapply Hi.
Qed.

(** [StopAgent] on an agent that was spawned. *)
Lemma StopAgent_run m nick rec ref sp :
  manager_ok m → m_registry m !! nick = Some rec → ar_Instance rec = Some ref →
  m_spawners m !! ar_SpawnerType rec = Some sp →
  ∃ inst h,
    m_instances m !! ref = Some inst ∧
    let '(inst', err) := sp_Stop sp (sp_PreStop sp inst).1 in
    let inst' := match err with Some _ => inst' | None => (sp_PostStop sp inst').1 end in
    let status := match err with Some _ => "stopping" | None => "stopped" end in
    let m' := m <| m_instances := <[ref := inst']> (m_instances m) |>
                <| m_registry := alter (λ r, r <| ar_Status := status |>) nick (m_registry m) |>
                <| m_hub := h |> in
    StopAgent json_payload json_event m nick = Some (m', StopFailed <$> err) ∧ manager_ok m' ∧
    (err ≠ None → h = m_hub m).
Proof.
  intros Hm Hrec Href Hsp.
  destruct (lookup_lt_is_Some_2 (m_instances m) ref) as [inst Hinst]; [by eapply ok_instances|].
  exists inst. unfold StopAgent, reg_Get. rewrite Hrec, Href, Hsp. cbn [m_instances]. rewrite Hinst.
  cbn [mbind option_bind].
  destruct (sp_Stop sp (sp_PreStop sp inst).1) as [inst' [e|]].
  - exists (m_hub m). split; [done|]. cbn zeta. split; [by destruct m|]. split; [|done].
    apply manager_ok_hub; [|apply Hm].
    apply (UpdateStatus_ok (m <| m_instances := <[ref := inst']> (m_instances m) |>) nick "stopping").
    by apply instances_ok.
  - set (inst'' := (sp_PostStop sp inst').1).
    assert (∀ r : gmap string AgentRecord, UpdateStatus nick "stopped" (UpdateStatus nick "stopping" r) =
      alter (λ r, r <| ar_Status := "stopped" |>) nick r) as Hst.
    { intros r. unfold UpdateStatus, update_record. apply map_eq. intros i.
      rewrite !lookup_alter. case_decide; [|done].
      rewrite decide_True by done. match goal with |- context [r !! ?k] => by destruct (r !! k) end. }
    cbn [m_registry m_instances]. rewrite Hst.
    match goal with |- context [broadcastEvent _ _ ?x _ _] => assert (manager_ok x) as Hx end.
    { apply (UpdateStatus_ok (m <| m_instances := <[ref := inst'']> (m_instances m) |>) nick "stopped").
      by apply instances_ok. }
    match goal with |- context [broadcastEvent _ _ ?x ?t ?p] =>
      destruct (broadcastEvent_total json_payload json_event x t p Hx) as (h & -> & Hok) end.
    exists h. split; [done|]. by split_and!.
Qed.

Lemma StopAgent_total m nick :
  manager_ok m →
  ∃ m' err, StopAgent json_payload json_event m nick = Some (m', err) ∧ manager_ok m'.
Proof.
  intros Hm. destruct (m_registry m !! nick) as [rec|] eqn:Hrec; cycle 1.
  { unfold StopAgent, reg_Get. rewrite Hrec. by eexists _, _. }
  destruct (ar_Instance rec) as [ref|] eqn:Href; cycle 1.
  { unfold StopAgent, reg_Get. rewrite Hrec, Href. by eexists _, _. }
  destruct (m_spawners m !! ar_SpawnerType rec) as [sp|] eqn:Hsp; cycle 1.
  { unfold StopAgent, reg_Get. rewrite Hrec, Href, Hsp. by eexists _, _. }
  destruct (StopAgent_run m nick rec ref sp Hm Hrec Href Hsp) as (inst & h & _ & H).
  destruct (sp_Stop sp _) as [inst' err]. destruct H as (H & Hok & _). by eexists _, _.
Qed.

Lemma pollSingleAgent_ok now m nick health metrics :
  manager_ok m → manager_ok (pollSingleAgent now m nick health metrics).
Proof.
  intros Hm. unfold pollSingleAgent. destruct health as [health|]; [|done].
  set (m1 := match health with Some _ => _ | None => _ end).
  assert (manager_ok m1) as Hm1.
  { unfold m1. destruct health as [h|]; [|done]. apply manager_ok_registry; [done| |].
    - apply (registry_step_filed _ (OpHealth now nick h)), Hm.
    - intros nick' rec ref. apply alter_instances. intros rec'. by destruct (hs_Healthy h). }
  destruct metrics as [[ms|]|]; [|done|done]. apply manager_ok_registry; [done| |].
  - apply (registry_step_filed _ (OpMetrics nick ms)), Hm1.
  - intros nick' rec ref. by apply alter_instances.
Qed.

(** ** The steps of a running manager

    Messages, requests to start and stop agents, polls, browsers that come, read
    and leave; and what the spawners see of the outside may change any time. *)
Inductive manager_step : relation Manager :=
| step_message clk ev m m' :
    handleIRCMessage json_payload json_event ParseFloat clk m ev = Some m' → manager_step m m'
| step_spawn now spawnerType cfg m m' rec :
    SpawnAgent json_payload json_event now m spawnerType cfg = Some (inr (m', rec)) →
    manager_step m m'
| step_stop nick m m' err :
    StopAgent json_payload json_event m nick = Some (m', err) → manager_step m m'
| step_poll now nick health metrics m :
    manager_step m (pollSingleAgent now m nick health metrics)
| step_hub h m : hub_step (m_hub m) h → manager_step m (m <| m_hub := h |>)
| step_outside spawners m : manager_step m (m <| m_spawners := spawners |>).

Lemma manager_step_ok m m' : manager_ok m → manager_step m m' → manager_ok m'.
Proof.
  intros Hm Hstep. destruct Hstep as [clk ev m m' H|now st cfg m m' rec H|nick m m' err H| |h m H|].
  - destruct (handleIRCMessage_total json_payload json_event ParseFloat clk m ev Hm)
      as (m2 & H2 & Hok & _). rewrite H2 in H. by injection H as <-.
  - destruct (SpawnAgent_total now m st cfg Hm) as (r & H2 & Hok). rewrite H2 in H.
    by injection H as ->.
  - destruct (StopAgent_total m nick Hm) as (m2 & err2 & H2 & Hok). rewrite H2 in H.
    by injection H as <- <-.
  - by apply pollSingleAgent_ok.
  - apply manager_ok_hub; [done|]. eapply hub_step_ok; [apply Hm|done].
  - by apply (same_control_ok m).
Qed.

Lemma NewWithClient_ok localSp sshSp dockerSp cfg :
  manager_ok (NewWithClient localSp sshSp dockerSp cfg).
Proof.
  split; cbn -[NewDebugInspector].
  - split; cbn; intros c; rewrite lookup_empty; [done|by intros []].
  - exists []. apply ring_ok_new.
  - apply map_Forall_empty.
  - intros nick rec ref. unfold NewAgentRegistry. by rewrite lookup_empty.
Qed.

(** The manager does not panic: in every state that a new manager reaches,
    by messages of any content from anyone, by requests to start and stop agents
    with spawners that behave in any way, by polls and browsers in any order, the
    next message, start or stop runs to its end: no index out of range in the
    message log, no dangling instance, no send on a closed channel. *)
Theorem manager_never_panics localSp sshSp dockerSp cfg m :
  rtc manager_step (NewWithClient localSp sshSp dockerSp cfg) m →
  (∀ clk ev, is_Some (handleIRCMessage json_payload json_event ParseFloat clk m ev)) ∧
  (∀ now spawnerType cfg, is_Some (SpawnAgent json_payload json_event now m spawnerType cfg)) ∧
  (∀ nick, is_Some (StopAgent json_payload json_event m nick)).
Proof.
  intros Hreach. assert (manager_ok m) as Hm.
  { eapply (rtc_invariant manager_step manager_ok); [apply manager_step_ok| |exact Hreach].
    apply NewWithClient_ok. }
  split_and!.
  - intros clk ev.
    destruct (handleIRCMessage_total json_payload json_event ParseFloat clk m ev Hm) as (m' & -> & _).
    by eexists.
  - intros now st cfg'. destruct (SpawnAgent_total now m st cfg' Hm) as (r & -> & _). by eexists.
  - intros nick. destruct (StopAgent_total m nick Hm) as (m' & err & -> & _). by eexists.
Qed.

Lemma reachable_ok localSp sshSp dockerSp cfg m :
  rtc manager_step (NewWithClient localSp sshSp dockerSp cfg) m → manager_ok m.
Proof.
  intros Hreach. eapply (rtc_invariant manager_step manager_ok); [apply manager_step_ok| |exact Hreach].
  apply NewWithClient_ok.
Qed.

Lemma stamped_fields now rec :
  ar_Nick (stamped now rec) = ar_Nick rec ∧ ar_Status (stamped now rec) = ar_Status rec ∧
  ar_Source (stamped now rec) = ar_Source rec ∧ ar_Instance (stamped now rec) = ar_Instance rec ∧
  ar_SpawnerType (stamped now rec) = ar_SpawnerType rec.
Proof. unfold stamped. by repeat case_match. Qed.

Lemma stamped_idemp now rec : now ≠ 0%Z → stamped now (stamped now rec) = stamped now rec.
Proof.
  intros Hnow. unfold stamped, IsZero.
  destruct (bool_decide (ar_RegisteredAt rec = 0%Z)) eqn:E1; cbn [ar_LastSeen];
    destruct (bool_decide (ar_LastSeen rec = 0%Z)) eqn:E2; cbn;
    rewrite ?E1, ?E2, ?(bool_decide_eq_false_2 (now = 0%Z)) by done; cbn;
    rewrite ?E1, ?E2, ?(bool_decide_eq_false_2 (now = 0%Z)) by done; done.
Qed.

Lemma spawn_lawful m now spawnerType cfg sp
    `{!LawfulSpawner sp} :
  manager_ok m → now ≠ 0%Z →
  m_spawners m !! spawnerType = Some sp →
  let cfg' := with_binary m spawnerType cfg in
  ∃ r, SpawnAgent json_payload json_event now m spawnerType cfg = Some r ∧
    match r with
    | inl _ => sp_PreSpawn sp cfg' ≠ None ∨ ∃ e, sp_Spawn sp cfg' = inl e
    | inr (m', rec) =>
        sc_Validate cfg' = None ∧
        m_registry m' = <[sc_Nick cfg := rec]> (m_registry m) ∧ ar_Nick rec = sc_Nick cfg ∧
        ar_Source rec = "spawned" ∧ ar_SpawnerType rec = spawnerType ∧
        ar_Instance rec = Some (length (m_instances m)) ∧
        ∃ inst, m_instances m' = m_instances m ++ [inst] ∧
          in_Nick inst = sc_Nick cfg ∧ in_Config inst = cfg' ∧ ar_Status rec = in_Status inst ∧
          (in_Status inst = StatusRunning ∨ in_Status inst = StatusStarting)
    end.
Proof.
  intros Hm Hnow Hsp cfg'.
  assert (sc_Nick cfg' = sc_Nick cfg) as Hnick.
  { unfold cfg', with_binary. by destruct (_ && _). }
  destruct (sp_PreSpawn sp cfg') as [e|] eqn:Hpre.
  { eexists. unfold SpawnAgent. rewrite Hsp. cbv zeta. fold cfg'. rewrite Hpre.
    split; [done|]. by left. }
  destruct (sp_Spawn sp cfg') as [e|inst] eqn:Hspawn.
  { eexists. unfold SpawnAgent. rewrite Hsp. cbv zeta. fold cfg'. rewrite Hpre, Hspawn.
    split; [done|]. right. by exists e. }
  destruct (SpawnAgent_run now m spawnerType cfg sp inst Hm Hsp Hpre Hspawn) as (h & -> & _).
  fold cfg'. eexists. split; [reflexivity|]. cbn iota.
  destruct (Spawn_new _ _ Hspawn) as (Hn & Hc & Ht & Hs).
  pose proof (PostSpawn_running inst) as Hpost. destruct (sp_PostSpawn sp inst) as [inst' err].
  cbn [fst]. destruct Hpost as (Hsame & Hok & Herr).
  set (rec0 := spawned_record spawnerType cfg' inst' (length (m_instances m))).
  destruct (stamped_fields now rec0) as (F1 & F2 & F3 & F4 & F5).
  rewrite F1, F2, F3, F4, F5. cbn [m_registry m_instances].
  split; [by apply PreSpawn_valid|]. split.
  { unfold reg_Register. rewrite F1, stamped_idemp by done. cbn. by rewrite Hnick. }
  split; [exact Hnick|]. split; [done|]. split; [done|]. split; [done|].
  exists inst'. split; [done|]. destruct Hsame as (_ & E1 & _ & _ & _ & _ & E2 & _).
  split; [congruence|]. split; [congruence|]. split; [done|].
  destruct err as [e|]; [right|left; by apply Hok]. by rewrite Herr.
Qed.

(** C19. Starting an agent: with a spawner that keeps its contract, either nothing
    is started (the configuration was refused or the process did not start), or
    the configuration is valid and there is one more instance, of that
    configuration, running or starting; the nick's record (and no other) is
    replaced by one with the status of the instance and a pointer to it. An
    earlier instance of the same nick keeps running, but no longer has a record. *)
Theorem SpawnAgent_spec localSp sshSp dockerSp mcfg m now spawnerType cfg sp
    `{!LawfulSpawner sp} :
  rtc manager_step (NewWithClient localSp sshSp dockerSp mcfg) m → now ≠ 0%Z →
  m_spawners m !! spawnerType = Some sp →
  let cfg' := with_binary m spawnerType cfg in
  ∃ r, SpawnAgent json_payload json_event now m spawnerType cfg = Some r ∧
    match r with
    | inl _ => sp_PreSpawn sp cfg' ≠ None ∨ ∃ e, sp_Spawn sp cfg' = inl e
    | inr (m', rec) =>
        sc_Validate cfg' = None ∧
        m_registry m' = <[sc_Nick cfg := rec]> (m_registry m) ∧ ar_Nick rec = sc_Nick cfg ∧
        ar_Source rec = "spawned" ∧ ar_SpawnerType rec = spawnerType ∧
        ar_Instance rec = Some (length (m_instances m)) ∧
        ∃ inst, m_instances m' = m_instances m ++ [inst] ∧
          in_Nick inst = sc_Nick cfg ∧ in_Config inst = cfg' ∧ ar_Status rec = in_Status inst ∧
          (in_Status inst = StatusRunning ∨ in_Status inst = StatusStarting)
    end.
Proof. intros Hreach%reachable_ok. by apply spawn_lawful. Qed.

Lemma stop_lawful m nick rec ref sp `{!LawfulSpawner sp} :
  manager_ok m →
  m_registry m !! nick = Some rec → ar_Instance rec = Some ref →
  m_spawners m !! ar_SpawnerType rec = Some sp →
  ∃ inst h, m_instances m !! ref = Some inst ∧
    let '(inst', err) := sp_Stop sp (sp_PreStop sp inst).1 in
    let status := match err with Some _ => "stopping" | None => "stopped" end in
    StopAgent json_payload json_event m nick =
      Some (m <| m_instances := <[ref := inst']> (m_instances m) |>
              <| m_registry := <[nick := rec <| ar_Status := status |>]> (m_registry m) |>
              <| m_hub := h |>, StopFailed <$> err) ∧
    (err ≠ None → h = m_hub m) ∧
    same_agent inst inst' ∧ in_Status inst' = StatusStopped.
Proof.
  intros Hm Hrec Href Hsp.
  destruct (StopAgent_run m nick rec ref sp Hm Hrec Href Hsp) as (inst & h & Hinst & H).
  exists inst, h. split; [exact Hinst|].
  pose proof (PreStop_keeps inst) as Hpre.
  destruct (Stop_stopped (sp_PreStop sp inst).1) as [Hsame Hst].
  destruct (sp_Stop sp (sp_PreStop sp inst).1) as [inst' err]. cbn [fst] in Hsame, Hst.
  destruct H as (H & _ & Hh).
  assert (∀ v, alter (λ r : AgentRecord, r <| ar_Status := v |>) nick (m_registry m) =
    <[nick := rec <| ar_Status := v |>]> (m_registry m)) as Halter.
  { intros v. apply map_eq. intros i. rewrite lookup_alter, lookup_insert. case_decide; [|done].
    subst i. by rewrite Hrec. }
  split; [|split; [exact Hh|split; [by etrans|exact Hst]]].
  rewrite Halter in H. destruct err as [e|]; [exact H|]. by rewrite PostStop_nothing in H.
Qed.

(** C18. Stopping an agent that the manager started, with a spawner that keeps its
    contract ([LawfulSpawner]): the instance becomes what [PreStop] and [Stop] of the
    spawner make of it, which is the same agent, stopped; the answer is the error of
    [Stop], when it has one; the status of the record is [stopped] without an error and
    [stopping] with one, although the instance, which the record points to, says
    [stopped] in both cases; and nothing else of the manager changes, but, when there
    is no error, what is sent to the browsers. *)
Theorem StopAgent_spec localSp sshSp dockerSp mcfg m nick rec ref sp `{!LawfulSpawner sp} :
  rtc manager_step (NewWithClient localSp sshSp dockerSp mcfg) m →
  m_registry m !! nick = Some rec → ar_Instance rec = Some ref →
  m_spawners m !! ar_SpawnerType rec = Some sp →
  ∃ inst h, m_instances m !! ref = Some inst ∧
    let '(inst', err) := sp_Stop sp (sp_PreStop sp inst).1 in
    let status := match err with Some _ => "stopping" | None => "stopped" end in
    StopAgent json_payload json_event m nick =
      Some (m <| m_instances := <[ref := inst']> (m_instances m) |>
              <| m_registry := <[nick := rec <| ar_Status := status |>]> (m_registry m) |>
              <| m_hub := h |>, StopFailed <$> err) ∧
    (err ≠ None → h = m_hub m) ∧
    same_agent inst inst' ∧ in_Status inst' = StatusStopped.
Proof. intros Hreach%reachable_ok. by apply stop_lawful. Qed.
End control.

(** ** What stays of a started agent *)
Section later.
Context `{MR : MapRange}.
Context (json_payload : Payload → option string) (json_event : string → string → option string).
Context (ParseFloat : string → float64).

(** What happens after an agent is started: as in [manager_step], but no agent is
    started under its nick, and it is not stopped. *)
Inductive later_step (nick : string) : relation Manager :=
| later_message clk ev m m' :
    handleIRCMessage json_payload json_event ParseFloat clk m ev = Some m' → later_step nick m m'
| later_spawn now spawnerType cfg m m' rec :
    sc_Nick cfg ≠ nick →
    SpawnAgent json_payload json_event now m spawnerType cfg = Some (inr (m', rec)) →
    later_step nick m m'
| later_stop other m m' err :
    other ≠ nick → StopAgent json_payload json_event m other = Some (m', err) → later_step nick m m'
| later_poll now other health metrics m :
    later_step nick m (pollSingleAgent now m other health metrics)
| later_hub h m : hub_step (m_hub m) h → later_step nick m (m <| m_hub := h |>)
| later_outside spawners m : later_step nick m (m <| m_spawners := spawners |>).

(** The fields that only a start sets. *)
Definition same_start (rec rec' : AgentRecord) : Prop :=
  ar_Nick rec' = ar_Nick rec ∧ ar_Host rec' = ar_Host rec ∧ ar_Source rec' = ar_Source rec ∧
  ar_SpawnerType rec' = ar_SpawnerType rec ∧ ar_DashboardURL rec' = ar_DashboardURL rec ∧
  ar_Instance rec' = ar_Instance rec ∧ ar_RegisteredAt rec' = ar_RegisteredAt rec.

#[export] Instance same_start_preorder : PreOrder same_start.
Proof.
  split; [by intros rec; split_and!|].
  intros r1 r2 r3 (?&?&?&?&?&?&?) (?&?&?&?&?&?&?). split_and!; congruence.
Qed.

(** The agents are still there, and the new ones were not started. *)
Definition reg_later (r r' : gmap string AgentRecord) : Prop :=
  ∀ n, match r !! n, r' !! n with
       | Some rec, Some rec' => same_start rec rec'
       | Some _, None => False
       | None, Some rec' => ar_Instance rec' = None
       | None, None => True
       end.

#[export] Instance reg_later_preorder : PreOrder reg_later.
Proof.
  split; [by intros r n; destruct (r !! n)|]. intros r1 r2 r3 H12 H23 n.
  specialize (H12 n). specialize (H23 n).
  destruct (r1 !! n), (r2 !! n), (r3 !! n); try done; [by etrans|].
  destruct H23 as (_&_&_&_&_&H&_). congruence.
Qed.

Lemma reg_later_alter nick f (r : gmap string AgentRecord) :
  (∀ rec, same_start rec (f rec)) → reg_later r (alter f nick r).
Proof.
  intros Hf n. rewrite lookup_alter. case_decide; [subst n|by destruct (r !! n)].
  destruct (r !! nick); [apply Hf|done].
Qed.

Lemma reg_later_discovery now cap r : reg_later r (UpdateFromDiscovery now cap r).
Proof.
  intros n. unfold UpdateFromDiscovery. rewrite lookup_insert. case_decide; [|by destruct (r !! n)].
  subst n. by destruct (r !! ac_Nick cap).
Qed.

Lemma broadcastEvent_hub m eventType payload m' :
  broadcastEvent json_payload json_event m eventType payload = Some m' → ∃ h, m' = m <| m_hub := h |>.
Proof.
  unfold broadcastEvent. destruct (json_payload payload) as [data|].
  - intros (h & _ & ->)%fmap_Some. by exists h.
  - intros [= <-]. exists (m_hub m). by destruct m.
Qed.

(** A message starts and stops nothing. *)
Lemma handleIRCMessage_later clk m ev m' :
  handleIRCMessage json_payload json_event ParseFloat clk m ev = Some m' →
  m_instances m' = m_instances m ∧ reg_later (m_registry m) (m_registry m').
Proof.
  unfold handleIRCMessage, dispatchToStores. destruct (read_message clk ev) as [msg|]; [|by intros [= <-]].
  intros (ins & _ & (m3 & (m2 & H2 & H3)%bind_Some & (h & ->)%broadcastEvent_hub)%bind_Some)%bind_Some.
  cbn [m_instances m_registry].
  assert (m_instances m2 = m_instances m ∧ reg_later (m_registry m) (m_registry m2)) as [<- H].
  { unfold dispatch_stores in H2. destruct (msg_Action msg); try by injection H2 as <-.
    - apply broadcastEvent_hub in H2 as (h' & ->). split; [done|]. apply reg_later_discovery.
    - by apply broadcastEvent_hub in H2 as (h' & ->). }
  assert (m_instances m3 = m_instances m2 ∧ m_registry m3 = m_registry m2) as [-> ->]; [|done].
  unfold dispatch_board in H3. destruct (msg_Action msg); try by injection H3 as <-.
  - by apply broadcastEvent_hub in H3 as (h' & ->).
  - destruct (RecordClaim _ _ _ _ _) as [[tb w] t]. by injection H3 as <-.
Qed.

Lemma pollSingleAgent_later now m nick health metrics :
  let m' := pollSingleAgent now m nick health metrics in
  m_instances m' = m_instances m ∧ reg_later (m_registry m) (m_registry m').
Proof.
  assert (∀ (m : Manager) ms, reg_later (m_registry m) (UpdateMetrics nick ms (m_registry m))) as Hms.
  { intros m0 ms. by apply reg_later_alter. }
  unfold pollSingleAgent. destruct health as [[h|]|]; [| |done].
  - assert (reg_later (m_registry m) (UpdateHealth now nick h (m_registry m))) as Hh.
    { apply reg_later_alter. intros rec. by destruct (hs_Healthy h). }
    destruct metrics as [[ms|]|]; [|done|done]. split; [done|]. etrans; [exact Hh|].
    apply (Hms (m <| m_registry := UpdateHealth now nick h (m_registry m) |>)).
  - destruct metrics as [[ms|]|]; [|done|done]. split; [done|]. apply Hms.
Qed.

(** A started agent: its record, which alone points to its instance. *)
Record started (nick : string) (rec : AgentRecord) (ref : nat) (inst : AgentInstance) (m : Manager)
    : Prop := {
  st_record : ∃ rec', m_registry m !! nick = Some rec' ∧ same_start rec rec';
  st_only n rec' : m_registry m !! n = Some rec' → ar_Instance rec' = Some ref → n = nick;
  st_instance : m_instances m !! ref = Some inst
}.

Lemma started_later nick rec ref inst m m' :
  started nick rec ref inst m → m_instances m' !! ref = m_instances m !! ref →
  reg_later (m_registry m) (m_registry m') → started nick rec ref inst m'.
Proof.
  intros [(rec1 & H1 & Hs) Ho Hi] Hinst Hl. split.
  - specialize (Hl nick). rewrite H1 in Hl. destruct (m_registry m' !! nick) as [rec2|]; [|done].
    exists rec2. split; [done|by etrans].
  - intros n rec2 H2 Href. specialize (Hl n). rewrite H2 in Hl.
    destruct (m_registry m !! n) as [rec0|] eqn:E0; [|congruence].
    apply (Ho n rec0 E0). destruct Hl as (_&_&_&_&_&H&_). congruence.
  - congruence.
Qed.

Lemma started_spawn nick rec ref inst now spawnerType cfg m m' rec' :
  sc_Nick cfg ≠ nick → SpawnAgent json_payload json_event now m spawnerType cfg = Some (inr (m', rec')) →
  started nick rec ref inst m → started nick rec ref inst m'.
Proof.
  unfold SpawnAgent. intros Hn H. destruct (m_spawners m !! spawnerType) as [sp|]; [|done]. cbv zeta in H.
  assert (sc_Nick (with_binary m spawnerType cfg) = sc_Nick cfg) as Hnick.
  { unfold with_binary. by destruct (_ && _). }
  destruct (sp_PreSpawn _ _); [done|]. destruct (sp_Spawn _ _) as [|new]; [done|].
  apply bind_Some in H as (m1 & (h & ->)%broadcastEvent_hub & [= <- _]).
  match goal with |- context [reg_Register now ?x] => set (rec1 := x) end.
  assert (ar_Nick rec1 = sc_Nick cfg ∧ ar_Instance (stamped now rec1) = Some (length (m_instances m)))
    as [En Ei].
  { destruct (stamped_fields now rec1) as (_ & _ & _ & -> & _). unfold rec1.
    match goal with |- context [stamped now ?x] =>
      destruct (stamped_fields now x) as (-> & _ & _ & -> & _) end. by rewrite <- Hnick. }
  intros [Hrec Ho Hi]. split; cbn [m_registry m_instances]; unfold reg_Register; rewrite ?En.
  - by rewrite lookup_insert_ne.
  - intros n r. rewrite lookup_insert. case_decide; [|apply Ho]. intros [= <-]. rewrite Ei.
    intros [= <-]. apply lookup_lt_Some in Hi. lia.
  - by apply lookup_app_l_Some.
Qed.

Lemma started_stop nick rec ref inst other m m' err :
  other ≠ nick → StopAgent json_payload json_event m other = Some (m', err) →
  started nick rec ref inst m → started nick rec ref inst m'.
Proof.
  intros Hn H Hst. unfold StopAgent, reg_Get in H. destruct (m_registry m !! other) as [rec'|] eqn:Er;
    [|by injection H as <- _].
  destruct (ar_Instance rec') as [ref'|] eqn:Ei; [|by injection H as <- _].
  destruct (m_spawners m !! _) as [sp|]; [|by injection H as <- _].
  apply bind_Some in H as (i & _ & H).
  assert (ref' ≠ ref) as Hne.
  { intros ->. by apply Hn, (st_only _ _ _ _ _ Hst other rec'). }
  destruct (sp_Stop _ _) as [i' [e|]].
  - injection H as <- _. eapply started_later; [exact Hst|cbn; by rewrite list_lookup_insert_ne|].
    by apply reg_later_alter.
  - apply bind_Some in H as (m1 & (h & ->)%broadcastEvent_hub & [= <- _]).
    eapply started_later; [exact Hst|cbn; by rewrite list_lookup_insert_ne|]. cbn.
    etrans; by apply reg_later_alter.
Qed.

Lemma started_spawned m m' nick rec inst :
  manager_ok m → m_registry m' = <[nick := rec]> (m_registry m) →
  ar_Instance rec = Some (length (m_instances m)) → m_instances m' = m_instances m ++ [inst] →
  started nick rec (length (m_instances m)) inst m'.
Proof.
  intros Hm Hr Href Hi. split; rewrite ?Hr, ?Hi.
  - exists rec. by rewrite lookup_insert_eq.
  - intros n rec'. rewrite lookup_insert. case_decide as E; [done|]. intros H1 H2.
    pose proof (ok_instances m Hm _ _ _ H1 H2). lia.
  - by rewrite lookup_app_r, Nat.sub_diag by lia.
Qed.

(** The agent stays in the registry, with its instance. *)
Lemma started_steps nick rec ref inst m m' :
  rtc (later_step nick) m m' → started nick rec ref inst m → started nick rec ref inst m'.
Proof.
  intros Hr. induction Hr as [|m1 m2 m3 Hstep _ IH]; [done|]. intros Hst. apply IH. clear IH.
  revert Hst. destruct Hstep as [clk ev m m' H|now ty cfg m m' rec' Hn H|other m m' err Hn H
    |now other health metrics m|h m _|spawners m]; intros Hst.
  - destruct (handleIRCMessage_later _ _ _ _ H) as [Hi Hl].
    eapply started_later; [exact Hst|by rewrite Hi|done].
  - by eapply started_spawn.
  - by eapply started_stop.
  - destruct (pollSingleAgent_later now m other health metrics) as [Hi Hl].
    eapply started_later; [exact Hst|by rewrite Hi|done].
  - by destruct Hst.
  - by destruct Hst.
Qed.

Lemma later_steps_ok nick m m' : rtc (later_step nick) m m' → manager_ok m → manager_ok m'.
Proof.
  intros Hr Hm. apply (rtc_invariant (manager_step json_payload json_event ParseFloat) manager_ok m);
    [apply manager_step_ok|exact Hm|].
  revert Hr. apply rtc_subrel. intros m1 m2 []; by econstructor.
Qed.
End later.

(** ** The manager sees what the agents see *)
Section observer.
Context `{MR : MapRange}.
Context (lower : string → string).
Context (json_payload : Payload → option string) (json_event : string → string → option string).
Context (ParseFloat : string → float64).

Lemma core_state clk pd msg : pd_state (core_update clk pd msg) = update_tasks clk (pd_state pd) msg.
Proof.
  unfold core_update, updateCoordinationStores. cbn [pd_taskBoard].
  destruct (pd_taskBoard pd); [by destruct (taskboard_update _ _ _)|done].
Qed.

(** What the manager reads off the wire is what the sender applied. *)
Lemma read_message_String clk clk' nick target msg ev :
  wf_message msg = true → ev_Message ev = Message_String msg → ev_Channel ev = target →
  ev_Nick ev = nick →
  ∃ remote, read_message clk' ev = Some remote ∧ remote ≡ local_message clk nick target msg.
Proof.
  intros Hwf Hm Hc Hn. unfold read_message.
  rewrite Hm, IsProtocolMessage_String, Parse_Message_String by done. cbn [negb].
  eexists. split; [reflexivity|].
  unfold equiv, Message_equiv, untimed, local_message, wire_view. cbn. by rewrite Hn, Hc.
Qed.

(** The manager reads what everybody reads: a message when it is said, and each of the
    automatic answers that is on its way to it ([self]) at any time. *)
Context (q : string → string) (members : string → string → list string) (self : string).

Inductive watch_step : relation (Network * Manager) :=
| watch_says clk stamp now from target msg net net' mclk mstamp m m' :
    wf_message msg = true →
    broadcast lower q members clk stamp now from target msg net = Some net' →
    handleIRCMessage json_payload json_event ParseFloat mclk m
      (said_event from (target, Message_String msg) mstamp) = Some m' →
    watch_step (net, m) (net', m')
| watch_hears net net' m :
    net_step lower q members net net' → watch_step (net, m) (net', m)
| watch_reads i d mclk net m m' :
    nw_flight net !! i = Some d → dl_to d = self →
    handleIRCMessage json_payload json_event ParseFloat mclk m (dl_event d) = Some m' →
    watch_step (net, m)
      ({| nw_team := nw_team net; nw_flight := delete i (nw_flight net); nw_said := nw_said net |}, m')
| watch_arbitrates task net m : watch_step (net, m) (arbitrate task net, m).

(** The manager's tasks and dependencies are those of every agent of the team. *)
Definition mirrors (net : Network) (m : Manager) : Prop :=
  ∀ nick ag, nw_team net !! nick = Some ag → pd_state (ag_protocol ag) ≡ m_state m.

Record watch_ok (acl : option ACLEngine) (st : Network * Manager) : Prop := {
  wo_team : team_ok acl st.1;
  wo_manager : manager_ok st.2;
  wo_mirrors : mirrors st.1 st.2
}.

Lemma read_message_parse clk ev msg :
  read_message clk ev = Some msg →
  IsProtocolMessage (ev_Message ev) = true ∧
  ∃ m, Parse (ev_Message ev) = inl m ∧ msg_Action msg = msg_Action m ∧ ∀ k, Get msg k = Get m k.
Proof.
  unfold read_message. destruct (IsProtocolMessage _); [|done]. cbn [negb].
  destruct (Parse _) as [m|]; [|done]. intros [= <-]. split; [done|]. by exists m.
Qed.

Lemma harmless_update clk s msg : harmless (dom (tasks s)) msg → update_tasks clk s msg ≡ s.
Proof.
  intros [Hq|[Ha Hk]]; [unfold update_tasks; by destruct (msg_Action msg)|].
  apply acknowledged_equiv; [done|]. by apply elem_of_dom.
Qed.

(** A message that is said reaches the manager as it reaches the others. *)
Lemma watch_says_ok acl clk stamp now from target msg net net' mclk mstamp m m' :
  watch_ok acl (net, m) → wf_message msg = true →
  broadcast lower q members clk stamp now from target msg net = Some net' →
  handleIRCMessage json_payload json_event ParseFloat mclk m
    (said_event from (target, Message_String msg) mstamp) = Some m' →
  watch_ok acl (net', m').
Proof.
  intros [Hteam Hm Hmir] Hwf Hb Hh. cbn [fst snd] in *.
  destruct (broadcast_ok lower q members acl _ _ _ _ _ _ _ _ Hteam Hwf Hb) as [Hteam' _].
  destruct (broadcast_sender lower q members clk stamp now from target msg net net' Hb)
    as (ag & ag' & fx & Eag & Hsend & Eag').
  destruct (handleIRCMessage_total json_payload json_event ParseFloat mclk m
    (said_event from (target, Message_String msg) mstamp) Hm) as (m2 & H2 & Hm2 & Hs).
  rewrite Hh in H2. injection H2 as <-. split; [done|done|]. intros nick a Ha. cbn [fst snd] in *.
  destruct (to_agree _ _ Hteam' _ _ _ _ Ha Eag') as [Hst _ _ _ _]. rewrite Hst, Hs.
  destruct (read_message_String (clk from 0) mclk from target msg
    (said_event from (target, Message_String msg) mstamp)) as (remote & -> & Hremote); [done..|].
  destruct (sent_protocol _ _ _ _ _ _ Hsend) as [-> _]. rewrite local_state.
  rewrite (mb_nick _ _ _ (to_members _ _ Hteam _ _ Eag)).
  apply update_tasks_equiv; [by eapply Hmir|by symmetry].
Qed.

(** An answer changes neither the agents' replicas nor the manager's. *)
Lemma watch_reads_ok acl i d mclk net m m' :
  watch_ok acl (net, m) → nw_flight net !! i = Some d →
  handleIRCMessage json_payload json_event ParseFloat mclk m (dl_event d) = Some m' →
  watch_ok acl ({| nw_team := nw_team net; nw_flight := delete i (nw_flight net);
    nw_said := nw_said net |}, m').
Proof.
  intros [[Hmem Hag Hfl] Hm Hmir] Hi Hh. cbn [fst snd] in *.
  destruct (handleIRCMessage_total json_payload json_event ParseFloat mclk m (dl_event d) Hm)
    as (m2 & H2 & Hm2 & Hs). rewrite Hh in H2. injection H2 as <-.
  split; cbn [fst snd]; [|done|].
  - split; cbn [nw_team nw_flight]; [done|done|]. intros d' nick ag Hd. apply Hfl.
    by eapply elem_of_list_delete.
  - intros nick ag Ha. cbn [nw_team] in Ha. rewrite (Hmir _ _ Ha), Hs.
    destruct (read_message mclk (dl_event d)) as [msg|] eqn:Er; [|done]. symmetry.
    apply harmless_update.
    assert (dom (tasks (m_state m)) = known ag) as ->.
    { pose proof (Hmir _ _ Ha) as E. unfold equiv, StateStore_equiv, erase_state in E.
      apply (f_equal (λ s, dom (tasks s))) in E. cbn in E. by rewrite !dom_fmap_L in E. }
    destruct (read_message_parse _ _ _ Er) as (Hip & m0 & Hp & Hact & Hget).
    destruct (Hfl d nick ag (list_elem_of_lookup_2 _ _ _ Hi) Ha m0 Hip Hp) as [Hq|[Hack Hk]];
      [left|right]; rewrite Hact, ?Hget; done.
Qed.

Lemma watch_step_ok acl st st' : watch_ok acl st → watch_step st st' → watch_ok acl st'.
Proof.
  intros Hok Hstep. revert Hok.
  destruct Hstep as [clk stamp now from target msg net net' mclk mstamp m m' Hwf Hb Hh|net net' m Hh
    |i d mclk net m m' Hi _ Hh|task net m]; intros Hok.
  - by eapply watch_says_ok.
  - destruct Hok as [Hteam Hm Hmir]. destruct (hears_ok lower q members acl net net' Hteam Hh) as [Ht' _].
    split; [done|done|]. intros nick a Ha. cbn [fst snd] in *.
    destruct (hears_same lower q members acl net net' Hteam Hh nick a Ha) as (old & Ho & [Hst _ _ _ _]).
    rewrite Hst. by eapply Hmir.
  - by eapply watch_reads_ok.
  - destruct Hok as [Hteam Hm Hmir]. split; [by apply (arbitrate_ok acl task net)|done|].
    intros nick a. unfold arbitrate. cbn. rewrite lookup_fmap.
    destruct (nw_team net !! nick) as [old|] eqn:Eo; [|done]. intros [= <-]. cbn. by eapply Hmir.
Qed.

(** C9. The manager's view. A team as in C1, and a manager, in any state it can be in,
    that knows the same tasks and dependencies as the agents and reads what they do:
    each message when it is said, and each automatic answer that is sent to it as
    well, whenever that arrives. Then, without having been told anything else, it
    holds the same tasks and the same dependencies as every agent at every moment, up
    to what replicas differ in (C1), and nothing that it may read next makes it fail. *)
Theorem manager_observes localSp sshSp dockerSp cfg acl net m net' m' :
  rtc (manager_step json_payload json_event ParseFloat)
    (NewWithClient localSp sshSp dockerSp cfg) m →
  map_Forall (member acl) (nw_team net) → agree net → nw_flight net = [] → mirrors net m →
  rtc watch_step (net, m) (net', m') →
  mirrors net' m' ∧
  ∀ clk ev, is_Some (handleIRCMessage json_payload json_event ParseFloat clk m' ev).
Proof.
  intros Hreach%reachable_ok Hmem Hag Hfl Hmir Hr.
  assert (watch_ok acl (net', m')) as [_ Hm Hmir'].
  { apply (rtc_invariant watch_step (watch_ok acl) (net, m)); [apply watch_step_ok| |exact Hr].
    split; [|done|done]. split; [done|done|]. cbn. rewrite Hfl. intros d nick ag H.
    by apply not_elem_of_nil in H. }
  split; [exact Hmir'|]. intros clk ev.
  destruct (handleIRCMessage_total json_payload json_event ParseFloat clk m' ev Hm) as (m2 & -> & _).
  by eexists.
Qed.
End observer.

(** ** The load of a claim

    The manager scans the text, the agents convert it. *)

Lemma skip_space_id s : starts_space s = false → skip_space s = Some s.
Proof.
  intros Hs. unfold skip_space. rewrite TrimLeft_id, Nat.sub_diag by done. by destruct s.
Qed.

Lemma digit_char_range d : (0 ≤ d < 10)%Z → ascii_range 48 57 (digit_char d) = true.
Proof.
  intros Hd. pose proof (digit_digit_char d Hd) as H. unfold digit in H.
  by destruct (ascii_range 48 57 (digit_char d)).
Qed.

Lemma digits_FormatUint n :
  (0 ≤ n)%Z → all_bytes (ascii_range 48 57) (FormatUint n) = true.
Proof.
  intros Hn. unfold FormatUint.
  apply (loop_inv _ _ _ (λ st, (0 ≤ st.1)%Z ∧ all_bytes (ascii_range 48 57) st.2 = true)
    (λ s, all_bytes (ascii_range 48 57) s = true)); [done| |].
  - intros [a s] s' [Ha Hs]. unfold format_step. cbn in *.
    destruct (Z.ltb_spec a 10); [done|]. intros [= <-]. cbn.
    pose proof (Z.div_pos a 10 ltac:(lia) ltac:(lia)).
    pose proof (Z.mod_pos_bound a 10 ltac:(lia)). by rewrite digit_char_range, Hs by lia.
  - intros [a s] r [Ha Hs]. unfold format_step. cbn in *.
    destruct (Z.ltb_spec a 10); [|done]. intros [= <-]. cbn. by rewrite digit_char_range, Hs by lia.
Qed.

Lemma number_not_space c s rest :
  all_bytes number_byte (String c s) = true → starts_space (String c s +:+ rest) = false.
Proof.
  cbn [all_bytes]. intros [Hc _]%andb_prop. rewrite app_str_cons. apply starts_space_cons.
  apply number_byte_spec in Hc as (_ & Hc & _). done.
Qed.

(** A text that the digits of a number end at. *)
Definition stops_digits (rest : string) : bool :=
  match rest with String c _ => negb (ascii_range 48 57 c) | "" => true end.

Lemma span_digits s rest :
  all_bytes (ascii_range 48 57) s = true → stops_digits rest = true →
  span (ascii_range 48 57) (s +:+ rest) = (s, rest).
Proof.
  intros Hs Hr. destruct rest as [|c rest]; [rewrite app_str_nil_r; by apply span_full|].
  apply span_prefix; [done|]. by apply negb_true_iff.
Qed.

Lemma Sscanf_FormatInt n rest :
  int64_ok n → stops_digits rest = true → Sscanf_int (FormatInt n +:+ rest) = Some n.
Proof.
  intros Hn Hr. pose proof (ParseInt_FormatInt n Hn) as Hp. unfold FormatInt in *.
  unfold Sscanf_int. destruct (n <? 0)%Z eqn:E.
  - assert (0 ≤ - n)%Z as Hpos by lia.
    rewrite skip_space_id by (apply number_not_space; cbn; by apply FormatUint_bytes).
    rewrite app_str_cons, bool_decide_eq_true_2 by done. cbn [orb].
    rewrite span_digits by (done || by apply digits_FormatUint). cbn [fst].
    destruct (parse_FormatUint (- n)) as (_ & c & s & Hs & _);
      [unfold int64_ok, min_int64, max_uint64 in *; lia|].
    rewrite bool_decide_eq_false_2 by (by rewrite Hs).
    change ("-" +:+ FormatUint (- n)) with (String "-" (FormatUint (- n))). by rewrite Hp.
  - assert (0 ≤ n)%Z as Hpos by lia.
    pose proof (FormatUint_bytes n Hpos) as Hb. pose proof (digits_FormatUint n Hpos) as Hd.
    destruct (parse_FormatUint n) as (_ & c & s & Hs & Hc);
      [unfold int64_ok, max_int64, max_uint64 in *; lia|].
    rewrite Hs in *. rewrite skip_space_id by (by apply number_not_space).
    destruct (digit_sign c Hc) as [H1 H2]. rewrite app_str_cons.
    rewrite !bool_decide_eq_false_2 by done. cbn [orb]. rewrite <- app_str_cons.
    rewrite span_digits by done. cbn [fst]. rewrite bool_decide_eq_false_2 by done.
    change ("" +:+ String c s) with (String c s). by rewrite Hp.
Qed.

(** [Atoi] refuses a number with something after it. *)
Lemma parse_digits_bad m k s c rest :
  parse_digits m s = (k, None) → digit c = None →
  parse_digits m (s +:+ String c rest) = (0%Z, Some ErrSyntax).
Proof.
  intros Hs Hc. revert m Hs. induction s as [|d s IH]; intros m Hs.
  - rewrite app_str_nil_l. cbn. by rewrite Hc.
  - rewrite app_str_cons. cbn in *. destruct (digit d) as [v|]; [|done].
    destruct (max_uint64 <? m * 10 + v)%Z; [done|]. by apply IH.
Qed.

Lemma Atoi_trailing n c rest :
  int64_ok n → digit c = None → Atoi (FormatInt n +:+ String c rest) = None.
Proof.
  intros Hn Hc. unfold Atoi, FormatInt. destruct (n <? 0)%Z eqn:E.
  - destruct (parse_FormatUint (- n)) as (Hp & d & s & Hs & _);
      [unfold int64_ok, min_int64, max_uint64 in *; lia|].
    rewrite app_str_cons. unfold ParseInt. rewrite bool_decide_eq_true_2 by done. cbn [orb].
    apply (parse_digits_bad _ _ _ c rest) in Hp; [|done]. rewrite Hs in *.
    unfold ParseUint. rewrite app_str_cons in *. by rewrite Hp.
  - destruct (parse_FormatUint n) as (Hp & d & s & Hs & Hd);
      [unfold int64_ok, max_int64, max_uint64 in *; lia|].
    apply (parse_digits_bad _ _ _ c rest) in Hp; [|done]. rewrite Hs in *.
    destruct (digit_sign d Hd) as [H1 H2]. rewrite app_str_cons in *. unfold ParseInt.
    rewrite !bool_decide_eq_false_2 by done. cbn [orb]. unfold ParseUint. by rewrite Hp.
Qed.

(** The loads that agents write are read alike by the manager and by the
    agents; on other texts the two differ: the manager takes the number that the
    text begins with, an agent takes the whole text or 0. *)
Theorem loads_agree n c rest :
  int64_ok n → ascii_range 48 57 c = false →
  scanned_load (FormatInt n) = n ∧ int_field (FormatInt n) = n ∧
  scanned_load (FormatInt n +:+ String c rest) = n ∧
  int_field (FormatInt n +:+ String c rest) = 0%Z.
Proof.
  intros Hn Hc. assert (digit c = None) as Hd by (unfold digit; by rewrite Hc).
  assert (∀ t, FormatInt n +:+ t ≠ "") as Hne.
  { intros t. unfold FormatInt. destruct (n <? 0)%Z eqn:E; [done|].
    destruct (parse_FormatUint n) as (_ & d & s & -> & _);
      [unfold int64_ok, max_int64, max_uint64 in *; lia|done]. }
  pose proof (Hne "") as Hne0. rewrite app_str_nil_r in Hne0.
  unfold scanned_load, int_field. rewrite !bool_decide_eq_false_2 by done.
  rewrite Atoi_FormatInt, Atoi_trailing by done.
  rewrite (Sscanf_FormatInt n (String c rest)) by (done || by apply negb_true_iff).
  rewrite <- (app_str_nil_r (FormatInt n)) at 1. by rewrite Sscanf_FormatInt.
Qed.

Lemma loads_agree_witness :
  scanned_load "3 tasks" = 3%Z ∧ int_field "3 tasks" = 0%Z.
Proof.
  assert (int64_ok 3) as H by (unfold int64_ok, min_int64, max_int64; lia).
  destruct (loads_agree 3 " " "tasks" H eq_refl) as (_ & _ & H1 & H2). by split.
Defined.

(** ** Concrete runs *)

(** SSH and Docker that answer nothing. *)
Definition silent_ssh : SSHWorld := {| sw_run _ := (None, ""); sw_now := 9%Z |}.
Definition silent_docker : DockerWorld := {| dw_run _ := (None, "", ""); dw_now := 9%Z |}.

Definition sample_manager : Manager :=
  NewWithClient (LocalSpawner busy_world) (SSHSpawner silent_ssh) (DockerSpawner silent_docker)
    default_ManagerConfig.

Definition no_json (p : Payload) : option string := None.
Definition no_event (eventType data : string) : option string := None.
Definition no_float (s : string) : float64 := float_zero.

Lemma sample_reachable : rtc (manager_step no_json no_event no_float) sample_manager sample_manager.
Proof. apply rtc_refl. Qed.

Lemma manager_never_panics_witness :
  is_Some (handleIRCMessage no_json no_event no_float (λ _, 5%Z) sample_manager
    (text_event "mallory" ("#dev", "CLAIM task=x load=9999999999999999999999"))).
Proof.
  apply (manager_never_panics no_json no_event no_float (LocalSpawner busy_world)
    (SSHSpawner silent_ssh) (DockerSpawner silent_docker) default_ManagerConfig sample_manager
    sample_reachable).
Defined.

Lemma SpawnAgent_spec_witness :
  ∃ m rec, SpawnAgent no_json no_event 7 sample_manager "local" ssh_sample = Some (inr (m, rec)) ∧
    ar_Nick rec = "alice" ∧ ar_Instance rec = Some 0.
Proof.
  destruct (SpawnAgent_spec no_json no_event no_float (LocalSpawner busy_world)
    (SSHSpawner silent_ssh) (DockerSpawner silent_docker) default_ManagerConfig sample_manager 7
    "local" ssh_sample (LocalSpawner busy_world) sample_reachable) as (r & Hr & H);
    [done|reflexivity|].
  destruct r as [e|[m rec]].
  - exfalso. destruct H as [H|[e' H]]; [by apply H|]. vm_compute in H. discriminate H.
  - exists m, rec. split; [exact Hr|]. destruct H as (_ & _ & Hn & _ & _ & Hi & _). by split.
Defined.

(** Alice is started and stopped. *)
Lemma StopAgent_spec_witness :
  ∃ m m' rec, SpawnAgent no_json no_event 7 sample_manager "local" ssh_sample = Some (inr (m, rec)) ∧
    StopAgent no_json no_event m "alice" = Some (m', None) ∧
    ar_Status <$> m_registry m' !! "alice" = Some "stopped" ∧
    in_Status <$> m_instances m' !! 0 = Some StatusStopped.
Proof.
  destruct (local_Spawn busy_world ssh_sample) as [e|inst] eqn:E; [by vm_compute in E|].
  destruct (SpawnAgent_run no_json no_event 7 sample_manager "local" ssh_sample
    (LocalSpawner busy_world) inst (NewWithClient_ok _ _ _ _) eq_refl eq_refl E) as (h & Hs & _).
  set (rec := stamped 7 _) in Hs.
  match type of Hs with _ = Some (inr (?m1, _)) => set (m := m1) in Hs end.
  destruct (StopAgent_spec no_json no_event no_float (LocalSpawner busy_world)
    (SSHSpawner silent_ssh) (DockerSpawner silent_docker) default_ManagerConfig m "alice"
    (stamped 7 rec) 0 (LocalSpawner busy_world)) as (i & h' & Hi & Hstop).
  - eapply rtc_once, step_spawn. exact Hs.
  - reflexivity.
  - reflexivity.
  - reflexivity.
  - destruct (sp_Stop _ _) as [i' err] eqn:Est. destruct Hstop as (Hstop & _ & _ & Hst).
    assert (StopFailed <$> err = None) as Herr.
    { assert ((StopAgent no_json no_event m "alice" ≫= snd) = None) as Hn.
      { unfold local_Spawn in E. injection E as <-. reflexivity. }
      rewrite Hstop in Hn. exact Hn. }
    destruct err as [e|]; [discriminate|]. eexists m, _, rec. split; [exact Hs|].
    split; [exact Hstop|]. split; [reflexivity|]. cbn [m_instances].
    assert (m_instances m = [(local_PostSpawn busy_world inst).1]) as -> by done.
    cbn. by rewrite Hst.
Defined.

(** The team of [Team.v], and a manager that sees its first message. *)
Lemma manager_observes_witness :
  ∃ net' m', rtc (watch_step ToLower no_json no_event no_float id sample_members "manager")
      (sample_net, sample_manager) (net', m') ∧ mirrors net' m' ∧
    Status <$> GetTask (m_state m') "build" = Some TaskStatusOffered.
Proof.
  destruct (sample_says "a" (msg_OfferTask "build" "high" "" ["go"]) sample_net) as [net'|] eqn:E; cycle 1.
  { apply (f_equal (λ r, match r with Some _ => true | None => false end)) in E.
    vm_compute in E. discriminate. }
  set (ev := said_event "a" ("#dev", Message_String (msg_OfferTask "build" "high" "" ["go"])) 3%Z).
  destruct (handleIRCMessage no_json no_event no_float (λ _, 4%Z) sample_manager ev) as [m'|] eqn:Em; cycle 1.
  { apply (f_equal (λ r, match r with Some _ => true | None => false end)) in Em.
    vm_compute in Em. discriminate. }
  assert (rtc (watch_step ToLower no_json no_event no_float id sample_members "manager")
    (sample_net, sample_manager) (net', m')) as Hr.
  { apply rtc_once. unfold sample_says in E.
    assert (wf_message (msg_OfferTask "build" "high" "" ["go"]) = true) as Hwf by (vm_compute; reflexivity).
    rewrite Hwf in E. by eapply watch_says. }
  exists net', m'. split; [exact Hr|]. split.
  - apply (manager_observes ToLower no_json no_event no_float id sample_members "manager"
      (LocalSpawner busy_world) (SSHSpawner silent_ssh) (DockerSpawner silent_docker)
      default_ManagerConfig None sample_net sample_manager net' m' sample_reachable).
    + intros nick ag ->%sample_net_member. apply (initProtocol_member sample_config); [done|].
      apply map_Forall_empty.
    + intros n1 a1 n2 a2 ->%sample_net_member ->%sample_net_member.
      change (ag_protocol (initProtocol sample_config n1 NewStateStore))
        with (ag_protocol (initProtocol sample_config n2 NewStateStore)). done.
    + reflexivity.
    + intros nick ag ->%sample_net_member. done.
    + exact Hr.
  - destruct (handleIRCMessage_total no_json no_event no_float (λ _, 4%Z) sample_manager ev
      (NewWithClient_ok _ _ _ _)) as (m2 & H2 & _ & Hs).
    rewrite Em in H2. injection H2 as <-. rewrite Hs. vm_compute. reflexivity.
Defined.
