(* ===== verification/Server.v ===== *)
(** * The web server of the manager: [internal/manager/server.go], [templates.go]

    Which handler a request gets, what the handlers answer and change, and how the
    manager is started, polls the dashboards of its agents, and is stopped
    ([internal/manager/manager.go]). The routing is that of [GoMux]; the
    decoder of request bodies and the template engine are arguments. *)

From S2P Require Import Prelude GoStrings GoMux GoNum GoFloat Config Message Parser Serializer.
From S2P Require Import State TaskBoard Discovery Context Inspector Metrics Health Pacing Events IrcClient.
From S2P Require Import Dispatcher DispatcherTheory Agent AgentTheory Spawner Instances Cost ManagerConfig Hub Registry Manager ManagerTheory.

Arguments HttpError {A} code.
Arguments HttpBody {A} code body.

(** ** Routes *)

Inductive Handler :=
| APIAgents | APIAgentDetail | APISpawn | APIStop | APITasks | APICosts | APICostsByAgent
| APICostsByTask | APICostsByModel | APIMessages | APIDiscovery | WS
| PageAgentDetail | PageSpawn | PageCosts | PageTaskboard | PageDashboard.

#[export] Instance Handler_eq_dec : EqDecision Handler.
Proof. solve_decision. Defined.

(** The routes of [Server.Start]. *)
Definition routes : list (Route Handler) :=
  [ HandleFunc "GET /api/agents" APIAgents;
    HandleFunc "GET /api/agents/{nick}" APIAgentDetail;
    HandleFunc "POST /api/agents/spawn" APISpawn;
    HandleFunc "POST /api/agents/{nick}/stop" APIStop;
    HandleFunc "GET /api/tasks" APITasks;
    HandleFunc "GET /api/costs" APICosts;
    HandleFunc "GET /api/costs/by-agent" APICostsByAgent;
    HandleFunc "GET /api/costs/by-task" APICostsByTask;
    HandleFunc "GET /api/costs/by-model" APICostsByModel;
    HandleFunc "GET /api/messages" APIMessages;
    HandleFunc "GET /api/discovery" APIDiscovery;
    HandleFunc "GET /ws" WS;
    HandleFunc "GET /agents/{nick}" PageAgentDetail;
    HandleFunc "GET /spawn" PageSpawn;
    HandleFunc "GET /costs" PageCosts;
    HandleFunc "GET /taskboard" PageTaskboard;
    HandleFunc "GET /" PageDashboard ].

(** ** Pages *)

Definition pages : list string :=
  ["dashboard.html"; "agent_detail.html"; "spawn.html"; "costs.html"; "taskboard.html"].

Inductive PageData := DataManager (m : Manager) | DataNick (nick : string) | DataNone.

Section server.
Context `{MR : MapRange}.
Context (json_payload : Payload → option string) (json_event : string → string → option string).
Context (ParseFloat : string → float64).
(** [json.NewDecoder(r.Body).Decode(&req)] *)
Context (decode_spawn : string → option (string * spawnConfigRequest)).
(** Whether a page's template parses; what it writes, and whether without an error. *)
Context (template_parses : string → bool) (ExecuteTemplate : string → PageData → string * bool).

(** The templates that were loaded; [None] is an error. It is computed once. *)
Definition loadTemplates : option (list string) :=
  if forallb template_parses pages then Some pages else None.

Definition executeTemplate (name : string) (data : PageData) : string * bool :=
  match loadTemplates with
  | None => ("", false)
  | Some ts => if bool_decide (name ∈ ts) then ExecuteTemplate name data else ("", true)
  end.

(** ** Answers *)

(** A record is encoded with the instance that it points to. *)
Definition agent_view (m : Manager) (rec : AgentRecord) : AgentRecord * option AgentInstance :=
  (rec, ref ← ar_Instance rec; m_instances m !! ref).

Inductive Body :=
| BodyAgents (agents : list (AgentRecord * option AgentInstance))
| BodyAgent (agent : AgentRecord * option AgentInstance)
| BodyStopped (status nick : string)
| BodyTasks (tasks : list TaskInfo)
| BodyCost (summary : CostSummary)
| BodyCosts (summaries : gmap string CostSummary)
| BodyMessages (messages : list MessageLogEntry)
| BodyDiscovery (agents : list AgentCapability)
| BodyStream (conn : nat)
| BodyPage (text : string).

Definition reply_map {A B} (f : A → B) (r : Reply A) : Reply B :=
  match r with HttpError code => HttpError code | HttpBody code a => HttpBody code (f a) end.

(** The error after something was written cannot change the status any more; its
    text is added to the page. *)
Definition renderTemplate (name : string) (data : PageData) : Reply Body :=
  match executeTemplate name data with
  | (text, true) => HttpBody 200 (BodyPage text)
  | (text, false) => if bool_decide (text = "") then HttpError 500
                     else HttpBody 200 (BodyPage (text +:+ "template error" +:+ String "010" ""))
  end.

(** ** Requests *)

(** [hr_conn] is the number of the connection when the request is one to [/ws];
    [hr_flusher] whether its writer can be flushed. *)
Record Request := {
  hr_method : string;
  hr_path : list string;
  hr_body : string;
  hr_conn : nat;
  hr_flusher : bool
}.

(** The start of [serveWS], whose loop is [serve_receive]. *)
Definition handleWS (m : Manager) (r : Request) : Manager * Reply Body :=
  if hr_flusher r then (m <| m_hub := serve_start (hr_conn r) (m_hub m) |>, HttpBody 200 (BodyStream (hr_conn r)))
  else (m, HttpError 500).

Definition handle (now : Time) (m : Manager) (r : Request) (h : Handler)
    (vars : list (string * string)) : option (Manager * Reply Body) :=
  let nick := PathValue "nick" vars in
  match h with
  | APIAgents => Some (m, reply_map (λ l, BodyAgents (agent_view m <$> l)) (handleAPIAgents m))
  | APIAgentDetail => Some (m, reply_map (λ rec, BodyAgent (agent_view m rec)) (handleAPIAgentDetail m nick))
  | APISpawn =>
      '(m', rep) ← handleAPISpawn json_payload json_event now m (decode_spawn (hr_body r));
      Some (m', reply_map (λ rec, BodyAgent (agent_view m' rec)) rep)
  | APIStop =>
      '(m', rep) ← handleAPIStop json_payload json_event m nick;
      Some (m', reply_map (λ x, BodyStopped x.1 x.2) rep)
  | APITasks => Some (m, reply_map BodyTasks (handleAPITasks m))
  | APICosts => Some (m, reply_map BodyCost (handleAPICosts m))
  | APICostsByAgent => Some (m, reply_map BodyCosts (handleAPICostsByAgent m))
  | APICostsByTask => Some (m, reply_map BodyCosts (handleAPICostsByTask m))
  | APICostsByModel => Some (m, reply_map BodyCosts (handleAPICostsByModel m))
  | APIMessages => rep ← handleAPIMessages m; Some (m, reply_map BodyMessages rep)
  | APIDiscovery => Some (m, reply_map BodyDiscovery (handleAPIDiscovery now m))
  | WS => Some (handleWS m r)
  | PageAgentDetail => Some (m, renderTemplate "agent_detail.html" (DataNick nick))
  | PageSpawn => Some (m, renderTemplate "spawn.html" DataNone)
  | PageCosts => Some (m, renderTemplate "costs.html" DataNone)
  | PageTaskboard => Some (m, renderTemplate "taskboard.html" DataNone)
  | PageDashboard => Some (m, renderTemplate "dashboard.html" (DataManager m))
  end.

Definition serve (now : Time) (m : Manager) (r : Request) : option (Manager * Reply Body) :=
  match mux routes (hr_method r) (hr_path r) with
  | Handled h vars => handle now m r h vars
  | MethodNotAllowed => Some (m, HttpError 405)
  | NotFound => Some (m, HttpError 404)
  end.
End server.

(** ** Starting, polling and stopping *)

(** The function that the manager registers for messages. *)
Definition h_manager : nat := 9.

Inductive StartFailure := IRCConnectFailed (err : string) | WebServerFailed (err : string).

(** The client, whether there is a web server and whether it listens, and the
    channel [pollStop]: [None] is nil, [Some true] is closed. *)
Record Process := {
  pr_client : ircClient;
  pr_httpServer : bool;
  pr_listening : bool;
  pr_pollStop : option bool
}.

#[export] Instance Process_eta : RecordEta Process := λ r,
  {| pr_client := pr_client r; pr_httpServer := pr_httpServer r; pr_listening := pr_listening r;
     pr_pollStop := pr_pollStop r |}.

Definition new_Process (client : ircClient) : Process :=
  {| pr_client := client; pr_httpServer := false; pr_listening := false; pr_pollStop := None |}.

(** [listen] is the error of [net.Listen]. *)
Definition server_Start (listen : option string) (p : Process) : Process * option string :=
  let p := p <| pr_httpServer := true |> in
  match listen with
  | Some err => (p, Some err)
  | None => (p <| pr_listening := true |>, None)
  end.

Definition server_Shutdown (p : Process) : Process :=
  if pr_httpServer p then p <| pr_listening := false |> else p.

(** [connected] is the error of the client's [Connect]. *)
Definition mgr_Start (connected listen : option string) (p : Process) : Process * option StartFailure :=
  let p := p <| pr_client := (OnMessage h_manager (pr_client p)).1 |> in
  match connected with
  | Some err => (p, Some (IRCConnectFailed err))
  | None =>
      match server_Start listen p with
      | (p, Some err) => (p, Some (WebServerFailed err))
      | (p, None) => (p <| pr_pollStop := Some false |>, None)
      end
  end.

(** [None] is the panic of closing a closed channel. *)
Definition mgr_Shutdown (p : Process) : option (Process * list Command) :=
  match pr_pollStop p with
  | Some true => None
  | stop => Some (server_Shutdown (p <| pr_pollStop := (λ _, true) <$> stop |>), Disconnect)
  end.

Inductive RunResult :=
| RunFailed (e : StartFailure)
| RunBlocks
| RunReturns (commands : list Command).

(** [cancelled]: whether the context is cancelled at some time. *)
Definition mgr_Run (connected listen : option string) (cancelled : bool) (p : Process)
    : option (Process * RunResult) :=
  match mgr_Start connected listen p with
  | (p, Some e) => Some (p, RunFailed e)
  | (p, None) =>
      if cancelled then '(p, cmds) ← mgr_Shutdown p; Some (p, RunReturns cmds)
      else Some (p, RunBlocks)
  end.

(** What the loop of [pollLoop] selects, with the manager at that time. *)
Inductive LoopEvent := Ticked (m : Manager) | PollStopped.

(** The polls that each tick starts, until the loop is stopped; [None] is the panic of
    [time.NewTicker]. *)
Fixpoint poll_ticks `{MapRange} (events : list LoopEvent) : list (list (string * string)) :=
  match events with
  | Ticked m :: events => pollAgentDashboards m :: poll_ticks events
  | _ => []
  end.

Definition pollLoop `{MapRange} (cfg : ManagerConfig) (events : list LoopEvent)
    : option (list (list (string * string))) :=
  if bool_decide (mc_PollInterval cfg ≤ 0)%Z then None else Some (poll_ticks events).

(** The changes that the goroutines of the polls make, each under the lock of the
    registry, in any interleaving. *)
Inductive PollOp :=
| PollHealth (now : Time) (nick : string) (health : HealthStatus)
| PollMetrics (nick : string) (metrics : MetricsSnapshot).

Definition poll_nick (op : PollOp) : string :=
  match op with PollHealth _ nick _ | PollMetrics nick _ => nick end.

Definition poll_apply (m : Manager) (op : PollOp) : Manager :=
  match op with
  | PollHealth now nick h => m <| m_registry := UpdateHealth now nick h (m_registry m) |>
  | PollMetrics nick ms => m <| m_registry := UpdateMetrics nick ms (m_registry m) |>
  end.

(** Those of one poll. *)
Definition poll_ops (now : Time) (nick : string)
    (health : option (option HealthStatus)) (metrics : option (option MetricsSnapshot)) : list PollOp :=
  match health with
  | None => []
  | Some health =>
      match health with Some h => [PollHealth now nick h] | None => [] end ++
      match metrics with Some (Some ms) => [PollMetrics nick ms] | _ => [] end
  end.

(** ** Theorems *)

(** What the API and the pages are meant to be. *)
Definition intended (method : string) (path : list string) : Found Handler :=
  if String.eqb method "GET" || String.eqb method "HEAD" then
    match path with
    | [a] =>
        if String.eqb a "ws" then Handled WS []
        else if String.eqb a "spawn" then Handled PageSpawn []
        else if String.eqb a "costs" then Handled PageCosts []
        else if String.eqb a "taskboard" then Handled PageTaskboard []
        else Handled PageDashboard []
    | [a; b] =>
        if String.eqb a "api" then
          if String.eqb b "agents" then Handled APIAgents []
          else if String.eqb b "tasks" then Handled APITasks []
          else if String.eqb b "costs" then Handled APICosts []
          else if String.eqb b "messages" then Handled APIMessages []
          else if String.eqb b "discovery" then Handled APIDiscovery []
          else Handled PageDashboard []
        else if String.eqb a "agents" && negb (String.eqb b "") then Handled PageAgentDetail [("nick", b)]
        else Handled PageDashboard []
    | [a; b; c] =>
        if String.eqb a "api" then
          if String.eqb b "agents" then
            if String.eqb c "" then Handled PageDashboard [] else Handled APIAgentDetail [("nick", c)]
          else if String.eqb b "costs" then
            if String.eqb c "by-agent" then Handled APICostsByAgent []
            else if String.eqb c "by-task" then Handled APICostsByTask []
            else if String.eqb c "by-model" then Handled APICostsByModel []
            else Handled PageDashboard []
          else Handled PageDashboard []
        else Handled PageDashboard []
    | _ => Handled PageDashboard []
    end
  else if String.eqb method "POST" then
    match path with
    | [a; b; c] =>
        if String.eqb a "api" && String.eqb b "agents" && String.eqb c "spawn"
        then Handled APISpawn [] else MethodNotAllowed
    | [a; b; nick; d] =>
        if String.eqb a "api" && String.eqb b "agents" && negb (String.eqb nick "") &&
           String.eqb d "stop"
        then Handled APIStop [("nick", nick)] else MethodNotAllowed
    | _ => MethodNotAllowed
    end
  else MethodNotAllowed.

Definition get_routes : list (Route Handler) := Eval vm_compute in
  List.filter (λ r, String.eqb (rt_method r) "GET") routes.
Definition post_routes : list (Route Handler) := Eval vm_compute in
  List.filter (λ r, String.eqb (rt_method r) "POST") routes.

Lemma get_best path :
  path ≠ [] → outcome (foldr pick None (flat_map (λ r, route_match r path) get_routes)) = intended "GET" path.
Proof.
  intros Hp. unfold intended. cbn [String.eqb Ascii.eqb Bool.eqb orb].
  destruct path as [|a [|b [|c [|d rest]]]]; [done| | | |]; unfold get_routes, route_match;
    cbn -[foldr]; decide_segments.
Qed.

Lemma post_best path :
  outcome (foldr pick None (flat_map (λ r, route_match r path) post_routes)) = intended "POST" path.
Proof.
  unfold intended. cbn [String.eqb Ascii.eqb Bool.eqb orb].
  destruct path as [|a [|b [|c [|d [|e rest]]]]]; unfold post_routes, route_match; cbn -[foldr]; decide_segments.
Qed.

Lemma mux_intended method path : path ≠ [] → mux routes method path = intended method path.
Proof.
  intros Hp. rewrite mux_outcome; [|reflexivity|done]. unfold best_route. rewrite !matching_filter.
  change (List.filter (λ r, String.eqb (rt_method r) "GET") routes) with get_routes.
  destruct (String.eqb_spec method "GET") as [->|Hg].
  { change (List.filter (λ r, String.eqb (rt_method r) "GET") routes) with get_routes.
    cbn [String.eqb Ascii.eqb Bool.eqb]. rewrite <- get_best by done. by destruct (foldr _ _ _). }
  destruct (String.eqb_spec method "POST") as [->|Hpost].
  { change (List.filter (λ r, String.eqb (rt_method r) "POST") routes) with post_routes.
    cbn [String.eqb Ascii.eqb Bool.eqb]. rewrite <- post_best. by destruct (foldr _ _ _). }
  assert (List.filter (λ r, String.eqb (rt_method r) method) routes = []) as ->.
  { apply (other_methods ["GET"; "POST"]); [|reflexivity].
    rewrite !not_elem_of_cons. split_and!; [done|done|apply not_elem_of_nil]. }
  cbn [flat_map foldr]. destruct (String.eqb_spec method "HEAD") as [->|Hh].
  - rewrite get_best by done. done.
  - unfold intended. apply String.eqb_neq in Hg, Hpost, Hh. by rewrite Hg, Hpost, Hh.
Qed.

(** C16. Requests are routed as intended, although several patterns match most of them: the
    fixed names come before the nicks, GET and HEAD of anything else get the
    dashboard's page (never a 404), POST reaches nothing but the start and the stop
    of an agent, and any other method is refused. *)
Theorem routes_dispatch method first rest :
  mux routes method (first :: rest) = intended method (first :: rest) ∧
  (method = "GET" ∨ method = "HEAD" → ∃ h vars, mux routes method (first :: rest) = Handled h vars ∧
     h ≠ APISpawn ∧ h ≠ APIStop).
Proof.
  rewrite mux_intended by done. split; [done|]. unfold intended.
  intros [-> | ->]; cbn [String.eqb Ascii.eqb Bool.eqb orb];
    (destruct rest as [|b [|c [|d rest]]];
     repeat (match goal with |- context [String.eqb ?x ?l] => destruct (String.eqb x l) end; cbn);
     by eexists _, _).
Qed.

Lemma routed_get method path h vars :
  path ≠ [] → method ≠ "POST" → mux routes method path = Handled h vars →
  h ≠ APISpawn ∧ h ≠ APIStop ∧ (h = WS → path = ["ws"]).
Proof.
  intros Hp Hm. rewrite mux_intended by done. unfold intended. apply String.eqb_neq in Hm. rewrite Hm.
  destruct (_ || _); [|done].
  destruct path as [|a [|b [|c [|d rest]]]]; [done| | | |];
    repeat (match goal with |- context [String.eqb ?x ?l] => destruct (String.eqb_spec x l); [subst x|] end; cbn);
    by intros [= <- _].
Qed.

Section server_theorems.
Context `{MR : MapRange}.
Context (json_payload : Payload → option string) (json_event : string → string → option string).
Context (ParseFloat : string → float64).
Context (decode_spawn : string → option (string * spawnConfigRequest)).
Context (template_parses : string → bool) (ExecuteTemplate : string → PageData → string * bool).

Abbreviation serve_ := (serve json_payload json_event decode_spawn template_parses ExecuteTemplate) (only parsing).
Abbreviation step_ := (manager_step json_payload json_event ParseFloat) (only parsing).

Definition status {A} (r : Reply A) : Z := match r with HttpError code => code | HttpBody code _ => code end.

Lemma status_map {A B} (f : A → B) r : status (reply_map f r) = status r.
Proof. by destruct r. Qed.

Lemma renderTemplate_status name data :
  status (renderTemplate template_parses ExecuteTemplate name data) ∈ [200; 201; 400; 404; 405; 500]%Z.
Proof.
  unfold renderTemplate. destruct (executeTemplate _ _ _ _) as [text []]; [by left|].
  case_bool_decide; [|by left]. do 5 right. by left.
Qed.

Lemma handle_total now m r h vars :
  manager_ok m → hub_conns (m_hub m) !! hr_conn r = None →
  ∃ m' rep, handle json_payload json_event decode_spawn template_parses ExecuteTemplate now m r h vars
      = Some (m', rep) ∧ rtc step_ m m' ∧ status rep ∈ [200; 201; 400; 404; 405; 500]%Z ∧
    (h ≠ APISpawn → h ≠ APIStop → m' = if bool_decide (h = WS) then m <| m_hub := m_hub m' |> else m).
Proof.
  intros Hm Hconn.
  assert (∀ rep : Reply Body, status rep ∈ [200; 201; 400; 404; 405; 500]%Z → ∃ m' rep',
    Some (m, rep) = Some (m', rep') ∧ rtc step_ m m' ∧ status rep' ∈ [200; 201; 400; 404; 405; 500]%Z ∧
    (h ≠ APISpawn → h ≠ APIStop → m' = if bool_decide (h = WS) then m <| m_hub := m_hub m' |> else m)) as Hread.
  { intros rep Hst. exists m, rep. split_and!; [done|done|done|]. intros _ _. destruct m. by case_bool_decide. }
  destruct h; cbn [handle]; try (apply Hread; (by left) || apply renderTemplate_status).
  - apply Hread. rewrite status_map. unfold handleAPIAgentDetail.
    destruct (reg_Get _ _); [by left|]. do 3 right. by left.
  - unfold handleAPISpawn. destruct (decode_spawn _) as [[st config]|]; cycle 1.
    { cbn. eexists _, _. split_and!; [done|done|do 2 right; by left|done]. }
    destruct (SpawnAgent_total json_payload json_event now m st (toSpawnConfig config) Hm) as (res & E & _).
    rewrite E. destruct res as [e|[m' rec]]; cbn; eexists _, _;
      (split; [done|]); (split; [|split; [|done]]).
    + done.
    + do 5 right. by left.
    + by eapply rtc_once, step_spawn.
    + right. by left.
  - unfold handleAPIStop. destruct (StopAgent_total json_payload json_event m (PathValue "nick" vars) Hm) as (m' & err & E & _).
    rewrite E. destruct err as [e|]; cbn; eexists _, _; (split; [done|]);
      (split; [by eapply rtc_once, step_stop|split; [|done]]); [do 5 right|]; by left.
  - destruct (ok_log m Hm) as [h Hring]. unfold handleAPIMessages.
    rewrite (RecentMessages_ring _ _ 100 Hring). apply Hread. by left.
  - assert (∀ h', m <| m_hub := h' |> = m <| m_hub := m_hub (m <| m_hub := h' |>) |>) as Hhub by done.
    unfold handleWS. destruct (hr_flusher r); [|apply Hread; do 5 right; by left].
    eexists _, _. split; [done|]. split; [by apply rtc_once, step_hub, hub_start|]. split; [by left|].
    intros _ _. by rewrite bool_decide_eq_true_2.
Qed.

(** C14. Requests are safe. From every state that the manager reaches, whatever its
    spawners do, every request is answered, with one of six statuses; what it changes
    is what steps of the manager change, so that the next request is answered as
    well; and a request that is not a POST changes nothing, except that one to [/ws]
    registers a connection for events. *)
Theorem requests_are_safe localSp sshSp dockerSp cfg m now r :
  rtc step_ (NewWithClient localSp sshSp dockerSp cfg) m →
  hr_path r ≠ [] → hub_conns (m_hub m) !! hr_conn r = None →
  ∃ m' rep, serve_ now m r = Some (m', rep) ∧
    rtc step_ (NewWithClient localSp sshSp dockerSp cfg) m' ∧
    status rep ∈ [200; 201; 400; 404; 405; 500]%Z ∧
    (hr_method r ≠ "POST" →
     m' = if bool_decide (hr_path r = ["ws"]) then m <| m_hub := m_hub m' |> else m).
Proof.
  intros Hreach Hp Hconn. apply reachable_ok in Hreach as Hm. unfold serve.
  destruct (mux routes (hr_method r) (hr_path r)) as [h vars| |] eqn:E.
  - destruct (handle_total now m r h vars Hm Hconn) as (m' & rep & H & Hs & Hst & Hsame).
    exists m', rep. split; [exact H|]. split; [by etrans|]. split; [exact Hst|]. intros Hpost.
    destruct (routed_get _ _ _ _ Hp Hpost E) as (H1 & H2 & H3). 
    pose proof (Hsame H1 H2) as Hm'. destruct (decide (hr_path r = ["ws"])) as [Hpath|Hpath].
    + rewrite (bool_decide_eq_true_2 (hr_path r = _) Hpath).
      destruct (bool_decide (h = WS)); [exact Hm'|]. subst m'. by destruct m.
    + rewrite (bool_decide_eq_false_2 (hr_path r = _) Hpath).
      rewrite bool_decide_eq_false_2 in Hm'; [done|]. intros Hws. by apply Hpath, H3.
  - eexists _, _. split; [done|]. split; [done|]. split; [do 4 right; by left|].
    intros _. destruct m. by case_bool_decide.
  - eexists _, _. split; [done|]. split; [done|]. split; [do 3 right; by left|].
    intros _. destruct m. by case_bool_decide.
Qed.

(** *** Starting an agent through the API *)

Definition request (method : string) (path : list string) (body : string) (conn : nat) : Request :=
  {| hr_method := method; hr_path := path; hr_body := body; hr_conn := conn; hr_flusher := true |}.

Lemma serve_routed now m r h vars :
  hr_path r ≠ [] → intended (hr_method r) (hr_path r) = Handled h vars →
  serve_ now m r = handle json_payload json_event decode_spawn template_parses ExecuteTemplate now m r h vars.
Proof. intros Hp Hi. unfold serve. by rewrite mux_intended, Hi. Qed.

(** What the two pages of the API that show an agent say of a started agent. *)
Lemma started_listed nick rec ref inst m :
  nick ≠ "" → ar_Instance rec = Some ref → started nick rec ref inst m →
  ∃ rec', same_start rec rec' ∧ m_registry m !! nick = Some rec' ∧
    (∀ now conn, serve_ now m (request "GET" ["api"; "agents"; nick] "" conn)
       = Some (m, HttpBody 200 (BodyAgent (rec', Some inst)))) ∧
    (∀ now conn, ∃ l, serve_ now m (request "GET" ["api"; "agents"] "" conn)
       = Some (m, HttpBody 200 (BodyAgents l)) ∧ (rec', Some inst) ∈ l).
Proof.
  intros Hne%String.eqb_neq Href [(rec' & Hrec & Hsame) _ Hi]. exists rec'. split; [done|]. split; [done|].
  assert (agent_view m rec' = (rec', Some inst)) as Hview.
  { unfold agent_view. destruct Hsame as (_&_&_&_&_&H&_). rewrite H, Href. cbn. by rewrite Hi. }
  split; intros now conn.
  - rewrite (serve_routed _ _ _ APIAgentDetail [("nick", nick)]); [|done|by cbn; rewrite Hne].
    cbn [handle]. cbv zeta. change (PathValue _ _) with nick.
    unfold handleAPIAgentDetail, reg_Get. by rewrite Hrec; cbn; rewrite Hview.
  - eexists. rewrite (serve_routed _ _ _ APIAgents []) by done. split; [reflexivity|].
    apply list_elem_of_fmap. exists rec'. split; [done|]. unfold reg_List.
    apply elem_of_range_values. by eexists.
Qed.

(** What the request to stop it does. *)
Lemma started_stopped nick rec ref m sp `{!LawfulSpawner sp} :
  manager_ok m → nick ≠ "" → m_registry m !! nick = Some rec → ar_Instance rec = Some ref →
  m_spawners m !! ar_SpawnerType rec = Some sp →
  ∀ now conn, ∃ m2 rep,
    serve_ now m (request "POST" ["api"; "agents"; nick; "stop"] "" conn) = Some (m2, rep) ∧
    (status rep = 200%Z ∨ status rep = 500%Z) ∧
    (∃ inst', m_instances m2 !! ref = Some inst' ∧ in_Status inst' = StatusStopped) ∧
    (status rep = 200%Z → ar_Status <$> reg_Get nick (m_registry m2) = Some "stopped").
Proof.
  intros Hm Hne%String.eqb_neq Hrec Href Hsp now conn.
  destruct (stop_lawful json_payload json_event m nick rec ref sp Hm Hrec Href Hsp)
    as (i1 & h & Hi1 & Hstop).
  destruct (sp_Stop sp (sp_PreStop sp i1).1) as [i2 err]. destruct Hstop as (Hstop & _ & _ & Hstopped).
  rewrite (serve_routed _ _ _ APIStop [("nick", nick)]); [|done|by cbn; rewrite Hne].
  cbn [handle]. cbv zeta. change (PathValue _ _) with nick. unfold handleAPIStop. rewrite Hstop.
  assert (<[ref := i2]> (m_instances m) !! ref = Some i2) as Hi2.
  { apply list_lookup_insert_eq. by eapply lookup_lt_Some. }
  destruct err as [e|]; cbn; eexists _, _; (split; [done|]); cbn [status];
    (split; [auto|]); (split; [by exists i2|]); [done|].
  intros _. unfold reg_Get. cbn. by rewrite lookup_insert_eq.
Qed.

(** C15. What is started is listed. The request to start an agent, with a spawner that
    keeps its contract ([LawfulSpawner]), is answered with 201 only when its
    configuration was complete, and then the answer holds the record and the instance
    with its configuration, the password included. From then on, through any messages
    from IRC, polls of dashboards, events for browsers, and starts and stops of other
    agents, until an agent is started again under this nick or it is stopped, so do the
    list of agents and the details of the agent, which anybody can ask for: the same
    instance, in a record with the same nick, host, source, spawner, dashboard and time
    of registration. The request to stop it is answered with 200 or 500, after which the
    instance is stopped; after a 200 the record says so. *)
Theorem spawned_is_listed localSp sshSp dockerSp cfg m now body conn m' b spawnerType config sp
    `{!LawfulSpawner sp} :
  rtc step_ (NewWithClient localSp sshSp dockerSp cfg) m → now ≠ 0%Z →
  decode_spawn body = Some (spawnerType, config) → m_spawners m !! spawnerType = Some sp →
  serve_ now m (request "POST" ["api"; "agents"; "spawn"] body conn) = Some (m', HttpBody 201 b) →
  ∃ rec inst, b = BodyAgent (rec, Some inst) ∧ rq_Nick config ≠ "" ∧ ar_Nick rec = rq_Nick config ∧
    in_Config inst = with_binary m spawnerType (toSpawnConfig config) ∧
    sc_Password (in_Config inst) = rq_Password config ∧
    reg_Get (rq_Nick config) (m_registry m') = Some rec ∧
    ∀ m1, rtc (later_step json_payload json_event ParseFloat (rq_Nick config)) m' m1 →
    ∃ rec1, same_start rec rec1 ∧ reg_Get (rq_Nick config) (m_registry m1) = Some rec1 ∧
    (∀ now conn, serve_ now m1 (request "GET" ["api"; "agents"; rq_Nick config] "" conn)
       = Some (m1, HttpBody 200 (BodyAgent (rec1, Some inst)))) ∧
    (∀ now conn, ∃ l, serve_ now m1 (request "GET" ["api"; "agents"] "" conn)
       = Some (m1, HttpBody 200 (BodyAgents l)) ∧ (rec1, Some inst) ∈ l) ∧
    (m_spawners m1 !! spawnerType = Some sp → ∀ now conn, ∃ m2 rep,
      serve_ now m1 (request "POST" ["api"; "agents"; rq_Nick config; "stop"] "" conn) = Some (m2, rep) ∧
      (status rep = 200%Z ∨ status rep = 500%Z) ∧
      (∃ ref inst', ar_Instance rec = Some ref ∧ m_instances m2 !! ref = Some inst' ∧
         in_Status inst' = StatusStopped) ∧
      (status rep = 200%Z → ar_Status <$> reg_Get (rq_Nick config) (m_registry m2) = Some "stopped")).
Proof.
  intros Hreach Hnow Hdec Hsp Hserve. apply reachable_ok in Hreach as Hm.
  rewrite (serve_routed _ _ _ APISpawn []) in Hserve by done. cbn [handle request hr_body] in Hserve.
  rewrite Hdec in Hserve. unfold handleAPISpawn in Hserve.
  destruct (spawn_lawful json_payload json_event m now spawnerType (toSpawnConfig config) sp Hm Hnow Hsp)
    as (res & Hres & Hspec).
  rewrite Hres in Hserve. destruct res as [e|[m1 rec]]; [done|]. cbn in Hserve.
  destruct Hspec as (Hval & Hreg & Hnick & _ & Hst & Href & inst & Hinst & _ & Hconf & _).
  pose proof (started_spawned m m1 _ rec inst Hm Hreg Href Hinst) as Hstart.
  assert (agent_view m1 rec = (rec, Some inst)) as Hview.
  { unfold agent_view. rewrite Href. cbn. by rewrite (st_instance _ _ _ _ _ Hstart). }
  rewrite Hview in Hserve. injection Hserve as <- <-.
  assert (rq_Nick config ≠ "") as Hne.
  { intros E. assert (sc_Nick (with_binary m spawnerType (toSpawnConfig config)) = "") as Hx.
    { unfold with_binary. by destruct (_ && _). }
    unfold sc_Validate in Hval. by rewrite (bool_decide_eq_true_2 _ Hx) in Hval. }
  exists rec, inst. split; [done|]. split; [exact Hne|]. split; [exact Hnick|]. split; [exact Hconf|].
  split; [rewrite Hconf; unfold with_binary; by destruct (_ && _)|].
  split; [unfold reg_Get; rewrite Hreg; apply lookup_insert_eq|]. intros m2 Hlater.
  destruct (started_listed _ _ _ _ _ Hne Href (started_steps _ _ _ _ _ _ _ _ _ Hlater Hstart))
    as (rec2 & Hsame & Hrec2 & Hget & Hlist).
  exists rec2. split; [exact Hsame|]. split; [exact Hrec2|]. split; [exact Hget|]. split; [exact Hlist|].
  intros Hsp2 now' conn'. destruct Hsame as (_ & _ & _ & Hty & _ & Href2 & _).
  rewrite Href in Href2. assert (manager_ok m2) as Hm2.
  { eapply later_steps_ok; [exact Hlater|]. eapply (manager_step_ok _ _ ParseFloat); [exact Hm|by eapply step_spawn]. }
  destruct (started_stopped _ _ _ m2 sp Hm2 Hne Hrec2 Href2) with (now := now') (conn := conn')
    as (m3 & rep & H1 & H2 & (i & Hi) & H4); [by rewrite Hty, Hst|].
  exists m3, rep. split; [exact H1|]. split; [exact H2|]. split; [by eexists _, i|exact H4].
Qed.
End server_theorems.

(** *** Polls *)

Lemma poll_ops_single now m nick health metrics :
  foldl poll_apply m (poll_ops now nick health metrics) = pollSingleAgent now m nick health metrics.
Proof. unfold pollSingleAgent, poll_ops. by destruct health as [[h|]|], metrics as [[ms|]|]. Qed.

Definition record_apply (rec : AgentRecord) (op : PollOp) : AgentRecord :=
  match op with
  | PollHealth now _ health =>
      let rec := rec <| ar_Health := Some health |> in
      let rec := rec <| ar_LastSeen := now |> in
      if hs_Healthy health then rec <| ar_Status := "online" |> else rec
  | PollMetrics _ metrics => rec <| ar_Metrics := Some metrics |>
  end.

Definition ops_of (nick : string) (ops : list PollOp) : list PollOp :=
  List.filter (λ op, bool_decide (poll_nick op = nick)) ops.

Lemma polls_fold m ops :
  ∃ r, foldl poll_apply m ops = m <| m_registry := r |> ∧
    ∀ nick, r !! nick = (λ rec, foldl record_apply rec (ops_of nick ops)) <$> m_registry m !! nick.
Proof.
  revert m. induction ops as [|op ops IH]; intros m; cbn [foldl].
  - exists (m_registry m). split; [by destruct m|]. intros nick. cbn. by destruct (m_registry m !! nick).
  - destruct (IH (poll_apply m op)) as (r & -> & Hr). exists r. split; [by destruct op|].
    intros nick. rewrite Hr. unfold ops_of. cbn [List.filter].
    assert (m_registry (poll_apply m op) !! nick =
      if bool_decide (poll_nick op = nick) then (λ rec, record_apply rec op) <$> m_registry m !! nick
      else m_registry m !! nick) as ->.
    { destruct op; cbn [poll_apply m_registry poll_nick]; unfold UpdateHealth, UpdateMetrics, update_record;
        rewrite lookup_alter; case_bool_decide; case_decide; try done; by subst. }
    case_bool_decide; [|done]. by rewrite <- option_fmap_compose.
Qed.

(** Polls do not race: however the goroutines that poll the agents' dashboards
    interleave, as long as each agent's own changes come in their order, the manager
    ends in the same state; a poll that runs alone is [pollSingleAgent]. *)
Theorem polls_interleave m ops1 ops2 :
  (∀ nick, ops_of nick ops1 = ops_of nick ops2) →
  foldl poll_apply m ops1 = foldl poll_apply m ops2 ∧
  ∀ now nick health metrics,
    foldl poll_apply m (poll_ops now nick health metrics) = pollSingleAgent now m nick health metrics.
Proof.
  intros H. split; [|intros; apply poll_ops_single].
  destruct (polls_fold m ops1) as (r1 & -> & H1), (polls_fold m ops2) as (r2 & -> & H2).
  assert (r1 = r2) as ->; [|done]. apply map_eq. intros nick. by rewrite H1, H2, H.
Qed.

(** *** Start and stop *)

(** The manager runs until its context is cancelled: it handles messages from the time
    it connects; when it returns, its server is closed, its polls are stopped and the
    connection is told to quit. A failure leaves it without polls, and a failure to
    listen leaves it connected. Shutting it down twice panics. *)
Theorem Run_spec connected listen cancelled client :
  ∃ p res, mgr_Run connected listen cancelled (new_Process client) = Some (p, res) ∧
  pr_client p = (OnMessage h_manager client).1 ∧
  match res with
  | RunFailed e => pr_pollStop p = None ∧ pr_listening p = false ∧
      (connected = None → ∃ err, e = WebServerFailed err ∧ listen = Some err)
  | RunBlocks => cancelled = false ∧ pr_listening p = true ∧ pr_pollStop p = Some false
  | RunReturns cmds => cancelled = true ∧ pr_listening p = false ∧ cmds = Disconnect ∧
      mgr_Shutdown p = None
  end.
Proof.
  unfold mgr_Run, mgr_Start, server_Start. destruct connected as [err|]; cbn.
  { eexists _, _. by split_and!. }
  destruct listen as [err|]; cbn; [eexists _, _; split_and!; naive_solver|].
  destruct cancelled; cbn; eexists _, _; by split_and!.
Qed.

(** *** Witnesses *)

Definition alice_request : spawnConfigRequest :=
  {| rq_Nick := "alice"; rq_Server := "irc:6697"; rq_Username := "alice"; rq_Password := "secret";
     rq_Channels := ["#dev"]; rq_Capabilities := ["go"]; rq_Roles := []; rq_DashboardAddr := "";
     rq_ExtraFlags := ∅; rq_BinaryPath := "/opt/agent"; rq_SSHHost := ""; rq_SSHUser := ""; rq_SSHKeyPath := "";
     rq_DockerImage := ""; rq_DockerNetwork := "" |}.

Definition decode_alice (body : string) : option (string * spawnConfigRequest) :=
  if bool_decide (body = "") then None else Some ("local", alice_request).

Definition plain_page (name : string) (data : PageData) : string * bool := (name, true).

Definition sample_serve : Manager → Request → option (Manager * Reply Body) :=
  serve no_json no_event decode_alice (λ _, true) plain_page 7%Z.

Definition spawn_request : Request := request "POST" ["api"; "agents"; "spawn"] "{alice}" 0.

Lemma requests_are_safe_witness :
  ∃ rep, sample_serve sample_manager (request "GET" ["no"; "such"; "page"] "" 0) = Some (sample_manager, rep).
Proof.
  destruct (requests_are_safe no_json no_event no_float decode_alice (λ _, true) plain_page
    (LocalSpawner busy_world) (SSHSpawner silent_ssh) (DockerSpawner silent_docker) default_ManagerConfig
    sample_manager 7 (request "GET" ["no"; "such"; "page"] "" 0) sample_reachable)
    as (m' & rep & H & _ & _ & Hsame); [discriminate|reflexivity|].
  exists rep. rewrite Hsame in H; [exact H|discriminate].
Defined.

(** A poll of alice's dashboard, and then alice announces what she can do. *)
Definition alice_polled (m : Manager) : Manager :=
  pollSingleAgent 9 m "alice" (Some None) (Some (Some (mc_Snapshot 9 NewMetricsCollector))).

Definition alice_announces (m : Manager) : option Manager :=
  handleIRCMessage no_json no_event no_float (λ _, 9%Z) (alice_polled m)
    (text_event "alice" ("#dev", "CAPABILITIES expertise=go,rust channels=#dev")).

Lemma spawned_is_listed_witness :
  ∃ m' m1 rec rec1 inst, alice_announces m' = Some m1 ∧
    sample_serve sample_manager spawn_request = Some (m', HttpBody 201 (BodyAgent (rec, Some inst))) ∧
    sample_serve m1 (request "GET" ["api"; "agents"; "alice"] "" 0)
      = Some (m1, HttpBody 200 (BodyAgent (rec1, Some inst))) ∧
    same_start rec rec1 ∧ sc_Password (in_Config inst) = "secret".
Proof.
  assert ((λ r, status r.2) <$> sample_serve sample_manager spawn_request = Some 201%Z) as Hst
    by (vm_compute; reflexivity).
  destruct (sample_serve sample_manager spawn_request) as [[m' [code|code b]]|] eqn:E; [|injection Hst as ->|discriminate].
  { exfalso. injection Hst as ->. clear -E.
    assert ((λ r, match r.2 with HttpError _ => true | _ => false end) <$>
      sample_serve sample_manager spawn_request = Some false) as H by (vm_compute; reflexivity).
    rewrite E in H. discriminate. }
  destruct (spawned_is_listed no_json no_event no_float decode_alice (λ _, true) plain_page
    (LocalSpawner busy_world) (SSHSpawner silent_ssh) (DockerSpawner silent_docker) default_ManagerConfig
    sample_manager 7 "{alice}" 0 m' b "local" alice_request (LocalSpawner busy_world) sample_reachable)
    as (rec & inst & -> & _ & _ & _ & Hp & _ & Hlater);
    [discriminate|reflexivity|reflexivity|exact E|].
  destruct (alice_announces m') as [m1|] eqn:E1; cycle 1.
  { exfalso. assert (match sample_serve sample_manager spawn_request ≫= λ r, alice_announces r.1 with
      Some _ => true | None => false end = true) as H by (vm_compute; reflexivity).
    rewrite E in H. cbn in H. by rewrite E1 in H. }
  destruct (Hlater m1) as (rec1 & Hsame & _ & Hget & _).
  { eapply rtc_l; [apply later_poll|]. eapply rtc_once, later_message. exact E1. }
  exists m', m1, rec, rec1, inst. split; [exact E1|]. split; [reflexivity|]. split; [apply (Hget 7%Z 0)|]. by split.
Defined.

Definition two_polls : list PollOp :=
  [PollMetrics "alice" (mc_Snapshot 5 NewMetricsCollector); PollMetrics "bob" (mc_Snapshot 6 NewMetricsCollector)].

Lemma polls_interleave_witness :
  foldl poll_apply sample_manager two_polls = foldl poll_apply sample_manager (reverse two_polls).
Proof.
  destruct (polls_interleave sample_manager two_polls (reverse two_polls)) as [H _]; [|exact H].
  intros nick. unfold ops_of, two_polls. cbn. repeat case_bool_decide; congruence || reflexivity.
Defined.
