(* ===== verification/Dashboard.v ===== *)
(** * The dashboard: [internal/agent/dashboard.go]

    An agent's HTTP server shows its stores as JSON. A dashboard holds the stores
    as they are when a request comes in; a handler gives the value that is encoded.
    Where the code replaces a nil slice by an empty one, both are the empty list
    here. The routing is that of [GoMux]; the encoder and the text of the page with
    its script are not modelled. *)

From S2P Require Import Prelude GoStrings GoMux GoNum GoFloat Config Message State Dependencies TaskBoard.
From S2P Require Import Handoff Review Consensus Discovery Context Inspector Metrics Health Events.
From S2P Require Import IrcClient Dispatcher Agent Conversations Spawner Instances Cost ManagerConfig Hub.
From S2P Require Import Registry Convergence AgentTheory Manager ManagerTheory.

Arguments HttpError {A} code.
Arguments HttpBody {A} code body.

Record Dashboard := {
  da_addr : string;
  da_health : HealthMonitor;
  da_metrics : MetricsCollector;
  da_inspector : DebugInspector;
  da_state : StateStore;
  da_context : ContextStore;
  da_discovery : option DiscoveryStore;
  da_taskBoard : option TaskBoard;
  da_handoff : option HandoffStore;
  da_review : option ReviewStore;
  da_consensus : option ConsensusStore
}.

Definition NewDashboard (addr : string) (health : HealthMonitor) (metrics : MetricsCollector)
    (inspector : DebugInspector) (state : StateStore) (context : ContextStore)
    (discovery : option DiscoveryStore) (taskBoard : option TaskBoard)
    (handoff : option HandoffStore) (review : option ReviewStore)
    (consensus : option ConsensusStore) : Dashboard :=
  {| da_addr := addr; da_health := health; da_metrics := metrics; da_inspector := inspector;
     da_state := state; da_context := context; da_discovery := discovery;
     da_taskBoard := taskBoard; da_handoff := handoff; da_review := review;
     da_consensus := consensus |}.

(** The dashboard that [Agent.Start] makes. *)
Definition agent_dashboard (addr : string) (health : HealthMonitor) (ag : Agent) : Dashboard :=
  let pd := ag_protocol ag in
  NewDashboard addr health (ag_metrics ag) (ag_inspector ag) (pd_state pd) (pd_context pd)
    (pd_discovery pd) (pd_taskBoard pd) (pd_handoff pd) (pd_review pd) (pd_consensus pd).

Section handlers.
Context `{MR : MapRange} `{FO : FloatOverflow}.

(** [client] is what the agent's client reports of itself. *)
Definition handleHealth (now : Time) (client : ClientView) (d : Dashboard) : HealthStatus :=
  hm_Check now client (da_state d) (da_health d).

Definition handleMetrics (now : Time) (d : Dashboard) : MetricsSnapshot :=
  mc_Snapshot now (da_metrics d).

Definition handleTasks (d : Dashboard) : list TaskInfo := ListTasks (da_state d).

Definition handleDependencies (d : Dashboard) : list TaskGraphNode := TaskGraph (da_state d).

Definition handleAgents (d : Dashboard) : list AgentActivitySummary := AgentActivity (da_state d).

Definition handleContext (d : Dashboard) : list ContextEntry := ListEntries (da_context d).

(** [None] is a panic of the message log. *)
Definition handleMessages (d : Dashboard) : option (list MessageLogEntry) :=
  RecentMessages (da_inspector d) 100.

Definition handleDiscovery (now : Time) (d : Dashboard) : list AgentCapability :=
  match da_discovery d with None => [] | Some ds => ListActive now ds end.

Definition handleTaskBoard (d : Dashboard) : list OfferInfo :=
  match da_taskBoard d with None => [] | Some tb => ListOffers tb end.

Definition handleHandoffs (d : Dashboard) : list HandoffRecord :=
  match da_handoff d with None => [] | Some hs => ListHandoffs hs end.

Definition handleReviews (d : Dashboard) : list ReviewRecord :=
  match da_review d with None => [] | Some rs => ListReviews rs end.

Definition handleConsensus (d : Dashboard) : list TopicSummary :=
  match da_consensus d with None => [] | Some cs => ListTopics cs end.

(** ** The server *)

Inductive Page :=
| PageHealth | PageMetrics | PageTasks | PageDependencies | PageAgents | PageContext | PageMessages
| PageDiscovery | PageTaskBoard | PageHandoffs | PageReviews | PageConsensus | PageIndex.

Definition dashboard_routes : list (Route Page) :=
  [ HandleFunc "GET /health" PageHealth;
    HandleFunc "GET /metrics" PageMetrics;
    HandleFunc "GET /tasks" PageTasks;
    HandleFunc "GET /dependencies" PageDependencies;
    HandleFunc "GET /agents" PageAgents;
    HandleFunc "GET /context" PageContext;
    HandleFunc "GET /messages" PageMessages;
    HandleFunc "GET /discovery" PageDiscovery;
    HandleFunc "GET /taskboard" PageTaskBoard;
    HandleFunc "GET /handoffs" PageHandoffs;
    HandleFunc "GET /reviews" PageReviews;
    HandleFunc "GET /consensus" PageConsensus;
    HandleFunc "GET /" PageIndex ].

(** The value that [writeJSON] encodes, or the constant [dashboardHTML]. *)
Inductive Shown :=
| ShownHealth (health : HealthStatus)
| ShownMetrics (metrics : MetricsSnapshot)
| ShownTasks (tasks : list TaskInfo)
| ShownDependencies (graph : list TaskGraphNode)
| ShownAgents (activity : list AgentActivitySummary)
| ShownContext (entries : list ContextEntry)
| ShownMessages (messages : list MessageLogEntry)
| ShownDiscovery (agents : list AgentCapability)
| ShownTaskBoard (offers : list OfferInfo)
| ShownHandoffs (handoffs : list HandoffRecord)
| ShownReviews (reviews : list ReviewRecord)
| ShownConsensus (topics : list TopicSummary)
| ShownIndex.

Definition content_type (shown : Shown) : string :=
  match shown with ShownIndex => "text/html; charset=utf-8" | _ => "application/json" end.

(** [None] is a panic. *)
Definition show (now : Time) (client : ClientView) (d : Dashboard) (page : Page) : option Shown :=
  match page with
  | PageHealth => Some (ShownHealth (handleHealth now client d))
  | PageMetrics => Some (ShownMetrics (handleMetrics now d))
  | PageTasks => Some (ShownTasks (handleTasks d))
  | PageDependencies => Some (ShownDependencies (handleDependencies d))
  | PageAgents => Some (ShownAgents (handleAgents d))
  | PageContext => Some (ShownContext (handleContext d))
  | PageMessages => ShownMessages <$> handleMessages d
  | PageDiscovery => Some (ShownDiscovery (handleDiscovery now d))
  | PageTaskBoard => Some (ShownTaskBoard (handleTaskBoard d))
  | PageHandoffs => Some (ShownHandoffs (handleHandoffs d))
  | PageReviews => Some (ShownReviews (handleReviews d))
  | PageConsensus => Some (ShownConsensus (handleConsensus d))
  | PageIndex => Some ShownIndex
  end.

Definition dashboard_serve (now : Time) (client : ClientView) (d : Dashboard) (method : string)
    (path : list string) : option (Reply Shown) :=
  match mux dashboard_routes method path with
  | Handled page _ => HttpBody 200 <$> show now client d page
  | MethodNotAllowed => Some (HttpError 405)
  | NotFound => Some (HttpError 404)
  end.
End handlers.

(** Whether there is a server and whether it listens, and where. *)
Record Listener := {
  li_server : bool;
  li_listening : bool;
  ListenAddr : string
}.

Definition no_listener : Listener := {| li_server := false; li_listening := false; ListenAddr := "" |}.

(** [listen] is the outcome of [net.Listen]: an error or the address. *)
Definition dashboard_Start (listen : string + string) (l : Listener) : Listener * option string :=
  match listen with
  | inl err => ({| li_server := true; li_listening := li_listening l; ListenAddr := ListenAddr l |}, Some err)
  | inr addr => ({| li_server := true; li_listening := true; ListenAddr := addr |}, None)
  end.

(** [closed] is the error of the server's [Shutdown], which stops listening first. *)
Definition dashboard_Shutdown (closed : option string) (l : Listener) : Listener * option string :=
  if li_server l
  then ({| li_server := true; li_listening := false; ListenAddr := ListenAddr l |}, closed)
  else (l, None).

(** ** Theorems *)

Section theorems.
Context `{MR : MapRange} `{FO : FloatOverflow}.

(** The dashboard shows what the agent has: the pages of tasks, offers, handoffs,
    reviews and contexts list exactly the entries of the stores, the page of agents
    those that have not expired, and the page of dependencies, for every known task,
    exactly the edges of the graph that start and that end at it, resolved or not. *)
Theorem dashboard_complete addr health ag now :
  let d := agent_dashboard addr health ag in
  let pd := ag_protocol ag in
  (∀ i, i ∈ handleTasks d ↔ ∃ name, tasks (pd_state pd) !! name = Some i) ∧
  (∀ tb, pd_taskBoard pd = Some tb →
     ∀ o, o ∈ handleTaskBoard d ↔ ∃ task, offers tb !! task = Some o) ∧
  (∀ hs, pd_handoff pd = Some hs →
     ∀ h, h ∈ handleHandoffs d ↔ ∃ task, handoffs hs !! task = Some h) ∧
  (∀ rs, pd_review pd = Some rs →
     ∀ r, r ∈ handleReviews d ↔ ∃ task l, reviews rs !! task = Some l ∧ r ∈ l) ∧
  (∀ e, e ∈ handleContext d ↔ ∃ component, entries (pd_context pd) !! component = Some e) ∧
  (∀ ds, pd_discovery pd = Some ds →
     ∀ cap, cap ∈ handleDiscovery now d ↔ ∃ nick, ds_Get now ds nick = Some cap) ∧
  (∀ node e, node ∈ handleDependencies d →
     (e ∈ tg_BlockedBy node ↔ e ∈ dependencies (pd_state pd) ∧ Blocked e = Name (tg_Task node)) ∧
     (e ∈ tg_Blocking node ↔ e ∈ dependencies (pd_state pd) ∧ BlockedBy e = Name (tg_Task node))) ∧
  (tg_Task <$> handleDependencies d = handleTasks d).
Proof.
  cbn zeta. unfold handleTaskBoard, handleHandoffs, handleReviews, handleDiscovery.
  cbn [agent_dashboard NewDashboard da_taskBoard da_handoff da_review da_discovery].
  split_and!.
  - intros i. apply elem_of_range_values.
  - intros tb -> o. apply elem_of_range_values.
  - intros hs -> h. apply elem_of_range_values.
  - intros rs -> r. unfold ListReviews. rewrite list_elem_of_In, in_concat.
    setoid_rewrite <- list_elem_of_In. setoid_rewrite elem_of_range_values. naive_solver.
  - intros e. apply elem_of_range_values.
  - intros ds -> cap. apply elem_of_ListActive.
  - intros node e (task & -> & _)%list_elem_of_fmap.
    cbn [tg_BlockedBy tg_Blocking tg_Task]. unfold BlockersOf, BlockedBy_edges.
    rewrite !elem_of_filter_bool. cbn [orb]. rewrite !andb_true_r, !bool_decide_eq_true. tauto.
  - unfold handleDependencies, TaskGraph, handleTasks. cbn.
    rewrite <- list_fmap_compose. apply list_fmap_id.
Qed.

(** The page of each name; any other path has the index. *)
Definition page_of (path : list string) : Page :=
  match path with
  | [name] =>
      if String.eqb name "health" then PageHealth
      else if String.eqb name "metrics" then PageMetrics
      else if String.eqb name "tasks" then PageTasks
      else if String.eqb name "dependencies" then PageDependencies
      else if String.eqb name "agents" then PageAgents
      else if String.eqb name "context" then PageContext
      else if String.eqb name "messages" then PageMessages
      else if String.eqb name "discovery" then PageDiscovery
      else if String.eqb name "taskboard" then PageTaskBoard
      else if String.eqb name "handoffs" then PageHandoffs
      else if String.eqb name "reviews" then PageReviews
      else if String.eqb name "consensus" then PageConsensus
      else PageIndex
  | _ => PageIndex
  end.

Definition dashboard_reads : list (Route Page) := Eval vm_compute in dashboard_routes.

Lemma page_best path :
  path ≠ [] →
  outcome (foldr pick None (flat_map (λ r, route_match r path) dashboard_reads)) = Handled (page_of path) [].
Proof.
  intros Hp. destruct path as [|a [|b rest]]; [done| |]; unfold dashboard_reads, route_match, page_of;
    cbn -[foldr]; decide_segments.
Qed.

Lemma dashboard_mux method path :
  path ≠ [] →
  mux dashboard_routes method path =
    if String.eqb method "GET" || String.eqb method "HEAD" then Handled (page_of path) [] else MethodNotAllowed.
Proof.
  intros Hp. rewrite mux_outcome; [|reflexivity|done]. unfold best_route. rewrite !matching_filter.
  change (List.filter (λ r, String.eqb (rt_method r) "GET") dashboard_routes) with dashboard_reads.
  destruct (String.eqb_spec method "GET") as [->|Hg].
  { change (List.filter (λ r, String.eqb (rt_method r) "GET") dashboard_routes) with dashboard_reads.
    cbn [String.eqb Ascii.eqb Bool.eqb orb]. rewrite <- page_best by done. by destruct (foldr _ _ _). }
  rewrite (other_methods ["GET"] dashboard_routes method) by (done || set_solver). cbn [flat_map foldr orb].
  destruct (String.eqb method "HEAD"); [by apply page_best|reflexivity].
Qed.

(** C38. The dashboard of an agent that runs answers every request: a request to read gets
    the page of its path, unknown paths that of the index, and any other method is
    refused. Requests change nothing. *)
Theorem dashboard_answers addr health ag now client method path :
  running ag → path ≠ [] →
  let d := agent_dashboard addr health ag in
  ∃ shown, show now client d (page_of path) = Some shown ∧
  (content_type shown = "application/json" ↔ page_of path ≠ PageIndex) ∧
  dashboard_serve now client d method path =
    Some (if String.eqb method "GET" || String.eqb method "HEAD" then HttpBody 200 shown else HttpError 405).
Proof.
  intros [[h Hlog] _] Hp d.
  assert (∃ shown, show now client d (page_of path) = Some shown ∧
    (content_type shown = "application/json" ↔ page_of path ≠ PageIndex)) as (shown & Hs & Hc).
  { destruct (page_of path) eqn:E; cbn [show]; try (eexists; split; [reflexivity|]; by cbn); cycle 1.
    unfold handleMessages. cbn [d agent_dashboard NewDashboard da_inspector].
    rewrite (RecentMessages_ring _ _ 100 Hlog). eexists; split; [reflexivity|]. by cbn. }
  exists shown. split; [exact Hs|]. split; [exact Hc|]. unfold dashboard_serve.
  rewrite dashboard_mux by done. destruct (_ || _); [by rewrite Hs|done].
Qed.

(** ** The manager's polls *)

Section polling.
Context (encode_health : HealthStatus → string) (decode_health : string → option HealthStatus).
Context (encode_metrics : MetricsSnapshot → string) (decode_metrics : string → option MetricsSnapshot).
Context (json_payload : Payload → option string) (json_event : string → string → option string).
Context (ParseFloat : string → float64).

(** What the manager gets from a page of a dashboard: [None] when the connection
    breaks, [Some None] when the body is not of the kind. *)
Definition polled {A} (kind : Shown → option A) (answer : option (Reply Shown)) : option (option A) :=
  match answer with
  | None => None
  | Some (HttpBody _ shown) => Some (kind shown)
  | Some (HttpError _) => Some None
  end.

Definition a_health (shown : Shown) : option HealthStatus :=
  match shown with ShownHealth h => decode_health (encode_health h) | _ => None end.

Definition a_metrics (shown : Shown) : option MetricsSnapshot :=
  match shown with ShownMetrics ms => decode_metrics (encode_metrics ms) | _ => None end.

(** One poll of a dashboard that listens. *)
Definition poll_dashboard (clk : nat → Time) (client : ClientView) (d : Dashboard) (m : Manager)
    (nick : string) : Manager :=
  pollSingleAgent (clk 0) m nick
    (polled a_health (dashboard_serve (clk 1) client d "GET" ["health"]))
    (polled a_metrics (dashboard_serve (clk 2) client d "GET" ["metrics"])).

Lemma poll_dashboard_pages clk client d m nick :
  poll_dashboard clk client d m nick =
  pollSingleAgent (clk 0) m nick
    (Some (decode_health (encode_health (handleHealth (clk 1) client d))))
    (Some (decode_metrics (encode_metrics (handleMetrics (clk 2) d)))).
Proof. unfold poll_dashboard, dashboard_serve. by rewrite !dashboard_mux. Qed.

(** C21. What an agent reports of itself is what the manager shows, where JSON gives
    back the two values that were encoded: an agent with a dashboard is polled, and after a poll its record holds the agent's own report and
    its counters; a healthy agent is online. Nothing else of the record changes, and
    no record of another agent. *)
Theorem polled_agent_is_known localSp sshSp dockerSp cfg clk client d m nick rec :
  rtc (manager_step json_payload json_event ParseFloat)
    (NewWithClient localSp sshSp dockerSp cfg) m →
  reg_Get nick (m_registry m) = Some rec → ar_DashboardURL rec ≠ "" →
  decode_health (encode_health (handleHealth (clk 1) client d)) = Some (handleHealth (clk 1) client d) →
  decode_metrics (encode_metrics (handleMetrics (clk 2) d)) = Some (handleMetrics (clk 2) d) →
  let m' := poll_dashboard clk client d m nick in
  let report := hm_Check (clk 1) client (da_state d) (da_health d) in
  (nick, ar_DashboardURL rec) ∈ pollAgentDashboards m ∧
  handleAPIAgentDetail m' nick = HttpBody 200
    {| ar_Nick := nick; ar_Host := ar_Host rec;
       ar_Status := if cv_Healthy client then "online" else ar_Status rec;
       ar_SpawnerType := ar_SpawnerType rec; ar_DashboardURL := ar_DashboardURL rec;
       ar_CurrentTask := ar_CurrentTask rec; ar_Source := ar_Source rec;
       ar_Instance := ar_Instance rec; ar_Channels := ar_Channels rec;
       ar_Capabilities := ar_Capabilities rec;
       ar_Metrics := Some {| ms_counters := da_metrics d; ms_CollectedAt := clk 2 |};
       ar_Health := Some report; ar_CostSummary := ar_CostSummary rec; ar_LastSeen := clk 0;
       ar_RegisteredAt := ar_RegisteredAt rec |} ∧
  (∀ other, other ≠ nick → reg_Get other (m_registry m') = reg_Get other (m_registry m)).
Proof.
  intros Hok%reachable_ok Hrec Hurl health_roundtrip metrics_roundtrip. cbn zeta. unfold reg_Get in *. split_and!.
  - unfold pollAgentDashboards. apply list_elem_of_fmap. exists rec.
    split; [by rewrite (ok_filed _ Hok _ _ Hrec)|].
    apply elem_of_filter_bool. rewrite negb_true_iff, bool_decide_eq_false. split; [|done].
    unfold reg_List. apply elem_of_range_values. by exists nick.
  - unfold handleAPIAgentDetail. rewrite poll_dashboard_pages. unfold pollSingleAgent.
    rewrite health_roundtrip, metrics_roundtrip. unfold reg_Get, UpdateMetrics, UpdateHealth, update_record.
    cbn [m_registry]. rewrite !lookup_alter_eq, Hrec. cbn [fmap option_fmap option_map].
    rewrite <- (ok_filed _ Hok _ _ Hrec).
    assert (hs_Healthy (handleHealth (clk 1) client d) = cv_Healthy client) as -> by reflexivity.
    destruct (cv_Healthy client); reflexivity.
  - intros other Hne. rewrite poll_dashboard_pages. unfold pollSingleAgent.
    rewrite health_roundtrip, metrics_roundtrip. unfold UpdateMetrics, UpdateHealth, update_record.
    cbn [m_registry]. by rewrite !lookup_alter_ne.
Qed.
End polling.

(** An agent is never marked as gone: neither a poll that fails nor a report that is
    not healthy changes its status. *)
Theorem dead_agent_stays_online now m nick health metrics rec :
  reg_Get nick (m_registry m) = Some rec →
  (∀ h, health = Some (Some h) → hs_Healthy h = false) →
  ∃ rec', reg_Get nick (m_registry (pollSingleAgent now m nick health metrics)) = Some rec' ∧
    ar_Status rec' = ar_Status rec.
Proof.
  intros Hrec Hh. unfold reg_Get, pollSingleAgent in *. destruct health as [health|]; [|by exists rec].
  destruct metrics as [[ms|]|], health as [h|]; try rewrite Hh by done;
    unfold UpdateMetrics, UpdateHealth, update_record; cbn [m_registry];
    rewrite ?(Hh h eq_refl), ?lookup_alter_eq, Hrec; by eexists.
Qed.
End theorems.

(** ** A concrete poll *)

(** Codecs that keep everything: a value is numbered, and the number written in bits. *)
Fixpoint bits (p : positive) : string :=
  match p with
  | xH => ""
  | xO p => String "0" (bits p)
  | xI p => String "1" (bits p)
  end.

Fixpoint of_bits (s : string) : positive :=
  match s with
  | "" => 1
  | String c s => if bool_decide (c = "1"%char) then (of_bits s)~1 else (of_bits s)~0
  end%positive.

Lemma of_bits_bits p : of_bits (bits p) = p.
Proof. induction p as [p IH|p IH|]; cbn; by rewrite ?IH. Qed.

Definition encode_any `{Countable A} (x : A) : string := bits (encode x).
Definition decode_any `{Countable A} (s : string) : option A := decode (of_bits s).

Lemma decode_encode_any `{Countable A} (x : A) : decode_any (encode_any x) = Some x.
Proof. unfold decode_any, encode_any. by rewrite of_bits_bits, decode_encode. Qed.

Definition counters_list (mc : MetricsCollector) : list Z :=
  [messagesReceived mc; messagesSent mc; protocolMessagesIn mc; protocolMessagesOut mc;
   tasksStarted mc; tasksCompleted mc; tasksBlocked mc; dependenciesResolved mc;
   contextRequests mc; contextShared mc; notificationsSent mc; helpRequested mc;
   tasksOffered mc; tasksClaimed mc; tasksAssigned mc; tasksDeclined mc; tasksYielded mc;
   checkpoints_count mc; handoffs_count mc; reviewsRequested mc; reviewsCompleted mc;
   gatesPassed mc; gatesFailed mc; votesRecorded mc; escalationsRaised mc].

Definition list_counters (l : list Z) : option MetricsCollector :=
  match l with
  | [a; b; c; d; e; f; g; h; i; j; k; l; m; n; o; p; q; r; s; t; u; v; w; x; y] =>
      Some (Build_MetricsCollector a b c d e f g h i j k l m n o p q r s t u v w x y)
  | _ => None
  end.

#[export] Instance MetricsCollector_eq_dec : EqDecision MetricsCollector.
Proof. solve_decision. Defined.
#[export] Instance MetricsSnapshot_eq_dec : EqDecision MetricsSnapshot.
Proof. solve_decision. Defined.
#[export] Instance TaskStatsInfo_eq_dec : EqDecision TaskStatsInfo.
Proof. solve_decision. Defined.
#[export] Instance DependencyStatsInfo_eq_dec : EqDecision DependencyStatsInfo.
Proof. solve_decision. Defined.
#[export] Instance HealthStatus_eq_dec : EqDecision HealthStatus.
Proof. solve_decision. Defined.

#[export] Instance MetricsSnapshot_countable : Countable MetricsSnapshot.
Proof.
  refine (inj_countable (λ ms, (counters_list (ms_counters ms), ms_CollectedAt ms))
    (λ p, (λ mc, {| ms_counters := mc; ms_CollectedAt := p.2 |}) <$> list_counters p.1) _).
  by intros [[]].
Defined.

#[export] Instance HealthStatus_countable : Countable HealthStatus.
Proof.
  refine (inj_countable' (λ h : HealthStatus,
    (hs_Connected h, hs_Healthy h, hs_Nick h, hs_Channels h, hs_Uptime h, hs_UptimeHuman h,
     hs_StartedAt h,
     (ts_Total (hs_TaskStats h), ts_Started (hs_TaskStats h), ts_Completed (hs_TaskStats h),
      ts_Blocked (hs_TaskStats h)),
     (TotalEdges (hs_DependencyStats h), ResolvedEdges (hs_DependencyStats h),
      UnresolvedEdges (hs_DependencyStats h), BlockedTasks (hs_DependencyStats h),
      UnblockedTasks_count (hs_DependencyStats h))))
    (λ '(c, ok, nick, chs, up, human, at_, (t, s, co, b), (te, re, ue, bt, ut)),
      Build_HealthStatus c ok nick chs up human at_ (Build_TaskStatsInfo t s co b)
        (Build_DependencyStatsInfo te re ue bt ut)) _).
  by intros [? ? ? ? ? ? ? [] []].
Defined.

(** Alice is spawned with a dashboard; one second later it is asked. *)
Definition alice_dashboard : Dashboard :=
  agent_dashboard ":8080" (NewHealthMonitor 9) checkpoint_agent.

Definition alice_client : ClientView :=
  {| cv_Connected := true; cv_Healthy := true; cv_Nick := "alice"; cv_JoinedChannels := ["#dev"] |}.

Definition spawned_manager : Manager :=
  match SpawnAgent no_json no_event 7 sample_manager "local" ssh_sample with
  | Some (inr (m, _)) => m
  | _ => sample_manager
  end.

Lemma spawned_reachable :
  rtc (manager_step no_json no_event no_float) sample_manager spawned_manager.
Proof.
  destruct (local_Spawn busy_world ssh_sample) as [e|inst] eqn:E; [by vm_compute in E|].
  destruct (SpawnAgent_run no_json no_event 7 sample_manager "local" ssh_sample
    (LocalSpawner busy_world) inst (NewWithClient_ok _ _ _ _) eq_refl eq_refl E) as (h & Hs & _).
  unfold spawned_manager. rewrite Hs. eapply rtc_once, step_spawn. exact Hs.
Qed.

Lemma polled_agent_is_known_witness :
  let m' := poll_dashboard encode_any decode_any encode_any decode_any
      (λ _, 9 + second)%Z alice_client alice_dashboard spawned_manager "alice" in
  match handleAPIAgentDetail m' "alice" with
  | HttpBody 200 rec =>
      ar_Status rec = "online" ∧ hs_Channels <$> ar_Health rec = Some ["#dev"]
  | _ => False
  end.
Proof.
  intros m'.
  assert (ar_DashboardURL <$> reg_Get "alice" (m_registry spawned_manager) = Some "http://localhost:8080")
    as Hu by (vm_compute; reflexivity).
  destruct (reg_Get "alice" (m_registry spawned_manager)) as [rec|] eqn:E; [|discriminate Hu].
  destruct (polled_agent_is_known encode_any decode_any encode_any decode_any no_json no_event
    no_float (LocalSpawner busy_world) (SSHSpawner silent_ssh) (DockerSpawner silent_docker)
    default_ManagerConfig (λ _, 9 + second)%Z alice_client alice_dashboard spawned_manager "alice"
    rec) as (_ & Hd & _).
  - apply spawned_reachable.
  - exact E.
  - injection Hu as ->. discriminate.
  - apply decode_encode_any.
  - apply decode_encode_any.
  - unfold m'. rewrite Hd. split; reflexivity.
Defined.

Lemma dashboard_answers_witness :
  content_type <$> show 9 alice_client alice_dashboard PageMessages = Some "application/json" ∧
  ∃ shown, dashboard_serve 9 alice_client alice_dashboard "GET" ["messages"] = Some (HttpBody 200 shown).
Proof.
  destruct (dashboard_answers ":8080" (NewHealthMonitor 9) checkpoint_agent 9 alice_client "GET" ["messages"]
    (initProtocol_running Convergence.sample_config "a" NewStateStore)) as (shown & H1 & H2 & H3); [discriminate|].
  unfold alice_dashboard. change (page_of ["messages"]) with PageMessages in *. split.
  - rewrite H1. cbn. f_equal. by apply H2.
  - by exists shown.
Defined.
