(* ===== verification/Provision.v ===== *)
(** * Provisioning accounts: [cmd/provision/main.go]

    The command [assimilate] logs in as an administrator, gains operator rights and
    gives NickServ one command. A run is a function of what surrounds it (the
    environment, the connection library, the clock and the messages that arrive) to
    what it printed, what it sent and how it ended. *)

From S2P Require Import Prelude GoStrings GoNum GoFloat GoPath GoFlag Config Pacing Events IrcClient.

Record provisionConfig := {
  pc_Server : string;
  pc_Username : string;
  pc_Password : string;
  pc_OperName : string;
  pc_OperPass : string;
  pc_TLSInsecure : bool
}.

(** [os.Getenv] gives "" for a variable that is not set. *)
Definition envOrDefault (getenv : string → string) (key def : string) : string :=
  if bool_decide (getenv key = "") then def else getenv key.

(** ** [strings.EqualFold] against an ASCII text

    A letter folds to its other case; two letters of ASCII also fold to a rune
    outside it: k to the Kelvin sign and s to the long s. *)
Definition fold_rune (r : Z) (c : ascii) : bool :=
  let b := Z.of_nat (nat_of_ascii c) in
  (r =? b)%Z ||
  (in_range 65 90 b && (r =? b + 32)%Z) || (in_range 97 122 b && (r =? b - 32)%Z) ||
  ((r =? 8490)%Z && ((b =? 75)%Z || (b =? 107)%Z)) ||
  ((r =? 383)%Z && ((b =? 83)%Z || (b =? 115)%Z)).

Fixpoint EqualFold_ascii (s t : string) : bool :=
  match t with
  | "" => bool_decide (s = "")
  | String c t =>
      let '(r, n) := DecodeRune s in
      negb (bool_decide (s = "")) && fold_rune r c && EqualFold_ascii (drop_str n s) t
  end.

(** ** The connection *)

(** How [Client.Connect] ends: the connection is refused, the server welcomes the
    client, or the context is done first. *)
Inductive ConnectOutcome :=
| DialError (err : string)
| Welcomed
| ContextDone (err : string).

Definition Connect (server : string) (o : ConnectOutcome) : option string * list Command :=
  match o with
  | DialError err => (Some ("connect to " +:+ server +:+ ": " +:+ err), [])
  | Welcomed => (None, [])
  | ContextDone err => (Some err, [CmdQuit])
  end.

Inductive ProvisionError :=
| NickRequired (command : string)
| AccountPasswordRequired
| CreateIRCClient (e : ClientError)
| ConnectTo (server err : string).

(** The handler of [newProvisioner] is the first one of the client. *)
Definition h_nickserv : Handler := 0.

(** Which messages [p.replies] gets, and what. *)
Definition nickserv_reply (ev : MessageEvent) : option string :=
  if EqualFold_ascii (ev_Nick ev) "NickServ" then Some (ev_Message ev) else None.

(** What surrounds a run. [pw_operTimes] and [pw_commandTimes] are the times at which
    the rate limiter is asked for a token for the two messages; [pw_events] are the
    messages that the client gets once it is connected, with their times;
    [pw_asked] is when the reply is first waited for, and [pw_tie] says which one of
    a message and the timer is taken when both are there. *)
Record World := {
  pw_getenv : string → string;
  pw_IRC : string → string → option Connection;
  pw_now : Time;
  pw_connect : ConnectOutcome;
  pw_operTimes : list Time;
  pw_commandTimes : list Time;
  pw_asked : Time;
  pw_events : list (Time * MessageEvent);
  pw_tie : Time → bool
}.

Definition provision_IRC (cfg : provisionConfig) : IRCConfig :=
  {| irc_Server := pc_Server cfg; irc_Nick := pc_Username cfg; irc_Username := pc_Username cfg;
     irc_Password := pc_Password cfg; irc_RealName := irc_RealName DefaultConfig;
     irc_TLS := irc_TLS DefaultConfig; irc_TLSInsecureSkipVerify := pc_TLSInsecure cfg;
     irc_SASL := irc_SASL DefaultConfig; irc_SASLMech := irc_SASLMech DefaultConfig;
     irc_Channels := []; irc_AutoRejoinOnKick := irc_AutoRejoinOnKick DefaultConfig;
     irc_Reconnect := false; irc_MaxReconnectAttempts := irc_MaxReconnectAttempts DefaultConfig;
     irc_PingFrequency := irc_PingFrequency DefaultConfig; irc_Timeout := irc_Timeout DefaultConfig;
     irc_QuitMessage := irc_QuitMessage DefaultConfig; irc_Debug := irc_Debug DefaultConfig;
     irc_RateLimit := irc_RateLimit DefaultConfig;
     irc_RateLimitBurst := irc_RateLimitBurst DefaultConfig;
     irc_ReconnectBackoff := irc_ReconnectBackoff DefaultConfig;
     irc_MaxReconnectBackoff := irc_MaxReconnectBackoff DefaultConfig |}.

Definition newProvisioner (w : World) (cfg : provisionConfig) : ProvisionError + ircClient :=
  match NewClient (pw_IRC w) (pw_now w) (provision_IRC cfg) with
  | inl e => inl (CreateIRCClient e)
  | inr client => inr (OnMessage h_nickserv client).1
  end.

Definition oper_line (cfg : provisionConfig) : string :=
  "OPER " +:+ pc_OperName cfg +:+ " :" +:+ pc_OperPass cfg.

(** ** Waiting for the reply *)

(** The loop of [collectReplies] from the time [now], with the messages to come: it
    takes a message and starts the timer again, or the timer fires. What was there
    before is taken at once. The lines, and the messages that are left. *)
Fixpoint collectReplies (tie : Time → bool) (idle : Duration) (now : Time)
    (arrivals : list (Time * string)) : list string * list (Time * string) :=
  match arrivals with
  | [] => ([], [])
  | (t, msg) :: rest =>
      let ready := Z.max now t in
      if (ready <? now + idle)%Z || ((ready =? now + idle)%Z && tie ready)
      then let '(lines, left_over) := collectReplies tie idle ready rest in
           (msg :: lines, left_over)
      else ([], arrivals)
  end.

Definition nickserv_arrivals (events : list (Time * MessageEvent)) : list (Time * string) :=
  omap (λ e, pair e.1 <$> nickserv_reply e.2) events.

Definition no_response : string :=
  "No response from NickServ (command may have succeeded — verify with 'info')".

Section runs.
Context `{FO : FloatOverflow}.

(** [None] while the rate limiter has no token. *)
Definition connectAndOper (w : World) (cfg : provisionConfig)
    : option ((ProvisionError * list Command) + (ircClient * list Command)) :=
  match newProvisioner w cfg with
  | inl e => Some (inl (e, []))
  | inr client =>
      match Connect (pc_Server cfg) (pw_connect w) with
      | (Some err, cmds) => Some (inl (ConnectTo (pc_Server cfg) err, cmds))
      | (None, cmds) =>
          '(client, sent) ← SendRaw (pw_operTimes w) (oper_line cfg) client;
          Some (inr (client, cmds ++ sent))
      end
  end.

(** What is sent and what is printed. *)
Definition execNickServ (w : World) (client : ircClient) (command : string)
    : option (list Command * list string) :=
  '(_, sent) ← SendMessage (pw_commandTimes w) "NickServ" command client;
  let replies := (collectReplies (pw_tie w) (2 * second) (pw_asked w)
                    (nickserv_arrivals (pw_events w))).1 in
  Some (sent, match replies with [] => [no_response] | _ => replies end).

(** How a command ends: the flag package ends the program, an error is returned,
    or it is done; with what was sent and printed. *)
Inductive RunResult :=
| RunFlags (e : FlagError)
| RunError (e : ProvisionError) (sent : list Command)
| RunDone (sent : list Command) (printed : list string).

(** The part that the four commands share, from [connectAndOper] to the deferred
    [Disconnect]. *)
Definition session (w : World) (cfg : provisionConfig) (command : string) : option RunResult :=
  r ← connectAndOper w cfg;
  match r with
  | inl (e, sent) => Some (RunError e sent)
  | inr (client, sent) =>
      '(sent', printed) ← execNickServ w client command;
      Some (RunDone (sent ++ sent' ++ Disconnect) printed)
  end.

Definition string_flags (names : list string) (name : string) : option FlagKind :=
  if bool_decide (name ∈ names) then Some StringFlag else None.

(** No flag is a number. *)
Definition parse_flags (formal : string → option FlagKind) (args : list string) :=
  flag_Parse (λ _, None) (λ _, None) formal ∅ args.

Definition given (actual : gmap string FlagValue) (name def : string) : string :=
  match actual !! name with Some v => flag_string v | None => def end.

Definition runCreate (w : World) (cfg : provisionConfig) (args : list string) : option RunResult :=
  match parse_flags (string_flags ["nick"; "account-password"]) args with
  | inr e => Some (RunFlags e)
  | inl (actual, _) =>
      let nick := given actual "nick" "" in
      let accountPass := given actual "account-password" "" in
      if bool_decide (nick = "") then Some (RunError (NickRequired "create") [])
      else if bool_decide (accountPass = "") then Some (RunError AccountPasswordRequired [])
      else session w cfg ("SAREGISTER " +:+ nick +:+ " * " +:+ accountPass)
  end.

Definition runList (w : World) (cfg : provisionConfig) : option RunResult :=
  session w cfg "LIST *".

Definition runInfo (w : World) (cfg : provisionConfig) (args : list string) : option RunResult :=
  match parse_flags (string_flags ["nick"]) args with
  | inr e => Some (RunFlags e)
  | inl (actual, _) =>
      let nick := given actual "nick" "" in
      if bool_decide (nick = "") then Some (RunError (NickRequired "info") [])
      else session w cfg ("INFO " +:+ nick)
  end.

Definition runDelete (w : World) (cfg : provisionConfig) (args : list string) : option RunResult :=
  match parse_flags (string_flags ["nick"]) args with
  | inr e => Some (RunFlags e)
  | inl (actual, _) =>
      let nick := given actual "nick" "" in
      if bool_decide (nick = "") then Some (RunError (NickRequired "delete") [])
      else session w cfg ("SADROP " +:+ nick)
  end.

(** ** The program *)

Definition global_flags (name : string) : option FlagKind :=
  if bool_decide (name = "tls-insecure") then Some BoolFlag
  else string_flags ["server"; "username"; "password"; "oper-name"; "oper-pass"] name.

(** The flags, with the environment for what is not given. *)
Definition read_config (getenv : string → string) (actual : gmap string FlagValue) : provisionConfig :=
  {| pc_Server := given actual "server" (envOrDefault getenv "PROVISION_SERVER" "");
     pc_Username := given actual "username" (envOrDefault getenv "PROVISION_USERNAME" "");
     pc_Password := given actual "password" (envOrDefault getenv "PROVISION_PASSWORD" "");
     pc_OperName := given actual "oper-name" (envOrDefault getenv "PROVISION_OPER_NAME" "admin");
     pc_OperPass := given actual "oper-pass" (envOrDefault getenv "PROVISION_OPER_PASS" "");
     pc_TLSInsecure := match actual !! "tls-insecure" with Some v => flag_bool v | None => false end |}.

Inductive Ending :=
| Version
| Usage
| Flags (e : FlagError)
| SettingRequired (flag : string)
| UnknownCommand (cmd : string)
| Failed (e : ProvisionError)
| Succeeded.

(** The status that the process exits with. *)
Definition exit_code (e : Ending) : Z :=
  match e with
  | Version | Flags ErrHelp | Succeeded => 0
  | Flags _ => 2
  | Usage | SettingRequired _ | UnknownCommand _ | Failed _ => 1
  end.

Record Outcome := {
  oc_ending : Ending;
  oc_sent : list Command;
  oc_printed : list string
}.

Definition quiet (e : Ending) : Outcome := {| oc_ending := e; oc_sent := []; oc_printed := [] |}.

Definition finish (r : RunResult) : Outcome :=
  match r with
  | RunFlags e => quiet (Flags e)
  | RunError e sent => {| oc_ending := Failed e; oc_sent := sent; oc_printed := [] |}
  | RunDone sent printed => {| oc_ending := Succeeded; oc_sent := sent; oc_printed := printed |}
  end.

Definition run_command (w : World) (cfg : provisionConfig) (cmd : string) (cmdArgs : list string)
    : option Outcome :=
  if bool_decide (cmd = "create") then finish <$> runCreate w cfg cmdArgs
  else if bool_decide (cmd = "list") then finish <$> runList w cfg
  else if bool_decide (cmd = "info") then finish <$> runInfo w cfg cmdArgs
  else if bool_decide (cmd = "delete") then finish <$> runDelete w cfg cmdArgs
  else Some (quiet (UnknownCommand cmd)).

(** The name of the first setting that is missing. *)
Definition missing_setting (cfg : provisionConfig) : option string :=
  if bool_decide (pc_Server cfg = "") then Some "server"
  else if bool_decide (pc_Username cfg = "") then Some "username"
  else if bool_decide (pc_Password cfg = "") then Some "password"
  else if bool_decide (pc_OperPass cfg = "") then Some "oper-pass"
  else None.

(** [args] is [os.Args[1:]]; [version] is the text of the version. *)
Definition main (version : string) (w : World) (args : list string) : option Outcome :=
  if bool_decide (head args = Some "--version")
  then Some {| oc_ending := Version; oc_sent := []; oc_printed := [version] |}
  else
    match parse_flags global_flags args with
    | inr e => Some (quiet (Flags e))
    | inl (_, []) => Some (quiet Usage)
    | inl (actual, cmd :: cmdArgs) =>
        let cfg := read_config (pw_getenv w) actual in
        match missing_setting cfg with
        | Some flag => Some (quiet (SettingRequired flag))
        | None => run_command w cfg cmd cmdArgs
        end
    end.
End runs.

(** ** Theorems *)

(** *** What a run sends *)

(** What NickServ is to be asked for a command line, when it is complete. *)
Definition command_text (cmd : string) (args : list string) : option string :=
  let nick f := match parse_flags (string_flags f) args with
                | inl (actual, _) =>
                    if bool_decide (given actual "nick" "" = "") then None
                    else Some (actual, given actual "nick" "")
                | inr _ => None end in
  if bool_decide (cmd = "create") then
    '(actual, n) ← nick ["nick"; "account-password"];
    if bool_decide (given actual "account-password" "" = "") then None
    else Some ("SAREGISTER " +:+ n +:+ " * " +:+ given actual "account-password" "")
  else if bool_decide (cmd = "list") then Some "LIST *"
  else if bool_decide (cmd = "info") then '(_, n) ← nick ["nick"]; Some ("INFO " +:+ n)
  else if bool_decide (cmd = "delete") then '(_, n) ← nick ["nick"]; Some ("SADROP " +:+ n)
  else None.

Section theorems.
Context `{FO : FloatOverflow}.

Definition refused (o : Outcome) : Prop :=
  oc_sent o = [] ∧ oc_printed o = [] ∧
  (exit_code (oc_ending o) = 0%Z → oc_ending o = Flags ErrHelp).

(** A command runs the shared session, or is refused before. *)
Lemma run_command_text w cfg cmd args :
  match command_text cmd args with
  | Some command => run_command w cfg cmd args = finish <$> session w cfg command
  | None => ∃ o, run_command w cfg cmd args = Some o ∧ refused o
  end.
Proof.
  unfold run_command, command_text, runCreate, runList, runInfo, runDelete.
  assert (∀ e, refused e → ∃ o, Some e = Some o ∧ refused o) as Hno by eauto.
  case_bool_decide; [|case_bool_decide; [done|case_bool_decide; [|case_bool_decide]]].
  4: by apply Hno.
  all: destruct (parse_flags _ args) as [[actual rest]|e]; [|by apply Hno; destruct e].
  all: case_bool_decide; cbn; [by apply Hno|]; try done.
  case_bool_decide; [by apply Hno|done].
Qed.

Definition conversation (cfg : provisionConfig) (command : string) : list Command :=
  [CmdRaw (oper_line cfg); CmdPrivmsg "NickServ" command; CmdQuit].

Definition printed_reply (w : World) : list string :=
  let replies := (collectReplies (pw_tie w) (2 * second) (pw_asked w)
                    (nickserv_arrivals (pw_events w))).1 in
  match replies with [] => [no_response] | _ => replies end.

(** The rate limiter has a token for both messages. *)
Definition tokens (w : World) : Prop :=
  ∃ r1 r2, Wait (pw_operTimes w) (NewRateLimiter (pw_now w) float_two 5) = inl r1 ∧
    Wait (pw_commandTimes w) r1 = inl r2.

Lemma session_sends w cfg command r :
  session w cfg command = Some r →
  (∃ e sent, r = RunError e sent ∧ (sent = [] ∨ sent = [CmdQuit])) ∨
  r = RunDone (conversation cfg command) (printed_reply w).
Proof.
  unfold session, connectAndOper, execNickServ, SendRaw, SendMessage.
  destruct (newProvisioner w cfg) as [e|client]; [cbn; intros [= <-]; left; exists e, []; split; [reflexivity|left; reflexivity]|].
  destruct (pw_connect w) as [err| |err]; cbn [Connect]; cbn -[printed_reply].
  - intros [= <-]. left. do 2 eexists. by auto.
  - destruct (waitRateLimit _ client) as [c1|]; [|done]. cbn.
    destruct (waitRateLimit _ c1) as [c2|]; [|done]. intros [= <-]. by right.
  - intros [= <-]. left. do 2 eexists. by auto.
Qed.

Lemma waitRateLimit_token nows c r r' :
  cl_limiter c = Some r → Wait nows r = inl r' →
  ∃ c', waitRateLimit nows c = Some c' ∧ cl_limiter c' = Some r'.
Proof. intros Hc Hw. unfold waitRateLimit. rewrite Hc, Hw. by eexists. Qed.

Lemma newProvisioner_client w cfg conn :
  missing_setting cfg = None → pw_IRC w (pc_Username cfg) (pc_Username cfg) = Some conn →
  ∃ client, newProvisioner w cfg = inr client ∧
    cl_limiter client = Some (NewRateLimiter (pw_now w) float_two 5).
Proof.
  intros Hset Hconn. unfold newProvisioner, NewClient.
  assert (Validate (provision_IRC cfg) = []) as ->.
  { unfold missing_setting in Hset. unfold Validate. cbn [irc_Server irc_Nick irc_Username
      irc_Password irc_TLS irc_SASL provision_IRC DefaultConfig].
    repeat case_bool_decide; done. }
  cbn [irc_Nick irc_Username provision_IRC]. rewrite Hconn. by eexists.
Qed.

Lemma session_runs w cfg command conn :
  missing_setting cfg = None → pw_IRC w (pc_Username cfg) (pc_Username cfg) = Some conn →
  tokens w →
  session w cfg command =
    Some match pw_connect w with
         | DialError err =>
             RunError (ConnectTo (pc_Server cfg) ("connect to " +:+ pc_Server cfg +:+ ": " +:+ err)) []
         | ContextDone err => RunError (ConnectTo (pc_Server cfg) err) [CmdQuit]
         | Welcomed => RunDone (conversation cfg command) (printed_reply w)
         end.
Proof.
  intros Hset Hconn (r1 & r2 & H1 & H2). unfold session, connectAndOper.
  destruct (newProvisioner_client w cfg conn Hset Hconn) as (c & -> & Hc).
  destruct (pw_connect w) as [err| |err]; [done| |done].
  destruct (waitRateLimit_token _ c _ _ Hc H1) as (c1 & E1 & Hc1).
  destruct (waitRateLimit_token _ c1 _ _ Hc1 H2) as (c2 & E2 & _).
  unfold Connect, SendRaw, execNickServ, SendMessage. rewrite E1. cbn. by rewrite E2.
Qed.

Lemma missing_setting_none cfg :
  missing_setting cfg = None →
  Forall (λ s, s ≠ "") [pc_Server cfg; pc_Username cfg; pc_Password cfg; pc_OperPass cfg].
Proof. unfold missing_setting. intros H. repeat case_bool_decide; try done. by repeat constructor. Qed.

(** C22. A run does what its command line says or nothing: with the settings and the
    command complete it gains operator rights, asks NickServ exactly for that command
    and quits, and prints what NickServ answers; a connection that fails is
    reported, and quit when it had been made; when a setting is missing, the
    command is unknown or lacks a flag that it needs, nothing is sent. *)
Theorem main_spec version w args actual cmd rest :
  head args ≠ Some "--version" → parse_flags global_flags args = inl (actual, cmd :: rest) →
  let cfg := read_config (pw_getenv w) actual in
  (∀ flag, missing_setting cfg = Some flag →
     main version w args = Some (quiet (SettingRequired flag))) ∧
  (missing_setting cfg = None → command_text cmd rest = None →
     ∃ o, main version w args = Some o ∧ refused o) ∧
  (∀ command conn, missing_setting cfg = None → command_text cmd rest = Some command →
     pw_IRC w (pc_Username cfg) (pc_Username cfg) = Some conn → tokens w →
     main version w args = Some
       match pw_connect w with
       | DialError err =>
           {| oc_ending := Failed (ConnectTo (pc_Server cfg)
                ("connect to " +:+ pc_Server cfg +:+ ": " +:+ err));
              oc_sent := []; oc_printed := [] |}
       | ContextDone err =>
           {| oc_ending := Failed (ConnectTo (pc_Server cfg) err); oc_sent := [CmdQuit];
              oc_printed := [] |}
       | Welcomed =>
           {| oc_ending := Succeeded; oc_sent := conversation cfg command;
              oc_printed := printed_reply w |}
       end).
Proof.
  intros Hv Hp cfg. unfold main. rewrite bool_decide_eq_false_2, Hp by exact Hv. fold cfg.
  pose proof (run_command_text w cfg cmd rest) as Hrun. split_and!.
  - by intros flag ->.
  - intros -> Hc. by rewrite Hc in Hrun.
  - intros command conn Hset Hc Hconn Htok. rewrite Hc in Hrun. rewrite Hset, Hrun.
    rewrite (session_runs w cfg command conn Hset Hconn Htok). by destruct (pw_connect w).
Qed.

(** C23. Whatever the command line and whatever happens: nothing is sent unless every
    setting and the command are complete, the only thing asked of NickServ is the
    command that was given, once, after the operator's login and before quitting;
    and a run that ends with status 0 did all of this, or only showed the version or
    the help. *)
Theorem main_safe version w args o :
  main version w args = Some o →
  (oc_sent o = [] ∧ (exit_code (oc_ending o) = 0%Z → oc_ending o ∈ [Version; Flags ErrHelp])) ∨
  ∃ actual cmd rest command,
    parse_flags global_flags args = inl (actual, cmd :: rest) ∧
    command_text cmd rest = Some command ∧
    let cfg := read_config (pw_getenv w) actual in
    Forall (λ s, s ≠ "") [pc_Server cfg; pc_Username cfg; pc_Password cfg; pc_OperPass cfg] ∧
    (oc_sent o = [CmdQuit] ∧ exit_code (oc_ending o) = 1%Z ∨
     oc_sent o = conversation cfg command ∧ oc_ending o = Succeeded).
Proof.
  unfold main. case_bool_decide.
  { intros [= <-]. left. split; [done|]. by left. }
  destruct (parse_flags global_flags args) as [[actual [|cmd rest]]|e]; cycle 2.
  { intros [= <-]. left. split; [done|]. by destruct e; [right; left|..]. }
  { intros [= <-]. by left. }
  destruct (missing_setting _) as [flag|] eqn:Hset; [intros [= <-]; by left|].
  set (cfg := read_config (pw_getenv w) actual) in *. intros Ho.
  pose proof (run_command_text w cfg cmd rest) as Hrun.
  destruct (command_text cmd rest) as [command|] eqn:Hc; cycle 1.
  - destruct Hrun as (o' & Ho' & Hs & _ & He). left.
    rewrite Ho in Ho'. injection Ho' as <-. split; [done|]. intros E. rewrite (He E). by right; left.
  - rewrite Hrun in Ho. apply fmap_Some in Ho as (r & Hr & ->).
    apply session_sends in Hr as [(e & sent & -> & [-> | ->])| ->]; [by left| |].
    + right. exists actual, cmd, rest, command. split_and!; [done|done|by apply missing_setting_none|].
      by left.
    + right. exists actual, cmd, rest, command. split_and!; [done|done|by apply missing_setting_none|].
      by right.
Qed.
End theorems.

(** *** Which messages are the reply *)

Definition last_time (now : Time) (taken : list (Time * string)) : Time := foldl Z.max now taken.*1.

(** The reply is everything up to the first silence: the lines are the messages
    in their order, none skipped, each no later than the idle time after the one
    before it; where the loop stops, nothing came for that long, or ever. *)
Theorem collectReplies_spec tie idle now arrivals :
  (0 < idle)%Z →
  let '(lines, left_over) := collectReplies tie idle now arrivals in
  ∃ taken, arrivals = taken ++ left_over ∧ lines = taken.*2 ∧
    (∀ before t msg after, taken = before ++ (t, msg) :: after →
       (t ≤ last_time now before + idle)%Z) ∧
    (∀ t msg after, left_over = (t, msg) :: after → (last_time now taken + idle ≤ t)%Z).
Proof.
  intros Hidle. revert now. induction arrivals as [|[t msg] rest IH]; intros now.
  { exists []. split_and!; [done..| |done]. by intros []. }
  cbn [collectReplies]. destruct (_ || _) eqn:E; cycle 1.
  - exists []. split_and!; [done..| |].
    + by intros [].
    + intros t' msg' after [= <- _ _]. apply orb_false_iff in E as [E _]. unfold last_time. cbn. lia.
  - assert (t ≤ now + idle)%Z as Ht.
    { apply orb_true_iff in E as [E|[E _]%andb_true_iff]; lia. }
    specialize (IH (Z.max now t)). destruct (collectReplies _ _ _ _) as [lines left_over].
    destruct IH as (taken & -> & -> & Hin & Hout). exists ((t, msg) :: taken).
    split_and!; [done..| |].
    + intros [|[t0 m0] before] t' msg' after [= <- <- Heq]; [exact Ht|].
      by apply (Hin before t' msg' after).
    + intros t' msg' after Heq. by apply (Hout t' msg' after).
Qed.

(** What NickServ said before it was asked, a greeting at the login say, is taken for
    the reply; then the notice that it did not answer is not shown either. *)
Theorem greeting_is_the_reply w t ev :
  EqualFold_ascii (ev_Nick ev) "NickServ" = true → (t ≤ pw_asked w)%Z →
  pw_events w = [(t, ev)] → printed_reply w = [ev_Message ev].
Proof.
  intros Hn Ht He. unfold printed_reply, nickserv_arrivals. rewrite He.
  cbn [omap list_omap]. unfold nickserv_reply. cbn [fst snd]. rewrite Hn. cbn [fmap option_fmap option_map collectReplies].
  replace (Z.max (pw_asked w) t <? pw_asked w + 2 * second)%Z with true; [done|].
  unfold second. lia.
Qed.

(** *** One parameter *)

Definition no_blank (c : ascii) : bool := negb (bool_decide (c = " "%char)).

(** How IRC reads a line: parameters between blanks; one that starts with a colon
    takes the rest of the line. *)
Fixpoint irc_params (fuel : nat) (s : string) : list string :=
  match fuel with
  | O => []
  | S fuel =>
      match s with
      | "" => []
      | String c rest =>
          if bool_decide (c = ":"%char) then [rest]
          else if bool_decide (c = " "%char) then irc_params fuel rest
          else (span no_blank s).1 :: irc_params fuel (span no_blank s).2
      end
  end.

(** A word: what can be a parameter that is not the last one. *)
Definition irc_word (s : string) : bool :=
  match s with
  | "" => false
  | String c _ => negb (bool_decide (c = ":"%char)) && all_bytes no_blank s
  end.

Lemma irc_params_word fuel word rest :
  irc_word word = true →
  irc_params (S fuel) (word +:+ String " " rest) = word :: irc_params fuel (String " " rest).
Proof.
  destruct word as [|c word]; [done|]. cbn [irc_word].
  intros [Hc Hw]%andb_true_iff. pose proof Hw as Hb. cbn [all_bytes] in Hb.
  apply andb_true_iff in Hb as [Hb _]. apply negb_true_iff in Hc, Hb.
  pose proof (span_prefix no_blank (String c word) " "%char rest Hw eq_refl) as E.
  rewrite app_str_cons in *. cbn [irc_params]. rewrite Hc, Hb, E. done.
Qed.

(** The operator's password arrives as it is: whatever it contains, blanks and
    colons included, the line for the server is read as the command, the operator's
    name and the whole password, when the name is a word. *)
Theorem oper_one_parameter cfg :
  irc_word (pc_OperName cfg) = true →
  irc_params (S (String.length (oper_line cfg))) (oper_line cfg) =
    ["OPER"; pc_OperName cfg; pc_OperPass cfg].
Proof.
  intros Hn.
  assert (∃ k, S (String.length (oper_line cfg)) = S (S (S (S (S k))))) as [k ->].
  { unfold oper_line. rewrite !length_app_str. cbn [String.length]. eexists. reflexivity. }
  change (oper_line cfg) with
    ("OPER" +:+ String " " (pc_OperName cfg +:+ String " " (":" +:+ pc_OperPass cfg))).
  rewrite irc_params_word by done. f_equal.
  assert (∀ fuel s, irc_params (S fuel) (String " " s) = irc_params fuel s) as Hblank by done.
  rewrite Hblank, irc_params_word, Hblank by done. done.
Qed.

(** The account's password has no such protection: with a blank it is two words of
    the command, and NickServ gets the first as the password. *)
Theorem account_password_splits nick p1 p2 :
  in_string " " nick = false → in_string " " p1 = false → in_string " " p2 = false →
  command_text "create" ["--nick"; nick; "--account-password"; p1 +:+ " " +:+ p2] =
    (if bool_decide (nick = "") then None
     else Some ("SAREGISTER " +:+ nick +:+ " * " +:+ p1 +:+ " " +:+ p2)) ∧
  Split ("SAREGISTER " +:+ nick +:+ " * " +:+ p1 +:+ " " +:+ p2) " " =
    ["SAREGISTER"; nick; "*"; p1; p2].
Proof.
  intros Hn H1 H2. split.
  - unfold command_text. rewrite bool_decide_eq_true_2 by done.
    set (pass := p1 +:+ " " +:+ p2).
    assert (parse_flags (string_flags ["nick"; "account-password"])
      ["--nick"; nick; "--account-password"; pass] =
      inl (<["account-password" := VString pass]> (<["nick" := VString nick]> ∅), [])) as ->
      by reflexivity.
    unfold given. rewrite lookup_insert_ne, lookup_insert_eq by done.
    cbn [flag_string]. case_bool_decide; [done|]. cbn [mbind option_bind].
    rewrite lookup_insert_eq. cbn [flag_string]. rewrite bool_decide_eq_false_2; [done|].
    unfold pass. by destruct p1.
  - change ("SAREGISTER " +:+ nick +:+ " * " +:+ p1 +:+ " " +:+ p2) with
      ("SAREGISTER" +:+ String " " (nick +:+ String " " ("*" +:+ String " " (p1 +:+ String " " p2)))).
    rewrite !Split_app by done. by rewrite Split_no_sep.
Qed.

(** ** Concrete runs: the command line of the documentation *)

Definition documented_args : list string :=
  ["--server"; "localhost:6697"; "--username"; "admin"; "--password"; "admin-pass";
   "--oper-name"; "admin"; "--oper-pass"; "oper pass"; "--tls-insecure";
   "create"; "--nick"; "agent-alice-1"; "--account-password"; "s3cret"].

Definition nickserv_says (text : string) : MessageEvent :=
  {| ev_Channel := "admin"; ev_Nick := "NickServ"; ev_User := ""; ev_Host := "";
     ev_Message := text; ev_IsNotice := true; ev_Timestamp := 0 |}.

(** NickServ answers in two lines; something else comes much later. *)
Definition documented_world : World :=
  {| pw_getenv := λ _, ""; pw_IRC := sample_IRC; pw_now := 0; pw_connect := Welcomed;
     pw_operTimes := [1 * second]; pw_commandTimes := [2 * second]; pw_asked := 2 * second;
     pw_events := [(3 * second, nickserv_says "Registering agent-alice-1");
                   (4 * second, nickserv_says "Registered"); (9 * second, nickserv_says "Bye")];
     pw_tie := λ _, true |}%Z.

Definition documented_outcome : Outcome :=
  {| oc_ending := Succeeded;
     oc_sent := [CmdRaw "OPER admin :oper pass";
                 CmdPrivmsg "NickServ" "SAREGISTER agent-alice-1 * s3cret"; CmdQuit];
     oc_printed := ["Registering agent-alice-1"; "Registered"] |}.

Lemma documented_tokens : tokens documented_world.
Proof.
  unfold tokens. destruct (Wait (pw_operTimes documented_world) _) as [r1|] eqn:E1; [|by vm_compute in E1].
  destruct (Wait (pw_commandTimes documented_world) r1) as [r2|] eqn:E2; [by exists r1, r2|].
  exfalso. vm_compute in E1. injection E1 as <-. by vm_compute in E2.
Qed.

Lemma main_spec_witness :
  main "assimilate dev" documented_world documented_args = Some documented_outcome.
Proof.
  destruct (main_spec "assimilate dev" documented_world documented_args
    {["server" := VString "localhost:6697"; "username" := VString "admin";
      "password" := VString "admin-pass"; "oper-name" := VString "admin";
      "oper-pass" := VString "oper pass"; "tls-insecure" := VBool true]} "create"
    ["--nick"; "agent-alice-1"; "--account-password"; "s3cret"]) as (_ & _ & H);
    [discriminate|vm_compute; reflexivity|].
  rewrite (H "SAREGISTER agent-alice-1 * s3cret" sample_connection);
    [reflexivity|reflexivity|vm_compute; reflexivity|reflexivity|apply documented_tokens].
Defined.

Lemma documented_parse :
  ∃ actual, parse_flags global_flags documented_args = inl (actual,
    ["create"; "--nick"; "agent-alice-1"; "--account-password"; "s3cret"]).
Proof. eexists. vm_compute. reflexivity. Qed.

Lemma main_safe_witness :
  ∃ cfg command, command_text "create" ["--nick"; "agent-alice-1"; "--account-password"; "s3cret"]
      = Some command ∧ oc_sent documented_outcome = conversation cfg command.
Proof.
  destruct (main_safe "assimilate dev" documented_world documented_args documented_outcome)
    as [[H _]|(actual & cmd & rest & command & Hp & Hc & _ & [[H _]|[H _]])];
    [vm_compute; reflexivity|discriminate H|discriminate H|].
  destruct documented_parse as [m Hm]. rewrite Hm in Hp. injection Hp as <- <- <-. eexists _, command. split; [exact Hc|exact H].
Defined.

(** The timer runs out three seconds before the last message. *)
Lemma collectReplies_spec_witness :
  collectReplies (λ _, true) (2 * second) (2 * second)
    (nickserv_arrivals (pw_events documented_world)) =
    (["Registering agent-alice-1"; "Registered"], [(9 * second, "Bye")])%Z ∧
  (last_time (2 * second) [(3 * second, ""); (4 * second, "")] + 2 * second ≤ 9 * second)%Z.
Proof.
  assert (0 < 2 * second)%Z as Hidle by done.
  pose proof (collectReplies_spec (λ _, true) (2 * second) (2 * second)
    (nickserv_arrivals (pw_events documented_world)) Hidle) as H.
  destruct (collectReplies _ _ _ _) as [lines left_over] eqn:E. vm_compute in E.
  injection E as <- <-. split; [reflexivity|]. destruct H as (taken & Ht & Hl & _ & Hout).
  specialize (Hout _ _ _ eq_refl). assert (last_time (2 * second) taken = 4 * second)%Z as Hlast.
  { assert (taken = [(3 * second, "Registering agent-alice-1"); (4 * second, "Registered")]%Z) as ->;
      [|reflexivity].
    change [(9000000000%Z, "Bye")] with ([] ++ [(9000000000%Z, "Bye")]) in Ht.
    vm_compute in Ht. destruct taken as [|a [|b [|c taken]]]; try discriminate Hl.
    by injection Ht as <- <-. }
  rewrite Hlast in Hout. cbn in *. lia.
Defined.

Lemma oper_one_parameter_witness :
  irc_params 23 "OPER admin :oper: pass" = ["OPER"; "admin"; "oper: pass"].
Proof.
  apply (oper_one_parameter {| pc_Server := ""; pc_Username := ""; pc_Password := "";
    pc_OperName := "admin"; pc_OperPass := "oper: pass"; pc_TLSInsecure := false |}). reflexivity.
Defined.

Lemma greeting_is_the_reply_witness :
  printed_reply {| pw_getenv := λ _, ""; pw_IRC := sample_IRC; pw_now := 0; pw_connect := Welcomed;
    pw_operTimes := []; pw_commandTimes := []; pw_asked := 2 * second;
    pw_events := [(0, nickserv_says "Welcome back")]; pw_tie := λ _, true |}%Z = ["Welcome back"].
Proof. by apply (greeting_is_the_reply _ 0 (nickserv_says "Welcome back")). Defined.
