(* ===== verification/Commands.v ===== *)
(** * The commands: [cmd/agent/main.go], [cmd/manager/main.go]

    What the two programs do from their arguments to their end: the layers of the
    configuration, its validation, the construction, the start, the wait for a signal
    ([internal/agent/lifecycle.go]) and the shutdown, with their exit codes; and the
    settings of the log ([internal/logging/logger.go]). The outside of a process is
    one record. *)

From S2P Require Import Prelude GoStrings GoNum GoFloat GoFlag Config Message Parser Serializer.
From S2P Require Import State TaskBoard Discovery Context Inspector Metrics Pacing Events IrcClient Client.
From S2P Require Import Dispatcher Agent Federation Persistence Spawner Instances Lifecycle.
From S2P Require Import Cost ManagerConfig Hub Registry Manager ManagerTheory Server.

(** ** Log *)

Inductive Level := LevelDebug | LevelInfo | LevelWarn | LevelError.

(** [logging.Setup]: the level, and whether the log is in JSON. *)
Definition logging_Setup (level format : string) : Level * bool :=
  let named s := bool_decide (ToLower level = s) in
  (if named "debug" then LevelDebug
   else if named "warn" || named "warning" then LevelWarn
   else if named "error" then LevelError
   else LevelInfo,
   bool_decide (ToLower format = "json")).

(** ** Banners *)

Definition security (i : IRCConfig) : string :=
  if irc_SASL i then "TLS, SASL " +:+ irc_SASLMech i else "TLS".

Definition channels_text (i : IRCConfig) : string :=
  let channels := Join (irc_Channels i) ", " in
  if bool_decide (channels = "") then "(none)" else channels.

(** [format1] is the verb [%.1f]. *)
Definition agent_banner (format1 : float64 → string) (version commit : string) (cfg : AppConfig) : list string :=
  let i := cfg_IRC cfg in
  ["borg " +:+ version +:+ " (commit: " +:+ commit +:+ ")";
   "  Server:     " +:+ irc_Server i +:+ " (" +:+ security i +:+ ")";
   "  Nick:       " +:+ irc_Nick i;
   "  Channels:   " +:+ channels_text i] ++
  (if fltb float_zero (irc_RateLimit i)
   then ["  Rate limit: " +:+ format1 (irc_RateLimit i) +:+ " msg/s (burst: " +:+
         FormatInt (irc_RateLimitBurst i) +:+ ")"] else []) ++
  (if bool_decide (cfg_DashboardAddr cfg = "") then []
   else ["  Dashboard:  http://localhost" +:+ cfg_DashboardAddr cfg]) ++ [""].

Definition manager_banner (version commit : string) (cfg : ManagerConfig) : list string :=
  let i := mc_IRC cfg in
  ["queen " +:+ version +:+ " (commit: " +:+ commit +:+ ")";
   "  IRC Server: " +:+ irc_Server i +:+ " (" +:+ security i +:+ ")";
   "  Nick:       " +:+ irc_Nick i;
   "  Channels:   " +:+ channels_text i;
   "  Web UI:     http://localhost" +:+ mc_ListenAddr cfg] ++
  (if bool_decide (mc_AgentBinary cfg = "") then [] else ["  Agent bin:  " +:+ mc_AgentBinary cfg]) ++ [""].

(** ** The agent's command *)

Inductive Wakeup := Signalled (signal : string) | ContextDone.

(** What decodes the configuration and what it is read from. *)
Record Sources (F : Type) := {
  so_parse_duration : string → option Duration;
  so_parse_int : string → option Z;
  so_parse_float : string → option float64;
  so_env : string → string;
  so_read_file : string → option string;
  so_yaml : string → option F
}.
Arguments so_parse_duration {F}.
Arguments so_parse_int {F}.
Arguments so_parse_float {F}.
Arguments so_env {F}.
Arguments so_read_file {F}.
Arguments so_yaml {F}.

(** The outside of an agent's process: its configuration, the connection library, the
    errors of what it starts, the files of the state, what happens to it while it
    runs, what ends it, and how the save at its end goes. *)
Record AgentWorld := {
  aw_sources : Sources Config.fileConfig;
  aw_format1 : float64 → string;
  aw_IRC : string → string → option Connection;
  aw_now : Time;
  aw_otel : option string;
  aw_marshal : PersistedState → option string;
  aw_unmarshal : string → option PersistedState;
  aw_files : Files;
  aw_unreadable : bool;
  aw_dashboard : option string;
  aw_connected : option string;
  aw_link : string → option string;
  aw_life : Agent → Running → Agent * Running;
  aw_wakeup : option Wakeup;
  aw_shutdown_time : Duration;
  aw_end : Time;
  aw_tmp : string;
  aw_fault : option SaveFault
}.

(** How the process ends. [AgRunning] is no end; a shutdown that takes too long is
    cut, and leaves [None]. *)
Inductive AgentEnding :=
| AgVersion
| AgLoad (e : LoadError)
| AgInvalid (errs : list ConfigError)
| AgNew (e : NewError)
| AgRun (e : StartError)
| AgRunning (ag : Agent) (ru : Running)
| AgStopped (ag : Agent) (st : option Stopped).

Definition shutdownTimeout : Duration := 10 * second.

Definition agent_exit (e : AgentEnding) : option Z :=
  match e with
  | AgVersion | AgLoad (ErrFlags ErrHelp) | AgStopped _ _ => Some 0
  | AgRunning _ _ => None
  | _ => Some 1
  end%Z.

Section commands.
Context `{MR : MapRange}.

(** [a.persist], and the store after its [Load]. *)
Definition agent_persist (cfg : AppConfig) : option StatePersistence :=
  if bool_decide (cfg_StateFile cfg = "") then None
  else Some (NewStatePersistence (cfg_StateFile cfg) (5 * second)).

Definition agent_loaded (w : AgentWorld) (cfg : AppConfig) : StateStore :=
  match agent_persist cfg with
  | None => NewStateStore
  | Some sp => (Persistence.Load (aw_unmarshal w) sp (aw_files w) (aw_unreadable w) NewStateStore).1
  end.

(** [Lifecycle.Wait] and [shutdown]; both ways to end return nil. *)
Definition agent_Wait (w : AgentWorld) (cfg : AppConfig) (ag : Agent) (ru : Running) : AgentEnding :=
  match aw_wakeup w with
  | None => AgRunning ag ru
  | Some _ =>
      AgStopped ag
        (if bool_decide (aw_shutdown_time w < shutdownTimeout)%Z
         then Some (Shutdown (aw_marshal w) (aw_end w) (aw_tmp w) (aw_fault w) ru (agent_persist cfg)
                      (pd_state (ag_protocol ag)) (aw_files w))
         else None)
  end.

Definition agent_Run (w : AgentWorld) (cfg : AppConfig) (ag : Agent) (client : ircClient) : AgentEnding :=
  match Start (aw_IRC w) (aw_now w) (aw_dashboard w) (aw_connected w) (aw_link w) cfg ag client with
  | inl e => AgRun e
  | inr ru => let '(ag, ru) := aw_life w ag ru in agent_Wait w cfg ag ru
  end.

Definition agent_Load (w : AgentWorld) (args : list string) : AppConfig + LoadError :=
  let s := aw_sources w in
  Config.Load (so_parse_duration s) (so_parse_int s) (so_parse_float s) (so_env s) (so_read_file s)
    (so_yaml s) args.

(** [main]; [args] is [os.Args[1:]]. With it what it prints on the standard output. *)
Definition agent_main (version commit buildTime : string) (w : AgentWorld) (args : list string)
    : AgentEnding * list string :=
  if bool_decide (head args = Some "--version")
  then (AgVersion, ["borg " +:+ version +:+ " (commit: " +:+ commit +:+ ", built: " +:+ buildTime +:+ ")"])
  else
    match agent_Load w args with
    | inr e => (AgLoad e, [])
    | inl cfg =>
        match Validate (cfg_IRC cfg) with
        | (_ :: _) as errs => (AgInvalid errs, [])
        | [] =>
            match Lifecycle.New (aw_IRC w) (aw_now w) (aw_otel w) cfg (agent_loaded w cfg) with
            | inl e => (AgNew e, [])
            | inr (ag, client) =>
                (agent_Run w cfg ag client, agent_banner (aw_format1 w) version commit cfg)
            end
        end
    end.

(** ** The manager's command *)

Record ManagerWorld := {
  mw_sources : Sources ManagerConfig.fileConfig;
  mw_IRC : string → string → option Connection;
  mw_now : Time;
  mw_local : Spawner;
  mw_ssh : Spawner;
  mw_docker : Spawner;
  mw_connected : option string;
  mw_listen : option string
}.

Inductive ManagerEnding :=
| MgVersion
| MgLoad (e : LoadError)
| MgInvalid (errs : list ConfigError)
| MgNew (e : ClientError)
| MgRun (p : Process) (r : RunResult)
| MgPanic.

Definition manager_exit (e : ManagerEnding) : option Z :=
  match e with
  | MgVersion | MgLoad (ErrFlags ErrHelp) | MgRun _ (RunReturns _) => Some 0
  | MgRun _ RunBlocks => None
  | MgPanic => Some 2
  | _ => Some 1
  end%Z.

Definition manager_Load (w : ManagerWorld) (args : list string) : ManagerConfig + LoadError :=
  let s := mw_sources w in
  LoadConfig (so_parse_duration s) (so_parse_int s) (so_parse_float s) (so_env s) (so_read_file s)
    (so_yaml s) args.

(** The context is [context.Background()], which nobody cancels; the loop of the polls
    is started last. *)
Definition manager_main (version commit buildTime : string) (w : ManagerWorld) (args : list string)
    : ManagerEnding * list string :=
  if bool_decide (head args = Some "--version")
  then (MgVersion, ["queen " +:+ version +:+ " (commit: " +:+ commit +:+ ", built: " +:+ buildTime +:+ ")"])
  else
    match manager_Load w args with
    | inr e => (MgLoad e, [])
    | inl cfg =>
        match Validate (mc_IRC cfg) with
        | (_ :: _) as errs => (MgInvalid errs, [])
        | [] =>
            match Manager.New (mw_IRC w) (mw_now w) (mw_local w) (mw_ssh w) (mw_docker w) cfg with
            | inl e => (MgNew e, [])
            | inr (m, client) =>
                (match mgr_Run (mw_connected w) (mw_listen w) false (new_Process client) with
                 | None => MgPanic
                 | Some (p, r) =>
                     match r, pollLoop cfg [] with
                     | RunBlocks, None => MgPanic
                     | _, _ => MgRun p r
                     end
                 end, manager_banner version commit cfg)
            end
        end
    end.
End commands.

(** ** Theorems *)

Section command_theorems.
Context `{MR : MapRange}.

(** *** The agent's command *)

(** C37. The agent's command: what it ends with. It constructs an agent only from a
    configuration that is valid, so that construction fails only when the library
    gives no connection or the exporter of the telemetry fails; the exit code is 0 for
    the version, for the help and after a shutdown, 1 for every error, and there is
    none as long as nothing wakes the command up. *)
Theorem agent_main_spec version commit buildTime w args :
  let '(e, printed) := agent_main version commit buildTime w args in
  (head args = Some "--version" ↔ e = AgVersion) ∧
  match e with
  | AgVersion => agent_exit e = Some 0%Z ∧ length printed = 1
  | AgLoad err => agent_Load w args = inr err ∧ printed = [] ∧ (agent_exit e = Some 0%Z ↔ err = ErrFlags ErrHelp)
  | AgInvalid errs => printed = [] ∧ agent_exit e = Some 1%Z ∧
      ∃ cfg, agent_Load w args = inl cfg ∧ Validate (cfg_IRC cfg) = errs ∧ errs ≠ []
  | AgNew err => printed = [] ∧ agent_exit e = Some 1%Z ∧
      (err = NewClientFailed NoConnection ∨ ∃ text, err = OTelFailed text ∧ aw_otel w = Some text)
  | AgRun err => agent_exit e = Some 1%Z
  | AgRunning ag ru => aw_wakeup w = None ∧ agent_exit e = None
  | AgStopped ag st => aw_wakeup w ≠ None ∧ agent_exit e = Some 0%Z ∧
      (is_Some st ↔ (aw_shutdown_time w < shutdownTimeout)%Z)
  end ∧
  (match e with AgRun _ | AgRunning _ _ | AgStopped _ _ => True | _ => False end →
   ∃ cfg, agent_Load w args = inl cfg ∧ Validate (cfg_IRC cfg) = [] ∧
     printed = agent_banner (aw_format1 w) version commit cfg).
Proof.
  unfold agent_main. case_bool_decide as Hv.
  { split_and!; try done. }
  destruct (agent_Load w args) as [cfg|err] eqn:El; cycle 1.
  { split_and!; try done. destruct err as [[]| |]; cbn; done. }
  destruct (Validate (cfg_IRC cfg)) as [|x errs] eqn:Ev; cycle 1.
  { split_and!; try done. by exists cfg. }
  destruct (Lifecycle.New _ _ _ _ _) as [e|[ag client]] eqn:En.
  { split_and!; try done. unfold Lifecycle.New, NewClient in En. rewrite Ev in En.
    destruct (aw_IRC w _ _); [|left; by injection En as <-].
    case_bool_decide; [done|]. destruct (aw_otel w) as [text|]; [|done]. injection En as <-. right. by eexists. }
  unfold agent_Run, agent_Wait. destruct (Start _ _ _ _ _ _ _ _) as [e|ru].
  { split_and!; try done. intros _. by exists cfg. }
  destruct (aw_life w ag ru) as [ag' ru']. destruct (aw_wakeup w) as [wk|].
  - split; [by split|]. split; [|intros _; by exists cfg]. split; [done|]. split; [done|].
    case_bool_decide; [split; [done|intros _; by eexists]|split; [by intros []|done]].
  - split_and!; try done. intros _. by exists cfg.
Qed.

(** C13. A restart resumes: when the command is stopped in time and the save at its end
    succeeds, the agent that the command constructs when it is started again, with any
    arguments that give the same state file, begins with the task store that the
    first one ended with. *)
Theorem restart_resumes version commit buildTime w args ag st printed cfg w2 args2 cfg2 data :
  agent_main version commit buildTime w args = (AgStopped ag (Some st), printed) →
  agent_Load w args = inl cfg → agent_Load w2 args2 = inl cfg2 →
  cfg_StateFile cfg ≠ "" → cfg_StateFile cfg2 = cfg_StateFile cfg →
  aw_fault w = None → aw_files w2 = st_files st → aw_unreadable w2 = false →
  aw_marshal w (Snapshot (aw_end w) (pd_state (ag_protocol ag))) = Some data →
  aw_unmarshal w2 data = Some (Snapshot (aw_end w) (pd_state (ag_protocol ag))) →
  ∀ ag2 client2, Lifecycle.New (aw_IRC w2) (aw_now w2) (aw_otel w2) cfg2 (agent_loaded w2 cfg2) = inr (ag2, client2) →
  pd_state (ag_protocol ag2) = pd_state (ag_protocol ag).
Proof.
  intros Hmain El El2 Hf Hf2 Hfault Hfiles Hread Hmar Hun ag2 client2 Hnew.
  assert (pd_state (ag_protocol ag2) = agent_loaded w2 cfg2) as ->.
  { unfold Lifecycle.New in Hnew. destruct (NewClient _ _ _); [done|].
    destruct (if bool_decide _ then _ else _); [done|]. by injection Hnew as <- _. }
  unfold agent_main in Hmain. case_bool_decide; [done|]. rewrite El in Hmain.
  destruct (Validate _); [|done]. destruct (Lifecycle.New _ _ _ _ _) as [|[ag0 client0]]; [done|].
  injection Hmain as Hrun _. unfold agent_Run in Hrun. destruct (Start _ _ _ _ _ _ _ _) as [|ru0]; [done|].
  destruct (aw_life w ag0 ru0) as [ag1 ru1]. unfold agent_Wait in Hrun.
  destruct (aw_wakeup w); [|done]. case_bool_decide; [|done]. injection Hrun as -> Hst.
  set (sp := NewStatePersistence (cfg_StateFile cfg) (5 * second)).
  assert (sp_path sp ≠ "") as Hpath by done.
  destruct (Save_Load (aw_marshal w) (aw_unmarshal w2) (aw_end w) sp (pd_state (ag_protocol ag)) NewStateStore
    (aw_files w) (aw_tmp w) data Hpath Hmar Hun) as (fs & Hsave & _ & Hload).
  assert (st_files st = fs) as Hfs.
  { rewrite <- Hst. unfold Shutdown, agent_persist. rewrite bool_decide_eq_false_2 by done. fold sp.
    unfold Persistence.Close. rewrite bool_decide_eq_false_2 by done.
    assert (∀ sp', sp_path sp' = sp_path sp → Save (aw_marshal w) (aw_end w) sp' (pd_state (ag_protocol ag))
      (aw_files w) (aw_tmp w) (aw_fault w) = (fs, None)) as Hs.
    { intros sp' E. rewrite Hfault, <- Hsave. unfold Save, Save_run. by rewrite E. }
    rewrite Hs by done. by destruct (part_all _ _). }
  unfold agent_loaded, agent_persist. rewrite Hf2, bool_decide_eq_false_2 by done. fold sp.
  rewrite Hread, Hfiles, Hfs.
  assert (aw_files w2 = fs) by congruence. by rewrite Hload.
Qed.

(** *** The manager's command *)

(** The manager's command: what it ends with. It starts only with a valid
    configuration and then never ends by itself: its context is the background one,
    which is never cancelled, and no signal is handled, so that the shutdown in [Run]
    is never reached. With a poll interval of 0 or less it panics once everything else
    is started. *)
Theorem manager_main_spec version commit buildTime w args :
  match (manager_main version commit buildTime w args).1 with
  | MgVersion => head args = Some "--version"
  | MgLoad err => manager_Load w args = inr err
  | MgInvalid errs => ∃ cfg, manager_Load w args = inl cfg ∧ Validate (mc_IRC cfg) = errs ∧ errs ≠ []
  | MgNew err => err = NoConnection
  | MgPanic => mw_connected w = None ∧ mw_listen w = None ∧
      ∃ cfg, manager_Load w args = inl cfg ∧ (mc_PollInterval cfg ≤ 0)%Z
  | MgRun p r =>
      ∃ cfg client, manager_Load w args = inl cfg ∧ Validate (mc_IRC cfg) = [] ∧ cl_cfg client = mc_IRC cfg ∧
      pr_client p = (OnMessage h_manager client).1 ∧
      match r with
      | RunFailed (IRCConnectFailed err) => mw_connected w = Some err
      | RunFailed (WebServerFailed err) => mw_connected w = None ∧ mw_listen w = Some err
      | RunBlocks => pr_listening p = true ∧ pr_pollStop p = Some false ∧ (0 < mc_PollInterval cfg)%Z
      | RunReturns _ => False
      end
  end.
Proof.
  unfold manager_main. case_bool_decide as Hv; [done|].
  destruct (manager_Load w args) as [cfg|err] eqn:El; [|done].
  destruct (Validate (mc_IRC cfg)) as [|x errs] eqn:Ev; [|by exists cfg].
  unfold Manager.New. destruct (NewClient _ _ _) as [e|client] eqn:En; cbn [fst].
  { unfold NewClient in En. rewrite Ev in En. destruct (mw_IRC w _ _); [done|]. by injection En as <-. }
  destruct (NewClient_valid _ _ _ _ En) as [_ Hcfg].
  unfold mgr_Run, mgr_Start, server_Start. destruct (mw_connected w) as [err|]; cbn.
  { exists cfg, client. by split_and!. }
  destruct (mw_listen w) as [err|]; cbn.
  { exists cfg, client. by split_and!. }
  unfold pollLoop. case_bool_decide as Hp.
  - split_and!; try done. by exists cfg.
  - exists cfg, client. split_and!; try done. lia.
Qed.
End command_theorems.

(** *** A run: the agent works, is stopped by a signal and started again *)

Definition command_sources {F} : Sources F :=
  {| so_parse_duration _ := None; so_parse_int _ := None; so_parse_float _ := None;
     so_env := sample_env; so_read_file _ := None; so_yaml _ := None |}.

Definition command_args : list string :=
  ["--nick"; "alice"; "--username"; "alice"; "--password"; "pw"; "--state-file"; "state.json"].

Definition worked : StateStore := UpdateTask 5 NewStateStore (msg_AnnounceStarted "build" "high" []).

Definition command_world (files : Files) : AgentWorld :=
  {| aw_sources := command_sources; aw_format1 _ := ""; aw_IRC := sample_IRC; aw_now := 1%Z; aw_otel := None;
     aw_marshal _ := Some "{...}";
     aw_unmarshal data := if bool_decide (data = "{...}") then Some (Snapshot 9 worked) else None;
     aw_files := files; aw_unreadable := false; aw_dashboard := None; aw_connected := None; aw_link _ := None;
     aw_life ag ru := (ag <| ag_protocol := ag_protocol ag <| pd_state := worked |> |>, ru);
     aw_wakeup := Some (Signalled "SIGTERM"); aw_shutdown_time := second; aw_end := 9%Z;
     aw_tmp := "state.tmp"; aw_fault := None |}.

Definition command_config : AppConfig :=
  match agent_Load (command_world ∅) command_args with inl cfg => cfg | inr _ => default_AppConfig end.

Lemma restart_resumes_witness :
  ∃ st ag2 client2,
    st_files st !! "state.json" = Some "{...}" ∧
    Lifecycle.New sample_IRC 1 None command_config (agent_loaded (command_world (st_files st)) command_config)
      = inr (ag2, client2) ∧
    pd_state (ag_protocol ag2) = worked.
Proof.
  destruct (agent_main "dev" "unknown" "unknown" (command_world ∅) command_args) as [e printed] eqn:E.
  assert (match e with
          | AgStopped ag (Some st) => pd_state (ag_protocol ag) = worked ∧ st_files st !! "state.json" = Some "{...}"
          | _ => False end) as He.
  { change e with (e, printed).1. rewrite <- E. vm_compute. split; reflexivity. }
  destruct e as [ |err|errs|err|err|ag ru|ag [st|]]; [exact (False_ind _ He)..| |exact (False_ind _ He)].
  destruct He as [Hw Hf].
  assert (agent_Load (command_world ∅) command_args = inl command_config) as Hcfg by (vm_compute; reflexivity).
  destruct (Lifecycle.New sample_IRC 1 None command_config
    (agent_loaded (command_world (st_files st)) command_config)) as [err|[ag2 client2]] eqn:En.
  { exfalso. clear -En. unfold Lifecycle.New in En.
    assert (match NewClient sample_IRC 1 (cfg_IRC command_config) with inl _ => true | inr _ => false end = false)
      as H by (vm_compute; reflexivity).
    destruct (NewClient _ _ _); [discriminate H|]. destruct (bool_decide _); discriminate En. }
  exists st, ag2, client2. split; [exact Hf|]. split; [exact En|]. rewrite <- Hw.
  apply (restart_resumes "dev" "unknown" "unknown" (command_world ∅) command_args ag st printed command_config
    (command_world (st_files st)) command_args command_config "{...}" E Hcfg Hcfg) with (client2 := client2).
  - vm_compute. discriminate.
  - reflexivity.
  - reflexivity.
  - reflexivity.
  - reflexivity.
  - reflexivity.
  - rewrite Hw. reflexivity.
  - exact En.
Defined.
